(** * JSON Structure validators: a shallow embedding

    This development embeds the two Python validators of the repository,

    - [samples/py/json_structure_instance_validator.py]
      (class [JSONStructureInstanceValidator]) and
    - [samples/py/json_structure_schema_validator.py]
      (class [JSONStructureSchemaCoreValidator]),

    and proves properties of them.

    Python values live in an explicit store: dicts and lists are objects
    at an address, so that two names for one dict see each other's
    updates, as in the source ([schema.setdefault], [instance.pop],
    [merged["properties"].update] all mutate objects that are reachable
    from elsewhere).  The validators are written in a state-and-exception
    monad over that store and the diagnostic buffer [self.errors].

    Modelling conventions, applied throughout:

    - dict keys are strings (what [json.load] produces); a dict is an
      association list in insertion order with no repeated key;
    - a diagnostic is a constructor of [diag] per message template of
      the source, carrying the values the f-string interpolates;
    - an operation that raises in Python gives [Exn]; the exception is
      never caught unless the source catches it;
    - recursion of [validate_instance] is bounded by a fuel argument;
      running out of fuel is the outcome [Diverge] (in CPython: a
      [RecursionError] after about a thousand frames);
    - library calls ([re], [uuid], [urlparse], [int()], [float()],
      file loading) are fields of a [Runtime] record. *)

From Stdlib Require Import ZArith String Ascii List Bool Lia Floats.
From stdpp Require Import base tactics option list strings pretty gmap.

Local Open Scope string_scope.
Local Open Scope Z_scope.
Local Open Scope list_scope.
Set Warnings "-register-all".

(** ** Python strings *)

Module PyStr.

(** [s.startswith(p)] *)
Fixpoint startswith (p s : string) : bool :=
  match p with
  | EmptyString => true
  | String a p' =>
      match s with
      | String b s' => Ascii.eqb a b && startswith p' s'
      | EmptyString => false
      end
  end.

(** [needle in hay] for two [str] operands. *)
Fixpoint contains (needle hay : string) : bool :=
  startswith needle hay ||
  match hay with
  | EmptyString => false
  | String _ t => contains needle t
  end.

(** [s.lstrip(c)] for a one-character argument: drops every leading [c]. *)
Fixpoint lstrip (c : ascii) (s : string) : string :=
  match s with
  | String c' t => if Ascii.eqb c' c then lstrip c t else s
  | EmptyString => s
  end.

(** [s.split(sep)] for a one-character separator. *)
Fixpoint split (sep : ascii) (s : string) : list string :=
  match s with
  | EmptyString => [EmptyString]
  | String c t =>
      if Ascii.eqb c sep then EmptyString :: split sep t
      else match split sep t with
           | p :: ps => String c p :: ps
           | [] => [String c EmptyString]
           end
  end.

(** [s.replace(ab, n)] for a two-character pattern [ab] and a
    one-character replacement: left to right, non-overlapping. *)
Fixpoint replace2 (a b n : ascii) (s : string) : string :=
  match s with
  | String c1 s' =>
      match s' with
      | String c2 t =>
          if Ascii.eqb c1 a && Ascii.eqb c2 b
          then String n (replace2 a b n t)
          else String c1 (replace2 a b n s')
      | EmptyString => s
      end
  | EmptyString => s
  end.

(** [part.replace("~1", "/").replace("~0", "~")] *)
Definition unescape (part : string) : string :=
  replace2 "~" "0" "~" (replace2 "~" "1" "/" part).

(** The characters of a string, each as a one-character string
    (what iterating over a [str] yields). *)
Fixpoint chars (s : string) : list string :=
  match s with
  | EmptyString => []
  | String c t => String c EmptyString :: chars t
  end.

End PyStr.

(** ** Values, objects and the store *)

Abbreviation addr := nat.

(** A Python value as the validators see it: [None], a [bool], an [int],
    a [float], a [str], or a reference to a [dict] or [list] object. *)
Inductive val :=
| VNone
| VBool (b : bool)
| VInt (z : Z)
| VFloat (f : float)
| VStr (s : string)
| VRef (a : addr).
Arguments VRef a%_nat.

Abbreviation pydict := (list (string * val)).

Inductive obj :=
| ODict (d : pydict)
| OList (l : list val).

Abbreviation heap := (list obj).

(** A parsed JSON document, before it is loaded into the store. *)
Inductive json :=
| JNull
| JBool (b : bool)
| JInt (z : Z)
| JFloat (f : float)
| JStr (s : string)
| JArr (l : list json)
| JObj (l : list (string * json)).

(** *** Dict operations on the association list *)

Module Dict.

Fixpoint get (d : pydict) (k : string) : option val :=
  match d with
  | [] => None
  | (k', v) :: d' => if String.eqb k' k then Some v else get d' k
  end.

Definition mem (d : pydict) (k : string) : bool :=
  match get d k with Some _ => true | None => false end.

(** [d[k] = v]: an existing key keeps its position. *)
Fixpoint set (d : pydict) (k : string) (v : val) : pydict :=
  match d with
  | [] => [(k, v)]
  | (k', v') :: d' =>
      if String.eqb k' k then (k', v) :: d' else (k', v') :: set d' k v
  end.

(** [del d[k]] / [d.pop(k)] of a present key. *)
Fixpoint del (d : pydict) (k : string) : pydict :=
  match d with
  | [] => []
  | (k', v') :: d' => if String.eqb k' k then d' else (k', v') :: del d' k
  end.

(** [d.update(e)] *)
Definition update (d e : pydict) : pydict :=
  fold_left (fun acc kv => set acc (fst kv) (snd kv)) e d.

Definition keys (d : pydict) : list string := map fst d.

End Dict.

(** ** Diagnostics

    One constructor per message template; the comment gives the text of
    the source. *)

Inductive diag :=
(* validate_instance *)
| EUnsupportedAddins (path : string)
    (* Instance at {path} references JSONStructureConditionalComposition or
       JSONStructureValidation addins but the schema does not support them *)
| ECannotResolveRef (ref : val) (path : string)   (* Cannot resolve $ref {ref} at {path} *)
| ENoType (path : string)                   (* Schema at {path} has no 'type' *)
| ECannotResolveTypeRef (ref : val) (path : string)
    (* Cannot resolve $ref {schema_type['$ref']} at {path}/type *)
| EInvalidType (path : string)              (* Schema at {path} has invalid 'type' *)
| EUnionNoMatch (path : string) (union_errors : list diag)
    (* Instance at {path} does not match any type in union: {union_errors} *)
| ECannotResolveExtends (ref : val) (path : string)
    (* Cannot resolve $extends {..} at {path} *)
| ERedefined (key : val) (path : string)
    (* Property '{key}' is inherited via $extends and must not be redefined at {path} *)
| EAbstract (path : string)
    (* Abstract schema at {path} cannot be used for instance validation *)
| EExpected (what path tyname : string)     (* Expected {what} at {path}, got {type name} *)
| EOutOfRange (what path : string)          (* {what} value at {path} out of range *)
| EExpectedAsString (what path tyname : string)
    (* Expected {what} as string at {path}, got {type name} *)
| EInvalidFormat (what path : string)       (* Invalid {what} format at {path} *)
| EExpectedDate (path : string)             (* Expected date (YYYY-MM-DD) at {path} *)
| EExpectedDatetime (path : string)         (* Expected datetime (RFC3339) at {path} *)
| EExpectedTime (path : string)             (* Expected time (HH:MM:SS) at {path} *)
| EExpectedStr (what path : string)         (* Expected {what} as string at {path} *)
| EExpectedBinary (path : string)           (* Expected binary (base64 string) at {path} *)
| EExpectedPointer (path : string)          (* Expected JSON pointer format at {path} *)
| EExpectedObject (path tyname : string)    (* Expected object at {path}, got .. *)
| EMissingRequired (r : val) (path : string)
    (* Missing required property '{r}' at {path} *)
| EAdditional (key path : string)
    (* Additional property '{key}' not allowed at {path} *)
| EHas (path : string)
    (* Object at {path} does not have any property satisfying 'has' schema *)
| EDependent (prop : string) (path : string) (dep : val)
    (* Property '{prop_name}' at {path} requires dependent property '{dep}' *)
| EExpectedArray (path tyname : string)     (* Expected array at {path}, got .. *)
| EExpectedSet (path tyname : string)
    (* Expected set (unique array) at {path}, got .. *)
| ESetDuplicates (path : string)            (* Set at {path} contains duplicate items *)
| EExpectedMap (path tyname : string)       (* Expected map (object) at {path}, got .. *)
| EExpectedTuple (path tyname : string)     (* Expected tuple (array) at {path}, got .. *)
| ETupleLength (path : string) (len expected_len : nat)
    (* Tuple at {path} length {len(instance)} does not equal expected {expected_len} *)
| EUnsupportedType (ty path : string)       (* Unsupported type '{schema_type}' at {path} *)
| ENotConst (path : string) (c : val)       (* Value at {path} does not equal const {..} *)
| ENotInEnum (path : string) (e : val)      (* Value at {path} not in enum {..} *)
(* _validate_conditionals *)
| EAnyOf (path : string) (errors_any : list (nat * list diag))
    (* Instance at {path} does not satisfy anyOf: {errors_any} *)
| EOneOf (path : string) (valid_count : nat) (errors_one : list (nat * list diag))
    (* Instance at {path} must match exactly one subschema in oneOf; matched
       {valid_count}. Details: {errors_one} *)
| ENot (path : string)
    (* Instance at {path} should not validate against 'not' schema *)
(* _validate_validation_addins *)
| ELessThanMinimum (path : string) (m : val)
| ECannotCompareMinimum (path : string)
| EGreaterThanMaximum (path : string) (m : val)
| ECannotCompareMaximum (path : string)
| ENotGreaterExclusiveMinimum (path : string) (m : val)
| ECannotEvalExclusiveMinimum (path : string)
| ENotLessExclusiveMaximum (path : string) (m : val)
| ECannotEvalExclusiveMaximum (path : string)
| ENotMultipleOf (path : string) (m : val)
| ECannotEvalMultipleOf (path : string)
| EShorterThanMinLength (path : string) (m : val)
| ELongerThanMaxLength (path : string) (m : val)
| EPatternMismatch (path : string) (pattern : string)
| ENotEmail (path : string)
| ENotUri (path : string)
| EFewerThanMinItems (path : string) (m : val)
| EMoreThanMaxItems (path : string) (m : val)
| ENotUniqueItems (path : string)
| EFewerThanMinProperties (path : string) (m : val)
| EMoreThanMaxProperties (path : string) (m : val)
| EInvalidRegex (pattern keyword path : string)
    (* Invalid regular expression '{pattern_str}' in {keyword} at {path} *)
| ENamesSchemaNotString (keyword path : string)
    (* {propertyNames|keyNames} schema must be of type string at {path} *)
(* _apply_uses *)
| ENotOffered (use : val)                   (* Add-in '{use}' not offered in $offers *)
| EAddinConflict (prop : val) (use : val)
    (* Add-in property '{prop}' from add-in '{use}' conflicts with existing property *)
| EInvalidAddin (use : val)                 (* Invalid add-in definition for '{use}' *)
(* _process_imports / _fetch_external_schema *)
| EImportNotAllowed (key loc : string)
    (* JSONStructureImport keyword '{key}' encountered but allow_import not enabled *)
| EImportNotString (key loc : string)
    (* JSONStructureImport keyword '{key}' value must be a string URI *)
| EImportNotAbsolute (key loc : string)
    (* JSONStructureImport keyword '{key}' value must be an absolute URI *)
| EImportFetchFailed (uri loc : string)
    (* Unable to fetch external schema from {uri} *)
| EImportLoadFailed (file : string)
    (* Failed to load imported schema from {file}: {e} *)
(* schema validator, _check_json_pointer *)
| EPointerNotString (loc : string)          (* JSON Pointer must be a string. *)
| EPointerNoHash (loc : string)
    (* JSON Pointer must start with '#' when referencing the same document. *)
| EPointerSegmentNotFound (p loc : string)  (* JSON Pointer segment '/{p}' not found. *)
| EPointerNonObject (p loc : string)
    (* JSON Pointer segment '/{p}' not applicable to non-object. *).

(** ** The monad: store, diagnostic buffer, exceptions, fuel *)

Record state := mkState {
  st_heap : heap;          (* every dict and list object *)
  st_errors : list diag    (* self.errors *)
}.

Inductive exn :=
| TypeError
| AttributeError
| KeyError
| ValueError
| ZeroDivisionError
| RecursionError
| ReError           (* re.error *)
| OverflowError     (* re.compile on a repeat count that is too large *)
| RuntimeError      (* dictionary changed size during iteration *)
| Unsupported.      (* a Python behaviour this embedding does not follow *)

(** An exception keeps the state it was raised in: an enclosing
    [try ... except] of the source resumes from there. *)
Inductive res (A : Type) :=
| Ret (a : A) (s : state)
| Exn (e : exn) (s : state)
| Diverge.
Arguments Ret {A} a s.
Arguments Exn {A} e s.
Arguments Diverge {A}.

Definition M (A : Type) := state -> res A.

Definition ret {A} (a : A) : M A := fun s => Ret a s.

Definition bind {A B} (m : M A) (k : A -> M B) : M B :=
  fun s => match m s with
           | Ret a s' => k a s'
           | Exn e s' => Exn e s'
           | Diverge => Diverge
           end.

Notation "'let*' x ':=' m 'in' k" := (bind m (fun x => k))
  (at level 10, x name, m at level 100, k at level 200).
Notation "m ';;' k" := (bind m (fun _ => k))
  (at level 100, k at level 200, right associativity).

Definition raise {A} (e : exn) : M A := fun s => Exn e s.
Definition diverge {A} : M A := fun _ => Diverge.

Definition get_heap : M heap := fun s => Ret (st_heap s) s.
Definition get_errors : M (list diag) := fun s => Ret (st_errors s) s.
(** [self.errors = es] *)
Definition set_errors (es : list diag) : M unit :=
  fun s => Ret tt (mkState (st_heap s) es).
(** [self.errors.append(e)] *)
Definition err (e : diag) : M unit :=
  fun s => Ret tt (mkState (st_heap s) (st_errors s ++ [e])).

(** A new object; its address is the next free one. *)
Definition alloc (o : obj) : M val :=
  fun s => Ret (VRef (List.length (st_heap s))) (mkState (st_heap s ++ [o]) (st_errors s)).

Definition store (a : addr) (o : obj) : M unit :=
  fun s => Ret tt (mkState (<[a := o]> (st_heap s)) (st_errors s)).

Definition when (b : bool) (m : M unit) : M unit := if b then m else ret tt.

(** [for x in xs: body x], over a list that is already a Rocq value. *)
Fixpoint for_each {A} (xs : list A) (body : A -> M unit) : M unit :=
  match xs with
  | [] => ret tt
  | x :: xs' => body x ;; for_each xs' body
  end.

(** [try: m  except <exceptions selected by handles>: handler] *)
Definition try_except {A} (m : M A) (handles : exn -> bool) (handler : M A) : M A :=
  fun s => match m s with
           | Exn e s' => if handles e then handler s' else Exn e s'
           | r => r
           end.

(** ** Python operations on values *)

Module Py.

Definition deref (h : heap) (v : val) : option obj :=
  match v with VRef a => h !! a | _ => None end.

(** [isinstance(v, dict)], with the dict's current content. *)
Definition as_dict (h : heap) (v : val) : option pydict :=
  match deref h v with Some (ODict d) => Some d | _ => None end.

(** [isinstance(v, list)], with the list's current content. *)
Definition as_list (h : heap) (v : val) : option (list val) :=
  match deref h v with Some (OList l) => Some l | _ => None end.

Definition is_dict (h : heap) (v : val) : bool :=
  match as_dict h v with Some _ => true | None => false end.
Definition is_list (h : heap) (v : val) : bool :=
  match as_list h v with Some _ => true | None => false end.
Definition is_str (v : val) : bool :=
  match v with VStr _ => true | _ => false end.
(** [isinstance(v, int)]: [bool] is a subclass of [int]. *)
Definition is_int (v : val) : bool :=
  match v with VInt _ | VBool _ => true | _ => false end.
Definition is_bool (v : val) : bool :=
  match v with VBool _ => true | _ => false end.
(** [isinstance(v, (int, float))] *)
Definition is_int_or_float (v : val) : bool :=
  match v with VInt _ | VBool _ | VFloat _ => true | _ => false end.

(** [type(v).__name__] *)
Definition type_name (h : heap) (v : val) : string :=
  match v with
  | VNone => "NoneType"
  | VBool _ => "bool"
  | VInt _ => "int"
  | VFloat _ => "float"
  | VStr _ => "str"
  | VRef a => match h !! a with
              | Some (OList _) => "list"
              | _ => "dict"
              end
  end.

(** Truth value of [v] in a condition. *)
Definition truthy (h : heap) (v : val) : bool :=
  match v with
  | VNone => false
  | VBool b => b
  | VInt z => negb (z =? 0)
  | VFloat f => negb (PrimFloat.eqb f PrimFloat.zero)
  | VStr s => negb (String.eqb s "")
  | VRef a => match h !! a with
              | Some (ODict []) | Some (OList []) => false
              | _ => true
              end
  end.

(** *** Numbers *)

Inductive num := NInt (z : Z) | NFloat (f : float).

Definition as_num (v : val) : option num :=
  match v with
  | VBool b => Some (NInt (if b then 1 else 0))
  | VInt z => Some (NInt z)
  | VFloat f => Some (NFloat f)
  | _ => None
  end.

(** Exact comparison of a float with an integer, as Python does it.
    [None]: the float is a NaN. *)
Definition float_compare_Z (f : float) (z : Z) : option comparison :=
  match Prim2SF f with
  | S754_nan => None
  | S754_infinity neg => Some (if neg then Lt else Gt)
  | S754_zero _ => Some (0 ?= z)
  | S754_finite neg m e =>
      let mz := if neg then Z.neg m else Z.pos m in
      Some (if 0 <=? e then (mz * 2 ^ e ?= z) else (mz ?= z * 2 ^ (- e)))
  end.

Definition num_compare (a b : num) : option comparison :=
  match a, b with
  | NInt x, NInt y => Some (x ?= y)
  | NFloat f, NInt y => float_compare_Z f y
  | NInt x, NFloat g => option_map CompOpp (float_compare_Z g x)
  | NFloat f, NFloat g =>
      match PrimFloat.compare f g with
      | FEq => Some Eq
      | FLt => Some Lt
      | FGt => Some Gt
      | FNotComparable => None
      end
  end.

Definition num_eqb (a b : num) : bool :=
  match num_compare a b with Some Eq => true | _ => false end.

(** *** Equality [a == b]

    Numbers compare by value across [bool], [int] and [float]; lists
    elementwise; dicts by key; one object equals itself.  [None]: the
    comparison nests deeper than the fuel (a [RecursionError]). *)

Fixpoint all2 (eq : val -> val -> option bool) (l1 l2 : list val) : option bool :=
  match l1, l2 with
  | x :: l1', y :: l2' =>
      match eq x y with
      | Some true => all2 eq l1' l2'
      | r => r
      end
  | _, _ => Some true
  end.

Fixpoint dict_all (eq : val -> val -> option bool) (d1 d2 : pydict) : option bool :=
  match d1 with
  | [] => Some true
  | (k, v) :: d1' =>
      match Dict.get d2 k with
      | None => Some false
      | Some w =>
          match eq v w with
          | Some true => dict_all eq d1' d2
          | r => r
          end
      end
  end.

Fixpoint eq_fuel (fuel : nat) (h : heap) (a b : val) : option bool :=
  match fuel with
  | O => None
  | S n =>
      match as_num a, as_num b with
      | Some x, Some y => Some (num_eqb x y)
      | _, _ =>
          match a, b with
          | VNone, VNone => Some true
          | VStr s, VStr t => Some (String.eqb s t)
          | VRef p, VRef q =>
              if Nat.eqb p q then Some true
              else match h !! p, h !! q with
                   | Some (OList l1), Some (OList l2) =>
                       if Nat.eqb (List.length l1) (List.length l2)
                       then all2 (eq_fuel n h) l1 l2 else Some false
                   | Some (ODict d1), Some (ODict d2) =>
                       if Nat.eqb (List.length d1) (List.length d2)
                       then dict_all (eq_fuel n h) d1 d2 else Some false
                   | _, _ => Some false
                   end
          | _, _ => Some false
          end
      end
  end.

Definition eq_pure (h : heap) (a b : val) : option bool :=
  eq_fuel (S (List.length h)) h a b.

Definition lift_opt {A} (e : exn) (o : option A) : M A :=
  match o with Some a => ret a | None => raise e end.

Definition eq (a b : val) : M bool :=
  let* h := get_heap in lift_opt RecursionError (eq_pure h a b).

(** [x in l] for a list [l] *)
Fixpoint list_mem (eq : val -> val -> option bool) (x : val) (l : list val)
  : option bool :=
  match l with
  | [] => Some false
  | e :: l' =>
      match eq e x with
      | Some false => list_mem eq x l'
      | r => r
      end
  end.

(** [x in c]: key of a dict, element of a list, substring of a str. *)
Definition contains (x c : val) : M bool :=
  let* h := get_heap in
  match c with
  | VStr hay =>
      match x with
      | VStr needle => ret (PyStr.contains needle hay)
      | _ => raise TypeError
      end
  | VRef a =>
      match h !! a with
      | Some (ODict d) =>
          match x with
          | VStr k => ret (Dict.mem d k)
          | VRef _ => raise TypeError        (* unhashable *)
          | _ => ret false
          end
      | Some (OList l) =>
          lift_opt RecursionError (list_mem (eq_fuel (S (List.length h)) h) x l)
      | None => raise TypeError
      end
  | _ => raise TypeError
  end.

(** ["k" in c] *)
Definition has_key (k : string) (c : val) : M bool := contains (VStr k) c.

(** [v.get(k)] *)
Definition get (v : val) (k : string) : M val :=
  let* h := get_heap in
  match as_dict h v with
  | Some d => ret (default VNone (Dict.get d k))
  | None => raise AttributeError
  end.

(** [v.get(k, dflt)] for an immutable default *)
Definition get_default (v : val) (k : string) (dflt : val) : M val :=
  let* h := get_heap in
  match as_dict h v with
  | Some d => ret (default dflt (Dict.get d k))
  | None => raise AttributeError
  end.

(** [v.get(k, {})] and [v.get(k, [])]: the default is a new empty object. *)
Definition get_or_new (v : val) (k : string) (empty : obj) : M val :=
  let* h := get_heap in
  match as_dict h v with
  | Some d =>
      match Dict.get d k with
      | Some x => ret x
      | None => alloc empty
      end
  | None => raise AttributeError
  end.

(** [v[k]] for a string [k] *)
Definition item (v : val) (k : string) : M val :=
  let* h := get_heap in
  match as_dict h v with
  | Some d => lift_opt KeyError (Dict.get d k)
  | None => raise TypeError
  end.

(** [v[x]] for a value [x] used as key *)
Definition item_val (v : val) (x : val) : M val :=
  let* h := get_heap in
  match as_dict h v with
  | Some d =>
      match x with
      | VStr k => lift_opt KeyError (Dict.get d k)
      | VRef _ => raise TypeError
      | _ => raise KeyError
      end
  | None => raise TypeError
  end.

(** [v[k] = x] *)
Definition setitem (v : val) (k : string) (x : val) : M unit :=
  let* h := get_heap in
  match v, as_dict h v with
  | VRef a, Some d => store a (ODict (Dict.set d k x))
  | _, _ => raise TypeError
  end.

(** [v.setdefault(k, [])] *)
Definition setdefault_list (v : val) (k : string) : M unit :=
  let* h := get_heap in
  match v, as_dict h v with
  | VRef a, Some d =>
      if Dict.mem d k then ret tt
      else let* l := alloc (OList []) in
           store a (ODict (Dict.set d k l))
  | _, _ => raise AttributeError
  end.

(** [v.setdefault(k, {})] *)
Definition setdefault_dict (v : val) (k : string) : M unit :=
  let* h := get_heap in
  match v, as_dict h v with
  | VRef a, Some d =>
      if Dict.mem d k then ret tt
      else let* l := alloc (ODict []) in
           store a (ODict (Dict.set d k l))
  | _, _ => raise AttributeError
  end.

(** [v.append(x)] *)
Definition append (v : val) (x : val) : M unit :=
  let* h := get_heap in
  match v, as_list h v with
  | VRef a, Some l => store a (OList (l ++ [x]))
  | _, _ => raise AttributeError
  end.

(** [v.pop(k)] (no default) *)
Definition pop (v : val) (k : string) : M unit :=
  let* h := get_heap in
  match v, as_dict h v with
  | VRef a, Some d =>
      if Dict.mem d k then store a (ODict (Dict.del d k)) else raise KeyError
  | _, _ => raise AttributeError
  end.

(** [v.pop(k, None)] *)
Definition pop_default (v : val) (k : string) : M unit :=
  let* h := get_heap in
  match v, as_dict h v with
  | VRef a, Some d => store a (ODict (Dict.del d k))
  | _, _ => raise AttributeError
  end.

(** The pairs [dict(v)] and [d.update(v)] read from [v]: the content
    of a dict, nothing for an empty list or str.  A non-empty sequence
    (of key/value pairs) is not followed. *)
Definition pairs_of (v : val) : M pydict :=
  let* h := get_heap in
  match v with
  | VStr s => if String.eqb s "" then ret [] else raise Unsupported
  | VRef a =>
      match h !! a with
      | Some (ODict d) => ret d
      | Some (OList []) => ret []
      | Some (OList _) => raise Unsupported
      | None => raise TypeError
      end
  | _ => raise TypeError
  end.

(** [dict(v)]: a new dict with the same entries (a shallow copy). *)
Definition copy_dict (v : val) : M val :=
  let* d := pairs_of v in alloc (ODict d).

(** [target.update(src)] *)
Definition update (target src : val) : M unit :=
  let* h := get_heap in
  match target, as_dict h target with
  | VRef a, Some _ =>
      let* e := pairs_of src in
      let* h' := get_heap in
      match as_dict h' target with
      | Some d => store a (ODict (Dict.update d e))
      | None => raise AttributeError
      end
  | _, _ => raise AttributeError
  end.

(** [len(v)] *)
Definition len (v : val) : M nat :=
  let* h := get_heap in
  match v with
  | VStr s => ret (String.length s)
  | VRef a =>
      match h !! a with
      | Some (ODict d) => ret (List.length d)
      | Some (OList l) => ret (List.length l)
      | None => raise TypeError
      end
  | _ => raise TypeError
  end.

End Py.

(** ** Iteration over live objects

    A Python iterator reads the object again at every step.  A dict
    iterator raises [RuntimeError] as soon as the dict has another size
    than when the loop began; a list that changes length under its own
    loop is not followed.  [fold next i n body acc] runs [body] on the
    results of the calls [next i], [next (i+1)], ... until one returns
    [None] or [body] asks to [break] (returns [true]); [acc] carries
    the local variables the loop body assigns. *)

Module Iter.

Fixpoint fold {A Acc} (next : nat -> M (option A)) (i rest : nat)
    (body : Acc -> A -> M (bool * Acc)) (acc : Acc) : M Acc :=
  let* x := next i in
  match x, rest with
  | Some a, S r =>
      let* bs := body acc a in
      if fst bs then ret (snd bs) else fold next (S i) r body (snd bs)
  | _, _ => ret acc
  end.

Definition loop {A} (next : nat -> M (option A)) (i rest : nat)
    (body : A -> M unit) : M unit :=
  fold next i rest (fun _ a => body a ;; ret (false, tt)) tt.

Definition dict_next (a : addr) (n i : nat) : M (option (string * val)) :=
  let* h := get_heap in
  match h !! a with
  | Some (ODict d) =>
      if Nat.eqb (List.length d) n then ret (d !! i) else raise RuntimeError
  | _ => raise RuntimeError
  end.

Definition list_next (a : addr) (n i : nat) : M (option val) :=
  let* h := get_heap in
  match h !! a with
  | Some (OList l) =>
      if Nat.eqb (List.length l) n then ret (l !! i) else raise Unsupported
  | _ => raise Unsupported
  end.

(** An iterator: how many items it had when created, and [next]. *)
Definition iterator (A : Type) : Type := nat * (nat -> M (option A)).

(** [v.items()] *)
Definition items (v : val) : M (iterator (string * val)) :=
  let* h := get_heap in
  match v, Py.as_dict h v with
  | VRef a, Some d => let n := List.length d in ret (n, dict_next a n)
  | _, _ => raise AttributeError
  end.

(** [enumerate(v)] for any [v]: the items of a list, the keys of a
    dict, the characters of a str. *)
Definition enum (v : val) : M (iterator (nat * val)) :=
  let* h := get_heap in
  match v with
  | VStr s =>
      let cs := PyStr.chars s in
      ret (List.length cs, fun i => ret (pair i <$> (VStr <$> cs !! i)))
  | VRef a =>
      match h !! a with
      | Some (OList l) =>
          let n := List.length l in
          ret (n, fun i => let* x := list_next a n i in ret (pair i <$> x))
      | Some (ODict d) =>
          let n := List.length d in
          ret (n, fun i => let* x := dict_next a n i in
                           ret ((fun kv => (i, VStr (fst kv))) <$> x))
      | None => raise TypeError
      end
  | _ => raise TypeError
  end.

(** [zip(d.items(), l)] for a dict [d] and a list [l] *)
Definition zip_items (d l : val) : M (iterator ((string * val) * val)) :=
  let* h := get_heap in
  match d, Py.as_dict h d with
  | VRef a, Some dd =>
      match l, Py.as_list h l with
      | VRef b, Some ll =>
          let n := List.length dd in
          let m := List.length ll in
          ret (Nat.min n m,
               fun i =>
                 let* kv := dict_next a n i in
                 match kv with
                 | None => ret None
                 | Some kv => let* x := list_next b m i in ret (pair kv <$> x)
                 end)
      | _, _ => raise TypeError
      end
  | _, _ => raise AttributeError
  end.

Definition run_fold {A Acc} (it : iterator A) (body : Acc -> A -> M (bool * Acc))
    (acc : Acc) : M Acc :=
  fold (snd it) 0 (fst it) body acc.

Definition run {A} (it : iterator A) (body : A -> M unit) : M unit :=
  loop (snd it) 0 (fst it) body.

(** [for k, v in d.items(): ...] *)
Definition for_items (v : val) (body : string -> val -> M unit) : M unit :=
  let* it := items v in run it (fun kv => body (fst kv) (snd kv)).

(** [for k in d.keys(): ...] *)
Definition for_keys (v : val) (body : string -> M unit) : M unit :=
  for_items v (fun k _ => body k).

(** [for i, x in enumerate(v): ...] *)
Definition for_enum (v : val) (body : nat -> val -> M unit) : M unit :=
  let* it := enum v in run it (fun ix => body (fst ix) (snd ix)).

(** [for x in v: ...] *)
Definition for_in (v : val) (body : val -> M unit) : M unit :=
  for_enum v (fun _ x => body x).

(** [for (k, s), x in zip(d.items(), l): ...] *)
Definition for_zip_items (d l : val) (body : string -> val -> val -> M unit)
  : M unit :=
  let* it := zip_items d l in
  run it (fun kvx => body (fst (fst kvx)) (snd (fst kvx)) (snd kvx)).

End Iter.

(** ** Serialisation equality

    [json.dumps(a, sort_keys=True) == json.dumps(b, sort_keys=True)],
    decided on the values: the serialisation tells [1] from [1.0] and
    from [true], ignores the order of keys, and writes every NaN alike.
    [None]: nesting deeper than the fuel (a circular reference). *)

Module Dumps.

Definition sf_eqb (x y : spec_float) : bool :=
  match x, y with
  | S754_zero a, S754_zero b => Bool.eqb a b
  | S754_infinity a, S754_infinity b => Bool.eqb a b
  | S754_nan, S754_nan => true
  | S754_finite a m e, S754_finite b n f =>
      Bool.eqb a b && Pos.eqb m n && Z.eqb e f
  | _, _ => false
  end.

Fixpoint same (fuel : nat) (h : heap) (a b : val) : option bool :=
  match fuel with
  | O => None
  | S n =>
      match a, b with
      | VNone, VNone => Some true
      | VBool x, VBool y => Some (Bool.eqb x y)
      | VInt x, VInt y => Some (Z.eqb x y)
      | VFloat x, VFloat y => Some (sf_eqb (Prim2SF x) (Prim2SF y))
      | VStr x, VStr y => Some (String.eqb x y)
      | VRef p, VRef q =>
          match h !! p, h !! q with
          | Some (OList l1), Some (OList l2) =>
              if Nat.eqb (List.length l1) (List.length l2)
              then Py.all2 (same n h) l1 l2 else Some false
          | Some (ODict d1), Some (ODict d2) =>
              if Nat.eqb (List.length d1) (List.length d2)
              then Py.dict_all (same n h) d1 d2 else Some false
          | _, _ => Some false
          end
      | _, _ => Some false
      end
  end.

(** Some two items of [l] have the same serialisation:
    [len(serialized) != len(set(serialized))]. *)
Fixpoint has_duplicates (eq : val -> val -> option bool) (l : list val)
  : option bool :=
  match l with
  | [] => Some false
  | x :: l' =>
      match Py.list_mem eq x l' with
      | Some false => has_duplicates eq l'
      | r => r
      end
  end.

(** [serialized = [json.dumps(x, sort_keys=True) for x in v]] has a
    repeated entry.  [v] is iterated as any Python value is. *)
Definition not_unique (v : val) : M bool :=
  let* h := get_heap in
  let* l :=
    match v with
    | VStr s => ret (VStr <$> PyStr.chars s)
    | VRef a =>
        match h !! a with
        | Some (OList l) => ret l
        | Some (ODict d) => ret (VStr <$> Dict.keys d)
        | None => raise TypeError
        end
    | _ => raise TypeError
    end in
  Py.lift_opt ValueError (has_duplicates (same (S (List.length h)) h) l).

End Dumps.

(** ** What the validators take from Python's libraries *)

Inductive cmp_op := OpLt | OpLe | OpGt | OpGe.

Record Runtime := {
  (** [re.compile(pattern)]: [None] when it returns a pattern object,
      [Some e] when it raises [e].  [Some ReError] is [re.error]; the
      call can raise other exceptions ([OverflowError] for a repeat
      count such as [a{4294967296}]), which [except re.error] does not
      catch. *)
  rt_re_compile : string -> option exn;
  (** [re.compile(pattern).match(s) is not None] *)
  rt_re_match : string -> string -> bool;
  (** [re.compile(pattern).search(s) is not None] *)
  rt_re_search : string -> string -> bool;
  (** [int(s)]; [None]: [ValueError] *)
  rt_int : string -> option Z;
  (** [float(s)] does not raise [ValueError] *)
  rt_float_ok : string -> bool;
  (** [uuid.UUID(s)] does not raise [ValueError] *)
  rt_uuid_ok : string -> bool;
  (** [urlparse(s).scheme]; [None]: [urlparse] raises [ValueError] *)
  rt_url_scheme : string -> option string;
  (** [a < b] and the like for two list operands; [None]: raises *)
  rt_order_lists : heap -> cmp_op -> val -> val -> option bool;
  (** [a % b != 0] when the operands are not both [int]; [None]: raises *)
  rt_mod_nonzero : heap -> val -> val -> option bool;
  (** [json.load(open(file))]; [None]: raises *)
  rt_load_file : string -> option json
}.

Module Order.

Definition of_comparison (op : cmp_op) (c : comparison) : bool :=
  match op, c with
  | OpLt, Lt | OpLe, Lt | OpLe, Eq | OpGt, Gt | OpGe, Gt | OpGe, Eq => true
  | _, _ => false
  end.

(** [a op b]; [None]: the comparison raises. *)
Definition order (rt : Runtime) (h : heap) (op : cmp_op) (a b : val) : option bool :=
  match Py.as_num a, Py.as_num b with
  | Some x, Some y =>
      Some (match Py.num_compare x y with
            | Some c => of_comparison op c
            | None => false
            end)
  | _, _ =>
      match a, b with
      | VStr s, VStr t => Some (of_comparison op (String.compare s t))
      | VRef _, VRef _ =>
          if Py.is_list h a && Py.is_list h b
          then rt_order_lists rt h op a b else None
      | _, _ => None
      end
  end.

(** [a % b != 0]; [None]: raises. *)
Definition mod_nonzero (rt : Runtime) (h : heap) (a b : val) : option bool :=
  match Py.as_num a, Py.as_num b with
  | Some (Py.NInt x), Some (Py.NInt y) =>
      if y =? 0 then None else Some (negb (x mod y =? 0))
  | _, _ => rt_mod_nonzero rt h a b
  end.

End Order.

(** ** Loading a parsed JSON document into the store

    What [json.load] builds: a new object per array and per object of
    the document, children first. *)

Fixpoint load (j : json) : M val :=
  match j with
  | JNull => ret VNone
  | JBool b => ret (VBool b)
  | JInt z => ret (VInt z)
  | JFloat f => ret (VFloat f)
  | JStr s => ret (VStr s)
  | JArr l =>
      let* vs :=
        (fix items (l : list json) : M (list val) :=
           match l with
           | [] => ret []
           | x :: l' =>
               let* v := load x in
               let* vs := items l' in
               ret (v :: vs)
           end) l in
      alloc (OList vs)
  | JObj kvs =>
      let* d :=
        (fix entries (kvs : list (string * json)) (d : pydict) : M pydict :=
           match kvs with
           | [] => ret d
           | (k, x) :: kvs' =>
               let* v := load x in
               entries kvs' (Dict.set d k v)
           end) kvs [] in
      alloc (ODict d)
  end.

(** ** Import expansion

    [_process_imports] has the same body in both validators; they differ
    in [_fetch_external_schema] (the simulated documents) and in when
    the constructor or [validate] calls it. *)

Module Imports.

Definition is_alpha (c : ascii) : bool :=
  let n := nat_of_ascii c in
  ((65 <=? n) && (n <=? 90) || (97 <=? n) && (n <=? 122))%nat.

Definition is_scheme_char (c : ascii) : bool :=
  let n := nat_of_ascii c in
  (is_alpha c || (48 <=? n) && (n <=? 57)
   || (n =? 43) || (n =? 45) || (n =? 46))%nat.

Fixpoint scheme_rest (s : string) : bool :=
  match s with
  | String c t => if is_scheme_char c then scheme_rest t else PyStr.startswith "://" s
  | EmptyString => false
  end.

(** [ABSOLUTE_URI_REGEX.search(s)], the pattern being
    [^[a-zA-Z][a-zA-Z0-9+\-.]*://]. *)
Definition ABSOLUTE_URI_REGEX (s : string) : bool :=
  match s with
  | String c t => is_alpha c && scheme_rest t
  | EmptyString => false
  end.

Section Process.

(** [self.allow_import] *)
Context (allow_import : bool).
(** [self._fetch_external_schema] *)
Context (fetch : string -> M val).

(** The dict [imported_defs] of a [$import]. *)
Definition import_defs (external : val) : M val :=
  let* imported_defs := alloc (ODict []) in
  let* has_type := Py.has_key "type" external in
  let* both := if has_type then Py.has_key "name" external else ret false in
  when both (
    let* name := Py.item external "name" in
    match name with
    | VStr n => Py.setitem imported_defs n external
    | VRef _ => raise TypeError          (* unhashable *)
    | _ => raise Unsupported             (* a key that is not a str *)
    end) ;;
  let* has_defs := Py.has_key "definitions" external in
  when has_defs (
    let* defs := Py.item external "definitions" in
    let* h := get_heap in
    when (Py.is_dict h defs) (Py.update imported_defs defs)) ;;
  ret imported_defs.

(** The dict [imported_defs] of a [$importdefs]. *)
Definition importdefs_defs (external : val) : M val :=
  let* has_defs := Py.has_key "definitions" external in
  if has_defs then
    let* defs := Py.item external "definitions" in
    let* h := get_heap in
    if Py.is_dict h defs then ret defs else alloc (ODict [])
  else alloc (ODict []).

(** [for k, v in imported_defs.items(): if k not in obj: obj[k] = v] *)
Definition merge_defs (obj imported_defs : val) : M unit :=
  Iter.for_items imported_defs (fun k v =>
    let* present := Py.has_key k obj in
    when (negb present) (Py.setitem obj k v)).

(** The body of [for key in list(obj.keys())] for one [key]. *)
Definition import_key (obj : val) (path key : string) : M unit :=
  when (String.eqb key "$import" || String.eqb key "$importdefs") (
    let loc := path +:+ "/" +:+ key in
    if negb allow_import then err (EImportNotAllowed key loc)
    else
      let* uri := Py.item obj key in
      match uri with
      | VStr u =>
          if negb (ABSOLUTE_URI_REGEX u) then err (EImportNotAbsolute key loc)
          else
            let* external := fetch u in
            match external with
            | VNone => err (EImportFetchFailed u loc)
            | _ =>
                let* imported_defs :=
                  if String.eqb key "$import" then import_defs external
                  else importdefs_defs external in
                merge_defs obj imported_defs ;;
                Py.pop obj key
            end
      | _ => err (EImportNotString key loc)
      end).

(** [_process_imports(obj, path)]; [fuel] bounds the depth of the
    recursion into the document. *)
Fixpoint _process_imports (fuel : nat) (obj : val) (path : string) : M unit :=
  match fuel with
  | O => diverge
  | S n =>
      let* h := get_heap in
      match Py.deref h obj with
      | Some (ODict d) =>
          for_each (Dict.keys d) (import_key obj path) ;;
          Iter.for_items obj (fun k v =>
            _process_imports n v (path +:+ "/" +:+ k))
      | Some (OList _) =>
          Iter.for_enum obj (fun i item =>
            _process_imports n item (path +:+ "[" +:+ pretty i +:+ "]"))
      | None => ret tt
      end
  end.

End Process.

Fixpoint assoc {A} (l : list (string * A)) (k : string) : option A :=
  match l with
  | [] => None
  | (k', v) :: l' => if String.eqb k' k then Some v else assoc l' k
  end.

Section Fetch.

Context (rt : Runtime).
(** [self.import_map]: URI to file name *)
Context (import_map : list (string * string)).
(** the simulated documents of the validator at hand *)
Context (simulated : list (string * json)).

(** [_fetch_external_schema(uri)] *)
Definition _fetch_external_schema (uri : string) : M val :=
  match assoc import_map uri with
  | Some file =>
      match rt_load_file rt file with
      | Some j => load j
      | None => err (EImportLoadFailed file) ;; ret VNone
      end
  | None =>
      match assoc simulated uri with
      | Some j => load j
      | None => ret VNone
      end
  end.

End Fetch.

End Imports.

(** ** The instance validator
    [samples/py/json_structure_instance_validator.py] *)

Module Instance.

Definition EXTENDED_META := "https://json-structure.github.io/meta/extended/v0/#".
Definition VALIDATION_META := "https://json-structure.github.io/meta/validation/v0/#".
Definition CORE_META := "https://json-structure.github.io/meta/core/v0/#".

Definition _DATE_REGEX := "^\d{4}-\d{2}-\d{2}$".
Definition _DATETIME_REGEX :=
  "^\d{4}-\d{2}-\d{2}T\d{2}:\d{2}:\d{2}(?:\.\d+)?(?:Z|[+\-]\d{2}:\d{2})$".
Definition _TIME_REGEX := "^\d{2}:\d{2}:\d{2}(?:\.\d+)?$".
Definition _JSONPOINTER_REGEX := "^#(\/[^\/]+)*$".

Definition CC := "JSONStructureConditionalComposition".
Definition VA := "JSONStructureValidation".

(** [all_addins] of [validate_instance] *)
Definition all_addins : list string :=
  [CC; VA; "JSONStructureUnits"; "JSONStructureAlternateNames"].

(** The names [_apply_uses] does not look up in [$offers]. *)
Definition reserved_addins : list string :=
  [VA; CC; "JSONStructureAlternateNames"; "JSONStructureUnits"].

Definition is_reserved (u : val) : bool :=
  match u with
  | VStr s => existsb (String.eqb s) reserved_addins
  | _ => false
  end.

Definition sub (path key : string) : string := path +:+ "/" +:+ key.
Definition idx (path : string) (i : nat) : string := path +:+ "[" +:+ pretty i +:+ "]".

Section Validator.

Context (rt : Runtime).
(** [self.root_schema] *)
Context (root_schema : val).

(** The loop of [_resolve_ref] over [parts], from [target]. *)
Fixpoint resolve_parts (h : heap) (target : val) (parts : list string) : val :=
  match parts with
  | [] => target
  | part :: parts' =>
      if String.eqb part "" then resolve_parts h target parts'
      else
        let part := PyStr.unescape part in
        match Py.as_dict h target with
        | Some d =>
            match Dict.get d part with
            | Some v => resolve_parts h v parts'
            | None => VNone
            end
        | None => VNone
        end
  end.

(** [_resolve_ref(ref)]: the referenced value or [None]. *)
Definition _resolve_ref (ref : val) : M val :=
  match ref with
  | VStr r =>
      if negb (PyStr.startswith "#" r) then ret VNone
      else
        let* h := get_heap in
        ret (resolve_parts h root_schema (PyStr.split "/" (PyStr.lstrip "#" r)))
  | _ => raise AttributeError
  end.

(** [self.root_schema.get("$schema") == uri] *)
Definition root_meta_is (uri : string) : M bool :=
  let* v := Py.get root_schema "$schema" in Py.eq v (VStr uri).

(** Lines 83-89: under the extended meta every add-in is added to
    the [$uses] of the schema being visited. *)
Definition enable_all_addins (schema : val) : M unit :=
  let* ext := root_meta_is EXTENDED_META in
  when ext (
    Py.setdefault_list schema "$uses" ;;
    for_each all_addins (fun addin =>
      let* uses := Py.item schema "$uses" in
      let* present := Py.contains (VStr addin) uses in
      when (negb present) (
        let* uses := Py.item schema "$uses" in
        Py.append uses (VStr addin)))).

(** [if name in instance["$uses"] and not name in schema["$uses"]:
       schema["$uses"].append(name)] *)
Definition add_if_used (name : string) (instance schema : val) : M unit :=
  let* iu := Py.item instance "$uses" in
  let* used := Py.contains (VStr name) iu in
  if used then
    let* su := Py.item schema "$uses" in
    let* present := Py.contains (VStr name) su in
    when (negb present) (
      let* su := Py.item schema "$uses" in
      Py.append su (VStr name))
  else ret tt.

(** [isinstance(instance, dict) and "$uses" in instance and
     self.root_schema.get("$schema") == uri] *)
Definition instance_uses_under (instance : val) (uri : string) : M bool :=
  let* h := get_heap in
  if Py.is_dict h instance then
    let* has := Py.has_key "$uses" instance in
    if has then root_meta_is uri else ret false
  else ret false.

(** Lines 92-98 *)
Definition enable_used_addins (instance schema : val) : M unit :=
  let* c := instance_uses_under instance VALIDATION_META in
  when c (
    Py.setdefault_list schema "$uses" ;;
    add_if_used VA instance schema ;;
    add_if_used CC instance schema).

(** Lines 103-106 *)
Definition reject_addins_under_core (instance : val) (path : string) : M unit :=
  let* c := instance_uses_under instance CORE_META in
  when c (
    let* iu := Py.item instance "$uses" in
    let* a := Py.contains (VStr VA) iu in
    if a then err (EUnsupportedAddins path)
    else
      let* iu := Py.item instance "$uses" in
      let* b := Py.contains (VStr CC) iu in
      when b (err (EUnsupportedAddins path))).

(** ["$uses" in self.root_schema and name in self.root_schema["$uses"]],
    the two nested tests of lines 118-119 and 366-368. *)
Definition root_uses (name : string) : M bool :=
  let* has := Py.has_key "$uses" root_schema in
  if has then
    let* u := Py.item root_schema "$uses" in
    Py.contains (VStr name) u
  else ret false.

(** The merge that [_apply_uses] performs, three times in the
    source, for the properties of one resolved add-in:
    [[
      for prop in addin_props:
          if prop in merged["properties"]:
              self.errors.append(conflict)
      merged["properties"].update(addin_props)
    ]] *)
Definition merge_addin_props (merged addin_props use : val) : M unit :=
  Iter.for_in addin_props (fun prop =>
    let* mp := Py.item merged "properties" in
    let* c := Py.contains prop mp in
    when c (err (EAddinConflict prop use))) ;;
  let* mp := Py.item merged "properties" in
  Py.update mp addin_props.

(** [_apply_uses(schema, instance)]: the schema to validate against. *)
Definition _apply_uses (schema instance : val) : M val :=
  let* uses := Py.get instance "$uses" in
  let* h := get_heap in
  if negb (Py.truthy h uses) then ret schema
  else
    let* uses_l :=
      match Py.as_list h uses with
      | Some l => ret l
      | None => ret [uses]
      end in
    let* offers := Py.get_or_new root_schema "$offers" (ODict []) in
    let* merged := Py.copy_dict schema in
    Py.setdefault_dict merged "properties" ;;
    for_each (List.filter (fun u => negb (is_reserved u)) uses_l) (fun use =>
      let* offered := Py.contains use offers in
      if negb offered then err (ENotOffered use)
      else
        let* addin := Py.item_val offers use in
        let* h := get_heap in
        if Py.is_list h addin then
          Iter.for_in addin (fun ref =>
            let* resolved := if Py.is_str ref then _resolve_ref ref else ret ref in
            let* h := get_heap in
            when (Py.is_dict h resolved) (
              let* addin_props := Py.get_or_new resolved "properties" (ODict []) in
              merge_addin_props merged addin_props use))
        else if Py.is_dict h addin then
          let* has_ref := Py.has_key "$ref" addin in
          if has_ref then
            let* ref := Py.item addin "$ref" in
            let* resolved := _resolve_ref ref in
            let* h := get_heap in
            when (Py.is_dict h resolved) (
              let* addin_props := Py.get_or_new resolved "properties" (ODict []) in
              merge_addin_props merged addin_props use)
          else
            let* addin_props := Py.get_or_new addin "properties" (ODict []) in
            merge_addin_props merged addin_props use
        else err (EInvalidAddin use)) ;;
    ret merged.

Section Recursive.

(** The recursive calls [self.validate_instance(instance, schema, path)]. *)
Variable rec : val -> val -> string -> M unit.

(** [not self.errors] *)
Definition no_errors : M bool :=
  let* es := get_errors in
  ret (match es with [] => true | _ => false end).

(** One round of the [allOf] loop. *)
Definition allOf_step (instance : val) (path : string) (i : nat) (subschema : val)
  : M unit :=
  let* backup := get_errors in
  rec instance subschema (idx (sub path "allOf") i) ;;
  let* es := get_errors in
  match es with
  | [] => ret tt
  | _ => set_errors (backup ++ es)
  end.

(** One round of the [anyOf] loop; the accumulator is
    [(valid, errors_any)]. *)
Definition anyOf_step (instance : val) (path : string)
    (acc : bool * list (nat * list diag)) (ix : nat * val)
  : M (bool * (bool * list (nat * list diag))) :=
  let* backup := get_errors in
  set_errors [] ;;
  rec instance (snd ix) (idx (sub path "anyOf") (fst ix)) ;;
  let* es := get_errors in
  match es with
  | [] => ret (true, (true, snd acc))
  | _ =>
      set_errors backup ;;
      ret (false, (fst acc, snd acc ++ [(fst ix, es)]))
  end.

(** One round of the [oneOf] loop; the accumulator is
    [(valid_count, errors_one)]. *)
Definition oneOf_step (instance : val) (path : string)
    (acc : nat * list (nat * list diag)) (ix : nat * val)
  : M (bool * (nat * list (nat * list diag))) :=
  let* backup := get_errors in
  set_errors [] ;;
  rec instance (snd ix) (idx (sub path "oneOf") (fst ix)) ;;
  let* es := get_errors in
  let acc' :=
    match es with
    | [] => (S (fst acc), snd acc)
    | _ => (fst acc, snd acc ++ [(fst ix, es)])
    end in
  set_errors backup ;;
  ret (false, acc').

(** The [oneOf] block of [_validate_conditionals]. *)
Definition oneOf_block (schema instance : val) (path : string) : M unit :=
  let* subschemas := Py.item schema "oneOf" in
  let* it := Iter.enum subschemas in
  let* r := Iter.run_fold it (oneOf_step instance path) (O, []) in
  when (negb (Nat.eqb (fst r) 1)) (err (EOneOf path (fst r) (snd r))).

(** [_validate_conditionals(schema, instance, path)]: whether the
    schema has a composition keyword. *)
Definition _validate_conditionals (schema instance : val) (path : string) : M bool :=
  let* has_allOf := Py.has_key "allOf" schema in
  when has_allOf (
    let* subschemas := Py.item schema "allOf" in
    Iter.for_enum subschemas (allOf_step instance path)) ;;
  let* has_anyOf := Py.has_key "anyOf" schema in
  when has_anyOf (
    let* subschemas := Py.item schema "anyOf" in
    let* it := Iter.enum subschemas in
    let* r := Iter.run_fold it (anyOf_step instance path) (false, []) in
    when (negb (fst r)) (err (EAnyOf path (snd r)))) ;;
  let* has_oneOf := Py.has_key "oneOf" schema in
  when has_oneOf (oneOf_block schema instance path) ;;
  let* has_not := Py.has_key "not" schema in
  when has_not (
    let* subschema := Py.item schema "not" in
    let* backup := get_errors in
    set_errors [] ;;
    rec instance subschema (sub path "not") ;;
    let* es := get_errors in
    match es with
    | [] => set_errors (backup ++ [ENot path])
    | _ => set_errors backup
    end) ;;
  let* has_if := Py.has_key "if" schema in
  when has_if (
    let* backup := get_errors in
    set_errors [] ;;
    let* sif := Py.item schema "if" in
    rec instance sif (sub path "if") ;;
    let* if_valid := no_errors in
    set_errors backup ;;
    if if_valid then
      let* has_then := Py.has_key "then" schema in
      when has_then (
        let* s := Py.item schema "then" in
        rec instance s (sub path "then"))
    else
      let* has_else := Py.has_key "else" schema in
      when has_else (
        let* s := Py.item schema "else" in
        rec instance s (sub path "else"))) ;;
  ret (has_allOf || has_anyOf || has_oneOf || has_not || has_if).

Definition numeric_types : list string :=
  ["number"; "integer"; "float"; "double"; "decimal"; "int32"; "uint32";
   "int64"; "uint64"; "int128"; "uint128"].

(** [v in (s1, s2, ...)] and [v == s] for string constants *)
Definition str_in (v : val) (l : list string) : bool :=
  match v with VStr s => existsb (String.eqb s) l | _ => false end.
Definition str_is (v : val) (s : string) : bool := str_in v [s].

(** [a op b] outside a [try]: a failing comparison raises. *)
Definition compare (op : cmp_op) (a b : val) : M bool :=
  let* h := get_heap in
  Py.lift_opt TypeError (Order.order rt h op a b).

(** [try: if a op b: errors.append(e)  except Exception: errors.append(e')] *)
Definition try_compare (op : cmp_op) (a b : val) (e e' : diag) : M unit :=
  let* h := get_heap in
  match Order.order rt h op a b with
  | Some true => err e
  | Some false => ret tt
  | None => err e'
  end.

(** [if prop_name in instance and isinstance(required_deps, list):
       for dep in required_deps: if dep not in instance: ...],
    over [schema["dependentRequired"].items()] *)
Definition dependent_required (schema instance : val) (path : string) : M unit :=
  let* has := Py.has_key "dependentRequired" schema in
  if has then
    let* dr := Py.item schema "dependentRequired" in
    let* h := get_heap in
    when (Py.is_dict h dr) (
      Iter.for_items dr (fun prop_name required_deps =>
        let* present := Py.contains (VStr prop_name) instance in
        let* h := get_heap in
        when (present && Py.is_list h required_deps) (
          Iter.for_in required_deps (fun dep =>
            let* c := Py.contains dep instance in
            when (negb c) (err (EDependent prop_name path dep))))))
  else ret tt.

(** [patternProperties] / [patternKeys] *)
Definition pattern_keys (keyword : string) (schema instance : val) (path : string)
  : M unit :=
  let* has := Py.has_key keyword schema in
  if has then
    let* pp := Py.item schema keyword in
    let* h := get_heap in
    when (Py.is_dict h pp) (
      Iter.for_items pp (fun pattern_str pattern_schema =>
        try_except
          (match rt_re_compile rt pattern_str with
           | None =>
               Iter.for_items instance (fun prop_name prop_value =>
                 when (rt_re_search rt pattern_str prop_name)
                      (rec prop_value pattern_schema (sub path prop_name)))
           | Some e => raise e
           end)
          (fun e => match e with ReError => true | _ => false end)
          (err (EInvalidRegex pattern_str keyword path))))
  else ret tt.

(** [propertyNames] / [keyNames]; [label] is the word in the path. *)
Definition names_schema (keyword label : string) (schema instance : val)
    (path : string) : M unit :=
  let* has := Py.has_key keyword schema in
  when has (
    let* ns := Py.item schema keyword in
    let* h := get_heap in
    let* ok :=
      if Py.is_dict h ns then
        let* t := Py.get ns "type" in ret (str_is t "string")
      else ret false in
    if negb ok then err (ENamesSchemaNotString keyword path)
    else
      Iter.for_keys instance (fun name =>
        rec (VStr name) ns
            (path +:+ "/" +:+ label +:+ "(" +:+ name +:+ ")"))).

(** [_validate_validation_addins(schema, instance, path)] *)
Definition _validate_validation_addins (schema instance : val) (path : string)
  : M unit :=
  let* ty := Py.get schema "type" in
  (* Numeric constraints. *)
  when (str_in ty numeric_types) (
    let* has_min := Py.has_key "minimum" schema in
    when has_min (
      let* m := Py.item schema "minimum" in
      try_compare OpLt instance m
        (ELessThanMinimum path m) (ECannotCompareMinimum path)) ;;
    let* has_max := Py.has_key "maximum" schema in
    when has_max (
      let* m := Py.item schema "maximum" in
      try_compare OpGt instance m
        (EGreaterThanMaximum path m) (ECannotCompareMaximum path)) ;;
    let* xmin := Py.get schema "exclusiveMinimum" in
    when (match xmin with VBool true => true | _ => false end) (
      let* has_min := Py.has_key "minimum" schema in
      let* m := Py.get schema "minimum" in
      try_compare OpLe instance
        (if has_min then m else VFloat PrimFloat.neg_infinity)
        (ENotGreaterExclusiveMinimum path m) (ECannotEvalExclusiveMinimum path)) ;;
    let* xmax := Py.get schema "exclusiveMaximum" in
    when (match xmax with VBool true => true | _ => false end) (
      let* has_max := Py.has_key "maximum" schema in
      let* m := Py.get schema "maximum" in
      try_compare OpGe instance
        (if has_max then m else VFloat PrimFloat.infinity)
        (ENotLessExclusiveMaximum path m) (ECannotEvalExclusiveMaximum path)) ;;
    let* has_mul := Py.has_key "multipleOf" schema in
    when has_mul (
      let* m := Py.item schema "multipleOf" in
      let* h := get_heap in
      match Order.mod_nonzero rt h instance m with
      | Some true => err (ENotMultipleOf path m)
      | Some false => ret tt
      | None => err (ECannotEvalMultipleOf path)
      end)) ;;
  (* String constraints. *)
  when (str_is ty "string") (
    let* has_minl := Py.has_key "minLength" schema in
    when has_minl (
      let* n := Py.len instance in
      let* m := Py.item schema "minLength" in
      let* c := compare OpLt (VInt (Z.of_nat n)) m in
      when c (err (EShorterThanMinLength path m))) ;;
    let* has_maxl := Py.has_key "maxLength" schema in
    when has_maxl (
      let* n := Py.len instance in
      let* m := Py.item schema "maxLength" in
      let* c := compare OpGt (VInt (Z.of_nat n)) m in
      when c (err (ELongerThanMaxLength path m))) ;;
    let* has_pat := Py.has_key "pattern" schema in
    when has_pat (
      let* p := Py.item schema "pattern" in
      match p with
      | VStr pattern =>
          match rt_re_compile rt pattern with
          | None =>
              match instance with
              | VStr s =>
                  when (negb (rt_re_search rt pattern s))
                       (err (EPatternMismatch path pattern))
              | _ => raise TypeError
              end
          | Some e => raise e
          end
      | _ => raise TypeError
      end) ;;
    let* has_fmt := Py.has_key "format" schema in
    when has_fmt (
      let* fmt := Py.item schema "format" in
      if str_is fmt "email" then
        let* c := Py.contains (VStr "@") instance in
        when (negb c) (err (ENotEmail path))
      else if str_is fmt "uri" then
        let* h := get_heap in
        match instance with
        | VStr s =>
            match rt_url_scheme rt s with
            | Some scheme => when (String.eqb scheme "") (err (ENotUri path))
            | None => raise ValueError
            end
        | _ =>
            if Py.truthy h instance then raise AttributeError
            else err (ENotUri path)
        end
      else ret tt)) ;;
  (* Array constraints. *)
  when (str_is ty "array") (
    let* has_mini := Py.has_key "minItems" schema in
    when has_mini (
      let* n := Py.len instance in
      let* m := Py.item schema "minItems" in
      let* c := compare OpLt (VInt (Z.of_nat n)) m in
      when c (err (EFewerThanMinItems path m))) ;;
    let* has_maxi := Py.has_key "maxItems" schema in
    when has_maxi (
      let* n := Py.len instance in
      let* m := Py.item schema "maxItems" in
      let* c := compare OpGt (VInt (Z.of_nat n)) m in
      when c (err (EMoreThanMaxItems path m))) ;;
    let* uniq := Py.get schema "uniqueItems" in
    when (match uniq with VBool true => true | _ => false end) (
      let* dup := Dumps.not_unique instance in
      when dup (err (ENotUniqueItems path)))) ;;
  (* Object constraints. *)
  when (str_is ty "object") (
    let* has_minp := Py.has_key "minProperties" schema in
    when has_minp (
      let* h := get_heap in
      if Py.is_dict h instance then
        let* n := Py.len instance in
        let* m := Py.item schema "minProperties" in
        let* c := compare OpLt (VInt (Z.of_nat n)) m in
        when c (err (EFewerThanMinProperties path m))
      else raise AttributeError) ;;
    let* has_maxp := Py.has_key "maxProperties" schema in
    when has_maxp (
      let* h := get_heap in
      if Py.is_dict h instance then
        let* n := Py.len instance in
        let* m := Py.item schema "maxProperties" in
        let* c := compare OpGt (VInt (Z.of_nat n)) m in
        when c (err (EMoreThanMaxProperties path m))
      else raise AttributeError) ;;
    pattern_keys "patternProperties" schema instance path ;;
    names_schema "propertyNames" "propertyName" schema instance path ;;
    dependent_required schema instance path) ;;
  (* Map constraints *)
  when (str_is ty "map") (
    pattern_keys "patternKeys" schema instance path ;;
    names_schema "keyNames" "keyName" schema instance path).

(** [for idx, item in enumerate(instance):
       self.validate_instance(item, items_schema, f"{path}[{idx}]")]
    under [if items_schema:] *)
Definition validate_items (schema instance : val) (path : string) : M unit :=
  let* items_schema := Py.get schema "items" in
  let* h := get_heap in
  when (Py.truthy h items_schema) (
    Iter.for_enum instance (fun i item => rec item items_schema (idx path i))).

(** The [object] branch, lines 291-323, for a dict instance. *)
Definition validate_object (schema instance : val) (path : string) : M unit :=
  let* props := Py.get_or_new schema "properties" (ODict []) in
  let* req := Py.get_or_new schema "required" (OList []) in
  Iter.for_in req (fun r =>
    let* c := Py.contains r instance in
    when (negb c) (err (EMissingRequired r path))) ;;
  Iter.for_items props (fun prop prop_schema =>
    let* c := Py.has_key prop instance in
    when c (
      let* x := Py.item instance prop in
      rec x prop_schema (sub path prop))) ;;
  let* has_addl := Py.has_key "additionalProperties" schema in
  when has_addl (
    let* addl := Py.item schema "additionalProperties" in
    let* h := get_heap in
    match addl with
    | VBool false =>
        Iter.for_keys instance (fun key =>
          let* c := Py.has_key key props in
          when (negb c) (err (EAdditional key path)))
    | _ =>
        when (Py.is_dict h addl) (
          Iter.for_keys instance (fun key =>
            let* c := Py.has_key key props in
            when (negb c) (
              let* x := Py.item instance key in
              rec x addl (sub path key))))
    end) ;;
  let* has_has := Py.has_key "has" schema in
  when has_has (
    let* has_schema := Py.item schema "has" in
    let* it := Iter.items instance in
    let* valid :=
      Iter.run_fold it (fun (_ : bool) kv =>
        rec (snd kv) has_schema (sub path (fst kv)) ;;
        let* ok := no_errors in
        ret (ok, ok)) false in
    when (negb valid) (err (EHas path))) ;;
  dependent_required schema instance path.

(** The type-based validation, lines 198-363. *)
Definition validate_type (schema_type : string) (schema instance : val)
    (path : string) : M unit :=
  let* h := get_heap in
  let tn := Py.type_name h instance in
  if String.eqb schema_type "any" then ret tt
  else if String.eqb schema_type "string" then
    when (negb (Py.is_str instance)) (err (EExpected "string" path tn))
  else if String.eqb schema_type "number" then
    when (Py.is_bool instance || negb (Py.is_int_or_float instance))
         (err (EExpected "number" path tn))
  else if String.eqb schema_type "boolean" then
    when (negb (Py.is_bool instance)) (err (EExpected "boolean" path tn))
  else if String.eqb schema_type "null" then
    when (match instance with VNone => false | _ => true end)
         (err (EExpected "null" path tn))
  else if String.eqb schema_type "int32" then
    match Py.as_num instance with
    | Some (Py.NInt z) =>
        when (negb ((- 2 ^ 31 <=? z) && (z <=? 2 ^ 31 - 1)))
             (err (EOutOfRange "int32" path))
    | _ => err (EExpected "int32" path tn)
    end
  else if String.eqb schema_type "uint32" then
    match Py.as_num instance with
    | Some (Py.NInt z) =>
        when (negb ((0 <=? z) && (z <=? 2 ^ 32 - 1)))
             (err (EOutOfRange "uint32" path))
    | _ => err (EExpected "uint32" path tn)
    end
  else if String.eqb schema_type "int64" then
    match instance with
    | VStr s =>
        match rt_int rt s with
        | Some value =>
            when (negb ((- 2 ^ 63 <=? value) && (value <=? 2 ^ 63 - 1)))
                 (err (EOutOfRange "int64" path))
        | None => err (EInvalidFormat "int64" path)
        end
    | _ => err (EExpectedAsString "int64" path tn)
    end
  else if String.eqb schema_type "uint64" then
    match instance with
    | VStr s =>
        match rt_int rt s with
        | Some value =>
            when (negb ((0 <=? value) && (value <=? 2 ^ 64 - 1)))
                 (err (EOutOfRange "uint64" path))
        | None => err (EInvalidFormat "uint64" path)
        end
    | _ => err (EExpectedAsString "uint64" path tn)
    end
  else if String.eqb schema_type "float" || String.eqb schema_type "double" then
    when (negb (Py.is_int_or_float instance)) (err (EExpected schema_type path tn))
  else if String.eqb schema_type "decimal" then
    match instance with
    | VStr s => when (negb (rt_float_ok rt s)) (err (EInvalidFormat "decimal" path))
    | _ => err (EExpectedAsString "decimal" path tn)
    end
  else if String.eqb schema_type "date" then
    match instance with
    | VStr s => when (negb (rt_re_match rt _DATE_REGEX s)) (err (EExpectedDate path))
    | _ => err (EExpectedDate path)
    end
  else if String.eqb schema_type "datetime" then
    match instance with
    | VStr s =>
        when (negb (rt_re_match rt _DATETIME_REGEX s)) (err (EExpectedDatetime path))
    | _ => err (EExpectedDatetime path)
    end
  else if String.eqb schema_type "time" then
    match instance with
    | VStr s => when (negb (rt_re_match rt _TIME_REGEX s)) (err (EExpectedTime path))
    | _ => err (EExpectedTime path)
    end
  else if String.eqb schema_type "duration" then
    when (negb (Py.is_str instance)) (err (EExpectedStr "duration" path))
  else if String.eqb schema_type "uuid" then
    match instance with
    | VStr s => when (negb (rt_uuid_ok rt s)) (err (EInvalidFormat "uuid" path))
    | _ => err (EExpectedStr "uuid" path)
    end
  else if String.eqb schema_type "uri" then
    match instance with
    | VStr s =>
        match rt_url_scheme rt s with
        | Some scheme => when (String.eqb scheme "") (err (EInvalidFormat "uri" path))
        | None => raise ValueError
        end
    | _ => err (EExpectedStr "uri" path)
    end
  else if String.eqb schema_type "binary" then
    when (negb (Py.is_str instance)) (err (EExpectedBinary path))
  else if String.eqb schema_type "jsonpointer" then
    match instance with
    | VStr s =>
        when (negb (rt_re_match rt _JSONPOINTER_REGEX s)) (err (EExpectedPointer path))
    | _ => err (EExpectedPointer path)
    end
  (* Compound types. *)
  else if String.eqb schema_type "object" then
    if Py.is_dict h instance then validate_object schema instance path
    else err (EExpectedObject path tn)
  else if String.eqb schema_type "array" then
    if Py.is_list h instance then validate_items schema instance path
    else err (EExpectedArray path tn)
  else if String.eqb schema_type "set" then
    if Py.is_list h instance then
      let* dup := Dumps.not_unique instance in
      when dup (err (ESetDuplicates path)) ;;
      validate_items schema instance path
    else err (EExpectedSet path tn)
  else if String.eqb schema_type "map" then
    if Py.is_dict h instance then
      let* values_schema := Py.get schema "values" in
      let* h := get_heap in
      when (Py.truthy h values_schema) (
        Iter.for_items instance (fun key v =>
          rec v values_schema (sub path key)))
    else err (EExpectedMap path tn)
  else if String.eqb schema_type "tuple" then
    if Py.is_list h instance then
      let* props := Py.get_or_new schema "properties" (ODict []) in
      let* expected_len := Py.len props in
      let* n := Py.len instance in
      if negb (Nat.eqb n expected_len) then err (ETupleLength path n expected_len)
      else
        Iter.for_zip_items props instance (fun prop prop_schema item =>
          rec item prop_schema (sub path prop))
    else err (EExpectedTuple path tn)
  else err (EUnsupportedType schema_type path).

(** One round of the union loop, lines 151-160; the accumulator
    is [(union_valid, union_errors)]. *)
Definition union_step (instance : val) (path : string)
    (acc : bool * list diag) (it : nat * val) : M (bool * (bool * list diag)) :=
  let* backup := get_errors in
  set_errors [] ;;
  let* s := alloc (ODict [("type", snd it)]) in
  rec instance s path ;;
  let* es := get_errors in
  match es with
  | [] => ret (true, (true, snd acc))
  | _ =>
      set_errors backup ;;
      ret (false, (fst acc, snd acc ++ es))
  end.

(** Lines 170-184: [$extends]; gives the merged schema, or [None]
    when the base does not resolve. *)
Definition apply_extends (schema : val) (path : string) : M (option val) :=
  let* ref := Py.item schema "$extends" in
  let* base := _resolve_ref ref in
  match base with
  | VNone => err (ECannotResolveExtends ref path) ;; ret None
  | _ =>
      let* base_props := Py.get_or_new base "properties" (ODict []) in
      let* derived_props := Py.get_or_new schema "properties" (ODict []) in
      Iter.for_in base_props (fun key =>
        let* c := Py.contains key derived_props in
        when c (err (ERedefined key path))) ;;
      let* merged := Py.copy_dict base in
      Py.update merged schema ;;
      Py.pop_default merged "$extends" ;;
      ret (Some merged)
  end.

(** Lines 165-377, once [schema_type] is known not to be a dict
    or a list. *)
Definition validate_typed (schema_type schema instance : val) (path : string)
  : M unit :=
  match schema_type with
  | VStr ty =>
      let* has_ext := Py.has_key "$extends" schema in
      let* schema' :=
        if has_ext then apply_extends schema path else ret (Some schema) in
      match schema' with
      | None => ret tt
      | Some schema =>
          let* abstract := Py.get schema "abstract" in
          match abstract with
          | VBool true => err (EAbstract path)
          | _ =>
              let* h := get_heap in
              let* uses :=
                if Py.is_dict h instance then Py.has_key "$uses" instance
                else ret false in
              let* schema :=
                if uses then
                  let* merged := _apply_uses schema instance in
                  Py.pop instance "$uses" ;;
                  ret merged
                else ret schema in
              validate_type ty schema instance path ;;
              let* va := root_uses VA in
              when va (_validate_validation_addins schema instance path) ;;
              let* has_const := Py.has_key "const" schema in
              when has_const (
                let* c := Py.item schema "const" in
                let* e := Py.eq instance c in
                when (negb e) (err (ENotConst path c))) ;;
              let* has_enum := Py.has_key "enum" schema in
              when has_enum (
                let* en := Py.item schema "enum" in
                let* c := Py.contains instance en in
                when (negb c) (err (ENotInEnum path en)))
          end
      end
  | _ => err (EInvalidType path)
  end.

(** Lines 123-163 and on: [schema_type], a [$ref] inside [type],
    union types, then the typed validation. *)
Definition validate_by_type (hasConditionals : bool) (schema instance : val)
    (path : string) : M unit :=
  let* schema_type := Py.get schema "type" in
  let* h := get_heap in
  if negb (Py.truthy h schema_type) && hasConditionals then ret tt
  else
    when (negb (Py.truthy h schema_type)) (err (ENoType path)) ;;
    let* h := get_heap in
    let* resolved_type :=
      if Py.is_dict h schema_type then
        let* has_ref := Py.has_key "$ref" schema_type in
        if has_ref then
          let* ref := Py.item schema_type "$ref" in
          let* resolved := _resolve_ref ref in
          match resolved with
          | VNone => err (ECannotResolveTypeRef ref path) ;; ret None
          | _ =>
              let* new_schema := Py.copy_dict schema in
              let* t := Py.get resolved "type" in
              Py.setitem new_schema "type" t ;;
              let* has_props := Py.has_key "properties" resolved in
              when has_props (
                let* rp := Py.get resolved "properties" in
                let* merged_props := Py.copy_dict rp in
                let* np := Py.get_or_new new_schema "properties" (ODict []) in
                Py.update merged_props np ;;
                Py.setitem new_schema "properties" merged_props) ;;
              let* t := Py.get new_schema "type" in
              ret (Some (new_schema, t))
          end
        else err (EInvalidType path) ;; ret None
      else ret (Some (schema, schema_type)) in
    match resolved_type with
    | None => ret tt
    | Some (schema, schema_type) =>
        let* h := get_heap in
        if Py.is_list h schema_type then
          let* it := Iter.enum schema_type in
          let* r := Iter.run_fold it (union_step instance path) (false, []) in
          when (negb (fst r)) (err (EUnionNoMatch path (snd r)))
        else validate_typed schema_type schema instance path
    end.

(** Lines 79-80: [if schema is None: schema = self.root_schema]. *)
Definition or_root (schema : val) : val :=
  match schema with VNone => root_schema | _ => schema end.

(** The body of [validate_instance(instance, schema, path)]. *)
Definition validate_body (instance schema : val) (path : string) : M unit :=
  let schema := or_root schema in
  enable_all_addins schema ;;
  enable_used_addins instance schema ;;
  reject_addins_under_core instance path ;;
  let* has_ref := Py.has_key "$ref" schema in
  if has_ref then
    let* ref := Py.item schema "$ref" in
    let* resolved := _resolve_ref ref in
    match resolved with
    | VNone => err (ECannotResolveRef ref path)
    | _ => rec instance resolved path
    end
  else
    let* cc := root_uses CC in
    let* hasConditionals :=
      if cc then _validate_conditionals schema instance path else ret false in
    validate_by_type hasConditionals schema instance path.

End Recursive.

(** [validate_instance(instance, schema, path)]; [fuel] bounds the
    depth of the recursion. *)
Fixpoint validate_instance (fuel : nat) (instance schema : val) (path : string)
  : M unit :=
  match fuel with
  | O => diverge
  | S n => validate_body (validate_instance n) instance schema path
  end.

End Validator.

(** [SIMULATED_SCHEMAS] of the instance validator *)
Definition SIMULATED_SCHEMAS : list (string * json) :=
  [("https://example.com/people.json",
    JObj [("$schema", JStr "https://json-structure.github.io/meta/core/v0/#");
          ("$id", JStr "https://example.com/people.json");
          ("name", JStr "Person");
          ("type", JStr "object");
          ("properties",
           JObj [("firstName", JObj [("type", JStr "string")]);
                 ("lastName", JObj [("type", JStr "string")]);
                 ("address", JObj [("$ref", JStr "#/Address")])]);
          ("definitions",
           JObj [("Address",
                  JObj [("name", JStr "Address");
                        ("type", JStr "object");
                        ("properties",
                         JObj [("street", JObj [("type", JStr "string")]);
                               ("city", JObj [("type", JStr "string")])])])])]);
   ("https://example.com/importdefs.json",
    JObj [("$schema", JStr "https://json-structure.github.io/meta/core/v0/#");
          ("$id", JStr "https://example.com/importdefs.json");
          ("definitions",
           JObj [("LibraryType",
                  JObj [("name", JStr "LibraryType");
                        ("type", JStr "string")])])])].

(** [JSONStructureInstanceValidator(root_schema, allow_import, import_map)]:
    the constructor; [self.errors] starts empty. *)
Definition init (rt : Runtime) (fuel : nat) (root_schema : val)
    (allow_import : bool) (import_map : list (string * string)) : M unit :=
  set_errors [] ;;
  when allow_import (
    Imports._process_imports allow_import
      (Imports._fetch_external_schema rt import_map SIMULATED_SCHEMAS)
      fuel root_schema "#").

End Instance.

(** ** The schema validator
    [samples/py/json_structure_schema_validator.py] *)

Module Schema.

(** [KNOWN_EXTENSIONS] *)
Definition KNOWN_EXTENSIONS : gset string :=
  {[ "JSONStructureImport"; "JSONStructureAlternateNames"; "JSONStructureUnits";
     "JSONStructureConditionalComposition"; "JSONStructureValidation" ]}.

(** [EXTERNAL_SCHEMAS] of the schema validator *)
Definition EXTERNAL_SCHEMAS : list (string * json) :=
  [("https://example.com/people.json",
    JObj [("$schema", JStr "https://json-structure.org/meta/core/v0/#");
          ("$id", JStr "https://example.com/people.json");
          ("name", JStr "Person");
          ("type", JStr "object");
          ("properties",
           JObj [("firstName", JObj [("type", JStr "string")]);
                 ("lastName", JObj [("type", JStr "string")]);
                 ("address", JObj [("$ref", JStr "#/definitions/Address")])]);
          ("definitions",
           JObj [("Address",
                  JObj [("name", JStr "Address");
                        ("type", JStr "object");
                        ("properties",
                         JObj [("street", JObj [("type", JStr "string")]);
                               ("city", JObj [("type", JStr "string")])])])])]);
   ("https://example.com/address.json",
    JObj [("$schema", JStr "https://json-structure.org/meta/core/v0/#");
          ("$id", JStr "https://example.com/address.json");
          ("name", JStr "Address");
          ("type", JStr "object");
          ("properties",
           JObj [("street", JObj [("type", JStr "string")]);
                 ("city", JObj [("type", JStr "string")])])])].

(** [ext in self.KNOWN_EXTENSIONS] *)
Definition known (ext : val) : M bool :=
  match ext with
  | VStr s => ret (bool_decide (s ∈ KNOWN_EXTENSIONS))
  | VRef _ => raise TypeError
  | _ => ret false
  end.

(** [_check_enabled_extensions(doc)], on [self.enabled_extensions]. *)
Definition _check_enabled_extensions (doc : val) (enabled_extensions : gset string)
  : M (gset string) :=
  let* schema_uri := Py.get_default doc "$schema" (VStr "") in
  let* uses := Py.get_or_new doc "$uses" (OList []) in
  let* ext := Py.contains (VStr "extended") schema_uri in
  let* meta := if ext then ret true else Py.contains (VStr "validation") schema_uri in
  let* enabled :=
    if meta then
      let* v := Py.contains (VStr "validation") schema_uri in
      if v then
        ret ({[ "JSONStructureValidation" ]} ∪
             ({[ "JSONStructureConditionalComposition" ]} ∪ enabled_extensions))
      else ret enabled_extensions
    else ret enabled_extensions in
  let* h := get_heap in
  if Py.is_list h uses then
    let* it := Iter.enum uses in
    Iter.run_fold it (fun (acc : gset string) ix =>
      let* k := known (snd ix) in
      ret (false, match snd ix with
                  | VStr ext => if k then {[ ext ]} ∪ acc else acc
                  | _ => acc
                  end)) enabled
  else ret enabled.

(** The loop of [_check_json_pointer] over [parts[1:]]: the
    diagnostic it ends with, if any. *)
Fixpoint check_parts (h : heap) (cur : val) (parts : list string) (loc : string)
  : option diag :=
  match parts with
  | [] => None
  | p :: parts' =>
      let p := PyStr.unescape p in
      match Py.as_dict h cur with
      | Some d =>
          match Dict.get d p with
          | Some v => check_parts h v parts' loc
          | None => Some (EPointerSegmentNotFound p loc)
          end
      | None => Some (EPointerNonObject p loc)
      end
  end.

(** [_check_json_pointer(pointer, doc, path)] *)
Definition _check_json_pointer (pointer doc : val) (path : string) : M unit :=
  match pointer with
  | VStr p =>
      if negb (PyStr.startswith "#" p) then err (EPointerNoHash path)
      else
        let parts := PyStr.split "/" p in
        if String.eqb p "#" then ret tt
        else
          let* h := get_heap in
          match check_parts h doc (tail parts) path with
          | Some e => err e
          | None => ret tt
          end
  | _ => err (EPointerNotString path)
  end.

(** Lines 110-111 of [validate]: import expansion always runs. *)
Definition expand_imports (rt : Runtime) (fuel : nat) (doc : val)
    (allow_import : bool) (import_map : list (string * string)) : M unit :=
  Imports._process_imports allow_import
    (Imports._fetch_external_schema rt import_map EXTERNAL_SCHEMAS)
    fuel doc "#".

End Schema.

(** ** Running the validators on concrete documents *)

(** A runtime for the examples of this file, none of which reaches a
    library call: every regular expression is refused, no string is a
    number, a UUID or a URL, and no file can be loaded. *)
Definition offline_runtime : Runtime := {|
  rt_re_compile := fun _ => Some ReError;
  rt_re_match := fun _ _ => false;
  rt_re_search := fun _ _ => false;
  rt_int := fun _ => None;
  rt_float_ok := fun _ => false;
  rt_uuid_ok := fun _ => false;
  rt_url_scheme := fun _ => None;
  rt_order_lists := fun _ _ _ _ => None;
  rt_mod_nonzero := fun _ _ _ => None;
  rt_load_file := fun _ => None
|}.

(** The same runtime with files to load. *)
Definition file_runtime (files : list (string * json)) : Runtime := {|
  rt_re_compile := fun _ => Some ReError;
  rt_re_match := fun _ _ => false;
  rt_re_search := fun _ _ => false;
  rt_int := fun _ => None;
  rt_float_ok := fun _ => false;
  rt_uuid_ok := fun _ => false;
  rt_url_scheme := fun _ => None;
  rt_order_lists := fun _ _ _ _ => None;
  rt_mod_nonzero := fun _ _ _ => None;
  rt_load_file := Imports.assoc files
|}.

Definition empty_state : state := mkState [] [].

(** [validator = JSONStructureInstanceValidator(schema);
     validator.validate_instance(instance)] on freshly parsed documents:
    the outcome, with the final store and [self.errors]. *)
Definition run_validate (fuel : nat) (schema instance : json) : res unit :=
  (let* root := load schema in
   let* inst := load instance in
   Instance.init offline_runtime fuel root false [] ;;
   Instance.validate_instance offline_runtime root fuel inst root "#") empty_state.

(** The diagnostics of a run that returned. *)
Definition errors_of {A} (r : res A) : option (list diag) :=
  match r with Ret _ s => Some (st_errors s) | _ => None end.

(** The value of a run that returned. *)
Definition value_of {A} (r : res A) : option A :=
  match r with Ret a _ => Some a | _ => None end.



(** * Example documents *)

Module Docs.

(** The documents of [test_uses_addin_conflict]. *)
Definition conflict_schema : json :=
  JObj [("$schema", JStr "https://json-structure.org/meta/core/v0/#");
        ("$id", JStr "dummy");
        ("name", JStr "ConflictSchema");
        ("type", JStr "object");
        ("properties",
         JObj [("main", JObj [("type", JStr "string")]);
               ("extra", JObj [("type", JStr "string")])]);
        ("$offers",
         JObj [("Extra",
                JObj [("properties",
                       JObj [("extra", JObj [("type", JStr "number")])])])])].

Definition conflict_instance : json :=
  JObj [("main", JStr "hello"); ("$uses", JArr [JStr "Extra"]); ("extra", JInt 123)].

(** An object whose property [a] must be a string and whose property
    [b] is a union. *)
Definition union_schema : json :=
  JObj [("type", JStr "object");
        ("properties",
         JObj [("a", JObj [("type", JStr "string")]);
               ("b", JObj [("type", JArr [JStr "string"; JStr "number"])])])].

(** The same without [b]. *)
Definition no_union_schema : json :=
  JObj [("type", JStr "object");
        ("properties", JObj [("a", JObj [("type", JStr "string")])])].

Definition union_instance : json := JObj [("a", JInt 1); ("b", JStr "x")].

(** With conditional composition enabled: [b] under [anyOf], and the
    same without [b]. *)
Definition anyOf_schema : json :=
  JObj [("$uses", JArr [JStr "JSONStructureConditionalComposition"]);
        ("type", JStr "object");
        ("properties",
         JObj [("a", JObj [("type", JStr "string")]);
               ("b", JObj [("anyOf", JArr [JObj [("type", JStr "string")]])])])].
Definition no_anyOf_schema : json :=
  JObj [("$uses", JArr [JStr "JSONStructureConditionalComposition"]);
        ("type", JStr "object");
        ("properties", JObj [("a", JObj [("type", JStr "string")])])].

(** A root that names the "extended" meta of the schema validator's
    tests, and one that names the "validation" meta. *)
Definition extended_doc : json :=
  JObj [("$schema", JStr "https://json-structure.org/meta/extended/v0/#");
        ("$id", JStr "https://example.com/schema")].
Definition validation_doc : json :=
  JObj [("$schema", JStr "https://json-structure.org/meta/validation/v0/#");
        ("$id", JStr "https://example.com/schema")].

(** A schema whose [$ref] points back to itself. *)
Definition cyclic_schema : json :=
  JObj [("$ref", JStr "#/definitions/Loop");
        ("definitions",
         JObj [("Loop", JObj [("$ref", JStr "#/definitions/Loop")])])].

(** A string schema under the extended meta of the instance validator. *)
Definition extended_string_schema : json :=
  JObj [("$schema", JStr Instance.EXTENDED_META); ("type", JStr "string")].


(** A root that enables both add-ins in its own [$uses]: [b] is a
    union under [anyOf], [a] has a validation keyword; and an instance
    without [$uses]. *)
Definition addins_schema : json :=
  JObj [("$uses", JArr [JStr "JSONStructureConditionalComposition";
                        JStr "JSONStructureValidation"]);
        ("type", JStr "object");
        ("properties",
         JObj [("b", JObj [("anyOf", JArr [JObj [("type", JStr "string")];
                                           JObj [("type", JStr "int32")]])]);
               ("a", JObj [("type", JStr "string"); ("maxLength", JInt 1)])])].
Definition addins_instance : json := JObj [("a", JStr "xy"); ("b", JInt 7)].

(** A root that offers add-ins in the three forms -- [Extra] inline,
    [Tag] by [$ref], [Both] as a list of a reference and a schema --
    and one without [properties]; and an instance that uses them, a
    reserved name and a name that is not offered. *)
Definition offers_schema : json :=
  JObj [("type", JStr "object");
        ("properties",
         JObj [("main", JObj [("type", JStr "string")]);
               ("extra", JObj [("type", JStr "string")])]);
        ("definitions",
         JObj [("Tagged",
                JObj [("type", JStr "object");
                      ("properties",
                       JObj [("tag", JObj [("type", JStr "string")]);
                             ("extra", JObj [("type", JStr "boolean")])])])]);
        ("$offers",
         JObj [("Extra",
                JObj [("properties", JObj [("extra", JObj [("type", JStr "number")])])]);
               ("Tag", JObj [("$ref", JStr "#/definitions/Tagged")]);
               ("Both",
                JArr [JStr "#/definitions/Tagged";
                      JObj [("properties", JObj [("main", JObj [("type", JStr "int32")])])]]);
               ("Bare", JObj [("type", JStr "object")]);
               ("Bad", JInt 5)])].
Definition offers_instance : json :=
  JObj [("$uses", JArr [JStr "Extra"; JStr "JSONStructureValidation"; JStr "Tag";
                        JStr "Bare"; JStr "Both"; JStr "Missing"; JStr "Bad"]);
        ("extra", JInt 1)].

(** A tuple of two properties. *)
Definition tuple_schema : json :=
  JObj [("type", JStr "tuple");
        ("name", JStr "tupleSchema");
        ("properties",
         JObj [("first", JObj [("type", JStr "string")]);
               ("second", JObj [("type", JStr "int32")])]);
        ("tuple", JArr [JStr "first"; JStr "second"])].

(** An external document that has [name] and [type], and whose
    [definitions] has an entry under that very name. *)
Definition named_external : json :=
  JObj [("name", JStr "Address");
        ("type", JStr "object");
        ("properties", JObj [("street", JObj [("type", JStr "string")])]);
        ("definitions",
         JObj [("Address", JObj [("type", JStr "string")]);
               ("Zip", JObj [("type", JStr "int32")])])].

(** A schema that imports it, and keeps a [Zip] of its own. *)
Definition importing_schema : json :=
  JObj [("$schema", JStr "https://json-structure.org/meta/core/v0/#");
        ("$id", JStr "https://example.com/schema/importer");
        ("type", JStr "object");
        ("properties", JObj [("home", JObj [("$ref", JStr "#/definitions/Address")])]);
        ("definitions",
         JObj [("$import", JStr "https://example.com/address.json");
               ("Zip", JObj [("type", JStr "string")])])].

Definition import_files : list (string * json) := [("address.json", named_external)].
Definition import_map : list (string * string) :=
  [("https://example.com/address.json", "address.json")].

(** A document with nested objects, for pointers. *)
Definition pointer_doc : json :=
  JObj [("a", JObj [("b", JInt 1)]); ("c/d", JObj [("~e", JInt 2)])].

End Docs.

(** * Properties *)

(** ** The monad *)

Lemma bind_Ret {A B} (m : M A) (k : A -> M B) (s s1 : state) (a : A) :
  m s = Ret a s1 -> bind m k s = k a s1.
Proof. intros H. unfold bind. now rewrite H. Qed.

Lemma bind_Exn {A B} (m : M A) (k : A -> M B) (s s1 : state) (e : exn) :
  m s = Exn e s1 -> bind m k s = Exn e s1.
Proof. intros H. unfold bind. now rewrite H. Qed.

Lemma bind_Diverge {A B} (m : M A) (k : A -> M B) (s : state) :
  m s = Diverge -> bind m k s = Diverge.
Proof. intros H. unfold bind. now rewrite H. Qed.

Lemma bind_ret_l {A B} (a : A) (k : A -> M B) (s : state) :
  bind (ret a) k s = k a s.
Proof. reflexivity. Qed.

Lemma bind_assoc {A B C} (m : M A) (k1 : A -> M B) (k2 : B -> M C) (s : state) :
  bind (bind m k1) k2 s = bind m (fun x => bind (k1 x) k2) s.
Proof. unfold bind. destruct (m s); reflexivity. Qed.

Lemma bind_Ret_inv {A B} (m : M A) (k : A -> M B) (s s' : state) (b : B) :
  bind m k s = Ret b s' -> exists a s1, m s = Ret a s1 /\ k a s1 = Ret b s'.
Proof.
  unfold bind. destruct (m s) as [a s1| |]; [eauto | discriminate | discriminate].
Qed.

(** ** Pointer resolution *)

Module Pointer.

(** Follows the spec's words (4.1): "traverse objects by key.
    Non-object segments yield not-found." *)
Fixpoint traverse (h : heap) (cur : val) (segments : list string) : option val :=
  match segments with
  | [] => Some cur
  | seg :: rest =>
      match Py.as_dict h cur with
      | Some d =>
          match Dict.get d seg with
          | Some v => traverse h v rest
          | None => None
          end
      | None => None
      end
  end.

(** Follows the spec's words (4.1): "Split the suffix on [/], unescape
    [~1] to [/] and [~0] to [~] in that order in each segment"; a
    segment is what follows a [/]. *)
Definition segments_of (suffix : string) : list string :=
  PyStr.unescape <$> tail (PyStr.split "/" suffix).

(** Follows the spec's words (4.1): the sub-value found, or not-found. *)
Definition resolve_spec (h : heap) (root : val) (suffix : string) : option val :=
  traverse h root (segments_of suffix).

Definition nonempty (s : string) : bool := negb (String.eqb s "").

Lemma split_not_nil (sep : ascii) (s : string) : PyStr.split sep s <> [].
Proof.
  induction s as [|c t IH]; simpl; [discriminate|].
  destruct (Ascii.eqb c sep); [discriminate|].
  destruct (PyStr.split sep t); [contradiction | discriminate].
Qed.

Lemma split_hash_tail (suffix : string) :
  tail (PyStr.split "/" (String "#" suffix)) = tail (PyStr.split "/" suffix).
Proof.
  simpl. destruct (PyStr.split "/" suffix) eqn:E; [|reflexivity].
  now apply split_not_nil in E.
Qed.

Lemma resolve_parts_traverse (h : heap) (parts : list string) (target : val) :
  Instance.resolve_parts h target parts =
  default VNone (traverse h target (PyStr.unescape <$> List.filter nonempty parts)).
Proof.
  revert target. induction parts as [|p parts IH]; intros target; simpl; [reflexivity|].
  unfold nonempty at 1.
  destruct (String.eqb p "") eqn:E; simpl.
  - apply IH.
  - destruct (Py.as_dict h target) as [d|]; [|reflexivity].
    destruct (Dict.get d (PyStr.unescape p)); [apply IH | reflexivity].
Qed.

Lemma check_parts_traverse (h : heap) (parts : list string) (cur : val) (loc : string) :
  Schema.check_parts h cur parts loc = None <->
  is_Some (traverse h cur (PyStr.unescape <$> parts)).
Proof.
  revert cur. induction parts as [|p parts IH]; intros cur; simpl.
  - split; eauto.
  - destruct (Py.as_dict h cur) as [d|].
    + destruct (Dict.get d (PyStr.unescape p)); [apply IH|].
      split; [discriminate | intros [? ?]; discriminate].
    + split; [discriminate | intros [? ?]; discriminate].
Qed.

End Pointer.

(** A freshly parsed document: its value and the store holding it. *)
Definition loaded (j : json) : val * state :=
  match load j empty_state with
  | Ret v s => (v, s)
  | _ => (VNone, empty_state)
  end.

(** C8, as stated, fails on the instance validator: in [#/a//b] the
    second segment is empty and is no key of the object reached, so
    resolution should report not-found (and the schema validator's
    pointer check does); [_resolve_ref] skips the empty segment and
    returns a value. *)
Lemma resolve_ref_skips_empty_segment :
  let (root, s) := loaded Docs.pointer_doc in
  Pointer.resolve_spec (st_heap s) root "/a//b" = None /\
  Instance._resolve_ref root (VStr "#/a//b") s = Ret (VInt 1) s /\
  Schema._check_json_pointer (VStr "#/a//b") root "#/$root" s =
    Ret tt (mkState (st_heap s) [EPointerSegmentNotFound "" "#/$root"]).
Proof. vm_compute. repeat split. Qed.

(** C8, amended.  For every pointer [#suffix]:
    the instance validator's [_resolve_ref] strips every leading [#],
    splits the rest on [/], skips the empty segments, unescapes [~1]
    then [~0] in each remaining one and traverses objects by key from
    the root; it returns [None] as soon as the value reached is not an
    object with that key, and the root itself for [#].
    The schema validator's [_check_json_pointer] takes as segments what
    follows each [/] (empty segments included), unescapes them likewise,
    and emits a diagnostic exactly when the traversal by key fails. *)
Theorem pointer_resolution (root : val) (suffix : string) (s : state) :
  Instance._resolve_ref root (VStr "#") s = Ret root s /\
  Instance._resolve_ref root (VStr ("#" +:+ suffix)) s =
    Ret (default VNone
           (Pointer.traverse (st_heap s) root
              (PyStr.unescape <$>
                 List.filter Pointer.nonempty
                   (PyStr.split "/" (PyStr.lstrip "#" suffix))))) s /\
  forall loc : string,
    exists es : list diag,
      Schema._check_json_pointer (VStr ("#" +:+ suffix)) root loc s =
        Ret tt (mkState (st_heap s) (st_errors s ++ es)) /\
      (es = [] <-> is_Some (Pointer.resolve_spec (st_heap s) root suffix)).
Proof.
  split; [reflexivity|]. split.
  - unfold Instance._resolve_ref.
    change ("#" +:+ suffix) with (String "#" suffix).
    change (PyStr.startswith "#" (String "#" suffix)) with true.
    change (PyStr.lstrip "#" (String "#" suffix)) with (PyStr.lstrip "#" suffix).
    cbn [negb]. unfold bind, get_heap, ret.
    now rewrite Pointer.resolve_parts_traverse.
  - intros loc. unfold Schema._check_json_pointer, Pointer.resolve_spec,
      Pointer.segments_of.
    change ("#" +:+ suffix) with (String "#" suffix).
    change (PyStr.startswith "#" (String "#" suffix)) with true. cbn [negb].
    rewrite Pointer.split_hash_tail.
    destruct (String.eqb (String "#" suffix) "#") eqn:E.
    + apply String.eqb_eq in E. injection E as ->.
      exists []. rewrite app_nil_r. destruct s. simpl. split; [reflexivity|].
      split; eauto.
    + unfold bind, get_heap.
      destruct (Schema.check_parts (st_heap s) root (tail (PyStr.split "/" suffix)) loc)
        as [e|] eqn:C.
      * exists [e]. split; [reflexivity|]. split; [discriminate|].
        intros H. apply (Pointer.check_parts_traverse _ _ _ loc) in H. congruence.
      * exists []. rewrite app_nil_r. destruct s. simpl. split; [reflexivity|].
        split; [|reflexivity]. intros _. now apply (Pointer.check_parts_traverse _ _ _ loc).
Qed.

(** ** Diagnostics are lost when a union alternative matches *)

(** C2 fails on the code.  With one diagnostic in the buffer, validating
    ["x"] against the union [["string", "number"]] returns with an empty
    buffer: the loop leaves by [break] before [self.errors = backup].
    The instance [{"a": 1, "b": "x"}] is therefore accepted by a schema
    that requires [a] to be a string.  The [anyOf] loop leaves in the
    same way, with the same effect. *)
Theorem union_match_discards_buffer :
  value_of
    ((let* schema := load (JObj [("type", JArr [JStr "string"; JStr "number"])]) in
      err (EExpected "string" "#/a" "int") ;;
      let* before := get_errors in
      Instance.validate_instance offline_runtime schema 3 (VStr "x") schema "#/b" ;;
      let* after := get_errors in
      ret (before, after)) empty_state)
  = Some ([EExpected "string" "#/a" "int"], []) /\
  errors_of (run_validate 4 Docs.no_union_schema Docs.union_instance)
  = Some [EExpected "string" "#/a" "int"] /\
  errors_of (run_validate 4 Docs.union_schema Docs.union_instance) = Some [] /\
  errors_of (run_validate 4 Docs.no_anyOf_schema Docs.union_instance)
  = Some [EExpected "string" "#/a" "int"] /\
  errors_of (run_validate 4 Docs.anyOf_schema Docs.union_instance) = Some [].
Proof. vm_compute. repeat split. Qed.

(** ** Extensions enabled by the schema validator *)

(** C3 fails on the code for the "extended" meta: a document whose
    [$schema] names it, checked from an empty set, enables nothing. *)
Theorem extended_meta_enables_nothing :
  value_of
    ((let* doc := load Docs.extended_doc in
      Schema._check_enabled_extensions doc ∅) empty_state)
  = Some ∅.
Proof. vm_compute. reflexivity. Qed.

(** The "validation" half of C3 on the test document. *)
Example validation_meta_enables_both :
  (elements <$> value_of
    ((let* doc := load Docs.validation_doc in
      Schema._check_enabled_extensions doc ∅) empty_state))
  = Some ["JSONStructureConditionalComposition"; "JSONStructureValidation"].
Proof. vm_compute. reflexivity. Qed.

(** ** Add-ins *)

(** C1, as stated, fails: on the documents of [test_uses_addin_conflict]
    the conflict is diagnosed, but afterwards the effective schema's
    property [extra] is the add-in's [{"type": "number"}], not the
    existing [{"type": "string"}]; the instance, whose [extra] is [123],
    gets no type diagnostic. *)
Lemma addin_property_replaces_existing :
  value_of
    ((let* root := load Docs.conflict_schema in
      let* inst := load Docs.conflict_instance in
      let* props := Py.item root "properties" in
      let* existing := Py.item props "extra" in
      let* merged := Instance._apply_uses root root inst in
      let* merged_props := Py.item merged "properties" in
      let* effective := Py.item merged_props "extra" in
      let* t_existing := Py.item existing "type" in
      let* t_effective := Py.item effective "type" in
      let* es := get_errors in
      ret (t_existing, t_effective, es)) empty_state)
  = Some (VStr "string", VStr "number", [EAddinConflict (VStr "extra") (VStr "Extra")]) /\
  errors_of (run_validate 3 Docs.conflict_schema Docs.conflict_instance)
  = Some [EAddinConflict (VStr "extra") (VStr "Extra")].
Proof. vm_compute. split; reflexivity. Qed.

(** ** [$ref] chains *)

Lemma validate_instance_S (rt : Runtime) (root : val) (n : nat)
    (instance schema : val) (path : string) :
  Instance.validate_instance rt root (S n) instance schema path =
  Instance.validate_body rt root (Instance.validate_instance rt root n)
    instance schema path.
Proof. reflexivity. Qed.

Lemma cyclic_schema_diverges (fuel : nat) (schema : val) :
  schema = VRef 2 \/ schema = VRef 0 ->
  Instance.validate_instance offline_runtime (VRef 2) fuel (VInt 1) schema "#"
    (snd (loaded Docs.cyclic_schema)) = Diverge.
Proof.
  revert schema. induction fuel as [|n IH]; intros schema Hs; [reflexivity|].
  rewrite validate_instance_S.
  destruct Hs as [-> | ->]; cbv -[Instance.validate_instance]; apply IH; auto.
Qed.

(** C4, as stated, fails: on a schema whose [$ref] points back to
    itself, no amount of fuel makes [validate_instance] return, with a
    cycle diagnostic or otherwise. *)
Lemma cyclic_ref_never_returns :
  ~ exists fuel : nat, run_validate fuel Docs.cyclic_schema (JInt 1) <> Diverge.
Proof.
  intros [fuel H]. apply H.
  change (run_validate fuel Docs.cyclic_schema (JInt 1))
    with (Instance.validate_instance offline_runtime (VRef 2) fuel (VInt 1) (VRef 2) "#"
            (snd (loaded Docs.cyclic_schema))).
  apply cyclic_schema_diverges. auto.
Qed.

(** ** What [validate_instance] changes in the store *)

(** C5, as stated, fails: under the extended meta the root schema has
    no [$uses] before the call and a [$uses] array of four names after
    it. *)
Lemma extended_meta_adds_uses_to_root :
  value_of
    ((let* root := load Docs.extended_string_schema in
      let* before := Py.has_key "$uses" root in
      Instance.validate_instance offline_runtime root 2 (VStr "x") root "#" ;;
      let* after := Py.has_key "$uses" root in
      let* uses := Py.item root "$uses" in
      let* n := Py.len uses in
      let* es := get_errors in
      ret (before, after, n, es)) empty_state)
  = Some (false, true, 4%nat, []).
Proof. vm_compute. reflexivity. Qed.

(** ** [oneOf] *)


(** ** Imports *)

(** C9, as stated, fails: the fetched document has [name] ("Address")
    and [type] ("object"), yet what ends up under [Address] is the entry
    of that name in its [definitions] (of type "string"), not the
    fetched document.  The key [Zip], already present, keeps its value,
    and [$import] is gone. *)
Lemma import_definitions_entry_replaces_document :
  value_of
    ((let* root := load Docs.importing_schema in
      Instance.init (file_runtime Docs.import_files) 4 root true Docs.import_map ;;
      let* defs := Py.item root "definitions" in
      let* address := Py.item defs "Address" in
      let* t := Py.item address "type" in
      let* zip := Py.item defs "Zip" in
      let* tz := Py.item zip "type" in
      let* still := Py.has_key "$import" defs in
      let* es := get_errors in
      ret (t, tz, still, es)) empty_state)
  = Some (VStr "string", VStr "string", false, []).
Proof. vm_compute. reflexivity. Qed.

(** ** Reading the store *)

Lemma as_dict_inv (h : heap) (v : val) (d : pydict) :
  Py.as_dict h v = Some d -> exists a, v = VRef a /\ h !! a = Some (ODict d).
Proof.
  unfold Py.as_dict, Py.deref. destruct v as [| | | | |a]; try discriminate.
  destruct (h !! a) as [[d'|l]|] eqn:E; try discriminate.
  intros [= <-]. eauto.
Qed.

Lemma as_list_inv (h : heap) (v : val) (l : list val) :
  Py.as_list h v = Some l -> exists a, v = VRef a /\ h !! a = Some (OList l).
Proof.
  unfold Py.as_list, Py.deref. destruct v as [| | | | |a]; try discriminate.
  destruct (h !! a) as [[d'|l']|] eqn:E; try discriminate.
  intros [= <-]. eauto.
Qed.

Lemma or_root_dict (h : heap) (root schema : val) (d : pydict) :
  Py.as_dict h schema = Some d -> Instance.or_root root schema = schema.
Proof. intros H. destruct (as_dict_inv _ _ _ H) as (a & -> & _). reflexivity. Qed.

Lemma as_dict_ref (h : heap) (a : addr) (d : pydict) :
  h !! a = Some (ODict d) -> Py.as_dict h (VRef a) = Some d.
Proof. intros H. unfold Py.as_dict, Py.deref. now rewrite H. Qed.

Lemma as_list_ref (h : heap) (a : addr) (l : list val) :
  h !! a = Some (OList l) -> Py.as_list h (VRef a) = Some l.
Proof. intros H. unfold Py.as_list, Py.deref. now rewrite H. Qed.

Lemma is_dict_as_dict (h : heap) (v : val) (d : pydict) :
  Py.as_dict h v = Some d -> Py.is_dict h v = true.
Proof. intros H. unfold Py.is_dict. now rewrite H. Qed.

Lemma as_dict_not_list (h : heap) (v : val) (d : pydict) :
  Py.as_dict h v = Some d -> Py.as_list h v = None.
Proof.
  intros H. destruct (as_dict_inv _ _ _ H) as (a & -> & Ha).
  unfold Py.as_list, Py.deref. now rewrite Ha.
Qed.

Lemma as_list_not_dict (h : heap) (v : val) (l : list val) :
  Py.as_list h v = Some l -> Py.as_dict h v = None.
Proof.
  intros H. destruct (as_list_inv _ _ _ H) as (a & -> & Ha).
  unfold Py.as_dict, Py.deref. now rewrite Ha.
Qed.

Lemma has_key_dict (s : state) (v : val) (d : pydict) (k : string) :
  Py.as_dict (st_heap s) v = Some d -> Py.has_key k v s = Ret (Dict.mem d k) s.
Proof.
  intros H. destruct (as_dict_inv _ _ _ H) as (a & -> & Ha).
  unfold Py.has_key, Py.contains, bind, get_heap, ret. now rewrite Ha.
Qed.

Lemma has_key_absent (s : state) (v : val) (d : pydict) (k : string) :
  Py.as_dict (st_heap s) v = Some d -> Dict.get d k = None ->
  Py.has_key k v s = Ret false s.
Proof.
  intros H G. rewrite (has_key_dict _ _ _ _ H). unfold Dict.mem. now rewrite G.
Qed.

Lemma has_key_present (s : state) (v x : val) (d : pydict) (k : string) :
  Py.as_dict (st_heap s) v = Some d -> Dict.get d k = Some x ->
  Py.has_key k v s = Ret true s.
Proof.
  intros H G. rewrite (has_key_dict _ _ _ _ H). unfold Dict.mem. now rewrite G.
Qed.

Lemma get_absent (s : state) (v : val) (d : pydict) (k : string) :
  Py.as_dict (st_heap s) v = Some d -> Dict.get d k = None ->
  Py.get v k s = Ret VNone s.
Proof. intros H G. unfold Py.get, bind, get_heap, ret. now rewrite H, G. Qed.

Lemma get_present (s : state) (v x : val) (d : pydict) (k : string) :
  Py.as_dict (st_heap s) v = Some d -> Dict.get d k = Some x ->
  Py.get v k s = Ret x s.
Proof. intros H G. unfold Py.get, bind, get_heap, ret. now rewrite H, G. Qed.

Lemma get_dict (s : state) (v : val) (d : pydict) (k : string) :
  Py.as_dict (st_heap s) v = Some d ->
  Py.get v k s = Ret (default VNone (Dict.get d k)) s.
Proof. intros H. unfold Py.get, bind, get_heap, ret. now rewrite H. Qed.

Lemma item_dict (s : state) (v x : val) (d : pydict) (k : string) :
  Py.as_dict (st_heap s) v = Some d -> Dict.get d k = Some x ->
  Py.item v k s = Ret x s.
Proof.
  intros H G. unfold Py.item, bind, get_heap, ret, Py.lift_opt. now rewrite H, G.
Qed.

Lemma get_or_new_present (s : state) (v x : val) (d : pydict) (k : string) (o : obj) :
  Py.as_dict (st_heap s) v = Some d -> Dict.get d k = Some x ->
  Py.get_or_new v k o s = Ret x s.
Proof.
  intros H G. unfold Py.get_or_new, bind, get_heap, ret. now rewrite H, G.
Qed.

Lemma mem_get_None (d : pydict) (k : string) :
  Dict.mem d k = false <-> Dict.get d k = None.
Proof. unfold Dict.mem. destruct (Dict.get d k); split; congruence. Qed.

Lemma mem_get_Some (d : pydict) (k : string) :
  Dict.mem d k = true <-> is_Some (Dict.get d k).
Proof.
  unfold Dict.mem. destruct (Dict.get d k); split; eauto; try discriminate.
  intros [? ?]; discriminate.
Qed.

(** Comparing anything with a string never recurses. *)
Lemma eq_fuel_str (n : nat) (h : heap) (v : val) (x : string) :
  Py.eq_fuel (S n) h v (VStr x) =
  Some (match v with VStr y => String.eqb y x | _ => false end).
Proof. destruct v; reflexivity. Qed.

Lemma list_mem_str (n : nat) (h : heap) (x : string) (l : list val) :
  Py.list_mem (Py.eq_fuel (S n) h) (VStr x) l =
  Some (existsb (fun v => match v with VStr y => String.eqb y x | _ => false end) l).
Proof.
  induction l as [|e l IH]; [reflexivity|].
  cbn [Py.list_mem existsb]. rewrite eq_fuel_str.
  destruct e; cbn [orb]; try exact IH.
  destruct (String.eqb s x); [reflexivity | exact IH].
Qed.

(** [x in l] for a string [x] and a list object. *)
Lemma contains_str_list (s : state) (v : val) (l : list val) (x : string) :
  Py.as_list (st_heap s) v = Some l ->
  Py.contains (VStr x) v s =
  Ret (existsb (fun v => match v with VStr y => String.eqb y x | _ => false end) l) s.
Proof.
  intros H. destruct (as_list_inv _ _ _ H) as (a & -> & Ha).
  unfold Py.contains, bind, get_heap. rewrite Ha, list_mem_str. reflexivity.
Qed.

Lemma get_set_eq (d : pydict) (k : string) (v : val) :
  Dict.get (Dict.set d k v) k = Some v.
Proof.
  induction d as [|[k' v'] d IH]; simpl.
  - now rewrite String.eqb_refl.
  - destruct (String.eqb k' k) eqn:E; simpl; rewrite E; [reflexivity | exact IH].
Qed.

Lemma get_set_ne (d : pydict) (k k' : string) (v : val) :
  k <> k' -> Dict.get (Dict.set d k v) k' = Dict.get d k'.
Proof.
  intros N. induction d as [|[k0 v0] d IH]; simpl.
  - destruct (String.eqb k k') eqn:E; [|reflexivity].
    apply String.eqb_eq in E. contradiction.
  - destruct (String.eqb k0 k) eqn:E; simpl.
    + apply String.eqb_eq in E. subst k0.
      destruct (String.eqb k k') eqn:E'; [|reflexivity].
      apply String.eqb_eq in E'. contradiction.
    + destruct (String.eqb k0 k'); [reflexivity | exact IH].
Qed.

(** ** Reading the store after an update *)

Lemma deref_app (h : heap) (o o' : obj) (v : val) :
  Py.deref h v = Some o -> Py.deref (h ++ [o']) v = Some o.
Proof.
  destruct v as [| | | | |a]; try discriminate. unfold Py.deref. intros H.
  rewrite lookup_app_l; [exact H | eapply lookup_lt_Some; eauto].
Qed.

Lemma as_dict_app (h : heap) (o : obj) (v : val) (d : pydict) :
  Py.as_dict h v = Some d -> Py.as_dict (h ++ [o]) v = Some d.
Proof.
  unfold Py.as_dict. destruct (Py.deref h v) as [o'|] eqn:E; [|discriminate].
  now rewrite (deref_app _ _ _ _ E).
Qed.

Lemma as_list_app (h : heap) (o : obj) (v : val) (l : list val) :
  Py.as_list h v = Some l -> Py.as_list (h ++ [o]) v = Some l.
Proof.
  unfold Py.as_list. destruct (Py.deref h v) as [o'|] eqn:E; [|discriminate].
  now rewrite (deref_app _ _ _ _ E).
Qed.

Lemma as_dict_new (h : heap) (d : pydict) :
  Py.as_dict (h ++ [ODict d]) (VRef (List.length h)) = Some d.
Proof.
  unfold Py.as_dict, Py.deref. now rewrite list_lookup_middle.
Qed.

Lemma as_list_new (h : heap) (l : list val) :
  Py.as_list (h ++ [OList l]) (VRef (List.length h)) = Some l.
Proof.
  unfold Py.as_list, Py.deref. now rewrite list_lookup_middle.
Qed.

Lemma as_dict_insert_ne (h : heap) (a : addr) (o : obj) (v : val) :
  v <> VRef a -> Py.as_dict (<[a := o]> h) v = Py.as_dict h v.
Proof.
  intros N. destruct v as [| | | | |b]; try reflexivity.
  unfold Py.as_dict, Py.deref. rewrite list_lookup_insert_ne; [reflexivity | congruence].
Qed.

Lemma as_list_insert_ne (h : heap) (a : addr) (o : obj) (v : val) :
  v <> VRef a -> Py.as_list (<[a := o]> h) v = Py.as_list h v.
Proof.
  intros N. destruct v as [| | | | |b]; try reflexivity.
  unfold Py.as_list, Py.deref. rewrite list_lookup_insert_ne; [reflexivity | congruence].
Qed.

Lemma as_dict_insert_eq (h : heap) (a : addr) (o : obj) (d : pydict) :
  h !! a = Some o -> Py.as_dict (<[a := ODict d]> h) (VRef a) = Some d.
Proof.
  intros H. unfold Py.as_dict, Py.deref.
  rewrite list_lookup_insert_eq; [reflexivity | eapply lookup_lt_Some; eauto].
Qed.

Lemma as_list_insert_eq (h : heap) (a : addr) (o : obj) (l : list val) :
  h !! a = Some o -> Py.as_list (<[a := OList l]> h) (VRef a) = Some l.
Proof.
  intros H. unfold Py.as_list, Py.deref.
  rewrite list_lookup_insert_eq; [reflexivity | eapply lookup_lt_Some; eauto].
Qed.

(** Replacing a list by a list leaves every dict as it is and every
    list a list. *)
Lemma as_dict_insert_list (h : heap) (n : addr) (l l' : list val) (v : val) :
  h !! n = Some (OList l) -> Py.as_dict (<[n := OList l']> h) v = Py.as_dict h v.
Proof.
  intros H. destruct v as [| | | | |b]; try reflexivity.
  destruct (decide (b = n)) as [->|N].
  - unfold Py.as_dict, Py.deref.
    rewrite list_lookup_insert_eq by (eapply lookup_lt_Some; eauto). now rewrite H.
  - apply as_dict_insert_ne. congruence.
Qed.

Lemma as_list_insert_list (h : heap) (n : addr) (l l' : list val) (v : val) :
  h !! n = Some (OList l) -> is_Some (Py.as_list h v) ->
  is_Some (Py.as_list (<[n := OList l']> h) v).
Proof.
  intros H [l0 Hv]. destruct (as_list_inv _ _ _ Hv) as (b & -> & Hb).
  destruct (decide (b = n)) as [->|N].
  - erewrite as_list_insert_eq; eauto.
  - rewrite as_list_insert_ne by congruence. eauto.
Qed.

(** Replacing a dict by a dict leaves every list as it is. *)
Lemma as_list_insert_dict (h : heap) (a : addr) (d d' : pydict) (v : val) :
  h !! a = Some (ODict d) -> Py.as_list (<[a := ODict d']> h) v = Py.as_list h v.
Proof.
  intros H. destruct v as [| | | | |b]; try reflexivity.
  destruct (decide (b = a)) as [->|N].
  - unfold Py.as_list, Py.deref.
    rewrite list_lookup_insert_eq by (eapply lookup_lt_Some; eauto). now rewrite H.
  - apply as_list_insert_ne. congruence.
Qed.

(** ** The first lines of [validate_instance] *)

Module Preamble.

(** The [$uses] of a dict is absent or a list. *)
Definition uses_ok (h : heap) (d : pydict) : Prop :=
  match Dict.get d "$uses" with
  | None => True
  | Some u => is_Some (Py.as_list h u)
  end.

(** A step that changes the store but keeps every list a list and
    every dict a dict with the same entries, except that the schema
    may gain a [$uses] list. *)
Definition grows (schema : val) (h h' : heap) : Prop :=
  (forall v l, Py.as_list h v = Some l -> is_Some (Py.as_list h' v)) /\
  (forall v d, Py.as_dict h v = Some d -> v <> schema -> Py.as_dict h' v = Some d) /\
  (forall d, Py.as_dict h schema = Some d ->
     Py.as_dict h' schema = Some d \/
     exists u, Dict.get d "$uses" = None /\ is_Some (Py.as_list h' u) /\
               Py.as_dict h' schema = Some (Dict.set d "$uses" u)).

Lemma grows_refl (schema : val) (h : heap) : grows schema h h.
Proof. repeat split; eauto. Qed.

Lemma uses_ok_grows (schema : val) (h h' : heap) (d : pydict) :
  grows schema h h' -> uses_ok h d -> uses_ok h' d.
Proof.
  intros (Hl & _ & _). unfold uses_ok. destruct (Dict.get d "$uses"); [|auto].
  intros [l Hu]. eauto.
Qed.

(** Appending to a list keeps [grows]. *)
Lemma grows_append (schema : val) (h h' : heap) (n : addr) (l l' : list val) :
  grows schema h h' -> h' !! n = Some (OList l) ->
  grows schema h (<[n := OList l']> h').
Proof.
  intros (Gl & Gd & Gs) Hn. split; [|split].
  - intros v l0 Hv. eapply as_list_insert_list; eauto.
  - intros v d Hv N. erewrite as_dict_insert_list; eauto.
  - intros d Hd. destruct (Gs d Hd) as [H | (u & Hu & Hl & H)].
    + left. erewrite as_dict_insert_list; eauto.
    + right. exists u. split; [exact Hu|]. split.
      * eapply as_list_insert_list; eauto.
      * erewrite as_dict_insert_list; eauto.
Qed.

(** [schema.setdefault("$uses", [])] on a schema without [$uses]. *)
Lemma grows_setdefault (h : heap) (a : addr) (d : pydict) :
  h !! a = Some (ODict d) -> Dict.get d "$uses" = None ->
  grows (VRef a) h
    (<[a := ODict (Dict.set d "$uses" (VRef (List.length h)))]> (h ++ [OList []])).
Proof.
  intros Ha Hu.
  assert (Ha' : (h ++ [OList []]) !! a = Some (ODict d)).
  { rewrite lookup_app_l; [exact Ha | eapply lookup_lt_Some; eauto]. }
  assert (Hn : VRef (List.length h) <> VRef a).
  { intros [= E]. rewrite <- E in Ha'. rewrite list_lookup_middle in Ha' by reflexivity.
    discriminate. }
  split; [|split].
  - intros v l Hv. erewrite as_list_insert_dict by eauto.
    erewrite as_list_app; eauto.
  - intros v d' Hv N. rewrite as_dict_insert_ne by exact N. now apply as_dict_app.
  - intros d' Hd'. rewrite (as_dict_ref _ _ _ Ha) in Hd'. injection Hd' as <-.
    right. exists (VRef (List.length h)). split; [exact Hu|]. split.
    + rewrite as_list_insert_ne by exact Hn. rewrite as_list_new. eauto.
    + eapply as_dict_insert_eq; eauto.
Qed.

Lemma root_meta_is_ret (root : val) (uri : string) (s : state) (rd : pydict) :
  Py.as_dict (st_heap s) root = Some rd ->
  Instance.root_meta_is root uri s =
  Ret (match default VNone (Dict.get rd "$schema") with
       | VStr y => String.eqb y uri
       | _ => false
       end) s.
Proof.
  intros H. unfold Instance.root_meta_is.
  rewrite (bind_Ret _ _ _ _ _ (get_dict _ _ _ _ H)).
  unfold Py.eq, Py.eq_pure, bind, get_heap. now rewrite eq_fuel_str.
Qed.

(** [v] is the [$uses] of the schema. *)
Definition is_uses_of (h : heap) (schema v : val) : Prop :=
  exists d, Py.as_dict h schema = Some d /\ Dict.get d "$uses" = Some v.

(** Every list but the schema's [$uses] keeps its items. *)
Definition keeps (schema : val) (h h' : heap) : Prop :=
  forall v l, Py.as_list h v = Some l -> ~ is_uses_of h schema v ->
              Py.as_list h' v = Some l.

(** What the loop over [all_addins] maintains. *)
Definition uses_is_list (schema : val) (h0 : heap) (es : list diag) (s : state) : Prop :=
  st_errors s = es /\ grows schema h0 (st_heap s) /\ keeps schema h0 (st_heap s) /\
  exists d u, Py.as_dict (st_heap s) schema = Some d /\
              Dict.get d "$uses" = Some u /\ is_Some (Py.as_list (st_heap s) u) /\
              (is_uses_of h0 schema u \/ Py.as_list h0 u = None).

Lemma append_if_absent (schema : val) (h0 : heap) (es : list diag) (addin : string)
    (s : state) :
  uses_is_list schema h0 es s ->
  exists s',
    (let* uses := Py.item schema "$uses" in
     let* present := Py.contains (VStr addin) uses in
     when (negb present) (
       let* uses := Py.item schema "$uses" in
       Py.append uses (VStr addin))) s = Ret tt s' /\
    uses_is_list schema h0 es s'.
Proof.
  intros (He & G & K & d & u & Hd & Hu & [l Hl] & Ho).
  rewrite (bind_Ret _ _ _ _ _ (item_dict _ _ _ _ _ Hd Hu)).
  rewrite (bind_Ret _ _ _ _ _ (contains_str_list _ _ _ _ Hl)).
  destruct (existsb _ l); cbn [negb when].
  - exists s. split; [reflexivity|]. split; [exact He|]. split; [exact G|].
    split; [exact K|]. exists d, u. eauto.
  - rewrite (bind_Ret _ _ _ _ _ (item_dict _ _ _ _ _ Hd Hu)).
    destruct (as_list_inv _ _ _ Hl) as (n & -> & Hn).
    unfold Py.append, bind, get_heap, store. rewrite Hl.
    eexists. split; [reflexivity|]. unfold uses_is_list. cbn [st_heap st_errors].
    split; [exact He|]. split; [eapply grows_append; eauto|]. split.
    + intros v l0 Hv Nv. rewrite as_list_insert_ne; [auto|].
      intros ->. destruct Ho as [Ho | Ho]; [contradiction | congruence].
    + exists d, (VRef n). split; [|split; [exact Hu|split; [|exact Ho]]].
      * erewrite as_dict_insert_list; eauto.
      * erewrite as_list_insert_eq; eauto.
Qed.

Lemma addins_loop (schema : val) (h0 : heap) (es : list diag) (names : list string) :
  forall s, uses_is_list schema h0 es s ->
  exists s',
    for_each names (fun addin =>
      let* uses := Py.item schema "$uses" in
      let* present := Py.contains (VStr addin) uses in
      when (negb present) (
        let* uses := Py.item schema "$uses" in
        Py.append uses (VStr addin))) s = Ret tt s' /\
    uses_is_list schema h0 es s'.
Proof.
  induction names as [|x names IH]; intros s J; cbn [for_each].
  - exists s. split; [reflexivity | exact J].
  - destruct (append_if_absent schema h0 es x s J) as (s1 & E1 & J1).
    rewrite (bind_Ret _ _ _ _ _ E1). apply IH. exact J1.
Qed.

(** [schema.setdefault("$uses", [])] *)
Lemma setdefault_uses (schema : val) (s : state) (d : pydict) :
  Py.as_dict (st_heap s) schema = Some d -> uses_ok (st_heap s) d ->
  exists s', Py.setdefault_list schema "$uses" s = Ret tt s' /\
             uses_is_list schema (st_heap s) (st_errors s) s'.
Proof.
  intros Hd Hu. destruct (as_dict_inv _ _ _ Hd) as (a & -> & Ha).
  unfold Py.setdefault_list, bind, get_heap. rewrite Hd.
  unfold uses_ok in Hu. unfold Dict.mem.
  destruct (Dict.get d "$uses") as [u|] eqn:E.
  - exists s. split; [reflexivity|]. split; [reflexivity|].
    split; [apply grows_refl|]. split; [intros v l Hv _; exact Hv|].
    exists d, u. split; [exact Hd|]. split; [exact E|]. split; [exact Hu|].
    left. exists d. auto.
  - unfold alloc, store. eexists. split; [reflexivity|].
    unfold uses_is_list. cbn [st_heap st_errors].
    assert (Hn : VRef (List.length (st_heap s)) <> VRef a).
    { intros [= E']. rewrite <- E' in Ha. apply lookup_lt_Some in Ha.
      revert Ha. clear. intros H. exact (Nat.lt_irrefl _ H). }
    split; [reflexivity|]. split; [apply grows_setdefault; auto|]. split.
    + intros v l Hv _. erewrite as_list_insert_dict.
      * now apply as_list_app.
      * rewrite lookup_app_l; [exact Ha|]. eapply lookup_lt_Some; eauto.
    + exists (Dict.set d "$uses" (VRef (List.length (st_heap s)))),
        (VRef (List.length (st_heap s))).
      split; [|split; [|split]].
      * eapply as_dict_insert_eq. rewrite lookup_app_l; [exact Ha|].
        eapply lookup_lt_Some; eauto.
      * apply get_set_eq.
      * rewrite as_list_insert_ne by exact Hn. rewrite as_list_new. eauto.
      * right. unfold Py.as_list, Py.deref.
        assert (E0 : st_heap s !! List.length (st_heap s) = None)
          by (apply lookup_ge_None_2, Nat.le_refl).
        now rewrite E0.
Qed.

(** Lines 83-89 return, add no diagnostic, and change the store only
    by giving the schema a [$uses] list or appending to it. *)
Lemma enable_all_addins_grows (root schema : val) (s : state) (rd d : pydict) :
  Py.as_dict (st_heap s) root = Some rd ->
  Py.as_dict (st_heap s) schema = Some d -> uses_ok (st_heap s) d ->
  exists s', Instance.enable_all_addins root schema s = Ret tt s' /\
             st_errors s' = st_errors s /\ grows schema (st_heap s) (st_heap s') /\
             keeps schema (st_heap s) (st_heap s').
Proof.
  intros Hr Hd Hu. unfold Instance.enable_all_addins.
  rewrite (bind_Ret _ _ _ _ _ (root_meta_is_ret _ _ _ _ Hr)).
  destruct (match default VNone (Dict.get rd "$schema") with
            | VStr y => String.eqb y Instance.EXTENDED_META
            | _ => false
            end); cbn [when].
  - destruct (setdefault_uses schema s d Hd Hu) as (s1 & E1 & J1).
    rewrite (bind_Ret _ _ _ _ _ E1).
    destruct (addins_loop schema (st_heap s) (st_errors s) Instance.all_addins s1 J1)
      as (s' & E' & (He & G & K & _)).
    exists s'. auto.
  - exists s. split; [reflexivity|]. split; [reflexivity|].
    split; [apply grows_refl|]. intros v l Hv _. exact Hv.
Qed.

(** Lines 92-106 do nothing for an instance that is not a dict. *)
Lemma enable_used_addins_not_dict (root instance schema : val) (s : state) :
  Py.is_dict (st_heap s) instance = false ->
  Instance.enable_used_addins root instance schema s = Ret tt s.
Proof.
  intros H. unfold Instance.enable_used_addins,
    Instance.instance_uses_under, bind, get_heap, ret. rewrite H. reflexivity.
Qed.

Lemma reject_addins_not_dict (root instance : val) (path : string) (s : state) :
  Py.is_dict (st_heap s) instance = false ->
  Instance.reject_addins_under_core root instance path s = Ret tt s.
Proof.
  intros H. unfold Instance.reject_addins_under_core,
    Instance.instance_uses_under, bind, get_heap, ret. rewrite H. reflexivity.
Qed.

(** The gates [root_uses] return. *)
Lemma root_uses_ret (root : val) (name : string) (s : state) (rd : pydict) :
  Py.as_dict (st_heap s) root = Some rd -> uses_ok (st_heap s) rd ->
  exists b, Instance.root_uses root name s = Ret b s.
Proof.
  intros Hr Hu. unfold Instance.root_uses.
  rewrite (bind_Ret _ _ _ _ _ (has_key_dict _ _ _ _ Hr)).
  unfold uses_ok in Hu. unfold Dict.mem.
  destruct (Dict.get rd "$uses") as [u|] eqn:E; [|eexists; reflexivity].
  rewrite (bind_Ret _ _ _ _ _ (item_dict _ _ _ _ _ Hr E)).
  destruct Hu as [l Hl]. rewrite (contains_str_list _ _ _ _ Hl). eauto.
Qed.

End Preamble.

(** ** The phases of [validate_instance] on a plain typed schema *)

Module Phases.

Definition composition_keywords : list string :=
  ["allOf"; "anyOf"; "oneOf"; "not"; "if"].

Definition validation_keywords : list string :=
  ["minimum"; "maximum"; "exclusiveMinimum"; "exclusiveMaximum"; "multipleOf";
   "minLength"; "maxLength"; "pattern"; "format";
   "minItems"; "maxItems"; "uniqueItems";
   "minProperties"; "maxProperties"; "patternProperties"; "propertyNames";
   "dependentRequired"; "patternKeys"; "keyNames"].

Definition lacks (d : pydict) (keys : list string) : Prop :=
  forall k, In k keys -> Dict.get d k = None.

Lemma lacks_mem (d : pydict) (keys : list string) (k : string) :
  lacks d keys -> In k keys -> Dict.mem d k = false.
Proof. intros L I. apply mem_get_None. auto. Qed.

Definition lacksb (d : pydict) (keys : list string) : bool :=
  forallb (fun k => negb (Dict.mem d k)) keys.

Lemma lacksb_lacks (d : pydict) (keys : list string) :
  lacksb d keys = true -> lacks d keys.
Proof.
  unfold lacksb. intros H k Hk. rewrite forallb_forall in H.
  apply mem_get_None. specialize (H k Hk). now destruct (Dict.mem d k).
Qed.

(** One step of a run through a test for a key that the dict lacks. *)
Ltac mnorm := repeat (rewrite bind_assoc || rewrite bind_ret_l).

Ltac skip_absent Hd L :=
  mnorm;
  first
    [ erewrite bind_Ret
        by (eapply has_key_absent; [exact Hd | apply L; simpl; tauto])
    | erewrite bind_Ret
        by (eapply get_absent; [exact Hd | apply L; simpl; tauto]) ];
  cbn [when]; mnorm.

(** Without a composition keyword [_validate_conditionals] does
    nothing and answers [False]. *)
Lemma conditionals_none (rec : val -> val -> string -> M unit)
    (schema instance : val) (path : string) (s : state) (d : pydict) :
  Py.as_dict (st_heap s) schema = Some d -> lacks d composition_keywords ->
  Instance._validate_conditionals rec schema instance path s = Ret false s.
Proof.
  intros Hd L. unfold Instance._validate_conditionals.
  repeat (erewrite bind_Ret
            by (eapply has_key_absent; [exact Hd | apply L; simpl; tauto]);
          cbn [when]; rewrite bind_ret_l).
  reflexivity.
Qed.

(** Without a validation keyword [_validate_validation_addins] does
    nothing. *)
Lemma addins_none (rt : Runtime) (rec : val -> val -> string -> M unit)
    (schema instance : val) (path : string) (s : state) (d : pydict) :
  Py.as_dict (st_heap s) schema = Some d -> lacks d validation_keywords ->
  Instance._validate_validation_addins rt rec schema instance path s = Ret tt s.
Proof.
  intros Hd L. unfold Instance._validate_validation_addins.
  rewrite (bind_Ret _ _ _ _ _ (get_dict _ _ _ _ Hd)).
  generalize (default VNone (Dict.get d "type")). intros ty.
  unfold Instance.pattern_keys, Instance.names_schema, Instance.dependent_required.
  destruct (Instance.str_in ty Instance.numeric_types); cbn [when];
    repeat skip_absent Hd L;
  (destruct (Instance.str_is ty "string"); cbn [when]; repeat skip_absent Hd L);
  (destruct (Instance.str_is ty "array"); cbn [when]; repeat skip_absent Hd L);
  (destruct (Instance.str_is ty "object"); cbn [when]; repeat skip_absent Hd L);
  (destruct (Instance.str_is ty "map"); cbn [when]; repeat skip_absent Hd L);
  reflexivity.
Qed.

(** A schema whose [type] is a non-empty string goes to the typed
    validation. *)
Lemma by_type_string (rt : Runtime) (root : val)
    (rec : val -> val -> string -> M unit) (hasConditionals : bool)
    (schema instance : val) (path ty : string) (s : state) (d : pydict) :
  Py.as_dict (st_heap s) schema = Some d ->
  Dict.get d "type" = Some (VStr ty) -> ty <> "" ->
  Instance.validate_by_type rt root rec hasConditionals schema instance path s =
  Instance.validate_typed rt root rec (VStr ty) schema instance path s.
Proof.
  intros Hd Ht Hne. unfold Instance.validate_by_type.
  rewrite (bind_Ret _ _ _ _ _ (get_present _ _ _ _ _ Hd Ht)).
  unfold bind at 1, get_heap at 1.
  assert (T : Py.truthy (st_heap s) (VStr ty) = true).
  { simpl. destruct (String.eqb_spec ty ""); [contradiction | reflexivity]. }
  rewrite T. cbn [negb andb when]. mnorm.
  unfold bind at 1, get_heap at 1.
  change (Py.is_dict (st_heap s) (VStr ty)) with false. cbn iota. mnorm.
  unfold bind at 1, get_heap at 1.
  change (Py.is_list (st_heap s) (VStr ty)) with false. reflexivity.
Qed.

(** What follows the type-based validation: the validation add-in,
    [const] and [enum]. *)
Definition after_type (rt : Runtime) (root : val)
    (rec : val -> val -> string -> M unit) (schema instance : val) (path : string)
  : M unit :=
  let* va := Instance.root_uses root Instance.VA in
  when va (Instance._validate_validation_addins rt rec schema instance path) ;;
  let* has_const := Py.has_key "const" schema in
  when has_const (
    let* c := Py.item schema "const" in
    let* e := Py.eq instance c in
    when (negb e) (err (ENotConst path c))) ;;
  let* has_enum := Py.has_key "enum" schema in
  when has_enum (
    let* en := Py.item schema "enum" in
    let* c := Py.contains instance en in
    when (negb c) (err (ENotInEnum path en))).

(** The typed validation of an instance that is not a dict, against a
    schema without [$extends] that is not abstract. *)
Lemma typed_plain (rt : Runtime) (root : val) (rec : val -> val -> string -> M unit)
    (schema instance : val) (path ty : string) (s : state) (d : pydict) :
  Py.as_dict (st_heap s) schema = Some d ->
  Dict.get d "$extends" = None ->
  default VNone (Dict.get d "abstract") <> VBool true ->
  Py.is_dict (st_heap s) instance = false ->
  Instance.validate_typed rt root rec (VStr ty) schema instance path s =
  (Instance.validate_type rt rec ty schema instance path ;;
   after_type rt root rec schema instance path) s.
Proof.
  intros Hd He Ha Hi. unfold Instance.validate_typed.
  rewrite (bind_Ret _ _ _ _ _ (has_key_absent _ _ _ _ Hd He)). mnorm.
  rewrite (bind_Ret _ _ _ _ _ (get_dict _ _ _ _ Hd)).
  assert (E : forall (X : M unit),
             match default VNone (Dict.get d "abstract") with
             | VBool true => err (EAbstract path)
             | _ => X
             end = X).
  { intros X. destruct (default VNone (Dict.get d "abstract")) as [|[|]| | | |];
      congruence. }
  rewrite E. unfold bind at 1, get_heap at 1. rewrite Hi. mnorm. reflexivity.
Qed.

(** After the type check of a schema with no validation keyword,
    [const] or [enum], nothing is left to do. *)
Lemma after_type_none (rt : Runtime) (root : val)
    (rec : val -> val -> string -> M unit) (schema instance : val) (path : string)
    (s : state) (d rd : pydict) :
  Py.as_dict (st_heap s) root = Some rd -> Preamble.uses_ok (st_heap s) rd ->
  Py.as_dict (st_heap s) schema = Some d ->
  lacks d validation_keywords -> lacks d ["const"; "enum"] ->
  after_type rt root rec schema instance path s = Ret tt s.
Proof.
  intros Hr Hu Hd Lv Lc. unfold after_type.
  destruct (Preamble.root_uses_ret root Instance.VA s rd Hr Hu) as [b Hb].
  rewrite (bind_Ret _ _ _ _ _ Hb).
  assert (W : when b (Instance._validate_validation_addins rt rec schema instance path) s
              = Ret tt s).
  { destruct b; [apply (addins_none _ _ _ _ _ _ d); auto | reflexivity]. }
  rewrite (bind_Ret _ _ _ _ _ W).
  repeat skip_absent Hd Lc. reflexivity.
Qed.

(** The keys that make [validate_instance] leave the plain path to
    the type-based validation, or add to it afterwards. *)
Definition core_keys : list string :=
  ["$ref"; "$extends"; "abstract"; "const"; "enum"] ++ composition_keywords.

(** The schema is a dict whose [type] is the string [ty], with none of
    [core_keys], and whose [$uses], if any, is a list. *)
Definition plain (d : pydict) (ty : string) : Prop :=
  Dict.get d "type" = Some (VStr ty) /\ lacks d core_keys.

Definition plain_schema (h : heap) (schema : val) (ty : string) : Prop :=
  exists d, Py.as_dict h schema = Some d /\ plain d ty /\ Preamble.uses_ok h d.

(** The root schema is a dict whose [$uses], if any, is a list. *)
Definition sane_root (h : heap) (root : val) : Prop :=
  exists d, Py.as_dict h root = Some d /\ Preamble.uses_ok h d.

Definition ready (root schema : val) (ty : string) (s : state) : Prop :=
  plain_schema (st_heap s) schema ty /\ sane_root (st_heap s) root.

(** The instance is not a dict: a [None], number, string or list. *)
Definition non_dict (h : heap) (instance : val) : Prop :=
  match instance with
  | VRef _ => is_Some (Py.as_list h instance)
  | _ => True
  end.

Lemma non_dict_is_dict (h : heap) (instance : val) :
  non_dict h instance -> Py.is_dict h instance = false.
Proof.
  destruct instance; try reflexivity. intros [l H]. unfold Py.is_dict.
  now rewrite (as_list_not_dict _ _ _ H).
Qed.

Lemma non_dict_grows (schema : val) (h h' : heap) (instance : val) :
  Preamble.grows schema h h' -> non_dict h instance -> non_dict h' instance.
Proof.
  intros (Gl & _) N. destruct instance; try exact I. destruct N as [l H].
  exact (Gl _ _ H).
Qed.

Lemma lacks_set (d : pydict) (keys : list string) (k : string) (v : val) :
  lacks d keys -> ~ In k keys -> lacks (Dict.set d k v) keys.
Proof.
  intros L N k' Hk. rewrite get_set_ne; [auto|]. intros ->. contradiction.
Qed.

Lemma plain_schema_grows (schema : val) (ty : string) (h h' : heap) :
  Preamble.grows schema h h' -> plain_schema h schema ty -> plain_schema h' schema ty.
Proof.
  intros G (d & Hd & [Ht Hl] & Hu). pose proof G as (Gl & Gd & Gs).
  destruct (Gs d Hd) as [H | (u & Hn & Hul & H)].
  - exists d. split; [exact H|]. split; [split; assumption|].
    eapply Preamble.uses_ok_grows; eauto.
  - exists (Dict.set d "$uses" u). split; [exact H|]. split.
    + split.
      * rewrite get_set_ne by discriminate. exact Ht.
      * apply lacks_set; [exact Hl|]. simpl. intuition discriminate.
    + unfold Preamble.uses_ok. now rewrite get_set_eq.
Qed.

Lemma ready_grows (root schema : val) (ty : string) (s s' : state) :
  Preamble.grows schema (st_heap s) (st_heap s') ->
  ready root schema ty s -> ready root schema ty s'.
Proof.
  intros G [Hs (rd & Hr & Hru)].
  pose proof (plain_schema_grows _ _ _ _ G Hs) as Hs'.
  split; [exact Hs'|].
  destruct Hs as (d & Hd & _).
  destruct (as_dict_inv _ _ _ Hr) as (r & -> & _).
  destruct (as_dict_inv _ _ _ Hd) as (a & -> & _).
  destruct (decide (r = a)) as [->|N].
  - destruct Hs' as (d' & Hd' & _ & Hu'). exists d'. auto.
  - exists rd. split; [apply G; [auto | congruence]|].
    eapply Preamble.uses_ok_grows; eauto.
Qed.

(** On a plain schema and an instance that is not a dict,
    [validate_instance] comes to the type-based validation with the
    diagnostics it started with. *)
Lemma reaches_type_check (rt : Runtime) (root : val) (fuel : nat)
    (instance schema : val) (ty path : string) (s : state) :
  ready root schema ty s -> non_dict (st_heap s) instance -> ty <> "" ->
  exists s1,
    st_errors s1 = st_errors s /\
    Preamble.grows schema (st_heap s) (st_heap s1) /\
    Preamble.keeps schema (st_heap s) (st_heap s1) /\
    Instance.enable_all_addins root schema s = Ret tt s1 /\
    Instance.validate_instance rt root (S fuel) instance schema path s =
    (Instance.validate_type rt (Instance.validate_instance rt root fuel)
       ty schema instance path ;;
     after_type rt root (Instance.validate_instance rt root fuel)
       schema instance path) s1.
Proof.
  intros R0 N0 Hne. rewrite validate_instance_S. unfold Instance.validate_body.
  pose proof R0 as [(d0 & Hd0 & Hp0 & Hu0) (rd0 & Hr0 & Hru0)].
  cbv zeta. rewrite (or_root_dict _ root schema d0 Hd0).
  destruct (Preamble.enable_all_addins_grows root schema s rd0 d0 Hr0 Hd0 Hu0)
    as (s1 & E1 & He1 & G & K).
  rewrite (bind_Ret _ _ _ _ _ E1).
  pose proof (ready_grows root schema ty s s1 G R0)
    as [(d & Hd & [Ht Hl] & Hu) (rd & Hr & Hru)].
  pose proof (non_dict_is_dict _ _ (non_dict_grows _ _ _ _ G N0)) as Hi.
  rewrite (bind_Ret _ _ _ _ _
             (Preamble.enable_used_addins_not_dict root instance schema s1 Hi)).
  rewrite (bind_Ret _ _ _ _ _
             (Preamble.reject_addins_not_dict root instance path s1 Hi)).
  erewrite bind_Ret
    by (eapply has_key_absent; [exact Hd | apply Hl; simpl; tauto]).
  destruct (Preamble.root_uses_ret root Instance.CC s1 rd Hr Hru) as [cc Hcc].
  rewrite (bind_Ret _ _ _ _ _ Hcc).
  assert (C : (if cc
               then Instance._validate_conditionals
                      (Instance.validate_instance rt root fuel) schema instance path
               else ret false) s1 = Ret false s1).
  { destruct cc; [|reflexivity]. eapply conditionals_none; [exact Hd|].
    intros k Hk. apply Hl. simpl in Hk |- *. tauto. }
  rewrite (bind_Ret _ _ _ _ _ C).
  erewrite by_type_string by (first [exact Hd | exact Ht | exact Hne]).
  erewrite typed_plain; [|exact Hd|..].
  - exists s1. auto.
  - apply Hl. simpl. tauto.
  - rewrite Hl by (simpl; tauto). discriminate.
  - exact Hi.
Qed.

End Phases.

(** ** Booleans and the numeric type tags *)

Module Bools.

Definition numeric_tags : list string := ["number"; "int32"; "uint32"; "float"; "double"].

(** The diagnostics a boolean gets from the type check of [ty]. *)
Definition bool_diags (ty path : string) : list diag :=
  if String.eqb ty "number" then [EExpected "number" path "bool"] else [].

(** The type-based validation of a boolean against the five tags. *)
Lemma validate_type_bool (rt : Runtime) (rec : val -> val -> string -> M unit)
    (ty : string) (schema : val) (b : bool) (path : string) (s : state) :
  In ty numeric_tags ->
  Instance.validate_type rt rec ty schema (VBool b) path s =
  Ret tt (mkState (st_heap s) (st_errors s ++ bool_diags ty path)).
Proof.
  intros Hty. destruct s as [h es].
  assert (R : forall l : list diag, l ++ [] = l) by apply app_nil_r.
  unfold numeric_tags in Hty. simpl in Hty.
  destruct Hty as [<-|[<-|[<-|[<-|[<-|[]]]]]]; destruct b;
    cbv [bool_diags String.eqb Ascii.eqb Bool.eqb]; rewrite ?R; reflexivity.
Qed.

End Bools.

(** C10.  For every boolean instance [b], every root schema that is a
    dict (with a list as [$uses], if any) and every schema whose [type]
    is one of "number", "int32", "uint32", "float", "double", that has
    no [$ref], [$extends], [abstract], [const], [enum], composition or
    validation keyword, and whose [$uses], if any, is a list:
    [validate_instance] returns, and the diagnostics it adds are the
    type mismatch "Expected number at .., got bool" for "number" and
    none at all for the other four tags. *)
Theorem bool_against_numeric_tags (rt : Runtime) (root : val) (fuel : nat) (b : bool)
    (schema : val) (ty path : string) (s : state) :
  In ty Bools.numeric_tags ->
  Phases.ready root schema ty s ->
  (forall d, Py.as_dict (st_heap s) schema = Some d ->
             Phases.lacks d Phases.validation_keywords) ->
  exists s',
    Instance.validate_instance rt root (S fuel) (VBool b) schema path s = Ret tt s' /\
    st_errors s' =
      st_errors s ++
      (if String.eqb ty "number" then [EExpected "number" path "bool"] else []).
Proof.
  intros Hty R0 Lv0.
  assert (Hne : ty <> "").
  { intros ->. unfold Bools.numeric_tags in Hty. simpl in Hty.
    repeat (destruct Hty as [Hty|Hty]; [discriminate|]). exact Hty. }
  destruct (Phases.reaches_type_check rt root fuel (VBool b) schema ty path s R0 I Hne)
    as (s1 & He1 & G & _ & _ & ->).
  pose proof (Phases.ready_grows root schema ty s s1 G R0)
    as [(d & Hd & [Ht Hl] & Hu) (rd & Hr & Hru)].
  rewrite (bind_Ret _ _ _ _ _ (Bools.validate_type_bool rt _ ty schema b path s1 Hty)).
  erewrite Phases.after_type_none.
  - eexists. split; [reflexivity|]. cbn [st_errors]. now rewrite He1.
  - exact Hr.
  - exact Hru.
  - exact Hd.
  - destruct R0 as [(d0 & Hd0 & _) _]. pose proof (Lv0 d0 Hd0) as L0.
    destruct G as (_ & _ & Gs). destruct (Gs d0 Hd0) as [H | (u & _ & _ & H)];
      cbn [st_heap] in H; rewrite Hd in H; injection H as ->; [exact L0|].
    apply Phases.lacks_set; [exact L0|]. simpl. intuition discriminate.
  - intros k Hk. apply Hl. simpl in Hk |- *. tauto.
Qed.

(** The theorem at the schema [{"type": "int32"}], which is its own
    root, and the instance [true]. *)
Lemma bool_against_numeric_tags_witness :
  let s := snd (loaded (JObj [("type", JStr "int32")])) in
  In "int32" Bools.numeric_tags /\
  Phases.ready (VRef 0) (VRef 0) "int32" s /\
  (forall d, Py.as_dict (st_heap s) (VRef 0) = Some d ->
             Phases.lacks d Phases.validation_keywords) /\
  exists s',
    Instance.validate_instance offline_runtime (VRef 0) 1 (VBool true) (VRef 0) "#" s
      = Ret tt s' /\
    st_errors s' = st_errors s ++ [].
Proof.
  assert (Hin : In "int32" Bools.numeric_tags) by (simpl; auto).
  assert (Hl : forall keys, ~ In "type" keys ->
                 Phases.lacks [("type", VStr "int32")] keys).
  { intros keys N k Hk. cbn [Dict.get].
    destruct (String.eqb "type" k) eqn:E; [|reflexivity].
    apply String.eqb_eq in E. subst k. contradiction. }
  assert (Hr : Phases.ready (VRef 0) (VRef 0) "int32"
                 (snd (loaded (JObj [("type", JStr "int32")])))).
  { split; exists [("type", VStr "int32")].
    - split; [reflexivity|]. split; [|exact I]. split; [reflexivity|].
      apply Hl. simpl. intuition discriminate.
    - split; [reflexivity | exact I]. }
  assert (Hv : forall d,
             Py.as_dict (st_heap (snd (loaded (JObj [("type", JStr "int32")]))))
               (VRef 0) = Some d ->
             Phases.lacks d Phases.validation_keywords).
  { intros d [= <-]. apply Hl. simpl. intuition discriminate. }
  split; [exact Hin|]. split; [exact Hr|]. split; [exact Hv|].
  exact (bool_against_numeric_tags offline_runtime (VRef 0) 0 true (VRef 0)
           "int32" "#" _ Hin Hr Hv).
Defined.

(** A freshly parsed schema that is its own root, and an instance. *)
Definition loaded2 (schema instance : json) : val * val * state :=
  match (let* r := load schema in let* i := load instance in ret (r, i)) empty_state with
  | Ret ri s => (ri, s)
  | _ => ((VNone, VNone), empty_state)
  end.

(** ** [$ref] chains, in general *)

Module Refs.

(** Lines 83-106 have nothing to do: the root document is a dict
    whose [$schema] is not the extended meta-schema, and the instance
    is not a dict with [$uses]. *)
Definition quiet (h : heap) (root instance : val) : Prop :=
  (exists rd, Py.as_dict h root = Some rd /\
              Dict.get rd "$schema" <> Some (VStr Instance.EXTENDED_META)) /\
  (forall di, Py.as_dict h instance = Some di -> Dict.get di "$uses" = None).

(** What [_resolve_ref] returns for the string [r]. *)
Definition target (h : heap) (root : val) (r : string) : val :=
  if PyStr.startswith "#" r
  then Instance.resolve_parts h root (PyStr.split "/" (PyStr.lstrip "#" r))
  else VNone.

(** The schema is a dict whose [$ref] is a string that resolves to [t]. *)
Definition link (h : heap) (root schema t : val) : Prop :=
  exists d r, Py.as_dict h schema = Some d /\ Dict.get d "$ref" = Some (VStr r) /\
              target h root r = t.

Lemma resolve_ref_target (root : val) (r : string) (s : state) :
  Instance._resolve_ref root (VStr r) s = Ret (target (st_heap s) root r) s.
Proof.
  unfold Instance._resolve_ref, target.
  destruct (PyStr.startswith "#" r); reflexivity.
Qed.

Lemma root_meta_quiet (root instance : val) (s : state) :
  quiet (st_heap s) root instance ->
  Instance.root_meta_is root Instance.EXTENDED_META s = Ret false s.
Proof.
  intros [(rd & Hr & Hn) _]. rewrite (Preamble.root_meta_is_ret _ _ _ _ Hr).
  destruct (Dict.get rd "$schema") as [[| | | |y|]|] eqn:E; try reflexivity.
  simpl. destruct (String.eqb_spec y Instance.EXTENDED_META) as [->|]; [|reflexivity].
  now destruct Hn.
Qed.

Lemma instance_uses_quiet (root instance : val) (uri : string) (s : state) :
  quiet (st_heap s) root instance ->
  Instance.instance_uses_under root instance uri s = Ret false s.
Proof.
  intros [_ Hi]. unfold Instance.instance_uses_under.
  unfold bind at 1, get_heap. unfold Py.is_dict.
  destruct (Py.as_dict (st_heap s) instance) as [di|] eqn:E; [|reflexivity].
  rewrite (bind_Ret _ _ _ _ _ (has_key_dict _ _ _ _ E)).
  unfold Dict.mem. now rewrite (Hi di eq_refl).
Qed.

(** Then lines 83-106 change nothing. *)
Lemma preamble_quiet {A} (root instance schema : val) (path : string)
    (k : M A) (s : state) :
  quiet (st_heap s) root instance ->
  (Instance.enable_all_addins root schema ;;
   Instance.enable_used_addins root instance schema ;;
   Instance.reject_addins_under_core root instance path ;; k) s = k s.
Proof.
  intros Hn.
  assert (E1 : Instance.enable_all_addins root schema s = Ret tt s).
  { unfold Instance.enable_all_addins.
    rewrite (bind_Ret _ _ _ _ _ (root_meta_quiet root instance s Hn)).
    reflexivity. }
  assert (E2 : Instance.enable_used_addins root instance schema s = Ret tt s).
  { unfold Instance.enable_used_addins.
    rewrite (bind_Ret _ _ _ _ _
               (instance_uses_quiet root instance Instance.VALIDATION_META s Hn)).
    reflexivity. }
  assert (E3 : Instance.reject_addins_under_core root instance path s = Ret tt s).
  { unfold Instance.reject_addins_under_core.
    rewrite (bind_Ret _ _ _ _ _
               (instance_uses_quiet root instance Instance.CORE_META s Hn)).
    reflexivity. }
  rewrite (bind_Ret _ _ _ _ _ E1), (bind_Ret _ _ _ _ _ E2), (bind_Ret _ _ _ _ _ E3).
  reflexivity.
Qed.

(** One level of [validate_instance] on a schema with [$ref]: the
    recursive call on the target, or the diagnostic of line 112. *)
Lemma ref_step (rt : Runtime) (root : val) (fuel : nat)
    (instance schema t : val) (path : string) (s : state) :
  quiet (st_heap s) root instance -> link (st_heap s) root schema t ->
  Instance.validate_instance rt root (S fuel) instance schema path s =
  match t with
  | VNone =>
      Ret tt (mkState (st_heap s)
                (st_errors s ++
                 [ECannotResolveRef
                    (default VNone
                       (d ← Py.as_dict (st_heap s) schema; Dict.get d "$ref")) path]))
  | _ => Instance.validate_instance rt root fuel instance t path s
  end.
Proof.
  intros Hn (d & r & Hd & Hr & Ht). rewrite validate_instance_S.
  unfold Instance.validate_body. cbv zeta. rewrite (or_root_dict _ root schema d Hd).
  rewrite (preamble_quiet _ _ _ _ _ _ Hn).
  rewrite (bind_Ret _ _ _ _ _ (has_key_present _ _ _ _ _ Hd Hr)).
  rewrite (bind_Ret _ _ _ _ _ (item_dict _ _ _ _ _ Hd Hr)).
  rewrite (bind_Ret _ _ _ _ _ (resolve_ref_target root r s)).
  rewrite Ht, Hd. cbn. rewrite Hr. destruct t; reflexivity.
Qed.

Lemma ref_step_resolved (rt : Runtime) (root : val) (fuel : nat)
    (instance schema t : val) (path : string) (s : state) :
  quiet (st_heap s) root instance -> link (st_heap s) root schema t -> t <> VNone ->
  Instance.validate_instance rt root (S fuel) instance schema path s =
  Instance.validate_instance rt root fuel instance t path s.
Proof.
  intros Hn Hl Ht. rewrite (ref_step rt root fuel instance schema t path s Hn Hl).
  destruct t; congruence.
Qed.

End Refs.

(** C4, amended.  Under a root that does not name the extended
    meta-schema, and for an instance that is not an object with
    [$uses], [validate_instance] on a schema with [$ref] makes one
    recursive call on the target of the pointer (or reports that the
    pointer cannot be resolved), with no budget and no record of the
    targets seen: a chain of [$ref]s of [n] links that ends in a schema
    [last] is validated as [last] [n] levels down, and on a set of
    schemas closed under "the target of its [$ref]" -- a cycle -- the
    call returns at no depth of recursion, so no cycle diagnostic is
    produced. *)
Theorem ref_chain_is_followed_without_budget (rt : Runtime) (root : val)
    (instance : val) (path : string) (s : state) :
  Refs.quiet (st_heap s) root instance ->
  (forall (chain : list val) (last : val) (fuel : nat),
     last <> VNone ->
     (forall i u, chain !! i = Some u ->
        Refs.link (st_heap s) root u (default last (chain !! S i))) ->
     Instance.validate_instance rt root (List.length chain + fuel) instance
       (default last (chain !! 0%nat)) path s =
     Instance.validate_instance rt root fuel instance last path s) /\
  (forall (schema : val) (d : pydict) (r : string) (fuel : nat),
     Py.as_dict (st_heap s) schema = Some d ->
     Dict.get d "$ref" = Some (VStr r) ->
     Refs.target (st_heap s) root r = VNone ->
     Instance.validate_instance rt root (S fuel) instance schema path s =
     Ret tt (mkState (st_heap s)
               (st_errors s ++ [ECannotResolveRef (VStr r) path]))) /\
  (forall (cycle : val -> Prop) (schema : val),
     (forall u, cycle u ->
        exists t, Refs.link (st_heap s) root u t /\ t <> VNone /\ cycle t) ->
     cycle schema ->
     forall fuel,
       Instance.validate_instance rt root fuel instance schema path s = Diverge).
Proof.
  intros Hn. split; [|split].
  - intros chain last fuel Hlast. induction chain as [|u chain IH]; intros Hl.
    + reflexivity.
    + assert (Hnext : default last (chain !! 0%nat) <> VNone).
      { destruct chain as [|u' chain']; [exact Hlast|].
        destruct (Hl 1%nat u' eq_refl) as (d & _ & Hd & _).
        intros E. change (u' = VNone) in E. rewrite E in Hd. discriminate. }
      change (Instance.validate_instance rt root (S (List.length chain + fuel))
                instance u path s =
              Instance.validate_instance rt root fuel instance last path s).
      rewrite (Refs.ref_step_resolved rt root _ instance u _ path s Hn
                 (Hl 0%nat u eq_refl) Hnext).
      apply IH. intros i u' Hi. exact (Hl (S i) u' Hi).
  - intros schema d r fuel Hd Hr Ht.
    rewrite (Refs.ref_step rt root fuel instance schema VNone path s Hn).
    + rewrite Hd. cbn. now rewrite Hr.
    + exists d, r. auto.
  - intros cycle schema Hc Hs fuel. revert schema Hs.
    induction fuel as [|n IH]; intros schema Hs; [reflexivity|].
    destruct (Hc schema Hs) as (t & Hl & Ht & Hct).
    rewrite (Refs.ref_step_resolved rt root _ instance schema t path s Hn Hl Ht).
    now apply IH.
Qed.

(** The theorem on the schema whose [$ref] points back to itself: the
    root has no [$schema], the two schemas of the document form a
    cycle, and validation returns at no depth. *)
Lemma ref_chain_is_followed_without_budget_witness :
  let s := snd (loaded Docs.cyclic_schema) in
  Refs.quiet (st_heap s) (VRef 2) (VInt 1) /\
  forall fuel,
    Instance.validate_instance offline_runtime (VRef 2) fuel (VInt 1) (VRef 2) "#" s
    = Diverge.
Proof.
  cbv zeta.
  assert (Hn : Refs.quiet (st_heap (snd (loaded Docs.cyclic_schema))) (VRef 2) (VInt 1)).
  { split; [|intros di [=]]. eexists. split; [reflexivity | discriminate]. }
  split; [exact Hn|].
  destruct (ref_chain_is_followed_without_budget offline_runtime (VRef 2) (VInt 1) "#"
              _ Hn) as (_ & _ & H).
  apply (H (fun u => u = VRef 2 \/ u = VRef 0)); [|auto].
  intros u [-> | ->]; exists (VRef 0);
    (split; [do 2 eexists; repeat split; reflexivity | split; [discriminate | auto]]).
Defined.

(** ** The merge of add-in properties *)

Module Uses.

Lemma get_None_keys (d : pydict) (k : string) :
  Dict.get d k = None <-> ~ elem_of k (Dict.keys d).
Proof.
  induction d as [|[k' v'] d IH]; cbn.
  - split; [intros _ H; inversion H | reflexivity].
  - rewrite elem_of_cons. destruct (String.eqb_spec k' k) as [->|N].
    + split; [discriminate | tauto].
    + rewrite IH. split; [intros H [E|E]; [congruence | tauto] | tauto].
Qed.

(** [d.update(e)] keeps what [e] does not name ... *)
Lemma get_update_other (e d : pydict) (k : string) :
  Dict.get e k = None -> Dict.get (Dict.update d e) k = Dict.get d k.
Proof.
  revert d. unfold Dict.update.
  induction e as [|[k' v'] e IH]; intros d H; cbn in *; [reflexivity|].
  destruct (String.eqb_spec k' k) as [->|N]; [discriminate|].
  rewrite IH by exact H. apply get_set_ne. congruence.
Qed.

(** ... and takes from [e] what [e] names. *)
Lemma get_update_named (e d : pydict) (k : string) (v : val) :
  NoDup (Dict.keys e) -> Dict.get e k = Some v ->
  Dict.get (Dict.update d e) k = Some v.
Proof.
  revert d. unfold Dict.update.
  induction e as [|[k' v'] e IH]; intros d N H; cbn in *; [discriminate|].
  inversion N as [|? ? Hk N']; subst.
  destruct (String.eqb_spec k' k) as [->|Ne].
  - injection H as ->.
    change (Dict.get (Dict.update (Dict.set d k v) e) k = Some v).
    rewrite get_update_other by (now apply get_None_keys).
    apply get_set_eq.
  - now apply IH.
Qed.

(** The diagnostics of the loop over the add-in's property names. *)
Definition conflicts (existing : pydict) (use : val) (names : list string) : list diag :=
  map (fun k => EAddinConflict (VStr k) use) (List.filter (Dict.mem existing) names).

(** A [for] over the keys of a dict that the body leaves alone visits
    them in order. *)
Lemma keys_loop_static (a : addr) (q : pydict) (body : val -> M unit) :
  (forall x s0 s1, body x s0 = Ret tt s1 ->
     st_heap s0 !! a = Some (ODict q) -> st_heap s1 !! a = Some (ODict q)) ->
  forall rest i s,
    (i + rest = List.length q)%nat ->
    st_heap s !! a = Some (ODict q) ->
    Iter.loop
      (fun i => let* x := Iter.dict_next a (List.length q) i in
                ret ((fun kv => (i, VStr (fst kv))) <$> x))
      i rest (fun ix => body (snd ix)) s
    = for_each (drop i (map VStr (Dict.keys q))) body s.
Proof.
  intros Hst. unfold Iter.loop.
  induction rest as [|r IH]; intros i s Hi Ha; cbn [Iter.fold].
  - assert (i = List.length q) by lia. subst i.
    unfold bind at 1, bind at 1, Iter.dict_next, bind, get_heap.
    rewrite Ha, Nat.eqb_refl. cbn -[lookup].
    rewrite (lookup_ge_None_2 q (List.length q)) by lia.
    rewrite drop_ge; [reflexivity|]. unfold Dict.keys. rewrite !length_map. lia.
  - assert (Hlt : (i < List.length q)%nat) by lia.
    destruct (lookup_lt_is_Some_2 q i Hlt) as [kv Hkv].
    assert (Hz : map VStr (Dict.keys q) !! i = Some (VStr (fst kv))).
    { unfold Dict.keys. rewrite !list_lookup_fmap, Hkv. reflexivity. }
    rewrite (drop_S _ _ _ Hz). cbn [for_each].
    unfold bind at 1, bind at 1, Iter.dict_next, bind at 1, get_heap at 1.
    rewrite Ha, Nat.eqb_refl. unfold ret at 1. rewrite Hkv.
    cbn [fmap option_fmap option_map]. unfold ret at 1. rewrite bind_assoc.
    cbn [snd].
    destruct (body (VStr (fst kv)) s) as [[] s1|e s1|] eqn:EB.
    2: { now rewrite !(bind_Exn _ _ _ _ _ EB). }
    2: { now rewrite !(bind_Diverge _ _ _ EB). }
    rewrite !(bind_Ret _ _ _ _ _ EB). rewrite bind_ret_l. cbn [fst snd].
    apply IH; [lia|]. exact (Hst _ _ _ EB Ha).
Qed.

(** [for x in v] over a dict that the body leaves alone. *)
Lemma for_in_dict (a : addr) (q : pydict) (body : val -> M unit) (s : state) :
  (forall x s0 s1, body x s0 = Ret tt s1 ->
     st_heap s0 !! a = Some (ODict q) -> st_heap s1 !! a = Some (ODict q)) ->
  st_heap s !! a = Some (ODict q) ->
  Iter.for_in (VRef a) body s = for_each (map VStr (Dict.keys q)) body s.
Proof.
  intros Hst Ha. unfold Iter.for_in, Iter.for_enum, Iter.enum.
  unfold bind at 1, bind at 1, get_heap at 1. rewrite Ha. unfold ret at 1.
  unfold Iter.run. cbn [fst snd].
  change (map VStr (Dict.keys q)) with (drop 0 (map VStr (Dict.keys q))).
  apply (keys_loop_static a q body Hst); [lia | exact Ha].
Qed.

(** The test for one add-in property name. *)
Lemma conflict_test (merged mp use : val) (md p : pydict) (k : string) (s : state) :
  Py.as_dict (st_heap s) merged = Some md ->
  Dict.get md "properties" = Some mp ->
  Py.as_dict (st_heap s) mp = Some p ->
  (let* mp := Py.item merged "properties" in
   let* c := Py.contains (VStr k) mp in
   when c (err (EAddinConflict (VStr k) use))) s =
  Ret tt (mkState (st_heap s) (st_errors s ++ conflicts p use [k])).
Proof.
  intros Hm Hg Hp.
  rewrite (bind_Ret _ _ _ _ _ (item_dict _ _ _ _ _ Hm Hg)).
  change (Py.contains (VStr k) mp) with (Py.has_key k mp).
  rewrite (bind_Ret _ _ _ _ _ (has_key_dict _ _ _ _ Hp)).
  unfold conflicts. cbn [List.filter].
  destruct (Dict.mem p k); cbn; [reflexivity|].
  rewrite app_nil_r. now destruct s.
Qed.

Lemma conflict_tests (merged mp use : val) (md p : pydict) (ks : list string) (s : state) :
  Py.as_dict (st_heap s) merged = Some md ->
  Dict.get md "properties" = Some mp ->
  Py.as_dict (st_heap s) mp = Some p ->
  for_each (map VStr ks) (fun prop =>
    let* mp := Py.item merged "properties" in
    let* c := Py.contains prop mp in
    when c (err (EAddinConflict prop use))) s =
  Ret tt (mkState (st_heap s) (st_errors s ++ conflicts p use ks)).
Proof.
  revert s. induction ks as [|k ks IH]; intros s Hm Hg Hp; cbn [map for_each].
  - unfold conflicts. cbn. rewrite app_nil_r. now destruct s.
  - rewrite (bind_Ret _ _ _ _ _ (conflict_test merged mp use md p k s Hm Hg Hp)).
    rewrite IH by assumption. cbn [st_heap st_errors].
    rewrite <- app_assoc. unfold conflicts. cbn [List.filter].
    destruct (Dict.mem p k); reflexivity.
Qed.

(** The merge of the properties of one add-in: a diagnostic for each
    name that exists, then [update]. *)
Lemma merge_addin_props_updates (merged use : val) (md p q : pydict)
    (ap aq : addr) (s : state) :
  Py.as_dict (st_heap s) merged = Some md ->
  Dict.get md "properties" = Some (VRef ap) ->
  st_heap s !! ap = Some (ODict p) ->
  st_heap s !! aq = Some (ODict q) ->
  Instance.merge_addin_props merged (VRef aq) use s =
  Ret tt (mkState (<[ap := ODict (Dict.update p q)]> (st_heap s))
            (st_errors s ++ conflicts p use (Dict.keys q))).
Proof.
  intros Hm Hg Hp Hq. unfold Instance.merge_addin_props.
  pose proof (as_dict_ref _ _ _ Hp) as Hp'.
  assert (E : Iter.for_in (VRef aq) (fun prop =>
                let* mp := Py.item merged "properties" in
                let* c := Py.contains prop mp in
                when c (err (EAddinConflict prop use))) s =
              Ret tt (mkState (st_heap s) (st_errors s ++ conflicts p use (Dict.keys q)))).
  { rewrite (for_in_dict aq q) ; [| |exact Hq].
    - now apply (conflict_tests merged (VRef ap) use md p).
    - intros x s0 s1 Hb H0.
      destruct (Py.item merged "properties" s0) as [mp s0'|e s0'|] eqn:E1.
      2: { rewrite (bind_Exn _ _ _ _ _ E1) in Hb. discriminate. }
      2: { rewrite (bind_Diverge _ _ _ E1) in Hb. discriminate. }
      rewrite (bind_Ret _ _ _ _ _ E1) in Hb.
      assert (s0' = s0) as ->.
      { unfold Py.item, bind, get_heap, Py.lift_opt, ret, raise in E1.
        destruct (Py.as_dict (st_heap s0) merged) as [d0|]; [|discriminate].
        destruct (Dict.get d0 "properties"); now inversion E1. }
      destruct (Py.contains x mp s0) as [c s0'|e s0'|] eqn:E2.
      2: { rewrite (bind_Exn _ _ _ _ _ E2) in Hb. discriminate. }
      2: { rewrite (bind_Diverge _ _ _ E2) in Hb. discriminate. }
      rewrite (bind_Ret _ _ _ _ _ E2) in Hb.
      assert (st_heap s0' = st_heap s0) as Hh.
      { unfold Py.contains, bind, get_heap, Py.lift_opt, ret, raise in E2.
        repeat case_match; now inversion E2. }
      destruct c; cbn in Hb; inversion Hb; subst; cbn [st_heap]; congruence. }
  rewrite (bind_Ret _ _ _ _ _ E).
  erewrite bind_Ret by (apply (item_dict _ merged (VRef ap) md); [exact Hm | exact Hg]).
  unfold Py.update, bind, get_heap, Py.pairs_of, ret, store. cbn [st_heap st_errors].
  rewrite Hp'. unfold bind, get_heap. cbn [st_heap st_errors].
  rewrite Hq. cbn [st_heap st_errors]. now rewrite Hp'.
Qed.

(** ** Several add-ins, in the three forms of an offer *)

(** While the loop of [_apply_uses] runs, the store is the store [hb]
    the loop started with, except that the [properties] object of the
    effective schema, at [ap], has the content [P]; it is followed by
    [g] empty dicts, the defaults of [resolved.get("properties", {})]. *)
Definition loop_store (hb : heap) (ap : addr) (P : pydict) (g : nat) : heap :=
  <[ap := ODict P]> hb ++ replicate g (ODict []).

(** What the loop has done so far. *)
Record acc := mkAcc {
  acc_props : pydict;                (* the content of merged["properties"] *)
  acc_new : nat;                     (* the empty dicts created *)
  acc_errors : list diag;            (* the diagnostics appended *)
  acc_merged : list (val * pydict)   (* the merges: add-in name, properties *)
}.

Definition heap_of (hb : heap) (ap : addr) (st : acc) : heap :=
  loop_store hb ap (acc_props st) (acc_new st).

Definition report (d : diag) (st : acc) : acc :=
  mkAcc (acc_props st) (acc_new st) (acc_errors st ++ [d]) (acc_merged st).

Definition new_dict (st : acc) : acc :=
  mkAcc (acc_props st) (S (acc_new st)) (acc_errors st) (acc_merged st).

(** One merge: a diagnostic for each name of [q] that exists, then
    [update], in which [q] wins. *)
Definition merge_props (use : val) (q : pydict) (st : acc) : acc :=
  mkAcc (Dict.update (acc_props st) q) (acc_new st)
        (acc_errors st ++ conflicts (acc_props st) use (Dict.keys q))
        (acc_merged st ++ [(use, q)]).

(** The entries that [update] takes from [v], as [Py.pairs_of] reads
    them; [None] where it raises: [TypeError] for a scalar, and
    [Unsupported] for a list or string that is not empty, which
    [update] would read as a sequence of pairs. *)
Definition pairs (h : heap) (v : val) : option pydict :=
  match v with
  | VStr s => if String.eqb s "" then Some [] else None
  | VRef a =>
      match h !! a with
      | Some (ODict d) => Some d
      | Some (OList []) => Some []
      | _ => None
      end
  | _ => None
  end.

(** The merge of a resolved add-in, a dict [r]: of its [properties],
    or of nothing when it has none. *)
Definition merge_offer (h : heap) (use : val) (r : pydict) (st : acc) : option acc :=
  match Dict.get r "properties" with
  | Some x => (fun q => merge_props use q st) <$> pairs h x
  | None => Some (merge_props use [] (new_dict st))
  end.

(** [if isinstance(resolved, dict): ...] *)
Definition merge_resolved (h : heap) (use resolved : val) (st : acc) : option acc :=
  match Py.as_dict h resolved with
  | Some r => merge_offer h use r st
  | None => Some st
  end.

(** [self._resolve_ref(ref) if isinstance(ref, str) else ref] *)
Definition resolved_of (h : heap) (root ref : val) : val :=
  match ref with VStr r => Refs.target h root r | _ => ref end.

(** A loop whose body can raise. *)
Fixpoint steps {A} (f : acc -> A -> option acc) (xs : list A) (st : acc) : option acc :=
  match xs with
  | [] => Some st
  | x :: xs' =>
      match f st x with
      | Some st' => steps f xs' st'
      | None => None
      end
  end.

(** One name of [$uses]: not offered, offered as a list of references
    and schemas, by [$ref], inline, or as something else; [None] where
    the code raises (a name that is an object or an array, a [$ref]
    that is no string, [properties] for which [pairs] has nothing). *)
Definition use_step (hb : heap) (ap : addr) (root offers : val) (st : acc) (use : val)
  : option acc :=
  let h := heap_of hb ap st in
  match use, Py.as_dict h offers with
  | VRef _, _ | _, None => None
  | VStr name, Some od =>
      match Dict.get od name with
      | None => Some (report (ENotOffered use) st)
      | Some addin =>
          match Py.as_list h addin, Py.as_dict h addin with
          | Some refs, _ =>
              steps (fun st ref =>
                       merge_resolved (heap_of hb ap st) use
                         (resolved_of (heap_of hb ap st) root ref) st)
                    refs st
          | None, Some ad =>
              match Dict.get ad "$ref" with
              | Some (VStr r) => merge_resolved h use (Refs.target h root r) st
              | Some _ => None
              | None => merge_offer h use ad st
              end
          | None, None => Some (report (EInvalidAddin use) st)
          end
      end
  | _, Some _ => Some (report (ENotOffered use) st)
  end.

(** The loop over the names of [$uses] that are not reserved, from the
    existing properties [p]. *)
Definition offered (hb : heap) (ap : addr) (root offers : val) (uses_l : list val)
    (p : pydict) : option acc :=
  steps (use_step hb ap root offers)
        (List.filter (fun u => negb (Instance.is_reserved u)) uses_l)
        (mkAcc p 0 [] []).

(** [uses], or [[uses]] when it is no list. *)
Definition names (h : heap) (uses : val) : list val :=
  match Py.as_list h uses with Some l => l | None => [uses] end.

(** The effective schema before the loop: the entries of the schema,
    with a new [properties] object when the schema has none. *)
Definition effective (h : heap) (sd : pydict) : pydict :=
  if Dict.mem sd "properties" then sd
  else Dict.set sd "properties" (VRef (S (List.length h))).

(** The store before the loop: the effective schema is new, and so is
    its [properties] object when the schema has none. *)
Definition base (h : heap) (sd : pydict) : heap :=
  h ++ ODict (effective h sd) :: (if Dict.mem sd "properties" then [] else [ODict []]).

(** Where the [properties] object of the effective schema is ... *)
Definition props_addr (h : heap) (sd : pydict) : addr :=
  match Dict.get sd "properties" with
  | Some (VRef a) => a
  | _ => S (List.length h)
  end.

(** ... and what it holds before the loop. *)
Definition existing (h : heap) (sd : pydict) : pydict :=
  match Dict.get sd "properties" with
  | Some v => default [] (Py.as_dict h v)
  | None => []
  end.

Definition is_conflict (d : diag) : bool :=
  match d with EAddinConflict _ _ => true | _ => false end.

(** The conflicts of a sequence of merges: each merge is compared with
    the properties as the merges before it left them. *)
Fixpoint conflict_log (p : pydict) (ms : list (val * pydict)) : list diag :=
  match ms with
  | [] => []
  | (use, q) :: ms' => conflicts p use (Dict.keys q) ++ conflict_log (Dict.update p q) ms'
  end.

Definition merge_all (p : pydict) (ms : list (val * pydict)) : pydict :=
  fold_left (fun P m => Dict.update P (snd m)) ms p.

(** *** What a sequence of merges leaves *)

Lemma merge_all_app (p : pydict) (ms ms' : list (val * pydict)) :
  merge_all p (ms ++ ms') = merge_all (merge_all p ms) ms'.
Proof. apply fold_left_app. Qed.

Lemma conflict_log_app (p : pydict) (ms ms' : list (val * pydict)) :
  conflict_log p (ms ++ ms') = conflict_log p ms ++ conflict_log (merge_all p ms) ms'.
Proof.
  revert p. induction ms as [|[use q] ms IH]; intros p; cbn; [reflexivity|].
  rewrite IH, <- app_assoc. reflexivity.
Qed.

Lemma merge_all_other (k : string) (ms : list (val * pydict)) (p : pydict) :
  Forall (fun m => Dict.get (snd m) k = None) ms ->
  Dict.get (merge_all p ms) k = Dict.get p k.
Proof.
  revert p. induction ms as [|m ms IH]; intros p H; cbn; [reflexivity|].
  inversion H as [|? ? Hm Hms]; subst.
  change (Dict.get (merge_all (Dict.update p (snd m)) ms) k = Dict.get p k).
  rewrite IH by exact Hms. now apply get_update_other.
Qed.

Lemma merge_all_named (k : string) (v : val) (ms ms' : list (val * pydict))
    (m : val * pydict) (p : pydict) :
  NoDup (Dict.keys (snd m)) -> Dict.get (snd m) k = Some v ->
  Forall (fun m' => Dict.get (snd m') k = None) ms' ->
  Dict.get (merge_all p (ms ++ m :: ms')) k = Some v.
Proof.
  intros Hn Hv Hl. rewrite merge_all_app.
  change (merge_all (merge_all p ms) (m :: ms'))
    with (merge_all (Dict.update (merge_all p ms) (snd m)) ms').
  rewrite merge_all_other by exact Hl. now apply get_update_named.
Qed.

Lemma filter_conflicts (p : pydict) (use : val) (ks : list string) :
  List.filter is_conflict (conflicts p use ks) = conflicts p use ks.
Proof.
  unfold conflicts. induction (List.filter (Dict.mem p) ks) as [|k l IH]; cbn;
    [reflexivity | now rewrite IH].
Qed.

(** The merges account for the properties and for the conflict
    diagnostics. *)
Definition accounted (p : pydict) (st : acc) : Prop :=
  acc_props st = merge_all p (acc_merged st) /\
  List.filter is_conflict (acc_errors st) = conflict_log p (acc_merged st).

Lemma accounted_report (p : pydict) (d : diag) (st : acc) :
  is_conflict d = false -> accounted p st -> accounted p (report d st).
Proof.
  intros Hd [H1 H2]. split; [exact H1|]. cbn [report acc_errors acc_merged].
  rewrite List.filter_app. cbn [List.filter]. rewrite Hd, app_nil_r. exact H2.
Qed.

Lemma accounted_merge_props (p : pydict) (use : val) (q : pydict) (st : acc) :
  accounted p st -> accounted p (merge_props use q st).
Proof.
  intros [H1 H2]. split; cbn [merge_props acc_props acc_merged acc_errors].
  - rewrite merge_all_app, <- H1. reflexivity.
  - rewrite List.filter_app, filter_conflicts, conflict_log_app, <- H1, H2.
    cbn [conflict_log]. now rewrite app_nil_r.
Qed.

Lemma accounted_merge_offer (p : pydict) (h : heap) (use : val) (r : pydict)
    (st st' : acc) :
  merge_offer h use r st = Some st' -> accounted p st -> accounted p st'.
Proof.
  unfold merge_offer. destruct (Dict.get r "properties") as [x|].
  - destruct (pairs h x) as [q|]; [|discriminate]. intros [= <-].
    apply accounted_merge_props.
  - intros [= <-] H. now apply accounted_merge_props.
Qed.

Lemma accounted_merge_resolved (p : pydict) (h : heap) (use resolved : val)
    (st st' : acc) :
  merge_resolved h use resolved st = Some st' -> accounted p st -> accounted p st'.
Proof.
  unfold merge_resolved. destruct (Py.as_dict h resolved) as [r|].
  - apply accounted_merge_offer.
  - now intros [= <-].
Qed.

Lemma steps_keep {A} (I : acc -> Prop) (f : acc -> A -> option acc) :
  (forall st x st', f st x = Some st' -> I st -> I st') ->
  forall xs st st', steps f xs st = Some st' -> I st -> I st'.
Proof.
  intros Hf. induction xs as [|x xs IH]; intros st st'; cbn.
  - now intros [= <-].
  - destruct (f st x) as [st1|] eqn:E; [|discriminate].
    intros H Hi. exact (IH st1 st' H (Hf st x st1 E Hi)).
Qed.

Lemma accounted_use_step (p : pydict) (hb : heap) (ap : addr) (root offers : val)
    (st : acc) (use : val) (st' : acc) :
  use_step hb ap root offers st use = Some st' -> accounted p st -> accounted p st'.
Proof.
  unfold use_step.
  destruct (Py.as_dict (heap_of hb ap st) offers) as [od|];
    [|destruct use; discriminate].
  destruct use as [| | | |name|a]; try discriminate;
    try (intros [= <-]; now apply accounted_report).
  destruct (Dict.get od name) as [addin|]; [|intros [= <-]; now apply accounted_report].
  destruct (Py.as_list (heap_of hb ap st) addin) as [refs|].
  - apply steps_keep. intros st1 ref st2. apply accounted_merge_resolved.
  - destruct (Py.as_dict (heap_of hb ap st) addin) as [ad|];
      [|intros [= <-]; now apply accounted_report].
    destruct (Dict.get ad "$ref") as [[| | | |r|]|]; try discriminate.
    + apply accounted_merge_resolved.
    + apply accounted_merge_offer.
Qed.

Lemma accounted_offered (hb : heap) (ap : addr) (root offers : val)
    (uses_l : list val) (p : pydict) (st : acc) :
  offered hb ap root offers uses_l p = Some st -> accounted p st.
Proof.
  intros H. refine (steps_keep (accounted p) _ _ _ _ _ H _).
  - intros st1 use st2. apply accounted_use_step.
  - split; reflexivity.
Qed.

(** *** The loops of the code *)

(** A loop whose body leaves the store alone returns with the store
    it started with, or raises. *)
Definition calm_res {A} (s : state) (r : res A) : Prop :=
  (exists a s', r = Ret a s' /\ st_heap s' = st_heap s) \/
  (exists e s', r = Exn e s').

Definition calm {A} (m : M A) : Prop := forall s, calm_res s (m s).

Lemma calm_fold {A} (next : nat -> M (option A)) (body : A -> M unit) :
  (forall i, calm (next i)) -> (forall a, calm (body a)) ->
  forall rest i, calm (Iter.loop next i rest body).
Proof.
  intros Hn Hb. unfold Iter.loop.
  induction rest as [|r IH]; intros i s; cbn [Iter.fold].
  - destruct (Hn i s) as [(o & s' & E & Hh)|(e & s' & E)].
    + rewrite (bind_Ret _ _ _ _ _ E). left. exists tt, s'. now destruct o.
    + rewrite (bind_Exn _ _ _ _ _ E). right. eauto.
  - destruct (Hn i s) as [(o & s' & E & Hh)|(e & s' & E)].
    2: { rewrite (bind_Exn _ _ _ _ _ E). right. eauto. }
    rewrite (bind_Ret _ _ _ _ _ E). destruct o as [a|]; [|left; exists tt, s'; auto].
    rewrite bind_assoc.
    destruct (Hb a s') as [([] & s2 & E2 & Hh2)|(e & s2 & E2)].
    2: { rewrite (bind_Exn _ _ _ _ _ E2). right. eauto. }
    rewrite (bind_Ret _ _ _ _ _ E2), bind_ret_l. cbn [fst snd].
    destruct (IH (S i) s2) as [(u & s3 & E3 & Hh3)|(e & s3 & E3)].
    + left. exists u, s3. split; [exact E3 | congruence].
    + right. eauto.
Qed.

Lemma calm_conflict_test (merged use x : val) :
  calm (let* mp := Py.item merged "properties" in
        let* c := Py.contains x mp in
        when c (err (EAddinConflict x use))).
Proof.
  intros s.
  destruct (Py.item merged "properties" s) as [mp s1|e s1|] eqn:E1.
  3: { unfold Py.item, bind, get_heap, Py.lift_opt, ret, raise in E1.
       repeat case_match; discriminate. }
  2: { right. rewrite (bind_Exn _ _ _ _ _ E1). eauto. }
  assert (s1 = s) as ->.
  { unfold Py.item, bind, get_heap, Py.lift_opt, ret, raise in E1.
    repeat case_match; now inversion E1. }
  rewrite (bind_Ret _ _ _ _ _ E1).
  destruct (Py.contains x mp s) as [c s1|e s1|] eqn:E2.
  3: { unfold Py.contains, bind, get_heap, Py.lift_opt, ret, raise in E2.
       repeat case_match; discriminate. }
  2: { right. rewrite (bind_Exn _ _ _ _ _ E2). eauto. }
  assert (s1 = s) as ->.
  { unfold Py.contains, bind, get_heap, Py.lift_opt, ret, raise in E2.
    repeat case_match; now inversion E2. }
  rewrite (bind_Ret _ _ _ _ _ E2). left.
  destruct c; cbn; eexists tt, _; split; reflexivity.
Qed.

Lemma calm_for_in (v : val) (body : val -> M unit) :
  (forall x, calm (body x)) -> calm (Iter.for_in v body).
Proof.
  intros Hb s. unfold Iter.for_in, Iter.for_enum, Iter.enum.
  unfold bind at 1, bind at 1, get_heap at 1.
  destruct v as [| | | |x|a]; try (right; cbn; eauto; fail).
  - unfold ret at 1. unfold Iter.run. cbn [fst snd].
    apply calm_fold; [|intros [i y]; apply Hb].
    intros i s0. left. eexists _, s0. split; reflexivity.
  - destruct (st_heap s !! a) as [[d|l]|]; [| |right; cbn; eauto];
      unfold ret at 1; unfold Iter.run; cbn [fst snd];
      (apply calm_fold; [|intros [i y]; apply Hb]); intros i s0.
    + unfold Iter.dict_next, bind, get_heap.
      destruct (st_heap s0 !! a) as [[d0|l0]|]; try (right; cbn; eauto; fail).
      destruct (Nat.eqb (List.length d0) (List.length d));
        [left; eexists _, s0; split; reflexivity | right; cbn; eauto].
    + unfold Iter.list_next, bind, get_heap.
      destruct (st_heap s0 !! a) as [[d0|l0]|]; try (right; cbn; eauto; fail).
      destruct (Nat.eqb (List.length l0) (List.length l));
        [left; eexists _, s0; split; reflexivity | right; cbn; eauto].
Qed.

(** [for x in v] over a list that the body leaves alone, from the
    stores that [stable] admits. *)
Lemma list_loop_static (a : addr) (l : list val) (body : val -> M unit)
    (stable : state -> Prop) :
  (forall s, stable s -> st_heap s !! a = Some (OList l)) ->
  (forall x s0 s1, stable s0 -> body x s0 = Ret tt s1 -> stable s1) ->
  forall rest i s,
    (i + rest = List.length l)%nat -> stable s ->
    Iter.loop
      (fun i => let* x := Iter.list_next a (List.length l) i in ret (pair i <$> x))
      i rest (fun ix => body (snd ix)) s
    = for_each (drop i l) body s.
Proof.
  intros Hl Hst. unfold Iter.loop.
  induction rest as [|r IH]; intros i s Hi Hs; cbn [Iter.fold];
    pose proof (Hl s Hs) as Ha.
  - assert (i = List.length l) by lia. subst i.
    unfold bind at 1, bind at 1, Iter.list_next, bind, get_heap.
    rewrite Ha, Nat.eqb_refl. cbn -[lookup].
    rewrite (lookup_ge_None_2 l (List.length l)) by lia.
    rewrite drop_ge by lia. reflexivity.
  - assert (Hlt : (i < List.length l)%nat) by lia.
    destruct (lookup_lt_is_Some_2 l i Hlt) as [x Hx].
    rewrite (drop_S _ _ _ Hx). cbn [for_each].
    unfold bind at 1, bind at 1, Iter.list_next, bind at 1, get_heap at 1.
    rewrite Ha, Nat.eqb_refl. unfold ret at 1. rewrite Hx.
    cbn [fmap option_fmap option_map]. unfold ret at 1. rewrite bind_assoc.
    cbn [snd].
    destruct (body x s) as [[] s1|e s1|] eqn:EB.
    2: { now rewrite !(bind_Exn _ _ _ _ _ EB). }
    2: { now rewrite !(bind_Diverge _ _ _ EB). }
    rewrite !(bind_Ret _ _ _ _ _ EB). rewrite bind_ret_l. cbn [fst snd].
    apply IH; [lia|]. exact (Hst _ _ _ Hs EB).
Qed.

Lemma for_in_list (a : addr) (l : list val) (body : val -> M unit)
    (stable : state -> Prop) (s : state) :
  (forall s, stable s -> st_heap s !! a = Some (OList l)) ->
  (forall x s0 s1, stable s0 -> body x s0 = Ret tt s1 -> stable s1) ->
  stable s ->
  Iter.for_in (VRef a) body s = for_each l body s.
Proof.
  intros Hl Hst Hs. unfold Iter.for_in, Iter.for_enum, Iter.enum.
  unfold bind at 1, bind at 1, get_heap at 1. rewrite (Hl s Hs). unfold ret at 1.
  unfold Iter.run. cbn [fst snd].
  change l with (drop 0 l) at 3.
  apply (list_loop_static a l body stable Hl Hst); [lia | exact Hs].
Qed.

(** The merge of what [update] takes from [x]; it raises when
    [update] does. *)
Lemma merge_pairs (merged use x : val) (md p : pydict) (ap : addr) (s : state) :
  Py.as_dict (st_heap s) merged = Some md ->
  Dict.get md "properties" = Some (VRef ap) ->
  st_heap s !! ap = Some (ODict p) ->
  match pairs (st_heap s) x with
  | Some q =>
      Instance.merge_addin_props merged x use s =
      Ret tt (mkState (<[ap := ODict (Dict.update p q)]> (st_heap s))
                (st_errors s ++ conflicts p use (Dict.keys q)))
  | None => exists e s', Instance.merge_addin_props merged x use s = Exn e s'
  end.
Proof.
  intros Hm Hg Hp.
  assert (Hi : forall s1, st_heap s1 = st_heap s ->
            Py.item merged "properties" s1 = Ret (VRef ap) s1).
  { intros s1 Hh. apply (item_dict s1 merged (VRef ap) md); [now rewrite Hh | exact Hg]. }
  assert (Hu : forall s1 e, st_heap s1 = st_heap s ->
            Py.pairs_of x s1 = Ret e s1 ->
            (let* mp := Py.item merged "properties" in Py.update mp x) s1 =
            Ret tt (mkState (<[ap := ODict (Dict.update p e)]> (st_heap s)) (st_errors s1))).
  { intros s1 e Hh He.
    rewrite (bind_Ret _ _ _ _ _ (Hi _ Hh)).
    unfold Py.update. unfold bind at 1, get_heap at 1.
    rewrite Hh, (as_dict_ref _ _ _ Hp). rewrite (bind_Ret _ _ _ _ _ He).
    unfold bind, get_heap, store. now rewrite Hh, (as_dict_ref _ _ _ Hp), Hh. }
  assert (Hr : forall s1, st_heap s1 = st_heap s ->
            (forall s2, exists e s', Py.pairs_of x s2 = Exn e s') ->
            exists e s',
              (let* mp := Py.item merged "properties" in Py.update mp x) s1 = Exn e s').
  { intros s1 Hh He.
    rewrite (bind_Ret _ _ _ _ _ (Hi _ Hh)).
    unfold Py.update. unfold bind at 1, get_heap at 1.
    rewrite Hh, (as_dict_ref _ _ _ Hp).
    destruct (He s1) as (e & s' & E). rewrite (bind_Exn _ _ _ _ _ E). eauto. }
  assert (Hloop : forall (none : forall s2, exists e s', Py.pairs_of x s2 = Exn e s'),
            exists e s', Instance.merge_addin_props merged x use s = Exn e s').
  { intros none. unfold Instance.merge_addin_props.
    destruct (calm_for_in x _ (calm_conflict_test merged use) s)
      as [([] & s1 & E & Hh)|(e & s1 & E)].
    - rewrite (bind_Ret _ _ _ _ _ E). now apply Hr.
    - rewrite (bind_Exn _ _ _ _ _ E). eauto. }
  unfold pairs. destruct x as [| | | |x|a].
  1-4: apply Hloop; intros s2; eexists _, s2; reflexivity.
  - destruct (String.eqb_spec x "") as [->|N].
    + unfold Instance.merge_addin_props.
      assert (E : Iter.for_in (VStr "") (fun prop =>
                    let* mp := Py.item merged "properties" in
                    let* c := Py.contains prop mp in
                    when c (err (EAddinConflict prop use))) s = Ret tt s) by reflexivity.
      rewrite (bind_Ret _ _ _ _ _ E).
      rewrite (Hu s []) by reflexivity. unfold conflicts. cbn. now rewrite app_nil_r.
    + apply Hloop. intros s2. eexists _, s2. unfold Py.pairs_of, bind, get_heap.
      destruct (String.eqb_spec x ""); [contradiction | reflexivity].
  - destruct (st_heap s !! a) as [[q|[|y l]]|] eqn:Ea.
    + destruct (as_dict_inv _ _ _ Hm) as (am & -> & Ham).
      exact (merge_addin_props_updates (VRef am) use md p q ap a s Hm Hg Hp Ea).
    + unfold Instance.merge_addin_props.
      assert (E : Iter.for_in (VRef a) (fun prop =>
                    let* mp := Py.item merged "properties" in
                    let* c := Py.contains prop mp in
                    when c (err (EAddinConflict prop use))) s = Ret tt s).
      { unfold Iter.for_in, Iter.for_enum, Iter.enum, bind, get_heap.
        rewrite Ea. cbn. unfold Iter.list_next, bind, get_heap. now rewrite Ea. }
      rewrite (bind_Ret _ _ _ _ _ E).
      rewrite (Hu s []).
      * unfold conflicts. cbn. now rewrite app_nil_r.
      * reflexivity.
      * unfold Py.pairs_of, bind, get_heap. now rewrite Ea.
    + unfold Instance.merge_addin_props.
      destruct (calm_for_in (VRef a) _ (calm_conflict_test merged use) s)
        as [([] & s1 & E & Hh)|(e & s1 & E)].
      * rewrite (bind_Ret _ _ _ _ _ E).
        rewrite (bind_Ret _ _ _ _ _ (Hi _ Hh)).
        unfold Py.update. unfold bind at 1, get_heap at 1.
        rewrite Hh, (as_dict_ref _ _ _ Hp).
        eexists _, s1. unfold bind at 1, Py.pairs_of, bind, get_heap.
        now rewrite Hh, Ea.
      * rewrite (bind_Exn _ _ _ _ _ E). eauto.
    + unfold Instance.merge_addin_props, Iter.for_in, Iter.for_enum, Iter.enum.
      eexists _, s. unfold bind, get_heap. now rewrite Ea.
Qed.

(** *** The loop of [_apply_uses] follows [use_step] *)

Section Run.

Variables (hb : heap) (ap am : addr) (md : pydict) (root offers : val)
  (es0 : list diag).
Hypothesis Hap : (ap < List.length hb)%nat.
Hypothesis Ham : hb !! am = Some (ODict md).
Hypothesis Hne : am <> ap.
Hypothesis Hmp : Dict.get md "properties" = Some (VRef ap).
Hypothesis Hoff : Py.is_dict hb offers = true.

Definition state_of (st : acc) : state :=
  mkState (heap_of hb ap st) (es0 ++ acc_errors st).

(** The code does what the step says, and raises where the step has
    no result. *)
Definition follows (o : option acc) (r : res unit) : Prop :=
  match o with
  | Some st' => r = Ret tt (state_of st')
  | None => exists e s', r = Exn e s'
  end.

Lemma loop_store_props (P : pydict) (g : nat) :
  loop_store hb ap P g !! ap = Some (ODict P).
Proof.
  clear Ham Hne Hmp Hoff.
  unfold loop_store. rewrite lookup_app_l by (rewrite length_insert; lia).
  now apply list_lookup_insert_eq.
Qed.

Lemma loop_store_other (P : pydict) (g : nat) (a : addr) (o : obj) :
  a <> ap -> hb !! a = Some o -> loop_store hb ap P g !! a = Some o.
Proof.
  clear Hap Ham Hne Hmp Hoff.
  intros Hn Ha. unfold loop_store.
  rewrite lookup_app_l by (rewrite length_insert; eapply lookup_lt_Some; eauto).
  rewrite list_lookup_insert_ne by congruence. exact Ha.
Qed.

Lemma loop_store_insert (P P' : pydict) (g : nat) :
  <[ap := ODict P']> (loop_store hb ap P g) = loop_store hb ap P' g.
Proof.
  clear Ham Hne Hmp Hoff.
  unfold loop_store. rewrite insert_app_l by (rewrite length_insert; lia).
  now rewrite list_insert_insert_eq.
Qed.

Lemma loop_store_alloc (P : pydict) (g : nat) :
  loop_store hb ap P g ++ [ODict []] = loop_store hb ap P (S g).
Proof.
  clear Hap Ham Hne Hmp Hoff. unfold loop_store. now rewrite replicate_S_end, app_assoc. Qed.

Lemma loop_store_new (P : pydict) (g : nat) :
  loop_store hb ap P (S g) !! List.length (loop_store hb ap P g) = Some (ODict []).
Proof.
  clear Hap Ham Hne Hmp Hoff.
  rewrite <- loop_store_alloc. rewrite lookup_app_r by lia.
  now rewrite Nat.sub_diag.
Qed.

Lemma loop_store_merged (P : pydict) (g : nat) :
  Py.as_dict (loop_store hb ap P g) (VRef am) = Some md.
Proof. apply as_dict_ref. now apply loop_store_other. Qed.

Lemma loop_store_offers (P : pydict) (g : nat) :
  exists od, Py.as_dict (loop_store hb ap P g) offers = Some od.
Proof.
  unfold Py.is_dict in Hoff. destruct (Py.as_dict hb offers) as [od|] eqn:E;
    [|discriminate].
  destruct (as_dict_inv _ _ _ E) as (ao & -> & Hao).
  destruct (Nat.eq_dec ao ap) as [->|N].
  - exists P. apply as_dict_ref, loop_store_props.
  - exists od. apply as_dict_ref. now apply loop_store_other.
Qed.

Lemma state_of_report (d : diag) (st : acc) :
  err d (state_of st) = Ret tt (state_of (report d st)).
Proof. unfold err, state_of. cbn. now rewrite app_assoc. Qed.

Lemma follows_merge_offer (use resolved : val) (r : pydict) (st : acc) :
  Py.as_dict (heap_of hb ap st) resolved = Some r ->
  follows (merge_offer (heap_of hb ap st) use r st)
    ((let* addin_props := Py.get_or_new resolved "properties" (ODict []) in
      Instance.merge_addin_props (VRef am) addin_props use) (state_of st)).
Proof.
  intros Hr. unfold merge_offer.
  destruct (Dict.get r "properties") as [x|] eqn:G.
  - rewrite (bind_Ret _ _ _ _ _
               (get_or_new_present (state_of st) resolved x r "properties" _ Hr G)).
    pose proof (merge_pairs (VRef am) use x md (acc_props st) ap (state_of st)
                  (loop_store_merged _ _) Hmp (loop_store_props _ _)) as H.
    cbn [state_of st_heap st_errors] in H.
    destruct (pairs (heap_of hb ap st) x) as [q|]; cbn [fmap option_fmap option_map follows].
    + rewrite H. unfold state_of, heap_of. cbn [merge_props acc_props acc_new acc_errors].
      now rewrite loop_store_insert, app_assoc.
    + exact H.
  - assert (E : Py.get_or_new resolved "properties" (ODict []) (state_of st) =
                Ret (VRef (List.length (heap_of hb ap st))) (state_of (new_dict st))).
    { unfold Py.get_or_new, bind, get_heap. cbn [state_of st_heap].
      rewrite Hr, G. unfold alloc, state_of, heap_of. cbn [st_heap st_errors new_dict
        acc_props acc_new acc_errors]. now rewrite loop_store_alloc. }
    rewrite (bind_Ret _ _ _ _ _ E).
    pose proof (merge_pairs (VRef am) use (VRef (List.length (heap_of hb ap st)))
                  md (acc_props st) ap (state_of (new_dict st))
                  (loop_store_merged _ _) Hmp (loop_store_props _ _)) as H.
    unfold pairs in H. cbn [state_of st_heap st_errors] in H.
    unfold heap_of at 1 in H. cbn [new_dict acc_props acc_new] in H.
    unfold heap_of at 1 in H. rewrite loop_store_new in H.
    cbn [follows]. rewrite H. unfold state_of, heap_of.
    cbn [merge_props new_dict acc_props acc_new acc_errors].
    now rewrite loop_store_insert, app_assoc.
Qed.

Lemma follows_merge_resolved (use resolved : val) (st : acc) :
  follows (merge_resolved (heap_of hb ap st) use resolved st)
    ((let* h := get_heap in
      when (Py.is_dict h resolved) (
        let* addin_props := Py.get_or_new resolved "properties" (ODict []) in
        Instance.merge_addin_props (VRef am) addin_props use)) (state_of st)).
Proof.
  unfold bind at 1, get_heap at 1. cbn [state_of st_heap].
  unfold merge_resolved, Py.is_dict.
  destruct (Py.as_dict (heap_of hb ap st) resolved) as [r|] eqn:E; cbn [when].
  - now apply follows_merge_offer.
  - reflexivity.
Qed.

Lemma follows_steps {A} (f : acc -> A -> option acc) (body : A -> M unit) :
  (forall st x, follows (f st x) (body x (state_of st))) ->
  forall xs st, follows (steps f xs st) (for_each xs body (state_of st)).
Proof.
  intros H. induction xs as [|x xs IH]; intros st; cbn [steps for_each].
  - reflexivity.
  - specialize (H st x). destruct (f st x) as [st'|]; cbn [follows] in H.
    + rewrite (bind_Ret _ _ _ _ _ H). apply IH.
    + destruct H as (e & s' & H). rewrite (bind_Exn _ _ _ _ _ H). cbn. eauto.
Qed.

(** The states of the loop. *)
Definition looping (s : state) : Prop := exists st, s = state_of st.

Lemma follows_ref_step (use : val) (st : acc) (ref : val) :
  follows
    (merge_resolved (heap_of hb ap st) use (resolved_of (heap_of hb ap st) root ref) st)
    ((let* resolved := if Py.is_str ref then Instance._resolve_ref root ref else ret ref in
      let* h := get_heap in
      when (Py.is_dict h resolved) (
        let* addin_props := Py.get_or_new resolved "properties" (ODict []) in
        Instance.merge_addin_props (VRef am) addin_props use)) (state_of st)).
Proof.
  assert (E : (if Py.is_str ref then Instance._resolve_ref root ref else ret ref)
                (state_of st) =
              Ret (resolved_of (heap_of hb ap st) root ref) (state_of st)).
  { destruct ref; try reflexivity. apply Refs.resolve_ref_target. }
  rewrite (bind_Ret _ _ _ _ _ E). apply follows_merge_resolved.
Qed.

Lemma follows_for_in_list (al : addr) (l : list val) (f : acc -> val -> option acc)
    (body : val -> M unit) (st : acc) :
  heap_of hb ap st !! al = Some (OList l) ->
  (forall st x, follows (f st x) (body x (state_of st))) ->
  follows (steps f l st) (Iter.for_in (VRef al) body (state_of st)).
Proof.
  intros Hl Hf.
  assert (Hal : al <> ap).
  { intros ->. unfold heap_of in Hl. rewrite loop_store_props in Hl. discriminate. }
  assert (Hb : hb !! al = Some (OList l)).
  { unfold heap_of, loop_store in Hl.
    destruct (decide (al < List.length hb)%nat) as [Hlt|Hge].
    - rewrite lookup_app_l in Hl by (rewrite length_insert; lia).
      now rewrite list_lookup_insert_ne in Hl by congruence.
    - rewrite lookup_app_r in Hl by (rewrite length_insert; lia).
      apply lookup_replicate in Hl as [? _]. discriminate. }
  rewrite (for_in_list al l body looping).
  - now apply follows_steps.
  - intros s [st1 ->]. unfold state_of, heap_of. cbn [st_heap].
    now apply loop_store_other.
  - intros x s0 s1 [st1 ->] E. specialize (Hf st1 x).
    destruct (f st1 x) as [st2|]; cbn [follows] in Hf.
    + exists st2. congruence.
    + destruct Hf as (e & s' & Hf). congruence.
  - now exists st.
Qed.

Lemma follows_use_step (st : acc) (use : val) :
  follows (use_step hb ap root offers st use)
    ((let* offered := Py.contains use offers in
      if negb offered then err (ENotOffered use)
      else
        let* addin := Py.item_val offers use in
        let* h := get_heap in
        if Py.is_list h addin then
          Iter.for_in addin (fun ref =>
            let* resolved :=
              if Py.is_str ref then Instance._resolve_ref root ref else ret ref in
            let* h := get_heap in
            when (Py.is_dict h resolved) (
              let* addin_props := Py.get_or_new resolved "properties" (ODict []) in
              Instance.merge_addin_props (VRef am) addin_props use))
        else if Py.is_dict h addin then
          let* has_ref := Py.has_key "$ref" addin in
          if has_ref then
            let* ref := Py.item addin "$ref" in
            let* resolved := Instance._resolve_ref root ref in
            let* h := get_heap in
            when (Py.is_dict h resolved) (
              let* addin_props := Py.get_or_new resolved "properties" (ODict []) in
              Instance.merge_addin_props (VRef am) addin_props use)
          else
            let* addin_props := Py.get_or_new addin "properties" (ODict []) in
            Instance.merge_addin_props (VRef am) addin_props use
        else err (EInvalidAddin use)) (state_of st)).
Proof.
  destruct (loop_store_offers (acc_props st) (acc_new st)) as [od Hod].
  fold (heap_of hb ap st) in Hod.
  destruct (as_dict_inv _ _ _ Hod) as (ao & -> & Hao).
  unfold use_step. rewrite Hod.
  assert (Hc : forall x, (forall a, x <> VRef a) -> (forall k, x <> VStr k) ->
            Py.contains x (VRef ao) (state_of st) = Ret false (state_of st)).
  { intros x H1 H2. unfold Py.contains, bind, get_heap. cbn [state_of st_heap].
    rewrite Hao.
    destruct x as [| | | |k|a']; try reflexivity;
      [now destruct (H2 k) | now destruct (H1 a')]. }
  destruct use as [|b|z|f|name|a].
  1-4: erewrite bind_Ret by (apply Hc; discriminate);
       cbn [negb follows]; apply state_of_report.
  2: { cbn [follows]. eexists _, (state_of st).
       unfold Py.contains, bind, get_heap. cbn [state_of st_heap]. now rewrite Hao. }
  change (Py.contains (VStr name) (VRef ao)) with (Py.has_key name (VRef ao)).
  rewrite (bind_Ret _ _ _ _ _ (has_key_dict (state_of st) _ _ name Hod)).
  unfold Dict.mem. destruct (Dict.get od name) as [addin|] eqn:G; cbn [negb].
  2: { cbn [follows]. apply state_of_report. }
  assert (Hiv : Py.item_val (VRef ao) (VStr name) (state_of st) = Ret addin (state_of st)).
  { unfold Py.item_val, bind, get_heap, Py.lift_opt. cbn [state_of st_heap].
    now rewrite Hod, G. }
  rewrite (bind_Ret _ _ _ _ _ Hiv).
  unfold bind at 1, get_heap at 1. cbn [state_of st_heap].
  unfold Py.is_list, Py.is_dict.
  destruct (Py.as_list (heap_of hb ap st) addin) as [refs|] eqn:El.
  - destruct (as_list_inv _ _ _ El) as (al & -> & Hal).
    apply (follows_for_in_list al refs); [exact Hal|].
    intros st1 ref. apply follows_ref_step.
  - destruct (Py.as_dict (heap_of hb ap st) addin) as [ad|] eqn:Ed.
    2: { cbn [follows]. apply state_of_report. }
    rewrite (bind_Ret _ _ _ _ _ (has_key_dict (state_of st) _ _ "$ref" Ed)).
    unfold Dict.mem. destruct (Dict.get ad "$ref") as [ref|] eqn:Gr.
    + rewrite (bind_Ret _ _ _ _ _ (item_dict (state_of st) _ _ _ _ Ed Gr)).
      destruct ref as [| | | |r|a];
        try (cbn [follows]; eexists _, (state_of st); reflexivity).
      rewrite (bind_Ret _ _ _ _ _ (Refs.resolve_ref_target root r (state_of st))).
      apply follows_merge_resolved.
    + now apply follows_merge_offer.
Qed.

Lemma follows_uses (uses_l : list val) (st : acc) :
  follows (steps (use_step hb ap root offers) uses_l st)
    (for_each uses_l (fun use =>
      let* offered := Py.contains use offers in
      if negb offered then err (ENotOffered use)
      else
        let* addin := Py.item_val offers use in
        let* h := get_heap in
        if Py.is_list h addin then
          Iter.for_in addin (fun ref =>
            let* resolved :=
              if Py.is_str ref then Instance._resolve_ref root ref else ret ref in
            let* h := get_heap in
            when (Py.is_dict h resolved) (
              let* addin_props := Py.get_or_new resolved "properties" (ODict []) in
              Instance.merge_addin_props (VRef am) addin_props use))
        else if Py.is_dict h addin then
          let* has_ref := Py.has_key "$ref" addin in
          if has_ref then
            let* ref := Py.item addin "$ref" in
            let* resolved := Instance._resolve_ref root ref in
            let* h := get_heap in
            when (Py.is_dict h resolved) (
              let* addin_props := Py.get_or_new resolved "properties" (ODict []) in
              Instance.merge_addin_props (VRef am) addin_props use)
          else
            let* addin_props := Py.get_or_new addin "properties" (ODict []) in
            Instance.merge_addin_props (VRef am) addin_props use
        else err (EInvalidAddin use)) (state_of st)).
Proof. apply follows_steps. intros st1 use. apply follows_use_step. Qed.

End Run.

(** *** Before the loop *)

Lemma effective_props (h : heap) (sd : pydict) :
  (forall v, Dict.get sd "properties" = Some v -> Py.is_dict h v = true) ->
  Dict.get (effective h sd) "properties" = Some (VRef (props_addr h sd)) /\
  base h sd !! props_addr h sd = Some (ODict (existing h sd)) /\
  (props_addr h sd < List.length (base h sd))%nat /\
  List.length h <> props_addr h sd.
Proof.
  intros Hp. unfold effective, props_addr, existing, base, Dict.mem.
  destruct (Dict.get sd "properties") as [v|] eqn:G.
  - specialize (Hp v eq_refl). unfold Py.is_dict in Hp.
    destruct (Py.as_dict h v) as [p|] eqn:E; [|discriminate].
    destruct (as_dict_inv _ _ _ E) as (a & -> & Ha).
    pose proof (lookup_lt_Some _ _ _ Ha) as Hlt.
    split; [exact G|]. split; [|split].
    + cbn. rewrite lookup_app_l by exact Hlt. exact Ha.
    + rewrite length_app. lia.
    + lia.
  - split; [apply get_set_eq|]. split; [|split].
    + rewrite lookup_app_r by lia.
      replace (S (List.length h) - List.length h)%nat with 1%nat by lia. reflexivity.
    + rewrite length_app. cbn. lia.
    + lia.
Qed.

Lemma preamble (schema : val) (sd : pydict) (s : state) :
  Py.as_dict (st_heap s) schema = Some sd ->
  Py.copy_dict schema s =
    Ret (VRef (List.length (st_heap s)))
        (mkState (st_heap s ++ [ODict sd]) (st_errors s)) /\
  Py.setdefault_dict (VRef (List.length (st_heap s))) "properties"
    (mkState (st_heap s ++ [ODict sd]) (st_errors s)) =
    Ret tt (mkState (base (st_heap s) sd) (st_errors s)).
Proof.
  intros Hs. destruct (as_dict_inv _ _ _ Hs) as (a & -> & Ha). split.
  - unfold Py.copy_dict, Py.pairs_of, bind, get_heap, alloc. now rewrite Ha.
  - unfold Py.setdefault_dict, bind, get_heap. cbn [st_heap].
    rewrite as_dict_new. unfold base, effective.
    destruct (Dict.mem sd "properties"); [reflexivity|].
    unfold alloc, store, ret. cbn [st_heap st_errors]. f_equal. f_equal.
    rewrite length_app. cbn [List.length].
    replace (List.length (st_heap s) + 1)%nat with (S (List.length (st_heap s))) by lia.
    rewrite insert_app_l by (rewrite length_app; cbn; lia).
    rewrite insert_app_r_alt by lia. rewrite Nat.sub_diag. cbn.
    now rewrite <- app_assoc.
Qed.

Lemma effective_other (h : heap) (sd : pydict) (k : string) :
  k <> "properties" -> Dict.get (effective h sd) k = Dict.get sd k.
Proof.
  intros N. unfold effective. destruct (Dict.mem sd "properties"); [reflexivity|].
  apply get_set_ne. congruence.
Qed.

Lemma base_merged (h : heap) (sd : pydict) :
  base h sd !! List.length h = Some (ODict (effective h sd)).
Proof. unfold base. rewrite lookup_app_r by lia. now rewrite Nat.sub_diag. Qed.

Lemma base_is_dict (h : heap) (sd : pydict) (v : val) :
  Py.is_dict h v = true -> Py.is_dict (base h sd) v = true.
Proof.
  unfold Py.is_dict. destruct (Py.as_dict h v) as [d|] eqn:E; [|discriminate].
  intros _. destruct (as_dict_inv _ _ _ E) as (a & -> & Ha).
  unfold base. rewrite (as_dict_ref _ a d); [reflexivity|].
  rewrite lookup_app_l by (eapply lookup_lt_Some; eauto). exact Ha.
Qed.

End Uses.

(** C1, amended.  For a schema object whose [properties], if it has
    any, is an object, and an instance object whose [$uses] is not
    empty, under a root whose [$offers] is an object, [_apply_uses]
    returns a new dict with the entries of the schema: its [properties]
    is the very [properties] object of the schema, or a new object when
    the schema has none.  The names of [$uses] that are not reserved
    are taken in order.  A name that [$offers] lacks gets a diagnostic;
    an add-in offered inline, by [$ref], or as a list of references and
    schemas has the [properties] of each schema it resolves to merged
    into that object ([Uses.use_step]): one conflict diagnostic for
    each add-in property name that exists at that moment, whether it
    comes from the schema or from an add-in merged before, and then
    [update], in which the add-in wins.  So a name ends with the
    property schema of the last merge that defines it, and only the
    names that no merge defines keep the existing one.  Where the step
    has no result, the call raises: for a name that is an object or an
    array ([TypeError], unhashable), for a [$ref] that is no string
    ([AttributeError]), and for [properties] of an add-in that are
    neither an object nor empty, at the point where [Py.pairs_of]
    stops following [update]. *)
Theorem apply_uses_addin_wins (root schema instance uses offers : val)
    (di rd sd : pydict) (s : state) :
  Py.as_dict (st_heap s) instance = Some di ->
  Dict.get di "$uses" = Some uses ->
  Py.truthy (st_heap s) uses = true ->
  Py.as_dict (st_heap s) root = Some rd ->
  Dict.get rd "$offers" = Some offers ->
  Py.is_dict (st_heap s) offers = true ->
  Py.as_dict (st_heap s) schema = Some sd ->
  (forall v, Dict.get sd "properties" = Some v -> Py.is_dict (st_heap s) v = true) ->
  let h := st_heap s in
  let merged := VRef (List.length h) in
  let ap := Uses.props_addr h sd in
  let p := Uses.existing h sd in
  match Uses.offered (Uses.base h sd) ap root offers (Uses.names h uses) p with
  | None => exists e s', Instance._apply_uses root schema instance s = Exn e s'
  | Some st =>
      let h' := Uses.loop_store (Uses.base h sd) ap (Uses.acc_props st) (Uses.acc_new st) in
      Instance._apply_uses root schema instance s =
        Ret merged (mkState h' (st_errors s ++ Uses.acc_errors st)) /\
      Py.as_dict h' merged = Some (Uses.effective h sd) /\
      (forall k, k <> "properties" ->
         Dict.get (Uses.effective h sd) k = Dict.get sd k) /\
      Dict.get (Uses.effective h sd) "properties" = Some (VRef ap) /\
      (forall v, Dict.get sd "properties" = Some v -> v = VRef ap) /\
      Py.as_dict h' (VRef ap) = Some (Uses.acc_props st) /\
      Uses.acc_props st = Uses.merge_all p (Uses.acc_merged st) /\
      List.filter Uses.is_conflict (Uses.acc_errors st) =
        Uses.conflict_log p (Uses.acc_merged st) /\
      (forall k v ms m ms',
         Uses.acc_merged st = ms ++ m :: ms' ->
         NoDup (Dict.keys (snd m)) -> Dict.get (snd m) k = Some v ->
         Forall (fun m' => Dict.get (snd m') k = None) ms' ->
         Dict.get (Uses.acc_props st) k = Some v) /\
      (forall k,
         Forall (fun m => Dict.get (snd m) k = None) (Uses.acc_merged st) ->
         Dict.get (Uses.acc_props st) k = Dict.get p k)
  end.
Proof.
  intros Hi Hu Ht Hr Ho Hod Hs Hp h merged ap p. subst h.
  destruct (Uses.effective_props (st_heap s) sd Hp) as (Hmp & Hbp & Hap & Hne).
  fold ap p in Hmp, Hbp, Hap, Hne.
  pose proof (Uses.base_merged (st_heap s) sd) as Ham.
  pose proof (Uses.base_is_dict (st_heap s) sd offers Hod) as Hoff.
  destruct (Uses.preamble schema sd s Hs) as [Hc Hsd].
  pose proof (Uses.follows_uses (Uses.base (st_heap s) sd) ap (List.length (st_heap s))
                (Uses.effective (st_heap s) sd) root offers (st_errors s)
                Hap Ham Hne Hmp Hoff
                (List.filter (fun u => negb (Instance.is_reserved u)) (Uses.names (st_heap s) uses))
                (Uses.mkAcc p 0 [] [])) as Hrun.
  assert (Es : Uses.state_of (Uses.base (st_heap s) sd) ap (st_errors s) (Uses.mkAcc p 0 [] []) =
               mkState (Uses.base (st_heap s) sd) (st_errors s)).
  { unfold Uses.state_of, Uses.heap_of, Uses.loop_store. cbn.
    now rewrite (list_insert_id _ _ _ Hbp), !app_nil_r. }
  rewrite Es in Hrun.
  assert (E : forall r,
            for_each (List.filter (fun u => negb (Instance.is_reserved u))
                                  (Uses.names (st_heap s) uses))
              (fun use =>
                 let* offered := Py.contains use offers in
                 if negb offered then err (ENotOffered use)
                 else
                   let* addin := Py.item_val offers use in
                   let* h := get_heap in
                   if Py.is_list h addin then
                     Iter.for_in addin (fun ref =>
                       let* resolved :=
                         if Py.is_str ref then Instance._resolve_ref root ref else ret ref in
                       let* h := get_heap in
                       when (Py.is_dict h resolved) (
                         let* addin_props :=
                           Py.get_or_new resolved "properties" (ODict []) in
                         Instance.merge_addin_props merged addin_props use))
                   else if Py.is_dict h addin then
                     let* has_ref := Py.has_key "$ref" addin in
                     if has_ref then
                       let* ref := Py.item addin "$ref" in
                       let* resolved := Instance._resolve_ref root ref in
                       let* h := get_heap in
                       when (Py.is_dict h resolved) (
                         let* addin_props :=
                           Py.get_or_new resolved "properties" (ODict []) in
                         Instance.merge_addin_props merged addin_props use)
                     else
                       let* addin_props := Py.get_or_new addin "properties" (ODict []) in
                       Instance.merge_addin_props merged addin_props use
                   else err (EInvalidAddin use))
              (mkState (Uses.base (st_heap s) sd) (st_errors s)) = r ->
            Instance._apply_uses root schema instance s =
            match r with
            | Ret _ s' => Ret merged s'
            | Exn e s' => Exn e s'
            | Diverge => Diverge
            end).
  { intros r <-. unfold Instance._apply_uses.
    rewrite (bind_Ret _ _ _ _ _ (get_present _ _ _ _ _ Hi Hu)).
    unfold bind at 1, get_heap at 1. rewrite Ht. cbn [negb].
    assert (El : match Py.as_list (st_heap s) uses with
                 | Some l => ret l
                 | None => ret [uses]
                 end s = Ret (Uses.names (st_heap s) uses) s).
    { unfold Uses.names. now destruct (Py.as_list (st_heap s) uses). }
    rewrite (bind_Ret _ _ _ _ _ El).
    rewrite (bind_Ret _ _ _ _ _ (get_or_new_present _ _ _ _ _ (ODict []) Hr Ho)).
    rewrite (bind_Ret _ _ _ _ _ Hc).
    rewrite (bind_Ret _ _ _ _ _ Hsd).
    unfold bind. fold merged.
    now destruct (for_each _ _ _). }
  unfold Uses.offered.
  destruct (Uses.steps _ _ _) as [st|] eqn:Est; cbn [Uses.follows] in Hrun.
  - cbv zeta.
    destruct (Uses.accounted_offered _ _ _ _ _ _ _ Est) as [Hm Hl].
    split; [exact (E _ Hrun)|].
    split; [exact (Uses.loop_store_merged _ ap _ _ Ham Hne _ _)|].
    split; [intros k; apply Uses.effective_other|].
    split; [exact Hmp|].
    split.
    { intros v Hv. specialize (Hp v Hv). unfold Py.is_dict in Hp.
      destruct (Py.as_dict (st_heap s) v) as [d|] eqn:Ev; [|discriminate].
      destruct (as_dict_inv _ _ _ Ev) as (a & -> & _).
      unfold ap, Uses.props_addr. now rewrite Hv. }
    split; [apply as_dict_ref; exact (Uses.loop_store_props _ ap Hap _ _)|].
    split; [exact Hm|]. split; [exact Hl|]. split.
    + intros k v ms m ms' Em Hn Hv Hf. rewrite Hm, Em.
      now apply Uses.merge_all_named.
    + intros k Hf. rewrite Hm. now apply Uses.merge_all_other.
  - destruct Hrun as (e & s' & Hrun). exists e, s'. exact (E _ Hrun).
Qed.

(** The theorem on a root that offers add-ins in the three forms, for
    an instance that uses five of them, a reserved name and a name
    that is not offered: [extra] ends with the schema of [Tagged] (the
    dict at address 4), [main] with that of the second entry of [Both]
    (address 12), [tag] is new; five conflicts are reported, in the
    order of the merges. *)
Lemma apply_uses_addin_wins_witness :
  let s := snd (loaded2 Docs.offers_schema Docs.offers_instance) in
  Py.as_dict (st_heap s) (VRef 2) = Some [("main", VRef 0); ("extra", VRef 1)] /\
  exists s',
    Instance._apply_uses (VRef 18) (VRef 18) (VRef 20) s = Ret (VRef 21) s' /\
    Py.as_dict (st_heap s') (VRef 21) = Py.as_dict (st_heap s) (VRef 18) /\
    Py.as_dict (st_heap s') (VRef 2) =
      Some [("main", VRef 12); ("extra", VRef 4); ("tag", VRef 3)] /\
    st_errors s' =
      [EAddinConflict (VStr "extra") (VStr "Extra");
       EAddinConflict (VStr "extra") (VStr "Tag");
       EAddinConflict (VStr "tag") (VStr "Both");
       EAddinConflict (VStr "extra") (VStr "Both");
       EAddinConflict (VStr "main") (VStr "Both");
       ENotOffered (VStr "Missing"); EInvalidAddin (VStr "Bad")].
Proof.
  cbv zeta. split; [reflexivity|].
  assert (Hp : forall v,
            Dict.get (default [] (Py.as_dict
                        (st_heap (snd (loaded2 Docs.offers_schema Docs.offers_instance)))
                        (VRef 18))) "properties" = Some v ->
            Py.is_dict (st_heap (snd (loaded2 Docs.offers_schema Docs.offers_instance))) v
            = true).
  { intros v Hv. vm_compute in Hv. injection Hv as <-. reflexivity. }
  generalize (apply_uses_addin_wins (VRef 18) (VRef 18) (VRef 20) (VRef 19) (VRef 17)
                (default [] (Py.as_dict
                   (st_heap (snd (loaded2 Docs.offers_schema Docs.offers_instance)))
                   (VRef 20)))
                (default [] (Py.as_dict
                   (st_heap (snd (loaded2 Docs.offers_schema Docs.offers_instance)))
                   (VRef 18)))
                (default [] (Py.as_dict
                   (st_heap (snd (loaded2 Docs.offers_schema Docs.offers_instance)))
                   (VRef 18)))
                (snd (loaded2 Docs.offers_schema Docs.offers_instance))
                eq_refl eq_refl eq_refl eq_refl eq_refl eq_refl eq_refl Hp).
  cbv zeta.
  destruct (Uses.offered _ _ _ _ _ _) as [st|] eqn:E; [|vm_compute in E; discriminate].
  vm_compute in E. injection E as <-.
  intros (H & _).
  eexists. split; [exact H|]. repeat split; reflexivity.
Defined.

(** ** The trials of [oneOf] *)

Module OneOf.

Section Trials.

Variable rec : val -> val -> string -> M unit.
Variables (instance : val) (path : string).
(** Where the array of subschemas is, and what it holds. *)
Variables (a : addr) (all : list val).






End Trials.


(** The conditional-composition extension is enabled: the root's
    [$uses] is an array that names it. *)
Definition enabled (h : heap) (rd : pydict) : Prop :=
  exists u l, Dict.get rd "$uses" = Some u /\ Py.as_list h u = Some l /\
              In (VStr Instance.CC) l.








End OneOf.



(** ** Import expansion of one key *)

Module Expand.

(** What the loop [for k, v in imported_defs.items(): if k not in obj:
    obj[k] = v] makes of the entries [d] of [obj]. *)
Definition merged (d imported : pydict) : pydict :=
  fold_left (fun acc kv =>
               if Dict.mem acc (fst kv) then acc else Dict.set acc (fst kv) (snd kv))
            imported d.

Lemma get_merged_old (imported d : pydict) (k : string) (v : val) :
  Dict.get d k = Some v -> Dict.get (merged d imported) k = Some v.
Proof.
  revert d. unfold merged.
  induction imported as [|[k' v'] q IH]; intros d H; cbn; [exact H|].
  apply IH. destruct (Dict.mem d k') eqn:E; [exact H|].
  rewrite get_set_ne; [exact H|]. intros ->.
  apply mem_get_None in E. congruence.
Qed.

Lemma get_merged_new (imported d : pydict) (k : string) (v : val) :
  Dict.get d k = None -> Dict.get imported k = Some v ->
  Dict.get (merged d imported) k = Some v.
Proof.
  revert d.
  induction imported as [|[k' v'] q IH]; intros d H G; cbn in G; [discriminate|].
  change (merged d ((k', v') :: q))
    with (merged (if Dict.mem d k' then d else Dict.set d k' v') q).
  destruct (String.eqb_spec k' k) as [->|N].
  - injection G as ->. apply get_merged_old.
    apply mem_get_None in H. rewrite H. apply get_set_eq.
  - apply IH; [|exact G]. destruct (Dict.mem d k'); [exact H|].
    rewrite get_set_ne; [exact H | congruence].
Qed.

Lemma get_del_ne (d : pydict) (k k' : string) :
  k <> k' -> Dict.get (Dict.del d k') k = Dict.get d k.
Proof.
  intros N. induction d as [|[k0 v0] d IH]; cbn; [reflexivity|].
  destruct (String.eqb_spec k0 k') as [->|N'].
  - destruct (String.eqb_spec k' k); [congruence | reflexivity].
  - cbn. now rewrite IH.
Qed.

Lemma get_del_eq (d : pydict) (k : string) :
  NoDup (Dict.keys d) -> Dict.get (Dict.del d k) k = None.
Proof.
  induction d as [|[k0 v0] d IH]; cbn; intros N; [reflexivity|].
  inversion N as [|? ? Hk N']; subst.
  destruct (String.eqb_spec k0 k) as [->|N0].
  - now apply Uses.get_None_keys.
  - cbn. destruct (String.eqb_spec k0 k); [congruence | auto].
Qed.

Lemma keys_set_absent (d : pydict) (k : string) (v : val) :
  Dict.get d k = None -> Dict.keys (Dict.set d k v) = Dict.keys d ++ [k].
Proof.
  induction d as [|[k0 v0] d IH]; cbn; intros H; [reflexivity|].
  destruct (String.eqb_spec k0 k) as [->|N]; [discriminate|].
  cbn. f_equal. now apply IH.
Qed.

Lemma NoDup_merged (imported d : pydict) :
  NoDup (Dict.keys d) -> NoDup (Dict.keys (merged d imported)).
Proof.
  revert d. unfold merged.
  induction imported as [|[k' v'] q IH]; intros d N; cbn; [exact N|].
  apply IH. destruct (Dict.mem d k') eqn:E; [exact N|].
  apply mem_get_None in E. rewrite (keys_set_absent _ _ _ E).
  apply NoDup_app. split; [exact N|]. split; [|apply NoDup_singleton].
  intros x Hx Hx'. apply list_elem_of_singleton in Hx'. subst x.
  now apply Uses.get_None_keys in E.
Qed.

(** A [for] over the items of a dict that the body leaves alone
    visits them in order. *)
Lemma items_loop_static (a : addr) (q : pydict) (B : string * val -> M unit) :
  (forall x s0 s1, B x s0 = Ret tt s1 ->
     st_heap s0 !! a = Some (ODict q) -> st_heap s1 !! a = Some (ODict q)) ->
  forall rest i s,
    (i + rest = List.length q)%nat ->
    st_heap s !! a = Some (ODict q) ->
    Iter.loop (Iter.dict_next a (List.length q)) i rest B s
    = for_each (drop i q) B s.
Proof.
  intros Hst. unfold Iter.loop.
  induction rest as [|r IH]; intros i s Hi Ha; cbn [Iter.fold].
  - assert (i = List.length q) by lia. subst i.
    unfold bind at 1, Iter.dict_next, bind, get_heap.
    rewrite Ha, Nat.eqb_refl. cbn -[lookup].
    rewrite (lookup_ge_None_2 q (List.length q)) by lia.
    rewrite drop_ge; [reflexivity | lia].
  - assert (Hlt : (i < List.length q)%nat) by lia.
    destruct (lookup_lt_is_Some_2 q i Hlt) as [kv Hkv].
    rewrite (drop_S _ _ _ Hkv). cbn [for_each].
    unfold bind at 1, Iter.dict_next, bind at 1, get_heap at 1.
    rewrite Ha, Nat.eqb_refl. unfold ret at 1. rewrite Hkv.
    rewrite bind_assoc.
    destruct (B kv s) as [[] s1|e s1|] eqn:EB.
    2: { now rewrite !(bind_Exn _ _ _ _ _ EB). }
    2: { now rewrite !(bind_Diverge _ _ _ EB). }
    rewrite !(bind_Ret _ _ _ _ _ EB). rewrite bind_ret_l. cbn [fst snd].
    apply IH; [lia|]. exact (Hst _ _ _ EB Ha).
Qed.

(** One round of the merge: [if k not in obj: obj[k] = v]. *)
Lemma merge_one (ao : addr) (cur : pydict) (k : string) (v : val) (s : state) :
  st_heap s !! ao = Some (ODict cur) ->
  (let* present := Py.has_key k (VRef ao) in
   when (negb present) (Py.setitem (VRef ao) k v)) s =
  Ret tt (mkState (<[ao := ODict (if Dict.mem cur k then cur else Dict.set cur k v)]>
                     (st_heap s)) (st_errors s)).
Proof.
  intros Ha. pose proof (as_dict_ref _ _ _ Ha) as Hd.
  rewrite (bind_Ret _ _ _ _ _ (has_key_dict _ _ _ _ Hd)).
  destruct (Dict.mem cur k); cbn [negb when].
  - rewrite list_insert_id by exact Ha. now destruct s.
  - unfold Py.setitem, bind, get_heap, store. now rewrite Hd.
Qed.

Lemma merge_each (ao : addr) (q : pydict) :
  forall (cur : pydict) (s : state),
    st_heap s !! ao = Some (ODict cur) ->
    for_each q (fun kv =>
      let* present := Py.has_key (fst kv) (VRef ao) in
      when (negb present) (Py.setitem (VRef ao) (fst kv) (snd kv))) s =
    Ret tt (mkState (<[ao := ODict (merged cur q)]> (st_heap s)) (st_errors s)).
Proof.
  induction q as [|[k v] q IH]; intros cur s Ha; cbn [for_each].
  - cbn. rewrite list_insert_id by exact Ha. now destruct s.
  - cbn [fst snd]. rewrite (bind_Ret _ _ _ _ _ (merge_one ao cur k v s Ha)).
    rewrite (IH (if Dict.mem cur k then cur else Dict.set cur k v)).
    + cbn [st_heap st_errors]. now rewrite list_insert_insert_eq.
    + cbn [st_heap]. apply list_lookup_insert_eq. eapply lookup_lt_Some; eauto.
Qed.

(** [merge_defs] from a dict other than [obj]. *)
Lemma merge_defs_merges (ao ai : addr) (d q : pydict) (s : state) :
  ao <> ai ->
  st_heap s !! ao = Some (ODict d) ->
  st_heap s !! ai = Some (ODict q) ->
  Imports.merge_defs (VRef ao) (VRef ai) s =
  Ret tt (mkState (<[ao := ODict (merged d q)]> (st_heap s)) (st_errors s)).
Proof.
  intros N Ha Hi. unfold Imports.merge_defs, Iter.for_items, Iter.items.
  unfold bind at 1, bind at 1, get_heap at 1. rewrite (as_dict_ref _ _ _ Hi).
  unfold ret at 1. unfold Iter.run. cbn [fst snd].
  rewrite (items_loop_static ai q).
  - rewrite drop_0. now apply merge_each.
  - intros [k v] s0 s1 Hb H0. cbn [fst snd] in Hb.
    destruct (st_heap s0 !! ao) as [[cur|l]|] eqn:E0.
    + rewrite (merge_one ao cur k v s0 E0) in Hb. inversion Hb; subst.
      cbn [st_heap]. rewrite list_lookup_insert_ne by exact N. exact H0.
    + unfold Py.has_key, Py.contains, bind, get_heap in Hb. rewrite E0 in Hb.
      destruct (Py.list_mem _ _ _) as [b|]; cbn in Hb; [|discriminate].
      destruct b; cbn in Hb.
      * inversion Hb; subst. exact H0.
      * unfold Py.setitem, bind, get_heap, Py.as_dict, Py.deref in Hb.
        rewrite E0 in Hb. discriminate.
    + unfold Py.has_key, Py.contains, bind, get_heap in Hb. rewrite E0 in Hb.
      discriminate.
  - cbn. lia.
  - exact Hi.
Qed.

(** The entries of the [definitions] of the fetched document: none
    when it has no [definitions], those of the dict otherwise. *)
Definition defs_are (h : heap) (ed dd : pydict) : Prop :=
  (Dict.get ed "definitions" = None /\ dd = []) \/
  (exists defs, Dict.get ed "definitions" = Some defs /\ Py.as_dict h defs = Some dd).

Lemma insert_new (h : heap) (o o' : obj) :
  <[List.length h := o']> (h ++ [o]) = h ++ [o'].
Proof.
  rewrite <- (Nat.add_0_r (List.length h)) at 1. now rewrite insert_app_r.
Qed.

(** [imported_defs] of a [$import] whose document has [type] and
    a string [name]. *)
Lemma import_defs_ret (external t : val) (n : string) (ed dd : pydict) (s : state) :
  Py.as_dict (st_heap s) external = Some ed ->
  Dict.get ed "type" = Some t -> Dict.get ed "name" = Some (VStr n) ->
  defs_are (st_heap s) ed dd ->
  Imports.import_defs external s =
  Ret (VRef (List.length (st_heap s)))
      (mkState (st_heap s ++ [ODict (Dict.update [(n, external)] dd)]) (st_errors s)).
Proof.
  intros He Ht Hn Hd. unfold Imports.import_defs.
  unfold bind at 1, alloc at 1.
  set (s2 := mkState (st_heap s ++ [ODict []]) (st_errors s)).
  assert (He2 : Py.as_dict (st_heap s2) external = Some ed) by now apply as_dict_app.
  rewrite (bind_Ret _ _ _ _ _ (has_key_present _ _ _ _ _ He2 Ht)).
  rewrite (bind_Ret _ _ _ _ _ (has_key_present _ _ _ _ _ He2 Hn)).
  cbn [when]. rewrite bind_assoc.
  rewrite (bind_Ret _ _ _ _ _ (item_dict _ _ _ _ _ He2 Hn)).
  set (s3 := mkState (st_heap s ++ [ODict [(n, external)]]) (st_errors s)).
  assert (E3 : Py.setitem (VRef (List.length (st_heap s))) n external s2 = Ret tt s3).
  { unfold Py.setitem, bind, get_heap, store. unfold s2, s3. cbn [st_heap st_errors].
    rewrite as_dict_new. cbn [st_heap st_errors]. now rewrite insert_new. }
  rewrite (bind_Ret _ _ _ _ _ E3).
  assert (He3 : Py.as_dict (st_heap s3) external = Some ed) by now apply as_dict_app.
  rewrite (bind_Ret _ _ _ _ _ (has_key_dict _ _ _ _ He3)).
  destruct Hd as [[Hd ->] | (defs & Hd & Hdd)].
  - unfold Dict.mem. rewrite Hd. reflexivity.
  - unfold Dict.mem. rewrite Hd. cbn [when]. rewrite bind_assoc.
    rewrite (bind_Ret _ _ _ _ _ (item_dict _ _ _ _ _ He3 Hd)).
    rewrite bind_assoc. unfold bind at 1, get_heap at 1.
    assert (Hdd3 : Py.as_dict (st_heap s3) defs = Some dd) by now apply as_dict_app.
    rewrite (is_dict_as_dict _ _ _ Hdd3). cbn [when].
    destruct (as_dict_inv _ _ _ Hdd3) as (adefs & -> & Had).
    assert (E4 : Py.update (VRef (List.length (st_heap s))) (VRef adefs) s3 =
                 Ret tt (mkState (st_heap s ++ [ODict (Dict.update [(n, external)] dd)])
                           (st_errors s))).
    { unfold Py.update, bind, get_heap, Py.pairs_of, ret, store.
      unfold s3 in Had |- *. cbn [st_heap st_errors] in Had |- *.
      rewrite as_dict_new. unfold bind, get_heap. cbn [st_heap st_errors].
      rewrite Had. cbn [st_heap st_errors].
      rewrite as_dict_new. cbn [st_heap st_errors]. now rewrite insert_new. }
    rewrite (bind_Ret _ _ _ _ _ E4). reflexivity.
Qed.

(** The end of [import_key]: the merge into [obj] and the removal of
    the key. *)
Lemma merge_and_remove (ao ai : addr) (key : string) (d q : pydict) (x : val)
    (s : state) :
  ao <> ai ->
  st_heap s !! ao = Some (ODict d) ->
  st_heap s !! ai = Some (ODict q) ->
  Dict.get d key = Some x ->
  (Imports.merge_defs (VRef ao) (VRef ai) ;; Py.pop (VRef ao) key) s =
  Ret tt (mkState (<[ao := ODict (Dict.del (merged d q) key)]> (st_heap s))
            (st_errors s)).
Proof.
  intros N Ha Hi Hk.
  rewrite (bind_Ret _ _ _ _ _ (merge_defs_merges ao ai d q s N Ha Hi)).
  unfold Py.pop, bind, get_heap, store. cbn [st_heap st_errors].
  erewrite as_dict_insert_eq by exact Ha.
  unfold Dict.mem. rewrite (get_merged_old q d key x Hk).
  cbn [st_heap st_errors]. now rewrite list_insert_insert_eq.
Qed.

End Expand.

(** C9, amended.  With imports allowed, for an object that carries
    [$import] with an absolute URI whose fetched document is an object
    with [type] and a string [name]: the imported entries are the
    fetched document under its name, updated with the entries of its
    [definitions] -- so an entry of [definitions] with the document's
    own name replaces the document, and only without such an entry is
    the fetched document what is inlined under its name.  The imported
    entries are merged into the object without clobbering: every key
    already present (other than [$import]) keeps its value, every
    other imported key is added, and [$import] is removed.  For
    [$importdefs] the imported entries are those of the fetched
    document's [definitions], merged and removed in the same way. *)
Theorem import_merge_is_non_clobbering (fetch : string -> M val) (path u : string)
    (ao : addr) (d ed : pydict) (external : val) (s s1 : state) :
  st_heap s !! ao = Some (ODict d) ->
  Imports.ABSOLUTE_URI_REGEX u = true ->
  fetch u s = Ret external s1 ->
  st_heap s1 !! ao = Some (ODict d) ->
  Py.as_dict (st_heap s1) external = Some ed ->
  (forall t n dd,
     Dict.get d "$import" = Some (VStr u) ->
     Dict.get ed "type" = Some t -> Dict.get ed "name" = Some (VStr n) ->
     Expand.defs_are (st_heap s1) ed dd ->
     let imported := Dict.update [(n, external)] dd in
     let final := Dict.del (Expand.merged d imported) "$import" in
     Imports.import_key true fetch (VRef ao) path "$import" s =
       Ret tt (mkState (<[ao := ODict final]> (st_heap s1 ++ [ODict imported]))
                 (st_errors s1)) /\
     (forall k v, k <> "$import" -> Dict.get d k = Some v -> Dict.get final k = Some v) /\
     (forall k v, Dict.get d k = None -> Dict.get imported k = Some v ->
                  Dict.get final k = Some v) /\
     (NoDup (Dict.keys d) -> Dict.get final "$import" = None) /\
     (Dict.get dd n = None -> Dict.get imported n = Some external) /\
     (forall v, NoDup (Dict.keys dd) -> Dict.get dd n = Some v ->
                Dict.get imported n = Some v)) /\
  (forall adefs dd,
     Dict.get d "$importdefs" = Some (VStr u) ->
     Dict.get ed "definitions" = Some (VRef adefs) ->
     st_heap s1 !! adefs = Some (ODict dd) -> adefs <> ao ->
     let final := Dict.del (Expand.merged d dd) "$importdefs" in
     Imports.import_key true fetch (VRef ao) path "$importdefs" s =
       Ret tt (mkState (<[ao := ODict final]> (st_heap s1)) (st_errors s1)) /\
     (forall k v, k <> "$importdefs" -> Dict.get d k = Some v ->
                  Dict.get final k = Some v) /\
     (forall k v, Dict.get d k = None -> Dict.get dd k = Some v ->
                  Dict.get final k = Some v) /\
     (NoDup (Dict.keys d) -> Dict.get final "$importdefs" = None)).
Proof.
  intros Ha Hu Hf Ha1 He.
  pose proof (as_dict_ref _ _ _ Ha) as Hd.
  assert (Hlt : (ao < List.length (st_heap s1))%nat) by (eapply lookup_lt_Some; eauto).
  destruct (as_dict_inv _ _ _ He) as (ae & -> & Hae).
  assert (Hkeep : forall key x q k v, Dict.get d key = Some x -> k <> key ->
            Dict.get d k = Some v ->
            Dict.get (Dict.del (Expand.merged d q) key) k = Some v).
  { intros key x q k v _ N G. rewrite Expand.get_del_ne by exact N.
    now apply Expand.get_merged_old. }
  assert (Hadd : forall key x q k v, Dict.get d key = Some x ->
            Dict.get d k = None -> Dict.get q k = Some v ->
            Dict.get (Dict.del (Expand.merged d q) key) k = Some v).
  { intros key x q k v Hk G1 G2. rewrite Expand.get_del_ne by congruence.
    now apply Expand.get_merged_new. }
  assert (Hgone : forall key q, NoDup (Dict.keys d) ->
            Dict.get (Dict.del (Expand.merged d q) key) key = None).
  { intros key q N. apply Expand.get_del_eq. now apply Expand.NoDup_merged. }
  split.
  - intros t n dd Hk Ht Hn Hdd imported final.
    split; [|split; [|split; [|split; [|split]]]].
    + unfold Imports.import_key. cbn [String.eqb Ascii.eqb Bool.eqb orb when negb].
      rewrite (bind_Ret _ _ _ _ _ (item_dict _ _ _ _ _ Hd Hk)).
      rewrite Hu. cbn [negb]. rewrite (bind_Ret _ _ _ _ _ Hf).
      rewrite (bind_Ret _ _ _ _ _
                 (Expand.import_defs_ret (VRef ae) t n ed dd s1 He Ht Hn Hdd)).
      rewrite (Expand.merge_and_remove ao (List.length (st_heap s1)) "$import" d
                 imported (VStr u)); cbn [st_heap st_errors].
      * reflexivity.
      * lia.
      * rewrite lookup_app_l; [exact Ha1 | exact Hlt].
      * apply list_lookup_middle. reflexivity.
      * exact Hk.
    + intros k v. apply (Hkeep "$import" (VStr u)). exact Hk.
    + intros k v. apply (Hadd "$import" (VStr u)). exact Hk.
    + apply Hgone.
    + intros G. unfold imported. rewrite Uses.get_update_other by exact G.
      cbn. now rewrite String.eqb_refl.
    + intros v N G. unfold imported. now apply Uses.get_update_named.
  - intros adefs dd Hk Hdf Hdd Hne final.
    split; [|split; [|split]].
    + unfold Imports.import_key. cbn [String.eqb Ascii.eqb Bool.eqb orb when negb].
      rewrite (bind_Ret _ _ _ _ _ (item_dict _ _ _ _ _ Hd Hk)).
      rewrite Hu. cbn [negb]. rewrite (bind_Ret _ _ _ _ _ Hf).
      assert (E : Imports.importdefs_defs (VRef ae) s1 = Ret (VRef adefs) s1).
      { unfold Imports.importdefs_defs.
        rewrite (bind_Ret _ _ _ _ _ (has_key_present _ _ _ _ _ He Hdf)).
        rewrite (bind_Ret _ _ _ _ _ (item_dict _ _ _ _ _ He Hdf)).
        unfold bind, get_heap. now rewrite (is_dict_as_dict _ _ _ (as_dict_ref _ _ _ Hdd)). }
      rewrite (bind_Ret _ _ _ _ _ E).
      rewrite (Expand.merge_and_remove ao adefs "$importdefs" d dd (VStr u));
        [reflexivity | congruence | exact Ha1 | exact Hdd | exact Hk].
    + intros k v. apply (Hkeep "$importdefs" (VStr u)). exact Hk.
    + intros k v. apply (Hadd "$importdefs" (VStr u)). exact Hk.
    + apply Hgone.
Qed.

(** The theorem on the importing schema: the fetched document has
    name "Address" and a [definitions] entry "Address" (the dict at
    address 7), which is what ends up under [Address]; [Zip] keeps its
    value and [$import] is gone. *)
Lemma import_merge_is_non_clobbering_witness :
  let s := snd (loaded Docs.importing_schema) in
  let fetch := Imports._fetch_external_schema (file_runtime Docs.import_files)
                 Docs.import_map Instance.SIMULATED_SCHEMAS in
  st_heap s !! 3%nat =
    Some (ODict [("$import", VStr "https://example.com/address.json"); ("Zip", VRef 2)]) /\
  Imports.ABSOLUTE_URI_REGEX "https://example.com/address.json" = true /\
  value_of (fetch "https://example.com/address.json" s) = Some (VRef 10) /\
  exists s',
    Imports.import_key true fetch (VRef 3) "#/definitions" "$import" s = Ret tt s' /\
    Py.as_dict (st_heap s') (VRef 3) = Some [("Zip", VRef 2); ("Address", VRef 7)].
Proof.
  cbv zeta. split; [reflexivity|]. split; [reflexivity|]. split; [reflexivity|].
  edestruct import_merge_is_non_clobbering
    with (fetch := Imports._fetch_external_schema (file_runtime Docs.import_files)
                     Docs.import_map Instance.SIMULATED_SCHEMAS)
         (path := "#/definitions") (u := "https://example.com/address.json")
         (ao := 3%nat) (external := VRef 10) (s := snd (loaded Docs.importing_schema))
    as [H _];
    [reflexivity | reflexivity | vm_compute; reflexivity | reflexivity | reflexivity |].
  destruct (H (VStr "object") "Address" [("Address", VRef 7); ("Zip", VRef 8)]
              eq_refl eq_refl eq_refl
              (or_intror (ex_intro _ (VRef 9) (conj eq_refl eq_refl)))) as [E _].
  eexists. split; [exact E | reflexivity].
Defined.

(** ** What [validate_instance] leaves unchanged

    A program logic for the frame of the validator: the objects of a
    store [h0] are never written, new objects are only added after
    them, and no dict ever has a [$uses] key. *)

Module Frame.

Definition no_uses (h : heap) : Prop :=
  forall a d, h !! a = Some (ODict d) -> Dict.get d "$uses" = None.

Definition plain_obj (o : obj) : Prop :=
  match o with ODict d => Dict.get d "$uses" = None | OList _ => True end.

Definition any {A} : A -> Prop := fun _ => True.



Create HintDb frame.

Section Base.

Variable h0 : heap.

Definition inv (s : state) : Prop :=
  prefix h0 (st_heap s) /\ no_uses (st_heap s).

(** [m] keeps the invariant, whether it returns or raises, and what
    it returns satisfies [Q]. *)
Definition safe {A} (Q : A -> Prop) (m : M A) : Prop :=
  forall s, inv s ->
    match m s with
    | Ret a s' => inv s' /\ Q a
    | Exn _ s' => inv s'
    | Diverge => True
    end.

(** A reference to an object that [h0] does not have. *)
Definition fresh (v : val) : Prop :=
  exists a, v = VRef a /\ (List.length h0 <= a)%nat.

Lemma inv_same (s s' : state) : st_heap s' = st_heap s -> inv s -> inv s'.
Proof. unfold inv. now intros ->. Qed.

Lemma inv_alloc (s : state) (o : obj) (es : list diag) :
  inv s -> plain_obj o -> inv (mkState (st_heap s ++ [o]) es).
Proof.
  intros [Hp Hn] Ho. split; cbn [st_heap].
  - now apply prefix_app_r.
  - intros a d Ha. apply lookup_app_Some in Ha as [Ha | [_ Ha]]; [eauto|].
    apply list_lookup_singleton_Some in Ha as [_ ->]. exact Ho.
Qed.

Lemma inv_store (s : state) (a : addr) (o : obj) (es : list diag) :
  inv s -> (List.length h0 <= a)%nat -> plain_obj o ->
  inv (mkState (<[a := o]> (st_heap s)) es).
Proof.
  intros [[k Hk] Hn] Ha Ho. split; cbn [st_heap].
  - rewrite Hk. exists (<[(a - List.length h0)%nat := o]> k).
    now apply insert_app_r_alt.
  - intros b d Hb. apply list_lookup_insert_Some in Hb as [(_ & -> & _) | [_ Hb]].
    + exact Ho.
    + eauto.
Qed.

Lemma safe_bind {A B} (Q : A -> Prop) (R : B -> Prop) (m : M A) (k : A -> M B) :
  safe Q m -> (forall a, Q a -> safe R (k a)) -> safe R (bind m k).
Proof.
  intros Hm Hk s Hs. unfold bind. specialize (Hm s Hs).
  destruct (m s) as [a s'|e s'|]; auto. destruct Hm as [Hs' Ha]. now apply Hk.
Qed.

Lemma safe_weaken {A} (Q R : A -> Prop) (m : M A) :
  safe Q m -> (forall a, Q a -> R a) -> safe R m.
Proof.
  intros Hm HR s Hs. specialize (Hm s Hs).
  destruct (m s) as [a s'|e s'|]; auto. destruct Hm. auto.
Qed.

Lemma ok_of_safe {A} (Q : A -> Prop) (m : M A) : safe Q m -> safe any m.
Proof. intros H. apply (safe_weaken Q); [exact H | exact (fun _ _ => I)]. Qed.

Lemma ok_bind {A B} (m : M A) (k : A -> M B) :
  safe any m -> (forall a, safe any (k a)) -> safe any (bind m k).
Proof. intros Hm Hk. apply (safe_bind any); auto. Qed.

Lemma safe_ret {A} (Q : A -> Prop) (a : A) : Q a -> safe Q (ret a).
Proof. intros H s Hs. now split. Qed.

Lemma ok_ret {A} (a : A) : safe any (ret a).
Proof. now apply safe_ret. Qed.

Lemma safe_raise {A} (Q : A -> Prop) (e : exn) : safe Q (raise e).
Proof. intros s Hs. exact Hs. Qed.

Lemma safe_diverge {A} (Q : A -> Prop) : safe Q (@diverge A).
Proof. intros s Hs. exact I. Qed.

Lemma safe_get_heap (Q : heap -> Prop) : (forall h, Q h) -> safe Q get_heap.
Proof. intros H s Hs. split; auto. Qed.

Lemma ok_get_errors : safe any get_errors.
Proof. intros s Hs. now split. Qed.

Lemma ok_set_errors (es : list diag) : safe any (set_errors es).
Proof. intros s Hs. split; [|exact I]. now apply (inv_same s). Qed.

Lemma ok_err (e : diag) : safe any (err e).
Proof. intros s Hs. split; [|exact I]. now apply (inv_same s). Qed.

Lemma ok_when (b : bool) (m : M unit) : safe any m -> safe any (when b m).
Proof. intros H. destruct b; [exact H | apply ok_ret]. Qed.

Lemma ok_for_each {A} (xs : list A) (body : A -> M unit) :
  (forall x, safe any (body x)) -> safe any (for_each xs body).
Proof.
  intros H. induction xs as [|x xs IH]; cbn [for_each]; [apply ok_ret|].
  apply ok_bind; auto.
Qed.

Lemma safe_lift_opt {A} (e : exn) (o : option A) : safe any (Py.lift_opt e o).
Proof. destruct o; [apply ok_ret | apply safe_raise]. Qed.

Lemma safe_alloc (o : obj) : plain_obj o -> safe fresh (alloc o).
Proof.
  intros Ho s Hs. split; [now apply inv_alloc|].
  exists (List.length (st_heap s)). split; [reflexivity|].
  destruct Hs as [[k ->] _]. rewrite length_app. lia.
Qed.

Lemma ok_store (a : addr) (o : obj) :
  (List.length h0 <= a)%nat -> plain_obj o -> safe any (store a o).
Proof. intros Ha Ho s Hs. split; [|exact I]. now apply inv_store. Qed.

(** The loops. *)
Lemma ok_fold {A Acc} (next : nat -> M (option A)) (body : Acc -> A -> M (bool * Acc)) :
  (forall i, safe any (next i)) -> (forall acc a, safe any (body acc a)) ->
  forall rest i acc, safe any (Iter.fold next i rest body acc).
Proof.
  intros Hn Hb. induction rest as [|r IH]; intros i acc; cbn [Iter.fold].
  - apply ok_bind; [apply Hn|]. intros [a|]; apply ok_ret.
  - apply ok_bind; [apply Hn|]. intros [a|]; [|apply ok_ret].
    apply ok_bind; [apply Hb|]. intros [b acc']. cbn [fst snd].
    destruct b; [apply ok_ret | apply IH].
Qed.

(** An iterator whose [next] keeps the invariant. *)
Definition ok_iterator {A} (it : Iter.iterator A) : Prop :=
  forall i, safe any (snd it i).

Lemma ok_run_fold {A Acc} (it : Iter.iterator A) (body : Acc -> A -> M (bool * Acc))
    (acc : Acc) :
  ok_iterator it -> (forall acc a, safe any (body acc a)) ->
  safe any (Iter.run_fold it body acc).
Proof. intros Hi Hb. unfold Iter.run_fold. now apply ok_fold. Qed.

Lemma ok_run {A} (it : Iter.iterator A) (body : A -> M unit) :
  ok_iterator it -> (forall a, safe any (body a)) -> safe any (Iter.run it body).
Proof.
  intros Hi Hb. unfold Iter.run, Iter.loop. apply ok_fold; [exact Hi|].
  intros _ a. apply ok_bind; [apply Hb | intros; apply ok_ret].
Qed.

(** One step of a proof that a computation keeps the invariant. *)
Ltac ok_step :=
  lazymatch goal with
  | |- safe any (ret _) => apply ok_ret
  | |- safe any (raise _) => apply safe_raise
  | |- safe any diverge => apply safe_diverge
  | |- safe any get_heap => apply safe_get_heap; intros; exact I
  | |- safe any get_errors => apply ok_get_errors
  | |- safe any (set_errors _) => apply ok_set_errors
  | |- safe any (err _) => apply ok_err
  | |- safe any (when _ _) => apply ok_when
  | |- safe any (for_each _ _) => apply ok_for_each; intros
  | |- safe any (Py.lift_opt _ _) => apply safe_lift_opt
  | |- safe any (Iter.run_fold _ _ _) => apply ok_run_fold; [assumption | intros]
  | |- safe any (Iter.run _ _) => apply ok_run; [assumption | intros]
  | |- safe any (bind _ _) => apply ok_bind; [| intros ?]
  | |- safe any (let _ := _ in _) => cbv zeta
  | |- safe any (match ?x with _ => _ end) => destruct x
  end.

Ltac ok_auto := repeat first [ solve [auto with frame] | ok_step ].

(** Reading. *)
Lemma ok_get (v : val) (k : string) : safe any (Py.get v k).
Proof. unfold Py.get. ok_auto. Qed.

Lemma ok_get_default (v : val) (k : string) (dflt : val) :
  safe any (Py.get_default v k dflt).
Proof. unfold Py.get_default. ok_auto. Qed.

Lemma ok_item (v : val) (k : string) : safe any (Py.item v k).
Proof. unfold Py.item. ok_auto. Qed.

Lemma ok_item_val (v x : val) : safe any (Py.item_val v x).
Proof. unfold Py.item_val. ok_auto. Qed.

Lemma ok_contains (x c : val) : safe any (Py.contains x c).
Proof. unfold Py.contains. ok_auto. Qed.

Lemma ok_has_key (k : string) (c : val) : safe any (Py.has_key k c).
Proof. apply ok_contains. Qed.

Lemma ok_eq (a b : val) : safe any (Py.eq a b).
Proof. unfold Py.eq. ok_auto. Qed.

Lemma ok_len (v : val) : safe any (Py.len v).
Proof. unfold Py.len. ok_auto. Qed.

Lemma ok_not_unique (v : val) : safe any (Dumps.not_unique v).
Proof. unfold Dumps.not_unique. ok_auto. Qed.

Lemma ok_dict_next (a : addr) (n i : nat) : safe any (Iter.dict_next a n i).
Proof. unfold Iter.dict_next. ok_auto. Qed.

Lemma ok_list_next (a : addr) (n i : nat) : safe any (Iter.list_next a n i).
Proof. unfold Iter.list_next. ok_auto. Qed.

Lemma ok_resolve_ref (root ref : val) : safe any (Instance._resolve_ref root ref).
Proof. unfold Instance._resolve_ref. ok_auto. Qed.

Lemma ok_no_errors : safe any Instance.no_errors.
Proof. unfold Instance.no_errors. ok_auto. Qed.

#[local] Hint Resolve ok_get ok_get_default ok_item ok_item_val ok_contains ok_has_key
  ok_eq ok_len ok_not_unique ok_dict_next ok_list_next ok_resolve_ref ok_no_errors
  : frame.

(** The iterators. *)
Lemma safe_enum (v : val) : safe ok_iterator (Iter.enum v).
Proof.
  unfold Iter.enum. apply (safe_bind any); [ok_auto|]. intros h _.
  destruct v as [| | | |x|a]; try apply safe_raise.
  - apply safe_ret. intros i. cbn [snd]. ok_auto.
  - destruct (h !! a) as [[d|l]|]; [| |apply safe_raise];
      apply safe_ret; intros i; cbn [snd]; ok_auto.
Qed.

Lemma safe_items (v : val) : safe ok_iterator (Iter.items v).
Proof.
  unfold Iter.items. apply (safe_bind any); [ok_auto|]. intros h _.
  destruct v as [| | | |x|a]; try apply safe_raise.
  destruct (Py.as_dict h (VRef a)); [|apply safe_raise].
  apply safe_ret. intros i. cbn [snd]. ok_auto.
Qed.

Lemma safe_zip_items (d l : val) : safe ok_iterator (Iter.zip_items d l).
Proof.
  unfold Iter.zip_items. apply (safe_bind any); [ok_auto|]. intros h _.
  destruct d as [| | | |x|a]; try apply safe_raise.
  destruct (Py.as_dict h (VRef a)); [|apply safe_raise].
  destruct l as [| | | |x|b]; try apply safe_raise.
  destruct (Py.as_list h (VRef b)); [|apply safe_raise].
  apply safe_ret. intros i. cbn [snd]. ok_auto.
Qed.

Lemma ok_for_items (v : val) (body : string -> val -> M unit) :
  (forall k x, safe any (body k x)) -> safe any (Iter.for_items v body).
Proof.
  intros H. unfold Iter.for_items. apply (safe_bind ok_iterator); [apply safe_items|].
  intros it Hit. ok_auto.
Qed.

Lemma ok_for_keys (v : val) (body : string -> M unit) :
  (forall k, safe any (body k)) -> safe any (Iter.for_keys v body).
Proof. intros H. unfold Iter.for_keys. apply ok_for_items. auto. Qed.

Lemma ok_for_enum (v : val) (body : nat -> val -> M unit) :
  (forall i x, safe any (body i x)) -> safe any (Iter.for_enum v body).
Proof.
  intros H. unfold Iter.for_enum. apply (safe_bind ok_iterator); [apply safe_enum|].
  intros it Hit. ok_auto.
Qed.

Lemma ok_for_in (v : val) (body : val -> M unit) :
  (forall x, safe any (body x)) -> safe any (Iter.for_in v body).
Proof. intros H. unfold Iter.for_in. apply ok_for_enum. auto. Qed.

Lemma ok_for_zip_items (d l : val) (body : string -> val -> val -> M unit) :
  (forall k x y, safe any (body k x y)) -> safe any (Iter.for_zip_items d l body).
Proof.
  intros H. unfold Iter.for_zip_items.
  apply (safe_bind ok_iterator); [apply safe_zip_items|].
  intros it Hit. ok_auto.
Qed.

(** Writing: only to objects that [h0] does not have. *)
Lemma get_del_None (d : pydict) (k k' : string) :
  Dict.get d k' = None -> Dict.get (Dict.del d k) k' = None.
Proof.
  induction d as [|[k0 v0] d IH]; cbn; [reflexivity|].
  destruct (String.eqb_spec k0 k') as [->|N]; [discriminate|]. intros H.
  destruct (String.eqb k0 k); [exact H|]. cbn.
  destruct (String.eqb_spec k0 k'); [congruence | auto].
Qed.

Lemma no_uses_dict (s : state) (v : val) (d : pydict) :
  inv s -> Py.as_dict (st_heap s) v = Some d -> Dict.get d "$uses" = None.
Proof.
  intros [_ Hn] Hd. destruct (as_dict_inv _ _ _ Hd) as (a & _ & Ha). eauto.
Qed.

Lemma safe_pairs_of (v : val) :
  safe (fun d => Dict.get d "$uses" = None) (Py.pairs_of v).
Proof.
  intros s Hs. unfold Py.pairs_of, bind, get_heap.
  destruct v as [| | | |x|a]; try exact Hs.
  - destruct (String.eqb x ""); [now split | exact Hs].
  - destruct (st_heap s !! a) as [[d|[|y l]]|] eqn:E; try exact Hs.
    + split; [exact Hs|]. destruct Hs as [_ Hn]. eauto.
    + now split.
Qed.

Lemma safe_copy_dict (v : val) : safe fresh (Py.copy_dict v).
Proof.
  unfold Py.copy_dict.
  apply (safe_bind (fun d => Dict.get d "$uses" = None)); [apply safe_pairs_of|].
  intros d Hd. now apply safe_alloc.
Qed.

Lemma ok_update (target src : val) : fresh target -> safe any (Py.update target src).
Proof.
  intros (a & -> & Ha). unfold Py.update. apply ok_bind; [ok_auto|]. intros h.
  destruct (Py.as_dict h (VRef a)); [|apply safe_raise].
  apply (safe_bind (fun d => Dict.get d "$uses" = None)); [apply safe_pairs_of|].
  intros e He s Hs. unfold bind, get_heap.
  destruct (Py.as_dict (st_heap s) (VRef a)) as [d|] eqn:E; [|exact Hs].
  apply ok_store; [exact Ha | | exact Hs]. cbn.
  rewrite Uses.get_update_other by exact He. eapply no_uses_dict; eauto.
Qed.

Lemma ok_pop_default (target : val) (k : string) :
  fresh target -> safe any (Py.pop_default target k).
Proof.
  intros (a & -> & Ha) s Hs. unfold Py.pop_default, bind, get_heap.
  destruct (Py.as_dict (st_heap s) (VRef a)) as [d|] eqn:E; [|exact Hs].
  apply ok_store; [exact Ha | | exact Hs]. cbn.
  apply get_del_None. eapply no_uses_dict; eauto.
Qed.

Lemma ok_setitem (target : val) (k : string) (x : val) :
  fresh target -> k <> "$uses" -> safe any (Py.setitem target k x).
Proof.
  intros (a & -> & Ha) Hk s Hs. unfold Py.setitem, bind, get_heap.
  destruct (Py.as_dict (st_heap s) (VRef a)) as [d|] eqn:E; [|exact Hs].
  apply ok_store; [exact Ha | | exact Hs]. cbn.
  rewrite get_set_ne by congruence. eapply no_uses_dict; eauto.
Qed.

Lemma ok_get_or_new (v : val) (k : string) (empty : obj) :
  plain_obj empty -> safe any (Py.get_or_new v k empty).
Proof.
  intros He. unfold Py.get_or_new. apply ok_bind; [ok_auto|]. intros h.
  destruct (Py.as_dict h v) as [d|]; [|apply safe_raise].
  destruct (Dict.get d k); [apply ok_ret|].
  apply (ok_of_safe fresh). now apply safe_alloc.
Qed.

Lemma ok_get_or_new_dict (v : val) (k : string) :
  safe any (Py.get_or_new v k (ODict [])).
Proof. now apply ok_get_or_new. Qed.

Lemma ok_get_or_new_list (v : val) (k : string) :
  safe any (Py.get_or_new v k (OList [])).
Proof. now apply ok_get_or_new. Qed.

#[local] Hint Resolve ok_get_or_new_dict ok_get_or_new_list : frame.

(** With the iterators and the writes to new objects. *)
Ltac ok_step' :=
  lazymatch goal with
  | |- safe any (bind (Iter.items _) _) =>
      apply (safe_bind ok_iterator); [apply safe_items | intros ? ?]
  | |- safe any (bind (Iter.enum _) _) =>
      apply (safe_bind ok_iterator); [apply safe_enum | intros ? ?]
  | |- safe any (bind (Py.copy_dict _) _) =>
      apply (safe_bind fresh); [apply safe_copy_dict | intros ? ?]
  | |- safe any (bind (alloc _) _) =>
      apply (safe_bind fresh); [apply safe_alloc; reflexivity | intros ? ?]
  | |- safe any (Iter.for_items _ _) => apply ok_for_items; intros
  | |- safe any (Iter.for_keys _ _) => apply ok_for_keys; intros
  | |- safe any (Iter.for_enum _ _) => apply ok_for_enum; intros
  | |- safe any (Iter.for_in _ _) => apply ok_for_in; intros
  | |- safe any (Iter.for_zip_items _ _ _) => apply ok_for_zip_items; intros
  | |- safe any (Py.update _ _) => apply ok_update; assumption
  | |- safe any (Py.pop_default _ _) => apply ok_pop_default; assumption
  | |- safe any (Py.setitem _ _ _) => apply ok_setitem; [assumption | discriminate]
  | |- _ => ok_step
  end.

Ltac ok_auto' := repeat first [ solve [auto with frame] | ok_step' ].

(** *** The root document *)

Section Root.

Variables (root : val) (rd : pydict).
Hypothesis Hroot : Py.as_dict h0 root = Some rd.
Hypothesis Hmeta : Dict.get rd "$schema" <> Some (VStr Instance.EXTENDED_META).

Lemma root_dict (s : state) : inv s -> Py.as_dict (st_heap s) root = Some rd.
Proof.
  intros [[k Hk] _]. destruct (as_dict_inv _ _ _ Hroot) as (a & -> & Ha).
  apply as_dict_ref. rewrite Hk. now apply lookup_app_l_Some.
Qed.

Lemma safe_root_meta_ext :
  safe (fun b => b = false) (Instance.root_meta_is root Instance.EXTENDED_META).
Proof.
  intros s Hs. rewrite (Preamble.root_meta_is_ret _ _ _ _ (root_dict s Hs)).
  split; [exact Hs|].
  destruct (Dict.get rd "$schema") as [[| | | |y|]|]; try reflexivity. cbn.
  destruct (String.eqb_spec y Instance.EXTENDED_META) as [->|]; [|reflexivity].
  now destruct Hmeta.
Qed.

Lemma safe_instance_uses_under (instance : val) (uri : string) :
  safe (fun b => b = false) (Instance.instance_uses_under root instance uri).
Proof.
  intros s Hs. unfold Instance.instance_uses_under.
  unfold bind at 1, get_heap. unfold Py.is_dict.
  destruct (Py.as_dict (st_heap s) instance) as [di|] eqn:E; [|now split].
  rewrite (bind_Ret _ _ _ _ _ (has_key_dict _ _ _ _ E)).
  unfold Dict.mem. rewrite (no_uses_dict s instance di Hs E). now split.
Qed.

Lemma safe_root_uses (name : string) :
  safe (fun b => b = false) (Instance.root_uses root name).
Proof.
  intros s Hs. unfold Instance.root_uses.
  pose proof (root_dict s Hs) as Hr.
  rewrite (bind_Ret _ _ _ _ _ (has_key_dict _ _ _ _ Hr)).
  unfold Dict.mem. rewrite (no_uses_dict s root rd Hs Hr). now split.
Qed.

Lemma ok_enable_all_addins (schema : val) :
  safe any (Instance.enable_all_addins root schema).
Proof.
  unfold Instance.enable_all_addins.
  apply (safe_bind (fun b => b = false)); [apply safe_root_meta_ext|].
  intros b ->. apply ok_ret.
Qed.

Lemma ok_enable_used_addins (instance schema : val) :
  safe any (Instance.enable_used_addins root instance schema).
Proof.
  unfold Instance.enable_used_addins.
  apply (safe_bind (fun b => b = false)); [apply safe_instance_uses_under|].
  intros b ->. apply ok_ret.
Qed.

Lemma ok_reject_addins (instance : val) (path : string) :
  safe any (Instance.reject_addins_under_core root instance path).
Proof.
  unfold Instance.reject_addins_under_core.
  apply (safe_bind (fun b => b = false)); [apply safe_instance_uses_under|].
  intros b ->. apply ok_ret.
Qed.

(** The test [isinstance(instance, dict) and "$uses" in instance]
    of line 187 fails. *)
Lemma uses_guard {A} (instance : val) (k : bool -> M A) :
  safe any (k false) ->
  safe any (let* h := get_heap in
            let* uses := if Py.is_dict h instance
                         then Py.has_key "$uses" instance else ret false in
            k uses).
Proof.
  intros Hk s Hs. unfold bind at 1, get_heap. unfold Py.is_dict.
  destruct (Py.as_dict (st_heap s) instance) as [di|] eqn:E.
  - rewrite (bind_Ret _ _ _ _ _ (has_key_dict _ _ _ _ E)).
    unfold Dict.mem. rewrite (no_uses_dict s instance di Hs E). now apply Hk.
  - rewrite bind_ret_l. now apply Hk.
Qed.

#[local] Hint Resolve ok_enable_all_addins ok_enable_used_addins ok_reject_addins
  : frame.

(** *** The validator, given that its recursive calls keep the
    invariant *)

Section Rec.

Variable rt : Runtime.
Variable rec : val -> val -> string -> M unit.
Hypothesis Hrec : forall instance schema path, safe any (rec instance schema path).

Lemma ok_dependent_required (schema instance : val) (path : string) :
  safe any (Instance.dependent_required schema instance path).
Proof. unfold Instance.dependent_required. ok_auto'. Qed.

Lemma ok_validate_items (schema instance : val) (path : string) :
  safe any (Instance.validate_items rec schema instance path).
Proof. unfold Instance.validate_items. ok_auto'. Qed.

#[local] Hint Resolve ok_dependent_required ok_validate_items : frame.

Lemma ok_validate_object (schema instance : val) (path : string) :
  safe any (Instance.validate_object rec schema instance path).
Proof. unfold Instance.validate_object. ok_auto'. Qed.

#[local] Hint Resolve ok_validate_object : frame.

Lemma ok_validate_type (ty : string) (schema instance : val) (path : string) :
  safe any (Instance.validate_type rt rec ty schema instance path).
Proof. unfold Instance.validate_type. ok_auto'. Qed.

Lemma ok_union_step (instance : val) (path : string) (acc : bool * list diag)
    (it : nat * val) :
  safe any (Instance.union_step rec instance path acc it).
Proof. unfold Instance.union_step. ok_auto'. Qed.

Lemma ok_apply_extends (schema : val) (path : string) :
  safe any (Instance.apply_extends root schema path).
Proof. unfold Instance.apply_extends. ok_auto'. Qed.

#[local] Hint Resolve ok_validate_type ok_union_step ok_apply_extends : frame.

Lemma ok_validate_typed (schema_type schema instance : val) (path : string) :
  safe any (Instance.validate_typed rt root rec schema_type schema instance path).
Proof.
  unfold Instance.validate_typed.
  destruct schema_type as [| | | |ty|]; try apply ok_err.
  apply ok_bind; [ok_auto'|]. intros has_ext.
  apply ok_bind; [ok_auto'|]. intros [schema'|]; [|apply ok_ret].
  apply ok_bind; [ok_auto'|]. intros abstract.
  assert (G : safe any
    (let* h := get_heap in
     let* uses :=
       if Py.is_dict h instance then Py.has_key "$uses" instance else ret false in
     let* schema0 :=
       if uses
       then let* merged := Instance._apply_uses root schema' instance in
            Py.pop instance "$uses" ;; ret merged
       else ret schema' in
     Instance.validate_type rt rec ty schema0 instance path ;;
     let* va := Instance.root_uses root Instance.VA in
     when va (Instance._validate_validation_addins rt rec schema0 instance path) ;;
     let* has_const := Py.has_key "const" schema0 in
     when has_const (
       let* c := Py.item schema0 "const" in
       let* e := Py.eq instance c in
       when (negb e) (err (ENotConst path c))) ;;
     let* has_enum := Py.has_key "enum" schema0 in
     when has_enum (
       let* en := Py.item schema0 "enum" in
       let* c := Py.contains instance en in
       when (negb c) (err (ENotInEnum path en))))).
  { apply (uses_guard instance). lazy beta iota.
    apply ok_bind; [apply ok_ret|]. intros schema0.
    apply ok_bind; [ok_auto'|]. intros _.
    apply (safe_bind (fun b => b = false)); [apply safe_root_uses|].
    intros va ->. apply ok_bind; [apply ok_ret|]. intros _. ok_auto'. }
  destruct abstract as [|[|]| | | |]; try exact G. apply ok_err.
Qed.

#[local] Hint Resolve ok_validate_typed : frame.



End Rec.


End Root.

End Base.

End Frame.

(** ** The same, with add-ins enabled in the schemas

    [Frame] asks that no object of the store has a [$uses] key, which
    leaves out every root that enables an add-in.  What the writes of
    [validate_instance] depend on is the instance alone: [Keep] asks
    only that the instance has no [$uses], at any depth, and lets the
    schemas have theirs, so that [_validate_conditionals] and
    [_validate_validation_addins] run. *)

Module Keep.

(** An instance without [$uses]: every object of the value, at any
    depth, is in the store, and none is a dict with the key [$uses]. *)
Inductive clean (h : heap) : val -> Prop :=
| clean_scalar (v : val) : (forall a, v <> VRef a) -> clean h v
| clean_dict (a : addr) (d : pydict) :
    h !! a = Some (ODict d) -> Dict.get d "$uses" = None ->
    (forall k x, In (k, x) d -> clean h x) -> clean h (VRef a)
| clean_list (a : addr) (l : list val) :
    h !! a = Some (OList l) -> (forall x, In x l -> clean h x) -> clean h (VRef a).

(** [clean], decided for values nested less deeply than [fuel]. *)
Fixpoint cleanb (fuel : nat) (h : heap) (v : val) : bool :=
  match fuel with
  | O => false
  | S n =>
      match v with
      | VRef a =>
          match h !! a with
          | Some (ODict d) =>
              negb (Dict.mem d "$uses") && forallb (fun kv => cleanb n h (snd kv)) d
          | Some (OList l) => forallb (cleanb n h) l
          | None => false
          end
      | _ => true
      end
  end.

Lemma cleanb_clean (fuel : nat) (h : heap) (v : val) :
  cleanb fuel h v = true -> clean h v.
Proof.
  revert v. induction fuel as [|n IH]; intros v H; [discriminate|].
  cbn [cleanb] in H. destruct v as [| | | | |a]; try (apply clean_scalar; discriminate).
  destruct (h !! a) as [[d|l]|] eqn:E; [| |discriminate].
  - apply andb_prop in H as [Hu Hd]. apply (clean_dict h a d E).
    + apply mem_get_None. now apply negb_true_iff.
    + intros k x Hin. apply IH. rewrite forallb_forall in Hd. exact (Hd (k, x) Hin).
  - apply (clean_list h a l E). intros x Hin. apply IH.
    rewrite forallb_forall in H. now apply H.
Qed.

Definition any {A} : A -> Prop := fun _ => True.

Create HintDb keep.

Section Base.

Variable h0 : heap.

Definition inv (s : state) : Prop := prefix h0 (st_heap s).

(** A value of the instance that the call was given. *)
Definition inst (v : val) : Prop := clean h0 v.

(** [m] keeps the invariant, whether it returns or raises, and what
    it returns satisfies [Q]. *)
Definition keeps {A} (Q : A -> Prop) (m : M A) : Prop :=
  forall s, inv s ->
    match m s with
    | Ret a s' => inv s' /\ Q a
    | Exn _ s' => inv s'
    | Diverge => True
    end.

(** A reference to an object that [h0] does not have. *)
Definition fresh (v : val) : Prop :=
  exists a, v = VRef a /\ (List.length h0 <= a)%nat.

Lemma grown_same (s s' : state) : st_heap s' = st_heap s -> inv s -> inv s'.
Proof. unfold inv. now intros ->. Qed.

Lemma grown_alloc (s : state) (o : obj) (es : list diag) :
  inv s -> inv (mkState (st_heap s ++ [o]) es).
Proof. intros Hp. unfold inv. cbn [st_heap]. now apply prefix_app_r. Qed.

Lemma grown_store (s : state) (a : addr) (o : obj) (es : list diag) :
  inv s -> (List.length h0 <= a)%nat ->
  inv (mkState (<[a := o]> (st_heap s)) es).
Proof.
  intros [k Hk] Ha. unfold inv. cbn [st_heap].
  rewrite Hk. exists (<[(a - List.length h0)%nat := o]> k).
  now apply insert_app_r_alt.
Qed.

Lemma keeps_bind {A B} (Q : A -> Prop) (R : B -> Prop) (m : M A) (k : A -> M B) :
  keeps Q m -> (forall a, Q a -> keeps R (k a)) -> keeps R (bind m k).
Proof.
  intros Hm Hk s Hs. unfold bind. specialize (Hm s Hs).
  destruct (m s) as [a s'|e s'|]; auto. destruct Hm as [Hs' Ha]. now apply Hk.
Qed.

Lemma keeps_weaken {A} (Q R : A -> Prop) (m : M A) :
  keeps Q m -> (forall a, Q a -> R a) -> keeps R m.
Proof.
  intros Hm HR s Hs. specialize (Hm s Hs).
  destruct (m s) as [a s'|e s'|]; auto. destruct Hm. auto.
Qed.

Lemma kp_of_keeps {A} (Q : A -> Prop) (m : M A) : keeps Q m -> keeps any m.
Proof. intros H. apply (keeps_weaken Q); [exact H | exact (fun _ _ => I)]. Qed.

Lemma kp_bind {A B} (m : M A) (k : A -> M B) :
  keeps any m -> (forall a, keeps any (k a)) -> keeps any (bind m k).
Proof. intros Hm Hk. apply (keeps_bind any); auto. Qed.

Lemma keeps_ret {A} (Q : A -> Prop) (a : A) : Q a -> keeps Q (ret a).
Proof. intros H s Hs. now split. Qed.

Lemma kp_ret {A} (a : A) : keeps any (ret a).
Proof. now apply keeps_ret. Qed.

Lemma keeps_raise {A} (Q : A -> Prop) (e : exn) : keeps Q (raise e).
Proof. intros s Hs. exact Hs. Qed.

Lemma keeps_diverge {A} (Q : A -> Prop) : keeps Q (@diverge A).
Proof. intros s Hs. exact I. Qed.

Lemma keeps_get_heap (Q : heap -> Prop) : (forall h, Q h) -> keeps Q get_heap.
Proof. intros H s Hs. split; auto. Qed.

Lemma kp_get_errors : keeps any get_errors.
Proof. intros s Hs. now split. Qed.

Lemma kp_set_errors (es : list diag) : keeps any (set_errors es).
Proof. intros s Hs. split; [|exact I]. now apply (grown_same s). Qed.

Lemma kp_err (e : diag) : keeps any (err e).
Proof. intros s Hs. split; [|exact I]. now apply (grown_same s). Qed.

Lemma kp_when (b : bool) (m : M unit) : keeps any m -> keeps any (when b m).
Proof. intros H. destruct b; [exact H | apply kp_ret]. Qed.

Lemma kp_for_each {A} (xs : list A) (body : A -> M unit) :
  (forall x, keeps any (body x)) -> keeps any (for_each xs body).
Proof.
  intros H. induction xs as [|x xs IH]; cbn [for_each]; [apply kp_ret|].
  apply kp_bind; auto.
Qed.

Lemma keeps_lift_opt {A} (e : exn) (o : option A) : keeps any (Py.lift_opt e o).
Proof. destruct o; [apply kp_ret | apply keeps_raise]. Qed.

Lemma keeps_alloc (o : obj) : keeps fresh (alloc o).
Proof.
  intros s Hs. split; [now apply grown_alloc|].
  exists (List.length (st_heap s)). split; [reflexivity|].
  destruct Hs as [k ->]. rewrite length_app. lia.
Qed.

Lemma kp_store (a : addr) (o : obj) :
  (List.length h0 <= a)%nat -> keeps any (store a o).
Proof. intros Ha s Hs. split; [|exact I]. now apply grown_store. Qed.

Lemma kp_try_except {A} (m : M A) (handles : exn -> bool) (handler : M A) :
  keeps any m -> keeps any handler -> keeps any (try_except m handles handler).
Proof.
  intros Hm Hh s Hs. unfold try_except. specialize (Hm s Hs).
  destruct (m s) as [a s'|e s'|]; auto.
  destruct (handles e); [now apply Hh | exact Hm].
Qed.

(** The loops. *)
Lemma kp_fold {A Acc} (next : nat -> M (option A)) (body : Acc -> A -> M (bool * Acc)) :
  (forall i, keeps any (next i)) -> (forall acc a, keeps any (body acc a)) ->
  forall rest i acc, keeps any (Iter.fold next i rest body acc).
Proof.
  intros Hn Hb. induction rest as [|r IH]; intros i acc; cbn [Iter.fold].
  - apply kp_bind; [apply Hn|]. intros [a|]; apply kp_ret.
  - apply kp_bind; [apply Hn|]. intros [a|]; [|apply kp_ret].
    apply kp_bind; [apply Hb|]. intros [b acc']. cbn [fst snd].
    destruct b; [apply kp_ret | apply IH].
Qed.

(** An iterator whose [next] keeps the invariant. *)
Definition kp_iterator {A} (it : Iter.iterator A) : Prop :=
  forall i, keeps any (snd it i).

Lemma kp_run_fold {A Acc} (it : Iter.iterator A) (body : Acc -> A -> M (bool * Acc))
    (acc : Acc) :
  kp_iterator it -> (forall acc a, keeps any (body acc a)) ->
  keeps any (Iter.run_fold it body acc).
Proof. intros Hi Hb. unfold Iter.run_fold. now apply kp_fold. Qed.

Lemma kp_run {A} (it : Iter.iterator A) (body : A -> M unit) :
  kp_iterator it -> (forall a, keeps any (body a)) -> keeps any (Iter.run it body).
Proof.
  intros Hi Hb. unfold Iter.run, Iter.loop. apply kp_fold; [exact Hi|].
  intros _ a. apply kp_bind; [apply Hb | intros; apply kp_ret].
Qed.

(** One step of a proof that a computation keeps the invariant. *)
Ltac kp_step :=
  lazymatch goal with
  | |- keeps any (ret _) => apply kp_ret
  | |- keeps any (raise _) => apply keeps_raise
  | |- keeps any diverge => apply keeps_diverge
  | |- keeps any get_heap => apply keeps_get_heap; intros; exact I
  | |- keeps any get_errors => apply kp_get_errors
  | |- keeps any (set_errors _) => apply kp_set_errors
  | |- keeps any (err _) => apply kp_err
  | |- keeps any (when _ _) => apply kp_when
  | |- keeps any (for_each _ _) => apply kp_for_each; intros
  | |- keeps any (Py.lift_opt _ _) => apply keeps_lift_opt
  | |- keeps any (Iter.run_fold _ _ _) => apply kp_run_fold; [assumption | intros]
  | |- keeps any (Iter.run _ _) => apply kp_run; [assumption | intros]
  | |- keeps any (bind _ _) => apply kp_bind; [| intros ?]
  | |- keeps any (let _ := _ in _) => cbv zeta
  | |- keeps any (match ?x with _ => _ end) => destruct x
  end.

Ltac kp_auto := repeat first [ solve [auto with keep] | kp_step ].

(** Reading. *)
Lemma kp_get (v : val) (k : string) : keeps any (Py.get v k).
Proof. unfold Py.get. kp_auto. Qed.

Lemma kp_get_default (v : val) (k : string) (dflt : val) :
  keeps any (Py.get_default v k dflt).
Proof. unfold Py.get_default. kp_auto. Qed.

Lemma kp_item (v : val) (k : string) : keeps any (Py.item v k).
Proof. unfold Py.item. kp_auto. Qed.

Lemma kp_item_val (v x : val) : keeps any (Py.item_val v x).
Proof. unfold Py.item_val. kp_auto. Qed.

Lemma kp_contains (x c : val) : keeps any (Py.contains x c).
Proof. unfold Py.contains. kp_auto. Qed.

Lemma kp_has_key (k : string) (c : val) : keeps any (Py.has_key k c).
Proof. apply kp_contains. Qed.

Lemma kp_eq (a b : val) : keeps any (Py.eq a b).
Proof. unfold Py.eq. kp_auto. Qed.

Lemma kp_len (v : val) : keeps any (Py.len v).
Proof. unfold Py.len. kp_auto. Qed.

Lemma kp_not_unique (v : val) : keeps any (Dumps.not_unique v).
Proof. unfold Dumps.not_unique. kp_auto. Qed.

Lemma kp_dict_next (a : addr) (n i : nat) : keeps any (Iter.dict_next a n i).
Proof. unfold Iter.dict_next. kp_auto. Qed.

Lemma kp_list_next (a : addr) (n i : nat) : keeps any (Iter.list_next a n i).
Proof. unfold Iter.list_next. kp_auto. Qed.

Lemma kp_resolve_ref (root ref : val) : keeps any (Instance._resolve_ref root ref).
Proof. unfold Instance._resolve_ref. kp_auto. Qed.

Lemma kp_no_errors : keeps any Instance.no_errors.
Proof. unfold Instance.no_errors. kp_auto. Qed.

#[local] Hint Resolve kp_get kp_get_default kp_item kp_item_val kp_contains kp_has_key
  kp_eq kp_len kp_not_unique kp_dict_next kp_list_next kp_resolve_ref kp_no_errors
  : keep.

(** The iterators. *)
Lemma keeps_enum (v : val) : keeps kp_iterator (Iter.enum v).
Proof.
  unfold Iter.enum. apply (keeps_bind any); [kp_auto|]. intros h _.
  destruct v as [| | | |x|a]; try apply keeps_raise.
  - apply keeps_ret. intros i. cbn [snd]. kp_auto.
  - destruct (h !! a) as [[d|l]|]; [| |apply keeps_raise];
      apply keeps_ret; intros i; cbn [snd]; kp_auto.
Qed.

Lemma keeps_items (v : val) : keeps kp_iterator (Iter.items v).
Proof.
  unfold Iter.items. apply (keeps_bind any); [kp_auto|]. intros h _.
  destruct v as [| | | |x|a]; try apply keeps_raise.
  destruct (Py.as_dict h (VRef a)); [|apply keeps_raise].
  apply keeps_ret. intros i. cbn [snd]. kp_auto.
Qed.

Lemma keeps_zip_items (d l : val) : keeps kp_iterator (Iter.zip_items d l).
Proof.
  unfold Iter.zip_items. apply (keeps_bind any); [kp_auto|]. intros h _.
  destruct d as [| | | |x|a]; try apply keeps_raise.
  destruct (Py.as_dict h (VRef a)); [|apply keeps_raise].
  destruct l as [| | | |x|b]; try apply keeps_raise.
  destruct (Py.as_list h (VRef b)); [|apply keeps_raise].
  apply keeps_ret. intros i. cbn [snd]. kp_auto.
Qed.

Lemma kp_for_items (v : val) (body : string -> val -> M unit) :
  (forall k x, keeps any (body k x)) -> keeps any (Iter.for_items v body).
Proof.
  intros H. unfold Iter.for_items. apply (keeps_bind kp_iterator); [apply keeps_items|].
  intros it Hit. kp_auto.
Qed.

Lemma kp_for_keys (v : val) (body : string -> M unit) :
  (forall k, keeps any (body k)) -> keeps any (Iter.for_keys v body).
Proof. intros H. unfold Iter.for_keys. apply kp_for_items. auto. Qed.

Lemma kp_for_enum (v : val) (body : nat -> val -> M unit) :
  (forall i x, keeps any (body i x)) -> keeps any (Iter.for_enum v body).
Proof.
  intros H. unfold Iter.for_enum. apply (keeps_bind kp_iterator); [apply keeps_enum|].
  intros it Hit. kp_auto.
Qed.

Lemma kp_for_in (v : val) (body : val -> M unit) :
  (forall x, keeps any (body x)) -> keeps any (Iter.for_in v body).
Proof. intros H. unfold Iter.for_in. apply kp_for_enum. auto. Qed.

Lemma kp_for_zip_items (d l : val) (body : string -> val -> val -> M unit) :
  (forall k x y, keeps any (body k x y)) -> keeps any (Iter.for_zip_items d l body).
Proof.
  intros H. unfold Iter.for_zip_items.
  apply (keeps_bind kp_iterator); [apply keeps_zip_items|].
  intros it Hit. kp_auto.
Qed.

(** Writing: only to objects that [h0] does not have. *)
Lemma kp_pairs_of (v : val) : keeps any (Py.pairs_of v).
Proof. unfold Py.pairs_of. kp_auto. Qed.

Lemma keeps_copy_dict (v : val) : keeps fresh (Py.copy_dict v).
Proof.
  unfold Py.copy_dict. apply (keeps_bind any); [apply kp_pairs_of|].
  intros d _. apply keeps_alloc.
Qed.

Lemma kp_update (target src : val) : fresh target -> keeps any (Py.update target src).
Proof.
  intros (a & -> & Ha). unfold Py.update. apply kp_bind; [kp_auto|]. intros h.
  destruct (Py.as_dict h (VRef a)); [|apply keeps_raise].
  apply kp_bind; [apply kp_pairs_of|].
  intros e s Hs. unfold bind, get_heap.
  destruct (Py.as_dict (st_heap s) (VRef a)) as [d|] eqn:E; [|exact Hs].
  apply kp_store; [exact Ha | exact Hs].
Qed.

Lemma kp_pop_default (target : val) (k : string) :
  fresh target -> keeps any (Py.pop_default target k).
Proof.
  intros (a & -> & Ha) s Hs. unfold Py.pop_default, bind, get_heap.
  destruct (Py.as_dict (st_heap s) (VRef a)) as [d|] eqn:E; [|exact Hs].
  apply kp_store; [exact Ha | exact Hs].
Qed.

Lemma kp_setitem (target : val) (k : string) (x : val) :
  fresh target -> keeps any (Py.setitem target k x).
Proof.
  intros (a & -> & Ha) s Hs. unfold Py.setitem, bind, get_heap.
  destruct (Py.as_dict (st_heap s) (VRef a)) as [d|] eqn:E; [|exact Hs].
  apply kp_store; [exact Ha | exact Hs].
Qed.

Lemma kp_get_or_new (v : val) (k : string) (empty : obj) :
  keeps any (Py.get_or_new v k empty).
Proof.
  unfold Py.get_or_new. apply kp_bind; [kp_auto|]. intros h.
  destruct (Py.as_dict h v) as [d|]; [|apply keeps_raise].
  destruct (Dict.get d k); [apply kp_ret|].
  apply (kp_of_keeps fresh). apply keeps_alloc.
Qed.

#[local] Hint Resolve kp_get_or_new : keep.

(** *** Reading the instance *)

Lemma get_In (d : pydict) (k : string) (x : val) :
  Dict.get d k = Some x -> In (k, x) d.
Proof.
  induction d as [|[k' v'] d IH]; cbn; [discriminate|].
  destruct (String.eqb_spec k' k) as [->|N]; [intros [= ->]; now left|].
  intros H. right. now apply IH.
Qed.

Lemma inst_str (x : string) : inst (VStr x).
Proof. apply clean_scalar. discriminate. Qed.

(** An object of the instance is in every later store what it was. *)
Lemma inst_dict (s : state) (v : val) (d : pydict) :
  inv s -> inst v -> Py.as_dict (st_heap s) v = Some d ->
  Dict.get d "$uses" = None /\ forall k x, In (k, x) d -> inst x.
Proof.
  intros [k Hk] Hv Hd. destruct (as_dict_inv _ _ _ Hd) as (a & -> & Ha).
  inversion Hv as [v Hn|a' d' Ha' Hu Hc|a' l' Ha' Hc]; subst.
  - now destruct (Hn a).
  - rewrite Hk, (lookup_app_l_Some _ _ _ _ Ha') in Ha. injection Ha as <-. auto.
  - rewrite Hk, (lookup_app_l_Some _ _ _ _ Ha') in Ha. discriminate.
Qed.

Lemma inst_list (s : state) (v : val) (l : list val) :
  inv s -> inst v -> Py.as_list (st_heap s) v = Some l ->
  forall x, In x l -> inst x.
Proof.
  intros [k Hk] Hv Hl. destruct (as_list_inv _ _ _ Hl) as (a & -> & Ha).
  inversion Hv as [v Hn|a' d' Ha' Hu Hc|a' l' Ha' Hc]; subst.
  - now destruct (Hn a).
  - rewrite Hk, (lookup_app_l_Some _ _ _ _ Ha') in Ha. discriminate.
  - rewrite Hk, (lookup_app_l_Some _ _ _ _ Ha') in Ha. injection Ha as <-. auto.
Qed.

Lemma keeps_item_inst (v : val) (k : string) : inst v -> keeps inst (Py.item v k).
Proof.
  intros Hv s Hs. unfold Py.item, bind, get_heap, Py.lift_opt.
  destruct (Py.as_dict (st_heap s) v) as [d|] eqn:E; [|exact Hs].
  destruct (Dict.get d k) as [x|] eqn:G; [|exact Hs].
  split; [exact Hs|]. destruct (inst_dict s v d Hs Hv E) as [_ Hc].
  apply (Hc k). now apply get_In.
Qed.

(** An iterator over the instance yields values of the instance. *)
Definition yields {A} (P : A -> Prop) (it : Iter.iterator A) : Prop :=
  forall i, keeps (fun o => forall x, o = Some x -> P x) (snd it i).

Lemma keeps_dict_next_inst (a : addr) (n i : nat) :
  inst (VRef a) ->
  keeps (fun o => forall kv, o = Some kv -> inst (snd kv)) (Iter.dict_next a n i).
Proof.
  intros Hv s Hs. unfold Iter.dict_next, bind, get_heap.
  destruct (st_heap s !! a) as [[d|l]|] eqn:E; try exact Hs.
  destruct (Nat.eqb (List.length d) n); [|exact Hs].
  split; [exact Hs|]. intros [k x] Hx.
  destruct (inst_dict s (VRef a) d Hs Hv (as_dict_ref _ _ _ E)) as [_ Hc].
  apply (Hc k). apply list_elem_of_In. eapply list_elem_of_lookup_2. exact Hx.
Qed.

Lemma keeps_list_next_inst (a : addr) (n i : nat) :
  inst (VRef a) ->
  keeps (fun o => forall x, o = Some x -> inst x) (Iter.list_next a n i).
Proof.
  intros Hv s Hs. unfold Iter.list_next, bind, get_heap.
  destruct (st_heap s !! a) as [[d|l]|] eqn:E; try exact Hs.
  destruct (Nat.eqb (List.length l) n); [|exact Hs].
  split; [exact Hs|]. intros x Hx.
  apply (inst_list s (VRef a) l Hs Hv (as_list_ref _ _ _ E)).
  apply list_elem_of_In. eapply list_elem_of_lookup_2. exact Hx.
Qed.

Lemma keeps_items_inst (v : val) :
  inst v -> keeps (yields (fun kv => inst (snd kv))) (Iter.items v).
Proof.
  intros Hv. unfold Iter.items. apply (keeps_bind any); [kp_auto|]. intros h _.
  destruct v as [| | | |x|a]; try apply keeps_raise.
  destruct (Py.as_dict h (VRef a)); [|apply keeps_raise].
  apply keeps_ret. intros i. cbn [snd]. now apply keeps_dict_next_inst.
Qed.

Lemma keeps_enum_inst (v : val) :
  inst v -> keeps (yields (fun ix => inst (snd ix))) (Iter.enum v).
Proof.
  intros Hv. unfold Iter.enum. apply (keeps_bind any); [kp_auto|]. intros h _.
  destruct v as [| | | |x|a]; try apply keeps_raise.
  - apply keeps_ret. intros i. cbn [snd]. apply keeps_ret.
    intros [j y] E. destruct (PyStr.chars x !! i); [|discriminate].
    cbn in E. injection E as _ <-. apply inst_str.
  - destruct (h !! a) as [[d|l]|]; [| |apply keeps_raise];
      apply keeps_ret; intros i; cbn [snd].
    + apply (keeps_bind any); [kp_auto|]. intros o _. apply keeps_ret.
      intros [j y] E. destruct o; [|discriminate]. cbn in E.
      injection E as _ <-. apply inst_str.
    + apply (keeps_bind (fun o => forall x, o = Some x -> inst x));
        [now apply keeps_list_next_inst|].
      intros o Ho. apply keeps_ret. intros [j y] E.
      destruct o as [z|]; [|discriminate]. cbn in E. injection E as _ <-. now apply Ho.
Qed.

Lemma keeps_zip_items_inst (d l : val) :
  inst l -> keeps (yields (fun kvx => inst (snd kvx))) (Iter.zip_items d l).
Proof.
  intros Hl. unfold Iter.zip_items. apply (keeps_bind any); [kp_auto|]. intros h _.
  destruct d as [| | | |x|a]; try apply keeps_raise.
  destruct (Py.as_dict h (VRef a)); [|apply keeps_raise].
  destruct l as [| | | |x|b]; try apply keeps_raise.
  destruct (Py.as_list h (VRef b)); [|apply keeps_raise].
  apply keeps_ret. intros i. cbn [snd].
  apply (keeps_bind any); [kp_auto|]. intros [kv|] _.
  - apply (keeps_bind (fun o => forall x, o = Some x -> inst x));
      [now apply keeps_list_next_inst|].
    intros o Ho. apply keeps_ret. intros [kv' y] E.
    destruct o as [z|]; [|discriminate]. cbn in E. injection E as _ <-. now apply Ho.
  - apply keeps_ret. discriminate.
Qed.

Lemma kp_fold_yields {A Acc} (P : A -> Prop) (next : nat -> M (option A))
    (body : Acc -> A -> M (bool * Acc)) :
  (forall i, keeps (fun o => forall x, o = Some x -> P x) (next i)) ->
  (forall acc a, P a -> keeps any (body acc a)) ->
  forall rest i acc, keeps any (Iter.fold next i rest body acc).
Proof.
  intros Hn Hb. induction rest as [|r IH]; intros i acc; cbn [Iter.fold].
  - apply (keeps_bind any); [eapply kp_of_keeps; apply Hn|]. intros [a|] _; apply kp_ret.
  - eapply keeps_bind; [apply Hn|]. intros [a|] Ha; [|apply kp_ret].
    apply kp_bind; [apply Hb; now apply Ha|]. intros [b acc']. cbn [fst snd].
    destruct b; [apply kp_ret | apply IH].
Qed.

Lemma kp_run_fold_yields {A Acc} (P : A -> Prop) (it : Iter.iterator A)
    (body : Acc -> A -> M (bool * Acc)) (acc : Acc) :
  yields P it -> (forall acc a, P a -> keeps any (body acc a)) ->
  keeps any (Iter.run_fold it body acc).
Proof. intros Hi Hb. unfold Iter.run_fold. now apply (kp_fold_yields P). Qed.

Lemma kp_run_yields {A} (P : A -> Prop) (it : Iter.iterator A) (body : A -> M unit) :
  yields P it -> (forall a, P a -> keeps any (body a)) -> keeps any (Iter.run it body).
Proof.
  intros Hi Hb. unfold Iter.run, Iter.loop. apply (kp_fold_yields P); [exact Hi|].
  intros _ a Ha. apply kp_bind; [now apply Hb | intros; apply kp_ret].
Qed.

Lemma kp_for_items_inst (v : val) (body : string -> val -> M unit) :
  inst v -> (forall k x, inst x -> keeps any (body k x)) ->
  keeps any (Iter.for_items v body).
Proof.
  intros Hv H. unfold Iter.for_items.
  eapply keeps_bind; [now apply keeps_items_inst|].
  intros it Hit. apply (kp_run_yields _ it _ Hit). intros [k x] Hx. now apply H.
Qed.

Lemma kp_for_enum_inst (v : val) (body : nat -> val -> M unit) :
  inst v -> (forall i x, inst x -> keeps any (body i x)) ->
  keeps any (Iter.for_enum v body).
Proof.
  intros Hv H. unfold Iter.for_enum.
  eapply keeps_bind; [now apply keeps_enum_inst|].
  intros it Hit. apply (kp_run_yields _ it _ Hit). intros [k x] Hx. now apply H.
Qed.

Lemma kp_for_zip_items_inst (d l : val) (body : string -> val -> val -> M unit) :
  inst l -> (forall k x y, inst y -> keeps any (body k x y)) ->
  keeps any (Iter.for_zip_items d l body).
Proof.
  intros Hl H. unfold Iter.for_zip_items.
  eapply keeps_bind; [now apply keeps_zip_items_inst|].
  intros it Hit. apply (kp_run_yields _ it _ Hit). intros [[k x] y] Hy. now apply H.
Qed.

(** With the iterators, the writes to new objects and the reads of
    the instance. *)
Ltac kp_step' :=
  lazymatch goal with
  | H : inst ?v |- keeps any (bind (Py.item ?v _) _) =>
      apply (keeps_bind inst); [apply keeps_item_inst; exact H | intros ? ?]
  | H : inst ?v |- keeps any (bind (Iter.items ?v) _) =>
      eapply keeps_bind; [apply keeps_items_inst; exact H | intros ? ?]
  | H : inst ?v |- keeps any (Iter.for_items ?v _) =>
      apply kp_for_items_inst; [exact H | intros]
  | H : inst ?v |- keeps any (Iter.for_enum ?v _) =>
      apply kp_for_enum_inst; [exact H | intros]
  | H : inst ?v |- keeps any (Iter.for_zip_items _ ?v _) =>
      apply kp_for_zip_items_inst; [exact H | intros]
  | H : yields _ ?it |- keeps any (Iter.run_fold ?it _ _) =>
      apply (kp_run_fold_yields _ it _ _ H); intros ? [? ?] ?
  | |- keeps any (bind (Iter.items _) _) =>
      apply (keeps_bind kp_iterator); [apply keeps_items | intros ? ?]
  | |- keeps any (bind (Iter.enum _) _) =>
      apply (keeps_bind kp_iterator); [apply keeps_enum | intros ? ?]
  | |- keeps any (bind (Py.copy_dict _) _) =>
      apply (keeps_bind fresh); [apply keeps_copy_dict | intros ? ?]
  | |- keeps any (bind (alloc _) _) =>
      apply (keeps_bind fresh); [apply keeps_alloc | intros ? ?]
  | |- keeps any (try_except _ _ _) => apply kp_try_except
  | |- keeps any (Iter.for_items _ _) => apply kp_for_items; intros
  | |- keeps any (Iter.for_keys _ _) => unfold Iter.for_keys
  | |- keeps any (Iter.for_enum _ _) => apply kp_for_enum; intros
  | |- keeps any (Iter.for_in _ _) => apply kp_for_in; intros
  | |- keeps any (Iter.for_zip_items _ _ _) => apply kp_for_zip_items; intros
  | |- keeps any (Py.update _ _) => apply kp_update; assumption
  | |- keeps any (Py.pop_default _ _) => apply kp_pop_default; assumption
  | |- keeps any (Py.setitem _ _ _) => apply kp_setitem; assumption
  | |- _ => kp_step
  end.

Ltac kp_auto' := repeat first [ solve [auto with keep] | kp_step' ].

(** *** The root document *)

Section Root.

Variables (root : val) (rd : pydict).
Hypothesis Hroot : Py.as_dict h0 root = Some rd.
Hypothesis Hmeta : Dict.get rd "$schema" <> Some (VStr Instance.EXTENDED_META).

Lemma root_kept (s : state) : inv s -> Py.as_dict (st_heap s) root = Some rd.
Proof.
  intros [k Hk]. destruct (as_dict_inv _ _ _ Hroot) as (a & -> & Ha).
  apply as_dict_ref. rewrite Hk. now apply lookup_app_l_Some.
Qed.

Lemma keeps_root_meta_ext :
  keeps (fun b => b = false) (Instance.root_meta_is root Instance.EXTENDED_META).
Proof.
  intros s Hs. rewrite (Preamble.root_meta_is_ret _ _ _ _ (root_kept s Hs)).
  split; [exact Hs|].
  destruct (Dict.get rd "$schema") as [[| | | |y|]|]; try reflexivity. cbn.
  destruct (String.eqb_spec y Instance.EXTENDED_META) as [->|]; [|reflexivity].
  now destruct Hmeta.
Qed.

Lemma keeps_instance_uses_under (instance : val) (uri : string) :
  inst instance ->
  keeps (fun b => b = false) (Instance.instance_uses_under root instance uri).
Proof.
  intros Hi s Hs. unfold Instance.instance_uses_under.
  unfold bind at 1, get_heap. unfold Py.is_dict.
  destruct (Py.as_dict (st_heap s) instance) as [di|] eqn:E; [|now split].
  rewrite (bind_Ret _ _ _ _ _ (has_key_dict _ _ _ _ E)).
  unfold Dict.mem. rewrite (proj1 (inst_dict s instance di Hs Hi E)). now split.
Qed.

Lemma kp_root_uses (name : string) : keeps any (Instance.root_uses root name).
Proof. unfold Instance.root_uses. kp_auto'. Qed.

Lemma kp_enable_all_addins (schema : val) :
  keeps any (Instance.enable_all_addins root schema).
Proof.
  unfold Instance.enable_all_addins.
  apply (keeps_bind (fun b => b = false)); [apply keeps_root_meta_ext|].
  intros b ->. apply kp_ret.
Qed.

Lemma kp_enable_used_addins (instance schema : val) :
  inst instance -> keeps any (Instance.enable_used_addins root instance schema).
Proof.
  intros Hi. unfold Instance.enable_used_addins.
  apply (keeps_bind (fun b => b = false)); [now apply keeps_instance_uses_under|].
  intros b ->. apply kp_ret.
Qed.

Lemma kp_reject_addins (instance : val) (path : string) :
  inst instance -> keeps any (Instance.reject_addins_under_core root instance path).
Proof.
  intros Hi. unfold Instance.reject_addins_under_core.
  apply (keeps_bind (fun b => b = false)); [now apply keeps_instance_uses_under|].
  intros b ->. apply kp_ret.
Qed.

(** The test [isinstance(instance, dict) and "$uses" in instance]
    of line 187 fails. *)
Lemma clean_guard {A} (instance : val) (k : bool -> M A) :
  inst instance ->
  keeps any (k false) ->
  keeps any (let* h := get_heap in
            let* uses := if Py.is_dict h instance
                         then Py.has_key "$uses" instance else ret false in
            k uses).
Proof.
  intros Hi Hk s Hs. unfold bind at 1, get_heap. unfold Py.is_dict.
  destruct (Py.as_dict (st_heap s) instance) as [di|] eqn:E.
  - rewrite (bind_Ret _ _ _ _ _ (has_key_dict _ _ _ _ E)).
    unfold Dict.mem. rewrite (proj1 (inst_dict s instance di Hs Hi E)). now apply Hk.
  - rewrite bind_ret_l. now apply Hk.
Qed.

#[local] Hint Resolve kp_enable_all_addins kp_enable_used_addins kp_reject_addins
  kp_root_uses inst_str : keep.

(** *** The validator, given that its recursive calls keep the
    invariant *)

Section Rec.

Variable rt : Runtime.
Variable rec : val -> val -> string -> M unit.
Hypothesis Hrec : forall instance schema path,
  inst instance -> keeps any (rec instance schema path).

#[local] Hint Resolve Hrec : keep.

Lemma kp_dependent_required (schema instance : val) (path : string) :
  keeps any (Instance.dependent_required schema instance path).
Proof. unfold Instance.dependent_required. kp_auto'. Qed.

Lemma kp_validate_items (schema instance : val) (path : string) :
  inst instance -> keeps any (Instance.validate_items rec schema instance path).
Proof. intros Hi. unfold Instance.validate_items. kp_auto'. Qed.

#[local] Hint Resolve kp_dependent_required kp_validate_items : keep.

Lemma kp_validate_object (schema instance : val) (path : string) :
  inst instance -> keeps any (Instance.validate_object rec schema instance path).
Proof. intros Hi. unfold Instance.validate_object. kp_auto'. Qed.

#[local] Hint Resolve kp_validate_object : keep.

Lemma kp_validate_type (ty : string) (schema instance : val) (path : string) :
  inst instance -> keeps any (Instance.validate_type rt rec ty schema instance path).
Proof. intros Hi. unfold Instance.validate_type. kp_auto'. Qed.

Lemma kp_union_step (instance : val) (path : string) (acc : bool * list diag)
    (it : nat * val) :
  inst instance -> keeps any (Instance.union_step rec instance path acc it).
Proof. intros Hi. unfold Instance.union_step. kp_auto'. Qed.

Lemma kp_apply_extends (schema : val) (path : string) :
  keeps any (Instance.apply_extends root schema path).
Proof. unfold Instance.apply_extends. kp_auto'. Qed.

Lemma kp_validate_conditionals (schema instance : val) (path : string) :
  inst instance ->
  keeps any (Instance._validate_conditionals rec schema instance path).
Proof.
  intros Hi. unfold Instance._validate_conditionals, Instance.oneOf_block,
    Instance.allOf_step, Instance.anyOf_step, Instance.oneOf_step.
  kp_auto'.
Qed.

Lemma kp_pattern_keys (keyword : string) (schema instance : val) (path : string) :
  inst instance ->
  keeps any (Instance.pattern_keys rt rec keyword schema instance path).
Proof. intros Hi. unfold Instance.pattern_keys. kp_auto'. Qed.

Lemma kp_names_schema (keyword label : string) (schema instance : val)
    (path : string) :
  keeps any (Instance.names_schema rec keyword label schema instance path).
Proof. unfold Instance.names_schema. kp_auto'. Qed.

#[local] Hint Resolve kp_pattern_keys kp_names_schema : keep.

Lemma kp_validate_validation_addins (schema instance : val) (path : string) :
  inst instance ->
  keeps any (Instance._validate_validation_addins rt rec schema instance path).
Proof.
  intros Hi. unfold Instance._validate_validation_addins, Instance.try_compare,
    Instance.compare.
  kp_auto'.
Qed.

#[local] Hint Resolve kp_validate_type kp_union_step kp_apply_extends
  kp_validate_conditionals kp_validate_validation_addins : keep.

Lemma kp_validate_typed (schema_type schema instance : val) (path : string) :
  inst instance ->
  keeps any (Instance.validate_typed rt root rec schema_type schema instance path).
Proof.
  intros Hi. unfold Instance.validate_typed.
  destruct schema_type as [| | | |ty|]; try apply kp_err.
  apply kp_bind; [kp_auto'|]. intros has_ext.
  apply kp_bind; [kp_auto'|]. intros [schema'|]; [|apply kp_ret].
  apply kp_bind; [kp_auto'|]. intros abstract.
  assert (G : keeps any
    (let* h := get_heap in
     let* uses :=
       if Py.is_dict h instance then Py.has_key "$uses" instance else ret false in
     let* schema0 :=
       if uses
       then let* merged := Instance._apply_uses root schema' instance in
            Py.pop instance "$uses" ;; ret merged
       else ret schema' in
     Instance.validate_type rt rec ty schema0 instance path ;;
     let* va := Instance.root_uses root Instance.VA in
     when va (Instance._validate_validation_addins rt rec schema0 instance path) ;;
     let* has_const := Py.has_key "const" schema0 in
     when has_const (
       let* c := Py.item schema0 "const" in
       let* e := Py.eq instance c in
       when (negb e) (err (ENotConst path c))) ;;
     let* has_enum := Py.has_key "enum" schema0 in
     when has_enum (
       let* en := Py.item schema0 "enum" in
       let* c := Py.contains instance en in
       when (negb c) (err (ENotInEnum path en))))).
  { apply (clean_guard instance); [exact Hi|]. lazy beta iota.
    apply kp_bind; [apply kp_ret|]. intros schema0. kp_auto'. }
  destruct abstract as [|[|]| | | |]; try exact G. apply kp_err.
Qed.

#[local] Hint Resolve kp_validate_typed : keep.

Lemma kp_validate_by_type (hasConditionals : bool) (schema instance : val)
    (path : string) :
  inst instance ->
  keeps any (Instance.validate_by_type rt root rec hasConditionals schema instance path).
Proof. intros Hi. unfold Instance.validate_by_type. kp_auto'. Qed.

Lemma kp_validate_body (instance schema : val) (path : string) :
  inst instance ->
  keeps any (Instance.validate_body rt root rec instance schema path).
Proof.
  intros Hi. unfold Instance.validate_body. cbv zeta.
  generalize (Instance.or_root root schema). clear schema. intros schema.
  apply kp_bind; [kp_auto'|]. intros _.
  apply kp_bind; [kp_auto'|]. intros _.
  apply kp_bind; [kp_auto'|]. intros _.
  apply kp_bind; [kp_auto'|]. intros has_ref.
  destruct has_ref; [kp_auto'|].
  apply kp_bind; [kp_auto'|]. intros cc.
  apply kp_bind; [destruct cc; kp_auto'|]. intros hc.
  now apply kp_validate_by_type.
Qed.

End Rec.

(** [validate_instance] keeps the invariant at every depth. *)
Lemma kp_validate_instance (rt : Runtime) (fuel : nat) :
  forall (instance schema : val) (path : string),
    inst instance ->
    keeps any (Instance.validate_instance rt root fuel instance schema path).
Proof.
  induction fuel as [|n IH]; intros instance schema path Hi.
  - apply keeps_diverge.
  - apply kp_validate_body; [exact IH | exact Hi].
Qed.

End Root.

End Base.

End Keep.

(** C5, amended.  When the root schema does not name the extended
    meta-schema and the instance has no [$uses] key in any of its
    objects, [validate_instance] writes to no object that existed
    before the call: whether it returns or raises, the store afterwards
    is the store before, followed by the objects created during the
    call ([$extends] flattening and unions work on new dicts).  In
    particular the root schema document is the same before and after.
    The schemas are arbitrary: the root may enable add-ins in its own
    [$uses], and then the conditional composition and validation
    keywords are evaluated.  Under the extended meta-schema, or for an
    instance with [$uses], the call does write to the schema. *)
Theorem validate_instance_frame (rt : Runtime) (root : val) (rd : pydict)
    (fuel : nat) (instance schema : val) (path : string) (s : state) :
  Py.as_dict (st_heap s) root = Some rd ->
  Dict.get rd "$schema" <> Some (VStr Instance.EXTENDED_META) ->
  Keep.clean (st_heap s) instance ->
  match Instance.validate_instance rt root fuel instance schema path s with
  | Ret _ s' | Exn _ s' =>
      prefix (st_heap s) (st_heap s') /\
      Py.as_dict (st_heap s') root = Some rd
  | Diverge => True
  end.
Proof.
  intros Hr Hm Hi.
  assert (Hs : Keep.inv (st_heap s) s) by (unfold Keep.inv; reflexivity).
  pose proof (Keep.kp_validate_instance (st_heap s) root rd Hr Hm rt fuel
                instance schema path Hi s Hs) as H.
  destruct (Instance.validate_instance rt root fuel instance schema path s)
    as [[] s'|e s'|]; [destruct H as [H _]| |exact I];
    (split; [exact H | exact (Keep.root_kept (st_heap s) root rd Hr s' H)]).
Qed.

(** The theorem on a root that enables both add-ins: its [$uses] is
    there, the instance has none, [anyOf] and [maxLength] are evaluated
    (the one diagnostic is that of [maxLength]), and the store the call
    leaves is the store before followed by new objects. *)
Lemma validate_instance_frame_witness :
  let s := snd (loaded2 Docs.addins_schema Docs.addins_instance) in
  let root := fst (fst (loaded2 Docs.addins_schema Docs.addins_instance)) in
  let instance := snd (fst (loaded2 Docs.addins_schema Docs.addins_instance)) in
  (exists rd, Py.as_dict (st_heap s) root = Some rd /\
              Dict.mem rd "$uses" = true) /\
  Keep.clean (st_heap s) instance /\
  exists s',
    Instance.validate_instance offline_runtime root 4 instance root "#" s = Ret tt s' /\
    st_errors s' = [ELongerThanMaxLength "#/a" (VInt 1)] /\
    prefix (st_heap s) (st_heap s') /\
    (List.length (st_heap s) < List.length (st_heap s'))%nat.
Proof.
  cbv zeta.
  assert (Hi : Keep.clean
                 (st_heap (snd (loaded2 Docs.addins_schema Docs.addins_instance)))
                 (snd (fst (loaded2 Docs.addins_schema Docs.addins_instance))))
    by (apply (Keep.cleanb_clean 3); reflexivity).
  split; [eexists; split; reflexivity|]. split; [exact Hi|].
  pose proof (validate_instance_frame offline_runtime
                (fst (fst (loaded2 Docs.addins_schema Docs.addins_instance)))
                _ 4
                (snd (fst (loaded2 Docs.addins_schema Docs.addins_instance)))
                (fst (fst (loaded2 Docs.addins_schema Docs.addins_instance))) "#"
                (snd (loaded2 Docs.addins_schema Docs.addins_instance))
                eq_refl ltac:(discriminate) Hi) as H.
  destruct (Instance.validate_instance offline_runtime
              (fst (fst (loaded2 Docs.addins_schema Docs.addins_instance))) 4
              (snd (fst (loaded2 Docs.addins_schema Docs.addins_instance)))
              (fst (fst (loaded2 Docs.addins_schema Docs.addins_instance))) "#"
              (snd (loaded2 Docs.addins_schema Docs.addins_instance)))
    as [[] s'|e s'|] eqn:E.
  - exists s'. split; [reflexivity|].
    split; [vm_compute in E; injection E as <-; reflexivity|].
    split; [exact (proj1 H)|].
    vm_compute in E. injection E as <-. vm_compute. lia.
  - vm_compute in E. discriminate.
  - vm_compute in E. discriminate.
Defined.

(** ** Tuples *)

Module Tuple.








End Tuple.



(** * Further properties of the validators *)

(** ** Scalars against a plain typed schema *)

Module Plain.

(** On a plain schema without validation keywords, and for an instance
    that is not a dict, [validate_instance] returns and adds what the
    type-based validation adds, when that is a fixed list of
    diagnostics. *)
Lemma run (rt : Runtime) (root : val) (fuel : nat) (instance schema : val)
    (ty path : string) (s : state) (es : list diag) :
  Phases.ready root schema ty s ->
  Phases.non_dict (st_heap s) instance -> ty <> "" ->
  (forall d, Py.as_dict (st_heap s) schema = Some d ->
             Phases.lacks d Phases.validation_keywords) ->
  (forall s1,
     Instance.validate_type rt (Instance.validate_instance rt root fuel)
       ty schema instance path s1 =
     Ret tt (mkState (st_heap s1) (st_errors s1 ++ es))) ->
  exists s',
    Instance.validate_instance rt root (S fuel) instance schema path s = Ret tt s' /\
    st_errors s' = st_errors s ++ es.
Proof.
  intros R0 N0 Hne Lv0 Hty.
  destruct (Phases.reaches_type_check rt root fuel instance schema ty path s R0 N0 Hne)
    as (s1 & He1 & G & _ & _ & ->).
  pose proof (Phases.ready_grows root schema ty s s1 G R0)
    as [(d & Hd & [Ht Hl] & Hu) (rd & Hr & Hru)].
  rewrite (bind_Ret _ _ _ _ _ (Hty s1)).
  erewrite Phases.after_type_none.
  - eexists. split; [reflexivity|]. cbn [st_errors]. now rewrite He1.
  - exact Hr.
  - exact Hru.
  - exact Hd.
  - destruct R0 as [(d0 & Hd0 & _) _]. pose proof (Lv0 d0 Hd0) as L0.
    destruct G as (_ & _ & Gs). destruct (Gs d0 Hd0) as [H | (u & _ & _ & H)];
      cbn [st_heap] in H; rewrite Hd in H; injection H as ->; [exact L0|].
    apply Phases.lacks_set; [exact L0|]. simpl. intuition discriminate.
  - intros k Hk. apply Hl. simpl in Hk |- *. tauto.
Qed.

(** The tags that the type-based validation handles. *)
Definition handled_types : list string :=
  ["any"; "string"; "number"; "boolean"; "null"; "int32"; "uint32"; "int64";
   "uint64"; "float"; "double"; "decimal"; "date"; "datetime"; "time";
   "duration"; "uuid"; "uri"; "binary"; "jsonpointer"; "object"; "array";
   "set"; "map"; "tuple"].

Definition handled (ty : string) : bool := existsb (String.eqb ty) handled_types.

(** Any other tag ends in the last [else] of the chain. *)
Lemma validate_type_unhandled (rt : Runtime) (rec : val -> val -> string -> M unit)
    (ty : string) (schema instance : val) (path : string) (s : state) :
  handled ty = false ->
  Instance.validate_type rt rec ty schema instance path s =
  Ret tt (mkState (st_heap s) (st_errors s ++ [EUnsupportedType ty path])).
Proof.
  unfold handled, handled_types. cbn [existsb]. intros H.
  repeat (apply orb_false_elim in H; destruct H as [? H]).
  unfold Instance.validate_type, bind, get_heap.
  repeat match goal with
         | E : String.eqb ty _ = false |- _ => rewrite E; clear E
         end.
  reflexivity.
Qed.

(** What an integer gets from the type check of a numeric tag. *)
Definition int_diags (ty path : string) (z : Z) : list diag :=
  if String.eqb ty "int32" then
    if (- 2 ^ 31 <=? z) && (z <=? 2 ^ 31 - 1) then [] else [EOutOfRange "int32" path]
  else if String.eqb ty "uint32" then
    if (0 <=? z) && (z <=? 2 ^ 32 - 1) then [] else [EOutOfRange "uint32" path]
  else if String.eqb ty "int64" || String.eqb ty "uint64" || String.eqb ty "decimal"
  then [EExpectedAsString ty path "int"]
  else [].

Definition numeric_tags : list string :=
  ["number"; "int32"; "uint32"; "int64"; "uint64"; "float"; "double"; "decimal"].

Lemma validate_type_int (rt : Runtime) (rec : val -> val -> string -> M unit)
    (ty : string) (schema : val) (z : Z) (path : string) (s : state) :
  In ty numeric_tags ->
  Instance.validate_type rt rec ty schema (VInt z) path s =
  Ret tt (mkState (st_heap s) (st_errors s ++ int_diags ty path z)).
Proof.
  intros Hty. destruct s as [h es].
  assert (R : forall l : list diag, l ++ [] = l) by apply app_nil_r.
  unfold numeric_tags in Hty. simpl in Hty.
  destruct Hty as [<-|[<-|[<-|[<-|[<-|[<-|[<-|[<-|[]]]]]]]]];
    cbv [int_diags String.eqb Ascii.eqb Bool.eqb orb];
    cbv [Instance.validate_type bind get_heap String.eqb Ascii.eqb Bool.eqb orb
         Py.as_num Py.is_bool Py.is_int_or_float negb when ret err st_heap st_errors
         Py.type_name];
    rewrite ?R; try reflexivity.
  - destruct ((- 2 ^ 31 <=? z) && (z <=? 2 ^ 31 - 1)); cbn; rewrite ?R; reflexivity.
  - destruct ((0 <=? z) && (z <=? 2 ^ 32 - 1)); cbn; rewrite ?R; reflexivity.
Qed.

End Plain.

(** X1.  Integers against the numeric type tags.  For every integer
    instance [z] and every plain schema of a numeric type: "number", "float" and "double" accept it; "int32" and
    "uint32" accept it exactly within their ranges ([-2^31 .. 2^31-1]
    and [0 .. 2^32-1], bounds included) and report "out of range"
    otherwise; "int64", "uint64" and "decimal" reject every JSON number
    with "Expected .. as string". *)
Theorem integer_against_numeric_tags (rt : Runtime) (root : val) (fuel : nat) (z : Z)
    (schema : val) (ty path : string) (s : state) :
  In ty Plain.numeric_tags ->
  Phases.ready root schema ty s ->
  (forall d, Py.as_dict (st_heap s) schema = Some d ->
             Phases.lacks d Phases.validation_keywords) ->
  exists s',
    Instance.validate_instance rt root (S fuel) (VInt z) schema path s = Ret tt s' /\
    st_errors s' = st_errors s ++ Plain.int_diags ty path z /\
    (ty = "int32" ->
     (Plain.int_diags ty path z = [] <-> - 2 ^ 31 <= z <= 2 ^ 31 - 1)) /\
    (ty = "uint32" ->
     (Plain.int_diags ty path z = [] <-> 0 <= z <= 2 ^ 32 - 1)).
Proof.
  intros Hty R0 Lv.
  assert (Hne : ty <> "").
  { intros ->. unfold Plain.numeric_tags in Hty. simpl in Hty.
    repeat (destruct Hty as [Hty|Hty]; [discriminate|]). exact Hty. }
  destruct (Plain.run rt root fuel (VInt z) schema ty path s
              (Plain.int_diags ty path z) R0 I Hne Lv) as (s' & E & He).
  { intros s1. now apply Plain.validate_type_int. }
  exists s'. split; [exact E|]. split; [exact He|]. split.
  - intros ->. cbv [Plain.int_diags String.eqb Ascii.eqb Bool.eqb].
    destruct (- 2 ^ 31 <=? z) eqn:E1; destruct (z <=? 2 ^ 31 - 1) eqn:E2; cbn [andb];
      split; try discriminate; try reflexivity; lia.
  - intros ->. cbv [Plain.int_diags String.eqb Ascii.eqb Bool.eqb].
    destruct (0 <=? z) eqn:E1; destruct (z <=? 2 ^ 32 - 1) eqn:E2; cbn [andb];
      split; try discriminate; try reflexivity; lia.
Qed.

(** The theorem at the schema [{"type": "int32"}] and the instance
    [2^31], the first integer above the range. *)
Lemma integer_against_numeric_tags_witness :
  let s := snd (loaded (JObj [("type", JStr "int32")])) in
  In "int32" Plain.numeric_tags /\
  Phases.ready (VRef 0) (VRef 0) "int32" s /\
  errors_of
    (Instance.validate_instance offline_runtime (VRef 0) 1 (VInt (2 ^ 31)) (VRef 0) "#" s)
  = Some [EOutOfRange "int32" "#"].
Proof.
  cbv zeta.
  assert (Hin : In "int32" Plain.numeric_tags) by (simpl; tauto).
  assert (Hr : Phases.ready (VRef 0) (VRef 0) "int32"
                 (snd (loaded (JObj [("type", JStr "int32")])))).
  { split; eexists; (split; [reflexivity|]).
    - split; [|exact I]. split; [reflexivity|].
      apply Phases.lacksb_lacks. reflexivity.
    - exact I. }
  split; [exact Hin|]. split; [exact Hr|].
  destruct (integer_against_numeric_tags offline_runtime (VRef 0) 0 (2 ^ 31) (VRef 0)
              "int32" "#" _ Hin Hr) as (s' & E & He & _).
  { intros d [= <-]. apply Phases.lacksb_lacks. reflexivity. }
  rewrite E. cbn [errors_of]. rewrite He. reflexivity.
Defined.

(** ** Loops over a collection that the body leaves alone *)

Module Loops.

(** The outcome is acceptable: no exception, and [J] on return. *)
Definition post (J : state -> Prop) {A} (r : res A) : Prop :=
  match r with
  | Ret _ s' => J s'
  | Exn _ _ => False
  | Diverge => True
  end.

Section Static.

Context {A : Type}.
(** What the iterator yields, and what holds as long as nothing
    touched the collection. *)
Variables (next : nat -> M (option A)) (items : list A) (J : state -> Prop).
Hypothesis Hnext : forall i s, J s -> next i s = Ret (items !! i) s.

Lemma loop_post (B : A -> M unit) :
  (forall x s0, J s0 -> post J (B x s0)) ->
  forall rest i s, J s -> post J (Iter.loop next i rest B s).
Proof.
  intros HB. unfold Iter.loop.
  induction rest as [|r IH]; intros i s Hs; cbn [Iter.fold];
    rewrite (bind_Ret _ _ _ _ _ (Hnext i s Hs)).
  - destruct (items !! i); exact Hs.
  - destruct (items !! i) as [x|]; [|exact Hs].
    rewrite bind_assoc. specialize (HB x s Hs).
    destruct (B x s) as [[] s1|e s1|] eqn:EB.
    + rewrite (bind_Ret _ _ _ _ _ EB). rewrite bind_ret_l. cbn [fst snd].
      apply IH. exact HB.
    + destruct HB.
    + now rewrite (bind_Diverge _ _ _ EB).
Qed.

Lemma loop_returns (B : A -> M unit) :
  (forall i x s0, items !! i = Some x -> J s0 ->
     exists s1, B x s0 = Ret tt s1 /\ J s1) ->
  forall rest i s,
    (i + rest = List.length items)%nat -> J s ->
    exists s', Iter.loop next i rest B s = Ret tt s' /\ J s'.
Proof.
  intros HB. unfold Iter.loop.
  induction rest as [|r IH]; intros i s Hi Hs; cbn [Iter.fold];
    rewrite (bind_Ret _ _ _ _ _ (Hnext i s Hs)).
  - rewrite (lookup_ge_None_2 items i) by lia. eauto.
  - assert (Hlt : (i < List.length items)%nat) by lia.
    destruct (lookup_lt_is_Some_2 items i Hlt) as [x Hx]. rewrite Hx.
    rewrite bind_assoc. destruct (HB i x s Hx Hs) as (s1 & EB & Hs1).
    rewrite (bind_Ret _ _ _ _ _ EB). rewrite bind_ret_l. cbn [fst snd].
    apply IH; [lia | exact Hs1].
Qed.

End Static.

(** The iterators of a dict and of a list, while the object is what
    it was. *)
Lemma dict_next_static (a : addr) (q : pydict) (i : nat) (s : state) :
  st_heap s !! a = Some (ODict q) ->
  Iter.dict_next a (List.length q) i s = Ret (q !! i) s.
Proof.
  intros Ha. unfold Iter.dict_next, bind, get_heap. now rewrite Ha, Nat.eqb_refl.
Qed.

Lemma list_next_static (a : addr) (l : list val) (i : nat) (s : state) :
  st_heap s !! a = Some (OList l) ->
  Iter.list_next a (List.length l) i s = Ret (l !! i) s.
Proof.
  intros Ha. unfold Iter.list_next, bind, get_heap. now rewrite Ha, Nat.eqb_refl.
Qed.

Lemma enum_next_static (a : addr) (l : list val) (i : nat) (s : state) :
  st_heap s !! a = Some (OList l) ->
  (let* x := Iter.list_next a (List.length l) i in ret (pair i <$> x)) s =
  Ret (imap pair l !! i) s.
Proof.
  intros Ha. rewrite (bind_Ret _ _ _ _ _ (list_next_static a l i s Ha)).
  rewrite list_lookup_imap. reflexivity.
Qed.

End Loops.

(** ** Import expansion that finds nothing to do *)

Module Walk.

Definition is_import_key (key : string) : bool :=
  String.eqb key "$import" || String.eqb key "$importdefs".

(** The diagnostic of line 618 (instance validator) and line 208
    (schema validator). *)
Definition not_allowed (e : diag) : Prop :=
  exists key loc, is_import_key key = true /\ e = EImportNotAllowed key loc.

(** The store is as in [s], and the buffer is that of [s] followed
    by "not allowed" diagnostics only. *)
Definition undisturbed (s s' : state) : Prop :=
  st_heap s' = st_heap s /\
  exists es, st_errors s' = st_errors s ++ es /\ Forall not_allowed es.

Lemma undisturbed_refl (s : state) : undisturbed s s.
Proof. split; [reflexivity|]. exists []. now rewrite app_nil_r. Qed.

Lemma undisturbed_trans (s s1 s2 : state) :
  undisturbed s s1 -> undisturbed s1 s2 -> undisturbed s s2.
Proof.
  intros [H1 (e1 & E1 & F1)] [H2 (e2 & E2 & F2)]. split; [congruence|].
  exists (e1 ++ e2). split.
  - now rewrite E2, E1, app_assoc.
  - now apply Forall_app.
Qed.

(** No dict of the store has an import keyword. *)
Definition import_free (h : heap) : Prop :=
  forall a d key, h !! a = Some (ODict d) -> is_import_key key = true ->
                  Dict.get d key = None.

Definition import_freeb (h : heap) : bool :=
  forallb (fun o => match o with
                    | ODict d => negb (Dict.mem d "$import" || Dict.mem d "$importdefs")
                    | OList _ => true
                    end) h.

Lemma import_freeb_import_free (h : heap) : import_freeb h = true -> import_free h.
Proof.
  unfold import_freeb. rewrite forallb_forall. intros H a d key Ha Hk.
  assert (Hin : In (ODict d) h).
  { apply list_elem_of_In. eapply list_elem_of_lookup_2. exact Ha. }
  specialize (H _ Hin). cbn in H. apply negb_true_iff, orb_false_elim in H.
  destruct H as [H1 H2]. apply mem_get_None in H1, H2.
  unfold is_import_key in Hk. apply orb_true_iff in Hk.
  destruct Hk as [Hk|Hk]; apply String.eqb_eq in Hk; now subst key.
Qed.

(** The references an object holds, and a store in which every
    object refers only to objects created before it: what [json.load]
    builds. *)
Definition children (o : obj) : list val :=
  match o with ODict d => map snd d | OList l => l end.

Definition ordered (h : heap) : Prop :=
  forall a o b, h !! a = Some o -> In (VRef b) (children o) -> (b < a)%nat.

Definition orderedb (h : heap) : bool :=
  forallb (fun ao => forallb (fun v => match v with
                                       | VRef b => Nat.ltb b (fst ao)
                                       | _ => true
                                       end) (children (snd ao)))
          (imap pair h).

Lemma orderedb_ordered (h : heap) : orderedb h = true -> ordered h.
Proof.
  unfold orderedb. rewrite forallb_forall. intros H a o b Ha Hb.
  assert (Hin : In (a, o) (imap pair h)).
  { apply list_elem_of_In. apply (list_elem_of_lookup_2 _ a).
    rewrite list_lookup_imap, Ha. reflexivity. }
  specialize (H _ Hin). cbn [fst snd] in H. rewrite forallb_forall in H.
  specialize (H _ Hb). cbn in H. now apply Nat.ltb_lt.
Qed.

Section Process.

Variable fetch : string -> M val.

(** One key, without permission. *)
Lemma import_key_refused (obj : val) (path key : string) (s : state) :
  exists s', Imports.import_key false fetch obj path key s = Ret tt s' /\
             undisturbed s s'.
Proof.
  unfold Imports.import_key. fold (is_import_key key).
  destruct (is_import_key key) eqn:E; cbn [when negb].
  - eexists. split; [reflexivity|]. split; [reflexivity|]. cbn [st_errors].
    eexists. split; [reflexivity|]. repeat constructor. now exists key, (path +:+ "/" +:+ key).
  - exists s. split; [reflexivity | apply undisturbed_refl].
Qed.

(** One key that is no import keyword. *)
Lemma import_key_other (allow_import : bool) (obj : val) (path key : string)
    (s : state) :
  is_import_key key = false ->
  Imports.import_key allow_import fetch obj path key s = Ret tt s.
Proof.
  intros E. unfold Imports.import_key. fold (is_import_key key). now rewrite E.
Qed.

Lemma keys_refused (obj : val) (path : string) (keys : list string) (s : state) :
  exists s', for_each keys (Imports.import_key false fetch obj path) s = Ret tt s' /\
             undisturbed s s'.
Proof.
  revert s. induction keys as [|k keys IH]; intros s; cbn [for_each].
  - exists s. split; [reflexivity | apply undisturbed_refl].
  - destruct (import_key_refused obj path k s) as (s1 & E1 & U1).
    rewrite (bind_Ret _ _ _ _ _ E1). destruct (IH s1) as (s2 & E2 & U2).
    exists s2. split; [exact E2 | eapply undisturbed_trans; eauto].
Qed.

Lemma keys_other (allow_import : bool) (obj : val) (path : string) (d : pydict)
    (keys : list string) (s : state) :
  (forall key, is_import_key key = true -> Dict.get d key = None) ->
  (forall k, In k keys -> Dict.get d k <> None) ->
  for_each keys (Imports.import_key allow_import fetch obj path) s = Ret tt s.
Proof.
  intros Hd. induction keys as [|k keys IH]; intros Hk; cbn [for_each]; [reflexivity|].
  assert (E : is_import_key k = false).
  { destruct (is_import_key k) eqn:E; [|reflexivity].
    destruct (Hk k (or_introl eq_refl)). now apply Hd. }
  rewrite (bind_Ret _ _ _ _ _ (import_key_other allow_import obj path k s E)).
  apply IH. intros k' Hk'. apply Hk. now right.
Qed.

End Process.

Lemma get_key_in (d : pydict) (k : string) : In k (Dict.keys d) -> Dict.get d k <> None.
Proof.
  intros H E. apply Uses.get_None_keys in E. apply E. now apply list_elem_of_In.
Qed.

Definition rank (v : val) : nat :=
  match v with VRef a => S a | _ => O end.

Section Returns.

Variables (allow_import : bool) (fetch : string -> M val).
Variables (h : heap) (J : state -> Prop).
Hypothesis J_heap : forall s, J s -> st_heap s = h.
Hypothesis Hord : ordered h.
Hypothesis Hkeys : forall obj path d s,
  J s -> Py.deref h obj = Some (ODict d) ->
  exists s1, for_each (Dict.keys d) (Imports.import_key allow_import fetch obj path) s
             = Ret tt s1 /\ J s1.

Lemma walk_returns (fuel : nat) : forall (obj : val) (path : string) (s : state),
  (rank obj < fuel)%nat -> J s ->
  exists s', Imports._process_imports allow_import fetch fuel obj path s = Ret tt s' /\
             J s'.
Proof.
  induction fuel as [|n IH]; intros obj path s Hr Hs; [lia|].
  cbn [Imports._process_imports]. unfold get_heap at 1. cbn [bind].
  rewrite (J_heap s Hs).
  destruct (Py.deref h obj) as [[d|l]|] eqn:Ed; [| |now eauto].
  - destruct (Hkeys obj path d s Hs Ed) as (s1 & E1 & Hs1).
    rewrite (bind_Ret _ _ _ _ _ E1).
    destruct obj as [| | | | |a]; try discriminate. cbn [Py.deref] in Ed.
    assert (Ei : Iter.items (VRef a) s1 =
                 Ret (List.length d, Iter.dict_next a (List.length d)) s1).
    { unfold Iter.items, get_heap, bind, Py.as_dict, Py.deref.
      now rewrite (J_heap s1 Hs1), Ed. }
    unfold Iter.for_items. rewrite (bind_Ret _ _ _ _ _ Ei). unfold Iter.run. cbn [fst snd].
    apply Loops.loop_returns with (items := d); [| |lia|exact Hs1].
    + intros i s0 Hs0. apply Loops.dict_next_static. now rewrite (J_heap s0 Hs0).
    + intros i [k v] s0 Hi Hs0. cbn [fst snd]. apply IH; [|exact Hs0].
      cbn [rank] in Hr. destruct v as [| | | | |a0]; cbn [rank]; try lia.
      assert (Hb : (a0 < a)%nat).
      { apply (Hord a (ODict d)); [exact Ed|]. cbn [children].
        apply in_map_iff. exists (k, VRef a0). split; [reflexivity|].
        apply list_elem_of_In. eapply list_elem_of_lookup_2. exact Hi. }
      lia.
  - destruct obj as [| | | | |a]; try discriminate. cbn [Py.deref] in Ed.
    assert (Ei : Iter.enum (VRef a) s =
                 Ret (List.length l,
                      fun i => let* x := Iter.list_next a (List.length l) i in
                               ret (pair i <$> x)) s).
    { unfold Iter.enum, get_heap, bind. now rewrite (J_heap s Hs), Ed. }
    unfold Iter.for_enum. rewrite (bind_Ret _ _ _ _ _ Ei). unfold Iter.run. cbn [fst snd].
    apply Loops.loop_returns with (items := imap pair l);
      [| |rewrite length_imap; lia|exact Hs].
    + intros i s0 Hs0. apply Loops.enum_next_static. now rewrite (J_heap s0 Hs0).
    + intros i [j v] s0 Hi Hs0. cbn [fst snd]. apply IH; [|exact Hs0].
      rewrite list_lookup_imap in Hi. destruct (l !! i) as [v'|] eqn:El; [|discriminate].
      cbn in Hi. injection Hi as <- <-.
      cbn [rank] in Hr. destruct v' as [| | | | |a0]; cbn [rank]; try lia.
      assert (Hb : (a0 < a)%nat).
      { apply (Hord a (OList l)); [exact Ed|]. cbn [children].
        apply list_elem_of_In. eapply list_elem_of_lookup_2. exact El. }
      lia.
Qed.

End Returns.

End Walk.

(** X2.  Without [allow_import], [_process_imports] on a document
    built by [json.load] (each object refers to objects made before
    it) returns, leaves every object of the document as it was, and
    adds to the diagnostics only "import keyword encountered but
    allow_import not enabled" ones; whatever the import map holds. *)
Theorem imports_refused_leave_document (fetch : string -> M val) (fuel : nat)
    (obj : val) (path : string) (s : state) :
  Walk.ordered (st_heap s) ->
  (Walk.rank obj < fuel)%nat ->
  exists s', Imports._process_imports false fetch fuel obj path s = Ret tt s' /\
             st_heap s' = st_heap s /\
             exists es, st_errors s' = st_errors s ++ es /\
                        Forall Walk.not_allowed es.
Proof.
  intros Hord Hr.
  apply (Walk.walk_returns false fetch (st_heap s) (Walk.undisturbed s)); auto.
  - now intros s0 [H0 _].
  - intros o p d s0 Hs0 _.
    destruct (Walk.keys_refused fetch o p (Dict.keys d) s0) as (s1 & E1 & U1).
    exists s1. split; [exact E1 | eapply Walk.undisturbed_trans; eauto].
  - apply Walk.undisturbed_refl.
Qed.

(** The document of [Docs.importing_schema], whose [definitions] has
    an [$import], walked without permission. *)
Lemma imports_refused_leave_document_witness :
  let root := fst (loaded Docs.importing_schema) in
  let s := snd (loaded Docs.importing_schema) in
  let fetch := Imports._fetch_external_schema (file_runtime Docs.import_files)
                 Docs.import_map Schema.EXTERNAL_SCHEMAS in
  exists s', Imports._process_imports false fetch 8 root "#" s = Ret tt s' /\
             st_heap s' = st_heap s /\
             exists es, st_errors s' = st_errors s ++ es /\
                        Forall Walk.not_allowed es.
Proof.
  cbv zeta. apply imports_refused_leave_document.
  - apply Walk.orderedb_ordered. vm_compute. reflexivity.
  - vm_compute. lia.
Defined.

(** X3.  On a document in which no object has the key [$import] or
    [$importdefs], [_process_imports] returns without any effect:
    no object changes, nothing is fetched and no diagnostic is added,
    with or without [allow_import]. *)
Theorem import_free_document_unchanged (allow_import : bool)
    (fetch : string -> M val) (fuel : nat) (obj : val) (path : string)
    (s : state) :
  Walk.import_free (st_heap s) ->
  Walk.ordered (st_heap s) ->
  (Walk.rank obj < fuel)%nat ->
  Imports._process_imports allow_import fetch fuel obj path s = Ret tt s.
Proof.
  intros Hfree Hord Hr.
  destruct (Walk.walk_returns allow_import fetch (st_heap s) (eq s))
    with (fuel := fuel) (obj := obj) (path := path) (s := s)
    as (s' & E & <-); auto.
  - now intros s0 <-.
  - intros o p d s0 <- Ed. exists s. split; [|reflexivity].
    destruct o as [| | | | |a]; try discriminate. cbn [Py.deref] in Ed.
    apply Walk.keys_other with (d := d).
    + intros key Hk. exact (Hfree a d key Ed Hk).
    + apply Walk.get_key_in.
Qed.

(** The tuple schema of [Docs], walked with imports allowed. *)
Lemma import_free_document_unchanged_witness :
  let root := fst (loaded Docs.tuple_schema) in
  let s := snd (loaded Docs.tuple_schema) in
  let fetch := Imports._fetch_external_schema (file_runtime Docs.import_files)
                 Docs.import_map Instance.SIMULATED_SCHEMAS in
  Imports._process_imports true fetch 8 root "#" s = Ret tt s.
Proof.
  cbv zeta. apply import_free_document_unchanged.
  - apply Walk.import_freeb_import_free. vm_compute. reflexivity.
  - apply Walk.orderedb_ordered. vm_compute. reflexivity.
  - vm_compute. lia.
Defined.

(** ** Type names of the schema validator *)

Module Types.

(** [PRIMITIVE_TYPES] and [COMPOUND_TYPES] of the schema validator. *)
Definition PRIMITIVE_TYPES : list string :=
  ["string"; "number"; "boolean"; "null"; "int8"; "uint8"; "int16"; "uint16";
   "int32"; "uint32"; "int64"; "uint64"; "int128"; "uint128"; "float8";
   "float"; "double"; "decimal"; "date"; "datetime"; "time"; "duration";
   "uuid"; "uri"; "binary"; "jsonpointer"; "any"].

Definition COMPOUND_TYPES : list string :=
  ["object"; "array"; "set"; "map"; "tuple"; "choice"].

(** [tval in self.PRIMITIVE_TYPES or tval in self.COMPOUND_TYPES] *)
Definition recognized (ty : string) : bool :=
  existsb (String.eqb ty) PRIMITIVE_TYPES || existsb (String.eqb ty) COMPOUND_TYPES.

(** The recognized names without a branch in [validate_instance]. *)
Definition unvalidated : list string :=
  ["int8"; "uint8"; "int16"; "uint16"; "int128"; "uint128"; "float8"; "choice"].

End Types.

(** X4.  A plain schema whose [type] is a name without a branch in
    the type-based validation is answered with "Unsupported type",
    whatever the instance (here: any instance that is not an object).
    Of the type names the schema validator recognizes, these are
    exactly int8, uint8, int16, uint16, int128, uint128, float8 and
    choice: schemas of these types pass the schema validator's type
    check and no instance validates against them. *)
Theorem unsupported_type_rejects_every_instance (rt : Runtime) (root : val)
    (fuel : nat) (instance schema : val) (ty path : string) (s : state) :
  Plain.handled ty = false -> ty <> "" ->
  Phases.ready root schema ty s ->
  Phases.non_dict (st_heap s) instance ->
  (forall d, Py.as_dict (st_heap s) schema = Some d ->
             Phases.lacks d Phases.validation_keywords) ->
  (exists s',
     Instance.validate_instance rt root (S fuel) instance schema path s = Ret tt s' /\
     st_errors s' = st_errors s ++ [EUnsupportedType ty path]) /\
  (forall t, Types.recognized t = true ->
             (Plain.handled t = false <-> In t Types.unvalidated)).
Proof.
  intros Hh Hne R0 N0 Lv. split.
  - apply (Plain.run rt root fuel instance schema ty path s _ R0 N0 Hne Lv).
    intros s1. now apply Plain.validate_type_unhandled.
  - intros t Ht. unfold Types.recognized in Ht.
    apply orb_true_iff in Ht. rewrite !existsb_exists in Ht.
    assert (Hin : In t (Types.PRIMITIVE_TYPES ++ Types.COMPOUND_TYPES)).
    { apply in_app_iff. destruct Ht as [(x & Hx & E)|(x & Hx & E)];
        apply String.eqb_eq in E; subst x; tauto. }
    clear Ht. cbn in Hin.
    repeat (destruct Hin as [<-|Hin];
            [vm_compute; split; [try discriminate; tauto | intros H;
               try reflexivity;
               repeat (destruct H as [H|H]; [discriminate|]); destruct H]|]).
    destruct Hin.
Qed.

(** The schema [{"type": "int16"}] and the instance [7]. *)
Lemma unsupported_type_rejects_every_instance_witness :
  let s := snd (loaded (JObj [("type", JStr "int16")])) in
  Types.recognized "int16" = true /\
  errors_of
    (Instance.validate_instance offline_runtime (VRef 0) 1 (VInt 7) (VRef 0) "#" s)
  = Some [EUnsupportedType "int16" "#"].
Proof.
  cbv zeta. split; [reflexivity|].
  assert (Hr : Phases.ready (VRef 0) (VRef 0) "int16"
                 (snd (loaded (JObj [("type", JStr "int16")])))).
  { split; eexists; (split; [reflexivity|]).
    - split; [|exact I]. split; [reflexivity|].
      apply Phases.lacksb_lacks. reflexivity.
    - exact I. }
  destruct (unsupported_type_rejects_every_instance offline_runtime (VRef 0) 0
              (VInt 7) (VRef 0) "int16" "#" _ eq_refl ltac:(discriminate) Hr I)
    as [(s' & E & He) _].
  { intros d [= <-]. apply Phases.lacksb_lacks. reflexivity. }
  rewrite E. cbn [errors_of]. rewrite He. reflexivity.
Defined.

(** ** The [allOf] loop *)

Module AllOf.

(** On a root that is not the extended meta-schema, the run of
    [Plain.run] leaves the store as it is. *)
Lemma plain_same_store (rt : Runtime) (root : val) (fuel : nat)
    (instance schema : val) (ty path : string) (s : state) (es : list diag) :
  Phases.ready root schema ty s ->
  Phases.non_dict (st_heap s) instance -> ty <> "" ->
  (forall d, Py.as_dict (st_heap s) schema = Some d ->
             Phases.lacks d Phases.validation_keywords) ->
  (forall rd, Py.as_dict (st_heap s) root = Some rd ->
              Dict.get rd "$schema" <> Some (VStr Instance.EXTENDED_META)) ->
  Instance.validate_type rt (Instance.validate_instance rt root fuel)
    ty schema instance path s =
  Ret tt (mkState (st_heap s) (st_errors s ++ es)) ->
  Instance.validate_instance rt root (S fuel) instance schema path s =
  Ret tt (mkState (st_heap s) (st_errors s ++ es)).
Proof.
  intros R0 N0 Hne Lv0 Hm Hty.
  destruct (Phases.reaches_type_check rt root fuel instance schema ty path s R0 N0 Hne)
    as (s1 & He1 & G & _ & E0 & ->).
  assert (Es : s1 = s).
  { destruct R0 as [_ (rd0 & Hr0 & _)]. specialize (Hm rd0 Hr0).
    unfold Instance.enable_all_addins in E0.
    rewrite (bind_Ret _ _ _ _ _ (Preamble.root_meta_is_ret _ _ _ _ Hr0)) in E0.
    destruct (Dict.get rd0 "$schema") as [[| | | |y|]|];
      cbn in E0; try (now injection E0).
    destruct (String.eqb_spec y Instance.EXTENDED_META) as [Ey|Ny].
    - rewrite Ey in Hm. now destruct Hm.
    - now injection E0. }
  subst s1. destruct R0 as [(d & Hd & [Ht Hl] & Hu) (rd & Hr & Hru)].
  rewrite (bind_Ret _ _ _ _ _ Hty).
  erewrite Phases.after_type_none; [reflexivity | exact Hr | exact Hru | exact Hd | |].
  - exact (Lv0 d Hd).
  - intros k Hk. apply Hl. simpl in Hk |- *. tauto.
Qed.

(** The buffer after one round that began with [E] and in which the
    call added [new]. *)
Definition round (E new : list diag) : list diag :=
  match E ++ new with
  | [] => []
  | es => E ++ es
  end.

(** The buffer after the rounds [i], .., [i + n - 1]. *)
Fixpoint rounds (new : nat -> list diag) (n i : nat) (E : list diag) : list diag :=
  match n with
  | O => E
  | S n' => rounds new n' (S i) (round E (new i))
  end.

Lemma concat_repeat_twice (E : list diag) (k : nat) :
  concat (repeat (E ++ E) k) = concat (repeat E (2 * k)).
Proof.
  induction k as [|k IH]; [reflexivity|].
  replace (2 * S k)%nat with (S (S (2 * k))) by lia.
  cbn [repeat concat]. rewrite IH. now rewrite <- app_assoc.
Qed.

Lemma rounds_passing (new : nat -> list diag) (n : nat) :
  forall i E, (forall j, (i <= j < i + n)%nat -> new j = []) ->
              rounds new n i E = concat (repeat E (2 ^ n)).
Proof.
  induction n as [|n IH]; intros i E H; cbn [rounds].
  - cbn. now rewrite app_nil_r.
  - rewrite (H i) by lia. rewrite IH by (intros j Hj; apply H; lia).
    assert (R : round E [] = E ++ E).
    { unfold round. rewrite app_nil_r. now destruct E. }
    rewrite R, concat_repeat_twice. f_equal.
Qed.

Section Loop.

Variable rec : val -> val -> string -> M unit.
Variables (instance : val) (path : string) (a : addr) (all : list val).
Variables (h : heap) (new : nat -> list diag).
Hypothesis Ha : h !! a = Some (OList all).
Hypothesis Hrec : forall i subschema E,
  all !! i = Some subschema ->
  rec instance subschema (Instance.idx (Instance.sub path "allOf") i) (mkState h E) =
  Ret tt (mkState h (E ++ new i)).

Lemma step (i : nat) (subschema : val) (E : list diag) :
  all !! i = Some subschema ->
  Instance.allOf_step rec instance path i subschema (mkState h E) =
  Ret tt (mkState h (round E (new i))).
Proof.
  intros Hi. unfold Instance.allOf_step.
  unfold bind at 1, get_errors at 1. cbn [st_errors].
  rewrite (bind_Ret _ _ _ _ _ (Hrec i subschema E Hi)).
  unfold bind, get_errors, round. cbn [st_errors st_heap].
  destruct (E ++ new i); reflexivity.
Qed.

Lemma loop (rest : nat) : forall (i : nat) (E : list diag),
  (i + rest = List.length all)%nat ->
  Iter.loop
    (fun i => let* x := Iter.list_next a (List.length all) i in ret (pair i <$> x))
    i rest (fun ix => Instance.allOf_step rec instance path (fst ix) (snd ix))
    (mkState h E)
  = Ret tt (mkState h (rounds new rest i E)).
Proof.
  unfold Iter.loop.
  induction rest as [|r IH]; intros i E Hi; cbn [Iter.fold rounds];
    rewrite (bind_Ret _ _ _ _ _ (Loops.enum_next_static a all i (mkState h E) Ha));
    rewrite list_lookup_imap.
  - rewrite (lookup_ge_None_2 all i) by lia. reflexivity.
  - assert (Hlt : (i < List.length all)%nat) by lia.
    destruct (lookup_lt_is_Some_2 all i Hlt) as [x Hx]. rewrite Hx.
    cbn [fmap option_fmap option_map fst snd]. rewrite bind_assoc.
    rewrite (bind_Ret _ _ _ _ _ (step i x E Hx)). rewrite bind_ret_l. cbn [fst snd].
    apply IH. lia.
Qed.

End Loop.

End AllOf.

(** X5.  [allOf] repeats what was reported before it.  For a schema
    whose only composition keyword is [allOf], an array, and calls on
    the subschemas that only add diagnostics, every round of the loop
    that ends with a non-empty buffer stores the buffer it began with
    followed by the whole buffer; so each round doubles the diagnostics
    that were there when it began.  In particular, when every
    subschema passes, [n] subschemas leave [2^n] copies of the
    diagnostics reported before the [allOf]. *)
Theorem allOf_repeats_earlier_diagnostics (rec : val -> val -> string -> M unit)
    (schema instance : val) (path : string) (a : addr) (all : list val)
    (sd : pydict) (new : nat -> list diag) (s : state) :
  Py.as_dict (st_heap s) schema = Some sd ->
  Dict.get sd "allOf" = Some (VRef a) ->
  Phases.lacks sd ["anyOf"; "oneOf"; "not"; "if"] ->
  st_heap s !! a = Some (OList all) ->
  (forall i subschema E,
     all !! i = Some subschema ->
     rec instance subschema (Instance.idx (Instance.sub path "allOf") i)
       (mkState (st_heap s) E) =
     Ret tt (mkState (st_heap s) (E ++ new i))) ->
  Instance._validate_conditionals rec schema instance path s =
    Ret true (mkState (st_heap s)
                (AllOf.rounds new (List.length all) 0 (st_errors s))) /\
  (forall E x, E ++ x <> [] -> AllOf.round E x = E ++ E ++ x) /\
  ((forall i, (i < List.length all)%nat -> new i = []) ->
   AllOf.rounds new (List.length all) 0 (st_errors s) =
   concat (repeat (st_errors s) (2 ^ List.length all))).
Proof.
  intros Hs Hg L Ha Hrec. split; [|split].
  - unfold Instance._validate_conditionals.
    rewrite (bind_Ret _ _ _ _ _ (has_key_present _ _ _ _ _ Hs Hg)). cbn [when].
    Phases.mnorm.
    rewrite (bind_Ret _ _ _ _ _ (item_dict _ _ _ _ _ Hs Hg)).
    assert (Ei : Iter.enum (VRef a) s =
                 Ret (List.length all,
                      fun i => let* x := Iter.list_next a (List.length all) i in
                               ret (pair i <$> x)) s).
    { unfold Iter.enum, get_heap, bind. now rewrite Ha. }
    unfold Iter.for_enum. Phases.mnorm. rewrite (bind_Ret _ _ _ _ _ Ei).
    unfold Iter.run. cbn [fst snd].
    destruct s as [h E]. cbn [st_heap st_errors] in *.
    rewrite (bind_Ret _ _ _ _ _
               (AllOf.loop rec instance path a all h new Ha Hrec
                  (List.length all) 0 E eq_refl)).
    assert (Hs' : Py.as_dict (st_heap (mkState h (AllOf.rounds new (List.length all) 0 E)))
                    schema = Some sd) by exact Hs.
    repeat Phases.skip_absent Hs' L. reflexivity.
  - intros E x Hx. unfold AllOf.round. destruct (E ++ x); [now destruct Hx | reflexivity].
  - intros Hn. apply AllOf.rounds_passing. intros j Hj. apply Hn. lia.
Qed.

(** The schema [{"allOf": [{"type": "string"}, {"type": "number"}]}]
    and the instance [5]: the first subschema reports "Expected
    string", the second passes, and the diagnostic is there twice. *)
Lemma allOf_repeats_earlier_diagnostics_witness :
  let doc := JObj [("allOf", JArr [JObj [("type", JStr "string")];
                                   JObj [("type", JStr "number")]])] in
  let s := snd (loaded doc) in
  let rec := Instance.validate_instance offline_runtime (VRef 3) 1 in
  st_heap s !! 2%nat = Some (OList [VRef 0; VRef 1]) /\
  errors_of (Instance._validate_conditionals rec (VRef 3) (VInt 5) "#" s) =
  Some [EExpected "string" "#/allOf[0]" "int"; EExpected "string" "#/allOf[0]" "int"].
Proof.
  cbv zeta. split; [reflexivity|].
  edestruct allOf_repeats_earlier_diagnostics
    with (rec := Instance.validate_instance offline_runtime (VRef 3) 1)
         (schema := VRef 3) (instance := VInt 5) (path := "#") (a := 2%nat)
         (all := [VRef 0; VRef 1])
         (new := fun i : nat => match i with
                                | O => [EExpected "string" "#/allOf[0]" "int"]
                                | _ => []
                                end)
         (s := snd (loaded (JObj [("allOf", JArr [JObj [("type", JStr "string")];
                                                  JObj [("type", JStr "number")]])])))
    as [E _].
  - reflexivity.
  - reflexivity.
  - apply Phases.lacksb_lacks. reflexivity.
  - reflexivity.
  - intros i subschema E Hi.
    assert (Hroot : forall rd,
              Py.as_dict (st_heap (snd (loaded (JObj [("allOf",
                 JArr [JObj [("type", JStr "string")];
                       JObj [("type", JStr "number")]])])))) (VRef 3) = Some rd ->
              Dict.get rd "$schema" <> Some (VStr Instance.EXTENDED_META)).
    { intros rd [= <-]. discriminate. }
    destruct i as [|[|i]]; [| |discriminate]; injection Hi as <-.
    + apply (AllOf.plain_same_store offline_runtime (VRef 3) 0 (VInt 5) (VRef 0)
               "string" _ (mkState _ E) [EExpected "string" "#/allOf[0]" "int"]);
        [| exact I | discriminate | | exact Hroot | reflexivity].
      * split; eexists; (split; [reflexivity|]).
        -- split; [|exact I]. split; [reflexivity|].
           apply Phases.lacksb_lacks. reflexivity.
        -- exact I.
      * intros d [= <-]. apply Phases.lacksb_lacks. reflexivity.
    + apply (AllOf.plain_same_store offline_runtime (VRef 3) 0 (VInt 5) (VRef 1)
               "number" _ (mkState _ E) []);
        [| exact I | discriminate | | exact Hroot
         | apply (Plain.validate_type_int offline_runtime _ "number" (VRef 1) 5);
           simpl; tauto].
      * split; eexists; (split; [reflexivity|]).
        -- split; [|exact I]. split; [reflexivity|].
           apply Phases.lacksb_lacks. reflexivity.
        -- exact I.
      * intros d [= <-]. apply Phases.lacksb_lacks. reflexivity.
  - rewrite E. reflexivity.
Defined.

(** ** A typed schema under a root that is not the extended meta-schema *)

Module Typed.

(** The schema is a dict of type [ty] that goes straight to the
    type-based validation: no [$ref], [$extends] or composition
    keyword, and not abstract. *)
Definition direct (d : pydict) (ty : string) : Prop :=
  Dict.get d "type" = Some (VStr ty) /\ ty <> "" /\
  Phases.lacks d (["$ref"; "$extends"; "abstract"] ++ Phases.composition_keywords).

Definition directb (d : pydict) (ty : string) : bool :=
  match Dict.get d "type" with
  | Some (VStr t) => String.eqb t ty
  | _ => false
  end && negb (String.eqb ty "") &&
  Phases.lacksb d (["$ref"; "$extends"; "abstract"] ++ Phases.composition_keywords).

Lemma directb_direct (d : pydict) (ty : string) : directb d ty = true -> direct d ty.
Proof.
  unfold directb, direct. rewrite !andb_true_iff. intros [[H1 H2] H3].
  split; [|split].
  - destruct (Dict.get d "type") as [[| | | |t|]|]; try discriminate.
    apply String.eqb_eq in H1. now subst.
  - intros ->. discriminate.
  - now apply Phases.lacksb_lacks.
Qed.

(** The root's [$uses] is a list that names [name], or not. *)
Lemma root_uses_list (root : val) (name : string) (s : state) (rd : pydict)
    (u : val) (l : list val) :
  Py.as_dict (st_heap s) root = Some rd ->
  Dict.get rd "$uses" = Some u -> Py.as_list (st_heap s) u = Some l ->
  Instance.root_uses root name s =
  Ret (existsb (fun v => match v with VStr y => String.eqb y name | _ => false end) l) s.
Proof.
  intros Hr Hu Hl. unfold Instance.root_uses.
  rewrite (bind_Ret _ _ _ _ _ (has_key_present _ _ _ _ _ Hr Hu)).
  rewrite (bind_Ret _ _ _ _ _ (item_dict _ _ _ _ _ Hr Hu)).
  now apply contains_str_list.
Qed.

Lemma root_uses_none (root : val) (name : string) (s : state) (rd : pydict) :
  Py.as_dict (st_heap s) root = Some rd -> Dict.get rd "$uses" = None ->
  Instance.root_uses root name s = Ret false s.
Proof.
  intros Hr Hu. unfold Instance.root_uses.
  now rewrite (bind_Ret _ _ _ _ _ (has_key_absent _ _ _ _ Hr Hu)).
Qed.

(** [validate_instance] on a direct schema, for an instance that is
    not a dict: the type-based validation, then what follows it. *)
Lemma direct_run (rt : Runtime) (root : val) (fuel : nat) (instance schema : val)
    (ty path : string) (s : state) (d rd : pydict) :
  Refs.quiet (st_heap s) root instance ->
  Py.as_dict (st_heap s) root = Some rd -> Preamble.uses_ok (st_heap s) rd ->
  Py.as_dict (st_heap s) schema = Some d -> direct d ty ->
  Py.is_dict (st_heap s) instance = false ->
  Instance.validate_instance rt root (S fuel) instance schema path s =
  (Instance.validate_type rt (Instance.validate_instance rt root fuel)
     ty schema instance path ;;
   Phases.after_type rt root (Instance.validate_instance rt root fuel)
     schema instance path) s.
Proof.
  intros Hq Hr Hu Hd (Ht & Hne & Hl) Hi. rewrite validate_instance_S.
  unfold Instance.validate_body. cbv zeta. rewrite (or_root_dict _ root schema d Hd).
  rewrite (Refs.preamble_quiet _ _ _ _ _ _ Hq).
  erewrite bind_Ret
    by (eapply has_key_absent; [exact Hd | apply Hl; simpl; tauto]).
  destruct (Preamble.root_uses_ret root Instance.CC s rd Hr Hu) as [cc Hcc].
  rewrite (bind_Ret _ _ _ _ _ Hcc).
  assert (C : (if cc
               then Instance._validate_conditionals
                      (Instance.validate_instance rt root fuel) schema instance path
               else ret false) s = Ret false s).
  { destruct cc; [|reflexivity]. eapply Phases.conditionals_none; [exact Hd|].
    intros k Hk. apply Hl. simpl in Hk |- *. tauto. }
  rewrite (bind_Ret _ _ _ _ _ C).
  erewrite Phases.by_type_string by (first [exact Hd | exact Ht | exact Hne]).
  erewrite Phases.typed_plain; [reflexivity | exact Hd | | | exact Hi].
  - apply Hl. simpl. tauto.
  - rewrite Hl by (simpl; tauto). discriminate.
Qed.

End Typed.

(** ** [None] and strings against the type tags *)

Module Scalars.

(** What [None] gets from the type check of each tag. *)
Definition none_table (path : string) : list (string * list diag) :=
  [("any", []);
   ("string", [EExpected "string" path "NoneType"]);
   ("number", [EExpected "number" path "NoneType"]);
   ("boolean", [EExpected "boolean" path "NoneType"]);
   ("null", []);
   ("int32", [EExpected "int32" path "NoneType"]);
   ("uint32", [EExpected "uint32" path "NoneType"]);
   ("int64", [EExpectedAsString "int64" path "NoneType"]);
   ("uint64", [EExpectedAsString "uint64" path "NoneType"]);
   ("float", [EExpected "float" path "NoneType"]);
   ("double", [EExpected "double" path "NoneType"]);
   ("decimal", [EExpectedAsString "decimal" path "NoneType"]);
   ("date", [EExpectedDate path]);
   ("datetime", [EExpectedDatetime path]);
   ("time", [EExpectedTime path]);
   ("duration", [EExpectedStr "duration" path]);
   ("uuid", [EExpectedStr "uuid" path]);
   ("uri", [EExpectedStr "uri" path]);
   ("binary", [EExpectedBinary path]);
   ("jsonpointer", [EExpectedPointer path]);
   ("object", [EExpectedObject path "NoneType"]);
   ("array", [EExpectedArray path "NoneType"]);
   ("set", [EExpectedSet path "NoneType"]);
   ("map", [EExpectedMap path "NoneType"]);
   ("tuple", [EExpectedTuple path "NoneType"])].

Definition none_diags (ty path : string) : list diag :=
  default [] (Imports.assoc (none_table path) ty).

Ltac run_type :=
  cbv [Instance.validate_type bind get_heap String.eqb Ascii.eqb Bool.eqb orb andb
       Py.as_num Py.is_bool Py.is_int_or_float Py.is_str Py.is_dict Py.is_list
       Py.as_dict Py.as_list Py.deref negb when ret err raise st_heap st_errors
       Py.type_name].

Ltac run_table d t :=
  cbv [d t Imports.assoc default String.eqb Ascii.eqb Bool.eqb from_option id].

Lemma validate_type_none (rt : Runtime) (rec : val -> val -> string -> M unit)
    (ty : string) (schema : val) (path : string) (s : state) :
  In ty Plain.handled_types ->
  Instance.validate_type rt rec ty schema VNone path s =
  Ret tt (mkState (st_heap s) (st_errors s ++ none_diags ty path)).
Proof.
  intros Hty. destruct s as [h es].
  assert (R : forall l : list diag, l ++ [] = l) by apply app_nil_r.
  unfold Plain.handled_types in Hty. simpl in Hty.
  repeat (destruct Hty as [<-|Hty];
          [run_table none_diags none_table; run_type; rewrite ?R; reflexivity|]).
  destruct Hty.
Qed.

Lemma none_diags_spec (ty path : string) :
  In ty Plain.handled_types ->
  (List.length (none_diags ty path) <= 1)%nat /\
  (none_diags ty path = [] <-> ty = "any" \/ ty = "null").
Proof.
  intros Hty. unfold Plain.handled_types in Hty. simpl in Hty.
  repeat (destruct Hty as [<-|Hty];
          [run_table none_diags none_table; cbn [List.length]; split; [lia|];
           split; [intros H; first [discriminate H | tauto]
                  | intros [H|H]; first [discriminate H | reflexivity]]|]).
  destruct Hty.
Qed.

(** What the string [x] gets from the type check of each tag. *)
Definition str_table (rt : Runtime) (path x : string) : list (string * list diag) :=
  [("any", []);
   ("string", []);
   ("number", [EExpected "number" path "str"]);
   ("boolean", [EExpected "boolean" path "str"]);
   ("null", [EExpected "null" path "str"]);
   ("int32", [EExpected "int32" path "str"]);
   ("uint32", [EExpected "uint32" path "str"]);
   ("int64", match rt_int rt x with
             | Some v => if (- 2 ^ 63 <=? v) && (v <=? 2 ^ 63 - 1) then []
                         else [EOutOfRange "int64" path]
             | None => [EInvalidFormat "int64" path]
             end);
   ("uint64", match rt_int rt x with
              | Some v => if (0 <=? v) && (v <=? 2 ^ 64 - 1) then []
                          else [EOutOfRange "uint64" path]
              | None => [EInvalidFormat "uint64" path]
              end);
   ("float", [EExpected "float" path "str"]);
   ("double", [EExpected "double" path "str"]);
   ("decimal", if rt_float_ok rt x then [] else [EInvalidFormat "decimal" path]);
   ("date", if rt_re_match rt Instance._DATE_REGEX x then [] else [EExpectedDate path]);
   ("datetime", if rt_re_match rt Instance._DATETIME_REGEX x then []
                else [EExpectedDatetime path]);
   ("time", if rt_re_match rt Instance._TIME_REGEX x then [] else [EExpectedTime path]);
   ("duration", []);
   ("uuid", if rt_uuid_ok rt x then [] else [EInvalidFormat "uuid" path]);
   ("uri", match rt_url_scheme rt x with
           | Some scheme => if String.eqb scheme "" then [EInvalidFormat "uri" path]
                            else []
           | None => []
           end);
   ("binary", []);
   ("jsonpointer", if rt_re_match rt Instance._JSONPOINTER_REGEX x then []
                   else [EExpectedPointer path]);
   ("object", [EExpectedObject path "str"]);
   ("array", [EExpectedArray path "str"]);
   ("set", [EExpectedSet path "str"]);
   ("map", [EExpectedMap path "str"]);
   ("tuple", [EExpectedTuple path "str"])].

Definition str_diags (rt : Runtime) (ty path x : string) : list diag :=
  default [] (Imports.assoc (str_table rt path x) ty).

Lemma validate_type_str (rt : Runtime) (rec : val -> val -> string -> M unit)
    (ty : string) (schema : val) (x path : string) (s : state) :
  In ty Plain.handled_types ->
  (ty = "uri" -> rt_url_scheme rt x <> None) ->
  Instance.validate_type rt rec ty schema (VStr x) path s =
  Ret tt (mkState (st_heap s) (st_errors s ++ str_diags rt ty path x)).
Proof.
  intros Hty Huri. destruct s as [h es].
  assert (R : forall l : list diag, l ++ [] = l) by apply app_nil_r.
  unfold Plain.handled_types in Hty. simpl in Hty.
  repeat (destruct Hty as [<-|Hty];
          [run_table str_diags str_table; run_type; rewrite ?R;
           try reflexivity;
           repeat case_match; cbn; rewrite ?R;
           first [reflexivity | congruence | now destruct (Huri eq_refl)]|]).
  destruct Hty.
Qed.

End Scalars.

(** X6.  [None] (JSON null) against the type tags.  For every plain
    schema whose type is one of the tags the validator handles,
    [validate_instance] on a null instance returns and adds at most
    one diagnostic, and none exactly when the type is "any" or
    "null". *)
Theorem null_accepted_only_by_any_and_null (rt : Runtime) (root : val) (fuel : nat)
    (schema : val) (ty path : string) (s : state) :
  In ty Plain.handled_types ->
  Phases.ready root schema ty s ->
  (forall d, Py.as_dict (st_heap s) schema = Some d ->
             Phases.lacks d Phases.validation_keywords) ->
  exists s',
    Instance.validate_instance rt root (S fuel) VNone schema path s = Ret tt s' /\
    st_errors s' = st_errors s ++ Scalars.none_diags ty path /\
    (List.length (Scalars.none_diags ty path) <= 1)%nat /\
    (Scalars.none_diags ty path = [] <-> ty = "any" \/ ty = "null").
Proof.
  intros Hty R0 Lv.
  assert (Hne : ty <> "").
  { intros ->. unfold Plain.handled_types in Hty. simpl in Hty.
    repeat (destruct Hty as [Hty|Hty]; [discriminate|]). exact Hty. }
  destruct (Plain.run rt root fuel VNone schema ty path s
              (Scalars.none_diags ty path) R0 I Hne Lv) as (s' & E & He).
  { intros s1. now apply Scalars.validate_type_none. }
  exists s'. split; [exact E|]. split; [exact He|].
  now apply Scalars.none_diags_spec.
Qed.

(** The schema [{"type": "string"}] and the instance [null]. *)
Lemma null_accepted_only_by_any_and_null_witness :
  let s := snd (loaded (JObj [("type", JStr "string")])) in
  errors_of
    (Instance.validate_instance offline_runtime (VRef 0) 1 VNone (VRef 0) "#" s)
  = Some [EExpected "string" "#" "NoneType"].
Proof.
  cbv zeta.
  assert (Hr : Phases.ready (VRef 0) (VRef 0) "string"
                 (snd (loaded (JObj [("type", JStr "string")])))).
  { split; eexists; (split; [reflexivity|]).
    - split; [|exact I]. split; [reflexivity|].
      apply Phases.lacksb_lacks. reflexivity.
    - exact I. }
  destruct (null_accepted_only_by_any_and_null offline_runtime (VRef 0) 0 (VRef 0)
              "string" "#" _ ltac:(simpl; tauto) Hr) as (s' & E & He & _).
  { intros d [= <-]. apply Phases.lacksb_lacks. reflexivity. }
  rewrite E. cbn [errors_of]. rewrite He. reflexivity.
Defined.

(** X7.  Strings against the type tags.  For every string instance
    [x] and every plain schema whose type is one of the tags the
    validator handles ([urlparse] not raising, for "uri"),
    [validate_instance] returns and adds what the table says.  In
    particular: "any", "string", "duration" and "binary" accept every
    string; "int64" and "uint64" accept exactly the strings that
    [int] reads as an integer within [-2^63 .. 2^63-1], resp.
    [0 .. 2^64-1]; and the number, boolean, null and compound tags
    answer every string with exactly one diagnostic. *)
Theorem string_against_type_tags (rt : Runtime) (root : val) (fuel : nat)
    (schema : val) (x ty path : string) (s : state) :
  In ty Plain.handled_types ->
  (ty = "uri" -> rt_url_scheme rt x <> None) ->
  Phases.ready root schema ty s ->
  (forall d, Py.as_dict (st_heap s) schema = Some d ->
             Phases.lacks d Phases.validation_keywords) ->
  exists s',
    Instance.validate_instance rt root (S fuel) (VStr x) schema path s = Ret tt s' /\
    st_errors s' = st_errors s ++ Scalars.str_diags rt ty path x /\
    (In ty ["any"; "string"; "duration"; "binary"] ->
     Scalars.str_diags rt ty path x = []) /\
    (ty = "int64" ->
     (Scalars.str_diags rt ty path x = [] <->
      exists v, rt_int rt x = Some v /\ - 2 ^ 63 <= v <= 2 ^ 63 - 1)) /\
    (ty = "uint64" ->
     (Scalars.str_diags rt ty path x = [] <->
      exists v, rt_int rt x = Some v /\ 0 <= v <= 2 ^ 64 - 1)) /\
    (In ty ["number"; "boolean"; "null"; "int32"; "uint32"; "float"; "double";
            "object"; "array"; "set"; "map"; "tuple"] ->
     List.length (Scalars.str_diags rt ty path x) = 1%nat).
Proof.
  intros Hty Huri R0 Lv.
  assert (Hne : ty <> "").
  { intros ->. unfold Plain.handled_types in Hty. simpl in Hty.
    repeat (destruct Hty as [Hty|Hty]; [discriminate|]). exact Hty. }
  destruct (Plain.run rt root fuel (VStr x) schema ty path s
              (Scalars.str_diags rt ty path x) R0 I Hne Lv) as (s' & E & He).
  { intros s1. now apply Scalars.validate_type_str. }
  exists s'. split; [exact E|]. split; [exact He|].
  split; [|split; [|split]].
  - simpl. intros [<-|[<-|[<-|[<-|[]]]]]; reflexivity.
  - intros ->. Scalars.run_table Scalars.str_diags Scalars.str_table.
    destruct (rt_int rt x) as [v|].
    + destruct (- 2 ^ 63 <=? v) eqn:E1; destruct (v <=? 2 ^ 63 - 1) eqn:E2; cbn [andb];
        split; try discriminate; try (intros _; exists v; split; [reflexivity | lia]);
        intros (v' & [= <-] & Hv); first [reflexivity | lia].
    + split; [discriminate | intros (v & Hv & _); discriminate].
  - intros ->. Scalars.run_table Scalars.str_diags Scalars.str_table.
    destruct (rt_int rt x) as [v|].
    + destruct (0 <=? v) eqn:E1; destruct (v <=? 2 ^ 64 - 1) eqn:E2; cbn [andb];
        split; try discriminate; try (intros _; exists v; split; [reflexivity | lia]);
        intros (v' & [= <-] & Hv); first [reflexivity | lia].
    + split; [discriminate | intros (v & Hv & _); discriminate].
  - simpl. intros H.
    repeat (destruct H as [<-|H]; [reflexivity|]). destruct H.
Qed.

(** The schema [{"type": "duration"}] and a string that is no
    ISO 8601 duration. *)
Lemma string_against_type_tags_witness :
  let s := snd (loaded (JObj [("type", JStr "duration")])) in
  errors_of
    (Instance.validate_instance offline_runtime (VRef 0) 1 (VStr "soon") (VRef 0) "#" s)
  = Some [].
Proof.
  cbv zeta.
  assert (Hr : Phases.ready (VRef 0) (VRef 0) "duration"
                 (snd (loaded (JObj [("type", JStr "duration")])))).
  { split; eexists; (split; [reflexivity|]).
    - split; [|exact I]. split; [reflexivity|].
      apply Phases.lacksb_lacks. reflexivity.
    - exact I. }
  destruct (string_against_type_tags offline_runtime (VRef 0) 0 (VRef 0)
              "soon" "duration" "#" _ ltac:(simpl; tauto) ltac:(discriminate) Hr)
    as (s' & E & He & _).
  { intros d [= <-]. apply Phases.lacksb_lacks. reflexivity. }
  rewrite E. cbn [errors_of]. rewrite He. reflexivity.
Defined.

(** ** The validation add-in on scalars *)

Module Addins.

(** The root's [$uses] is a list that names the validation add-in. *)
Definition validating (h : heap) (rd : pydict) : Prop :=
  exists u l, Dict.get rd "$uses" = Some u /\ Py.as_list h u = Some l /\
              In (VStr Instance.VA) l.

Lemma validating_uses_ok (h : heap) (rd : pydict) :
  validating h rd -> Preamble.uses_ok h rd.
Proof. intros (u & l & Hu & Hl & _). unfold Preamble.uses_ok. rewrite Hu. eauto. Qed.

Lemma root_uses_VA (root : val) (s : state) (rd : pydict) :
  Py.as_dict (st_heap s) root = Some rd -> validating (st_heap s) rd ->
  Instance.root_uses root Instance.VA s = Ret true s.
Proof.
  intros Hr (u & l & Hu & Hl & Hin).
  rewrite (Typed.root_uses_list root Instance.VA s rd u l Hr Hu Hl). f_equal.
  apply existsb_exists. exists (VStr Instance.VA). split; [exact Hin|].
  apply String.eqb_refl.
Qed.

(** After the type check, under a validating root and without [const]
    and [enum], the add-in is all that is left. *)
Lemma after_type_addins (rt : Runtime) (root : val)
    (rec : val -> val -> string -> M unit) (schema instance : val) (path : string)
    (s : state) (d rd : pydict) :
  Py.as_dict (st_heap s) root = Some rd -> validating (st_heap s) rd ->
  Py.as_dict (st_heap s) schema = Some d -> Phases.lacks d ["const"; "enum"] ->
  forall r,
    Instance._validate_validation_addins rt rec schema instance path s = r ->
    (forall s', r = Ret tt s' -> st_heap s' = st_heap s) ->
    Phases.after_type rt root rec schema instance path s = r.
Proof.
  intros Hr Hv Hd Lc r Er Hh. unfold Phases.after_type.
  rewrite (bind_Ret _ _ _ _ _ (root_uses_VA root s rd Hr Hv)). cbn [when].
  unfold bind at 1. rewrite Er. destruct r as [[] s'|e s'|]; [|reflexivity|reflexivity].
  assert (Hd' : Py.as_dict (st_heap s') schema = Some d).
  { now rewrite (Hh s' eq_refl). }
  repeat Phases.skip_absent Hd' Lc. reflexivity.
Qed.

(** The tags whose instances are numbers written as strings. *)
Definition text_tags : list string := ["int64"; "uint64"; "decimal"].

(** What the bounds [m] and [M] add for the string [x]: the strings are
    compared as text. *)
Definition text_bounds (path x m M : string) : list diag :=
  match String.compare x m with
  | Lt => [ELessThanMinimum path (VStr m)]
  | _ => []
  end ++
  match String.compare x M with
  | Gt => [EGreaterThanMaximum path (VStr M)]
  | _ => []
  end.


Lemma try_compare_text (rt : Runtime) (op : cmp_op) (x m : string) (e e' : diag)
    (s : state) :
  Instance.try_compare rt op (VStr x) (VStr m) e e' s =
  Ret tt (mkState (st_heap s)
            (st_errors s ++
             if Order.of_comparison op (String.compare x m) then [e] else [])).
Proof.
  unfold Instance.try_compare, bind, get_heap. cbn [Order.order Py.as_num].
  destruct (Order.of_comparison op (x ?= m)%string); [reflexivity|].
  rewrite app_nil_r. now destruct s.
Qed.

Lemma addins_text (rt : Runtime) (rec : val -> val -> string -> M unit)
    (schema : val) (x m M ty path : string) (s : state) (d : pydict) :
  Py.as_dict (st_heap s) schema = Some d ->
  Dict.get d "type" = Some (VStr ty) -> In ty text_tags ->
  Dict.get d "minimum" = Some (VStr m) ->
  Dict.get d "maximum" = Some (VStr M) ->
  Phases.lacks d ["exclusiveMinimum"; "exclusiveMaximum"; "multipleOf"] ->
  Instance._validate_validation_addins rt rec schema (VStr x) path s =
  Ret tt (mkState (st_heap s) (st_errors s ++ text_bounds path x m M)).
Proof.
  intros Hd Ht Hty Hmin Hmax L. unfold Instance._validate_validation_addins.
  rewrite (bind_Ret _ _ _ _ _ (get_present _ _ _ _ _ Hd Ht)).
  assert (Hn : Instance.str_in (VStr ty) Instance.numeric_types = true).
  { simpl in Hty. destruct Hty as [<-|[<-|[<-|[]]]]; reflexivity. }
  assert (Hs : forall k, In k ["string"; "array"; "object"; "map"] ->
                         Instance.str_is (VStr ty) k = false).
  { simpl in Hty. intros k Hk. simpl in Hk.
    destruct Hty as [<-|[<-|[<-|[]]]];
      repeat (destruct Hk as [<-|Hk]; [reflexivity|]); destruct Hk. }
  rewrite Hn, !Hs by (simpl; tauto). cbn [when].
  Phases.mnorm.
  rewrite (bind_Ret _ _ _ _ _ (has_key_present _ _ _ _ _ Hd Hmin)). cbn [when].
  Phases.mnorm.
  rewrite (bind_Ret _ _ _ _ _ (item_dict _ _ _ _ _ Hd Hmin)).
  rewrite (bind_Ret _ _ _ _ _ (try_compare_text rt OpLt x m _ _ s)).
  cbv beta. set (s1 := mkState (st_heap s) _).
  assert (Hd1 : Py.as_dict (st_heap s1) schema = Some d) by exact Hd.
  Phases.mnorm. rewrite (bind_Ret _ _ _ _ _ (has_key_present _ _ _ _ _ Hd1 Hmax)). cbn [when].
  Phases.mnorm.
  rewrite (bind_Ret _ _ _ _ _ (item_dict _ _ _ _ _ Hd1 Hmax)).
  rewrite (bind_Ret _ _ _ _ _ (try_compare_text rt OpGt x M _ _ s1)).
  cbv beta. set (s2 := mkState (st_heap s1) _).
  assert (Hd2 : Py.as_dict (st_heap s2) schema = Some d) by exact Hd.
  repeat Phases.skip_absent Hd2 L.
  unfold s2, s1, text_bounds. cbn [st_heap st_errors ret].
  unfold ret. rewrite <- app_assoc.
  destruct (x ?= m)%string, (x ?= M)%string; reflexivity.
Qed.

(** A runtime whose [int] reads the numerals of a table. *)
Definition reading_runtime (ints : list (string * Z)) : Runtime := {|
  rt_re_compile := fun _ => Some ReError;
  rt_re_match := fun _ _ => false;
  rt_re_search := fun _ _ => false;
  rt_int := Imports.assoc ints;
  rt_float_ok := fun _ => false;
  rt_uuid_ok := fun _ => false;
  rt_url_scheme := fun _ => None;
  rt_order_lists := fun _ _ _ _ => None;
  rt_mod_nonzero := fun _ _ _ => None;
  rt_load_file := fun _ => None
|}.

End Addins.

(** X8.  Bounds of string-encoded numbers are compared as text.  Under
    a root that enables the validation add-in, for a schema of type
    int64, uint64 or decimal with string [minimum] and [maximum], and
    an instance string that passes the type check, [validate_instance]
    reports "less than minimum" exactly when the instance string
    precedes the minimum string in lexicographic order, and "greater
    than maximum" exactly when it follows the maximum string: the
    numbers the strings denote play no part. *)
Theorem string_encoded_bounds_compare_as_text (rt : Runtime) (root : val)
    (fuel : nat) (schema : val) (x m M ty path : string) (s : state)
    (d rd : pydict) :
  Py.as_dict (st_heap s) root = Some rd ->
  Dict.get rd "$schema" <> Some (VStr Instance.EXTENDED_META) ->
  Addins.validating (st_heap s) rd ->
  Py.as_dict (st_heap s) schema = Some d ->
  Typed.direct d ty -> In ty Addins.text_tags ->
  Dict.get d "minimum" = Some (VStr m) ->
  Dict.get d "maximum" = Some (VStr M) ->
  Phases.lacks d ["exclusiveMinimum"; "exclusiveMaximum"; "multipleOf";
                  "const"; "enum"] ->
  Scalars.str_diags rt ty path x = [] ->
  Instance.validate_instance rt root (S fuel) (VStr x) schema path s =
  Ret tt (mkState (st_heap s) (st_errors s ++ Addins.text_bounds path x m M)) /\
  (In (ELessThanMinimum path (VStr m)) (Addins.text_bounds path x m M) <->
   String.compare x m = Lt) /\
  (In (EGreaterThanMaximum path (VStr M)) (Addins.text_bounds path x m M) <->
   String.compare x M = Gt).
Proof.
  intros Hr Hm Hv Hd Hdir Hty Hmin Hmax L Hok. split.
  - assert (Hq : Refs.quiet (st_heap s) root (VStr x)).
    { split; [exists rd; auto | intros di Hdi; discriminate]. }
    rewrite (Typed.direct_run rt root fuel (VStr x) schema ty path s d rd Hq Hr
               (Addins.validating_uses_ok _ _ Hv) Hd Hdir eq_refl).
    assert (Hin : In ty Plain.handled_types).
    { simpl in Hty. destruct Hty as [<-|[<-|[<-|[]]]]; simpl; tauto. }
    rewrite (bind_Ret _ _ _ _ _
               (Scalars.validate_type_str rt _ ty schema x path s Hin
                  ltac:(intros ->; simpl in Hty; intuition discriminate))).
    rewrite Hok, app_nil_r.
    replace (mkState (st_heap s) (st_errors s)) with s by now destruct s.
    apply (Addins.after_type_addins rt root _ schema (VStr x) path s d rd Hr Hv Hd).
    + intros k Hk. apply L. simpl in Hk |- *. tauto.
    + destruct Hdir as (Ht & _). apply (Addins.addins_text rt _ schema x m M ty path s d);
        auto. intros k Hk. apply L. simpl in Hk |- *. tauto.
    + now intros s' [= <-].
  - unfold Addins.text_bounds. split.
    + destruct (x ?= m)%string, (x ?= M)%string; simpl; split;
        intros H; try discriminate; try tauto;
        repeat (destruct H as [H|H]; try discriminate H); try tauto.
    + destruct (x ?= m)%string, (x ?= M)%string; simpl; split;
        intros H; try discriminate; try tauto;
        repeat (destruct H as [H|H]; try discriminate H); try tauto.
Qed.

(** The schema [{"$uses": ["JSONStructureValidation"], "type": "int64",
    "minimum": "1", "maximum": "10"}] and the instance ["5"]: five is
    reported greater than the maximum ten. *)
Lemma string_encoded_bounds_compare_as_text_witness :
  let doc := JObj [("$uses", JArr [JStr "JSONStructureValidation"]);
                   ("type", JStr "int64");
                   ("minimum", JStr "1"); ("maximum", JStr "10")] in
  let s := snd (loaded doc) in
  let rt := Addins.reading_runtime [("5", 5)] in
  errors_of (Instance.validate_instance rt (VRef 1) 1 (VStr "5") (VRef 1) "#" s) =
  Some [EGreaterThanMaximum "#" (VStr "10")].
Proof.
  cbv zeta.
  edestruct string_encoded_bounds_compare_as_text
    with (rt := Addins.reading_runtime [("5", 5)]) (root := VRef 1) (fuel := 0%nat)
         (schema := VRef 1) (x := "5") (m := "1") (M := "10") (ty := "int64")
         (path := "#")
         (s := snd (loaded (JObj [("$uses", JArr [JStr "JSONStructureValidation"]);
                                  ("type", JStr "int64");
                                  ("minimum", JStr "1"); ("maximum", JStr "10")])))
    as [E _].
  - reflexivity.
  - discriminate.
  - exists (VRef 0), [VStr "JSONStructureValidation"].
    split; [reflexivity|]. split; [reflexivity|]. simpl. tauto.
  - reflexivity.
  - apply Typed.directb_direct. reflexivity.
  - simpl. tauto.
  - reflexivity.
  - reflexivity.
  - apply Phases.lacksb_lacks. reflexivity.
  - reflexivity.
  - rewrite E. reflexivity.
Defined.

(** ** Bounds that the validation add-in does not apply *)

Module Bounds.

(** A bound that is not the Boolean [True]. *)
Definition not_true (o : option val) : Prop := default VNone o <> VBool true.

Lemma addins_exclusive (rt : Runtime) (rec : val -> val -> string -> M unit)
    (schema instance : val) (ty path : string) (s : state) (d : pydict) :
  Py.as_dict (st_heap s) schema = Some d ->
  Dict.get d "type" = Some (VStr ty) -> In ty Plain.numeric_tags ->
  not_true (Dict.get d "exclusiveMinimum") ->
  not_true (Dict.get d "exclusiveMaximum") ->
  Phases.lacks d ["minimum"; "maximum"; "multipleOf"] ->
  Instance._validate_validation_addins rt rec schema instance path s = Ret tt s.
Proof.
  intros Hd Ht Hty Hxmin Hxmax L. unfold Instance._validate_validation_addins.
  rewrite (bind_Ret _ _ _ _ _ (get_present _ _ _ _ _ Hd Ht)).
  assert (Hn : Instance.str_in (VStr ty) Instance.numeric_types = true).
  { simpl in Hty. repeat (destruct Hty as [<-|Hty]; [reflexivity|]). destruct Hty. }
  assert (Hs : forall k, In k ["string"; "array"; "object"; "map"] ->
                         Instance.str_is (VStr ty) k = false).
  { simpl in Hty. intros k Hk. simpl in Hk.
    repeat (destruct Hty as [<-|Hty];
            [repeat (destruct Hk as [<-|Hk]; [reflexivity|]); destruct Hk|]).
    destruct Hty. }
  rewrite Hn, !Hs by (simpl; tauto). cbn [when].
  repeat Phases.skip_absent Hd L.
  rewrite (bind_Ret _ _ _ _ _ (get_dict _ _ _ _ Hd)).
  assert (E1 : match default VNone (Dict.get d "exclusiveMinimum") with
               | VBool true => true | _ => false end = false).
  { unfold not_true in Hxmin.
    destruct (default VNone (Dict.get d "exclusiveMinimum")) as [|[|]| | | |];
      congruence. }
  rewrite E1. cbn [when]. Phases.mnorm.
  rewrite (bind_Ret _ _ _ _ _ (get_dict _ _ _ _ Hd)).
  assert (E2 : match default VNone (Dict.get d "exclusiveMaximum") with
               | VBool true => true | _ => false end = false).
  { unfold not_true in Hxmax.
    destruct (default VNone (Dict.get d "exclusiveMaximum")) as [|[|]| | | |];
      congruence. }
  rewrite E2. cbn [when]. Phases.mnorm.
  repeat Phases.skip_absent Hd L. reflexivity.
Qed.

(** A value without a length: [len] raises [TypeError]. *)
Definition unsized (v : val) : Prop :=
  match v with VStr _ | VRef _ => False | _ => True end.

Lemma addins_length (rt : Runtime) (rec : val -> val -> string -> M unit)
    (schema instance : val) (path : string) (s : state) (d : pydict) :
  Py.as_dict (st_heap s) schema = Some d ->
  Dict.get d "type" = Some (VStr "string") ->
  Dict.get d "minLength" <> None \/ Dict.get d "maxLength" <> None ->
  unsized instance ->
  Instance._validate_validation_addins rt rec schema instance path s = Exn TypeError s.
Proof.
  intros Hd Ht Hl Hi. unfold Instance._validate_validation_addins.
  rewrite (bind_Ret _ _ _ _ _ (get_present _ _ _ _ _ Hd Ht)).
  change (Instance.str_in (VStr "string") Instance.numeric_types) with false.
  change (Instance.str_is (VStr "string") "string") with true.
  cbn [when]. Phases.mnorm.
  assert (Hlen : forall {B} (k : nat -> M B), (let* n := Py.len instance in k n) s
                                             = Exn TypeError s).
  { intros B k. apply bind_Exn. destruct instance; try reflexivity; destruct Hi. }
  rewrite (bind_Ret _ _ _ _ _ (has_key_dict _ _ _ _ Hd)).
  unfold Dict.mem. destruct (Dict.get d "minLength") as [m|] eqn:Em; cbn [when].
  - Phases.mnorm. apply Hlen.
  - Phases.mnorm. rewrite (bind_Ret _ _ _ _ _ (has_key_dict _ _ _ _ Hd)).
    unfold Dict.mem. destruct (Dict.get d "maxLength") as [m|] eqn:EM; cbn [when].
    + Phases.mnorm. apply Hlen.
    + destruct Hl as [Hl|Hl]; now destruct Hl.
Qed.

End Bounds.

(** X9.  Numeric exclusive bounds are not enforced.  The add-in reads
    [exclusiveMinimum] and [exclusiveMaximum] only when they are the
    Boolean [true], as modifiers of [minimum] and [maximum].  Under a
    root that enables the validation add-in, for a schema of a numeric
    type whose [exclusiveMinimum] and [exclusiveMaximum] are anything
    else (a number, say) and that has no [minimum], [maximum] or
    [multipleOf], every integer instance gets what the type check
    alone gives it: no bound is reported. *)
Theorem numeric_exclusive_bounds_are_not_enforced (rt : Runtime) (root : val)
    (fuel : nat) (schema : val) (z : Z) (ty path : string) (s : state)
    (d rd : pydict) :
  Py.as_dict (st_heap s) root = Some rd ->
  Dict.get rd "$schema" <> Some (VStr Instance.EXTENDED_META) ->
  Addins.validating (st_heap s) rd ->
  Py.as_dict (st_heap s) schema = Some d ->
  Typed.direct d ty -> In ty Plain.numeric_tags ->
  Bounds.not_true (Dict.get d "exclusiveMinimum") ->
  Bounds.not_true (Dict.get d "exclusiveMaximum") ->
  Phases.lacks d ["minimum"; "maximum"; "multipleOf"; "const"; "enum"] ->
  Instance.validate_instance rt root (S fuel) (VInt z) schema path s =
  Ret tt (mkState (st_heap s) (st_errors s ++ Plain.int_diags ty path z)).
Proof.
  intros Hr Hm Hv Hd Hdir Hty Hxmin Hxmax L.
  assert (Hq : Refs.quiet (st_heap s) root (VInt z)).
  { split; [exists rd; auto | intros di Hdi; discriminate]. }
  rewrite (Typed.direct_run rt root fuel (VInt z) schema ty path s d rd Hq Hr
             (Addins.validating_uses_ok _ _ Hv) Hd Hdir eq_refl).
  rewrite (bind_Ret _ _ _ _ _ (Plain.validate_type_int rt _ ty schema z path s Hty)).
  set (s1 := mkState _ _).
  apply (Addins.after_type_addins rt root _ schema (VInt z) path s1 d rd Hr Hv Hd).
  - intros k Hk. apply L. simpl in Hk |- *. tauto.
  - destruct Hdir as (Ht & _).
    apply (Bounds.addins_exclusive rt _ schema (VInt z) ty path s1 d); auto.
    intros k Hk. apply L. simpl in Hk |- *. tauto.
  - now intros s' [= <-].
Qed.

(** The schema [{"$uses": ["JSONStructureValidation"], "type": "number",
    "exclusiveMinimum": 10}] and the instance [3]. *)
Lemma numeric_exclusive_bounds_are_not_enforced_witness :
  let doc := JObj [("$uses", JArr [JStr "JSONStructureValidation"]);
                   ("type", JStr "number"); ("exclusiveMinimum", JInt 10)] in
  let s := snd (loaded doc) in
  errors_of (Instance.validate_instance offline_runtime (VRef 1) 1 (VInt 3) (VRef 1)
               "#" s) = Some [].
Proof.
  cbv zeta.
  erewrite numeric_exclusive_bounds_are_not_enforced with (ty := "number").
  - reflexivity.
  - reflexivity.
  - discriminate.
  - exists (VRef 0), [VStr "JSONStructureValidation"].
    split; [reflexivity|]. split; [reflexivity|]. simpl. tauto.
  - reflexivity.
  - apply Typed.directb_direct. reflexivity.
  - simpl. tauto.
  - discriminate.
  - discriminate.
  - apply Phases.lacksb_lacks. reflexivity.
Defined.

(** X10.  Length bounds raise on instances that are not strings.
    Under a root that enables the validation add-in, for a schema of
    type "string" with [minLength] or [maxLength], an instance that is
    [None], a Boolean or a number gets the diagnostic of the type
    check, and then [validate_instance] ends with a [TypeError] (from
    [len(instance)]) instead of returning its diagnostics. *)
Theorem length_bounds_raise_on_non_strings (rt : Runtime) (root : val)
    (fuel : nat) (schema instance : val) (path : string) (s : state)
    (d rd : pydict) :
  Py.as_dict (st_heap s) root = Some rd ->
  Dict.get rd "$schema" <> Some (VStr Instance.EXTENDED_META) ->
  Addins.validating (st_heap s) rd ->
  Py.as_dict (st_heap s) schema = Some d ->
  Typed.direct d "string" ->
  Dict.get d "minLength" <> None \/ Dict.get d "maxLength" <> None ->
  Phases.lacks d ["const"; "enum"] ->
  Bounds.unsized instance ->
  Instance.validate_instance rt root (S fuel) instance schema path s =
  Exn TypeError
    (mkState (st_heap s)
       (st_errors s ++ [EExpected "string" path (Py.type_name (st_heap s) instance)])).
Proof.
  intros Hr Hm Hv Hd Hdir Hl L Hi.
  assert (Hnd : Py.is_dict (st_heap s) instance = false).
  { destruct instance; try reflexivity; destruct Hi. }
  assert (Hq : Refs.quiet (st_heap s) root instance).
  { split; [exists rd; auto|]. intros di Hdi. unfold Py.is_dict in Hnd.
    now rewrite Hdi in Hnd. }
  rewrite (Typed.direct_run rt root fuel instance schema "string" path s d rd Hq Hr
             (Addins.validating_uses_ok _ _ Hv) Hd Hdir Hnd).
  assert (Et : Instance.validate_type rt (Instance.validate_instance rt root fuel)
                 "string" schema instance path s =
               Ret tt (mkState (st_heap s)
                         (st_errors s ++
                          [EExpected "string" path (Py.type_name (st_heap s) instance)]))).
  { destruct instance; try reflexivity; destruct Hi. }
  rewrite (bind_Ret _ _ _ _ _ Et). set (s1 := mkState _ _).
  apply (Addins.after_type_addins rt root _ schema instance path s1 d rd Hr Hv Hd L).
  - destruct Hdir as (Ht & _).
    apply (Bounds.addins_length rt _ schema instance path s1 d); auto.
  - discriminate.
Qed.

(** The schema [{"$uses": ["JSONStructureValidation"], "type": "string",
    "minLength": 1}] and the instance [5]. *)
Lemma length_bounds_raise_on_non_strings_witness :
  let doc := JObj [("$uses", JArr [JStr "JSONStructureValidation"]);
                   ("type", JStr "string"); ("minLength", JInt 1)] in
  let s := snd (loaded doc) in
  exists s',
    Instance.validate_instance offline_runtime (VRef 1) 1 (VInt 5) (VRef 1) "#" s =
    Exn TypeError s' /\
    st_errors s' = [EExpected "string" "#" "int"].
Proof.
  cbv zeta. eexists. split.
  - eapply length_bounds_raise_on_non_strings.
    + reflexivity.
    + discriminate.
    + exists (VRef 0), [VStr "JSONStructureValidation"].
      split; [reflexivity|]. split; [reflexivity|]. simpl. tauto.
    + reflexivity.
    + apply Typed.directb_direct. reflexivity.
    + left. discriminate.
    + apply Phases.lacksb_lacks. reflexivity.
    + exact I.
  - reflexivity.
Defined.

(** * The schema validator

    [JSONStructureSchemaCoreValidator]: the checks of [validate] on a
    document, with the diagnostics that [_err] appends.  The code that
    the two validators share ([_process_imports],
    [_fetch_external_schema], [_check_json_pointer],
    [_check_enabled_extensions]) is that of [Imports] and [Schema]
    above, run on the store of this validator. *)

Module SV.

(** ** Diagnostics

    What [_err(message, location)] is called with: the text of the
    message as the f-string of the source gives it; for the two
    messages that end with the text of a [re.error], the text before
    it and the pattern that does not compile; or a diagnostic of the
    shared code. *)
Inductive msg :=
| Text (t : string)
| RegexError (t pattern : string)
| Core (d : diag).

(** One entry of [self.errors]: the message, then
    [(Line: l, Column: c)] when [_locate(location)] gives [(l, c)],
    and [(Location: <location>, line/column unknown)] otherwise. *)
Record report := Report {
  r_msg : msg;
  r_location : string;
  r_position : option (nat * nat)
}.

(** The [location] argument of [_err] in the shared code; ["#"] is the
    default of the parameter. *)
Definition core_location (d : diag) : string :=
  match d with
  | EImportNotAllowed _ loc | EImportNotString _ loc | EImportNotAbsolute _ loc
  | EImportFetchFailed _ loc => loc
  | EImportLoadFailed _ => "#/import"
  | EPointerNotString loc | EPointerNoHash loc | EPointerSegmentNotFound _ loc
  | EPointerNonObject _ loc => loc
  | _ => "#"
  end.

(** ** [_locate]: a position in the source text *)

Definition quote : string := String (ascii_of_nat 34) EmptyString.
Definition newline : ascii := ascii_of_nat 10.

(** [text[n:]] *)
Fixpoint skip (n : nat) (text : string) : string :=
  match n, text with
  | S n', String _ t => skip n' t
  | _, _ => text
  end.

(** The first index at which [pattern] occurs in [text], counted
    from [i]. *)
Fixpoint find_at (pattern text : string) (i : nat) : option nat :=
  if PyStr.startswith pattern text then Some i
  else match text with
       | EmptyString => None
       | String _ t => find_at pattern t (S i)
       end.

(** [text.find(pattern, pos)]; [None] is [-1]. *)
Definition find (pattern text : string) (pos : nat) : option nat :=
  find_at pattern (skip pos text) pos.

(** [text.count("\n", 0, pos)] *)
Fixpoint count_newlines (text : string) (pos : nat) : nat :=
  match pos, text with
  | S p, String c t =>
      ((if Ascii.eqb c newline then 1 else 0) + count_newlines t p)%nat
  | _, _ => O
  end.

(** [text.rfind("\n", 0, pos)], for [text] from index [i] on;
    [None] is [-1]. *)
Fixpoint rfind_newline (text : string) (pos i : nat) : option nat :=
  match pos, text with
  | S p, String c t =>
      match rfind_newline t p (S i) with
      | Some j => Some j
      | None => if Ascii.eqb c newline then Some i else None
      end
  | _, _ => None
  end.

(** The loop of [_locate] over [parts], from [pos]. *)
Fixpoint locate_parts (text : string) (parts : list string) (pos : nat)
  : option nat :=
  match parts with
  | [] => Some pos
  | part :: parts' =>
      let pattern := quote +:+ PyStr.unescape part +:+ quote in
      match find pattern text pos with
      | Some found => locate_parts text parts' (found + String.length pattern)
      | None => None
      end
  end.

(** [_locate(pointer)], given [self.source_text]. *)
Definition _locate (source_text : option string) (pointer : string)
  : option (nat * nat) :=
  match source_text with
  | None => None
  | Some text =>
      if String.eqb text "" || negb (PyStr.startswith "#" pointer) then None
      else
        match locate_parts text (PyStr.split "/" (skip 1 pointer)) 0 with
        | None => None
        | Some pos =>
            let line := (count_newlines text pos + 1)%nat in
            let col := match rfind_newline text pos 0 with
                       | Some last_newline => (pos - last_newline)%nat
                       | None => (pos + 1)%nat
                       end in
            Some (line, col)
        end
  end.

(** ** The state of a validator object and its monad *)

Record vstate := mkV {
  v_heap : heap;               (* every dict and list object *)
  v_errors : list report;      (* self.errors *)
  v_enabled : gset string      (* self.enabled_extensions *)
}.

Inductive out (A : Type) :=
| Ok (a : A) (s : vstate)
| Raise (e : exn) (s : vstate)
| Loop.
Arguments Ok {A} a s.
Arguments Raise {A} e s.
Arguments Loop {A}.

Definition V (A : Type) := vstate -> out A.

Definition vret {A} (a : A) : V A := fun s => Ok a s.

Definition vbind {A B} (m : V A) (k : A -> V B) : V B :=
  fun s => match m s with
           | Ok a s' => k a s'
           | Raise e s' => Raise e s'
           | Loop => Loop
           end.

Notation "'let+' x ':=' m 'in' k" := (vbind m (fun x => k))
  (at level 10, x name, m at level 100, k at level 200).
Notation "m ';+' k" := (vbind m (fun _ => k))
  (at level 100, k at level 200, right associativity).

Definition vwhen (b : bool) (m : V unit) : V unit := if b then m else vret tt.

Definition forever {A} : V A := fun _ => Loop.

(** [raise e] *)
Definition vraise {A} (e : exn) : V A := fun s => Raise e s.

Definition get_store : V heap := fun s => Ok (v_heap s) s.
Definition get_enabled : V (gset string) := fun s => Ok (v_enabled s) s.
Definition set_enabled (e : gset string) : V unit :=
  fun s => Ok tt (mkV (v_heap s) (v_errors s) e).
(** [self.errors = []] *)
Definition reset_errors : V unit :=
  fun s => Ok tt (mkV (v_heap s) [] (v_enabled s)).

(** [for x in xs: body x], over a list that is already a Rocq value. *)
Fixpoint vfor_each {A} (xs : list A) (body : A -> V unit) : V unit :=
  match xs with
  | [] => vret tt
  | x :: xs' => body x ;+ vfor_each xs' body
  end.

Section Validator.

(** [self.source_text] *)
Context (source_text : option string).

(** [_err(message, location)] *)
Definition _err (message : msg) (location : string) : V unit :=
  fun s => Ok tt (mkV (v_heap s)
                    (v_errors s ++
                     [Report message location (_locate source_text location)])
                    (v_enabled s)).

Definition say (t : string) (location : string) : V unit := _err (Text t) location.

(** A step of the shared code: it runs on the store, and what it
    appends to its buffer goes through [_err]. *)
Definition lift {A} (m : M A) : V A :=
  fun s =>
    let reports (es : list diag) :=
      v_errors s ++
      map (fun d => Report (Core d) (core_location d)
                      (_locate source_text (core_location d))) es in
    match m (mkState (v_heap s) []) with
    | Ret a s' => Ok a (mkV (st_heap s') (reports (st_errors s')) (v_enabled s))
    | Exn e s' => Raise e (mkV (st_heap s') (reports (st_errors s')) (v_enabled s))
    | Diverge => Loop
    end.

(** A [for] loop over an iterator of the store. *)
Fixpoint vloop {A} (next : nat -> M (option A)) (i rest : nat)
    (body : A -> V unit) : V unit :=
  let+ x := lift (next i) in
  match x, rest with
  | Some a, S r => body a ;+ vloop next (S i) r body
  | _, _ => vret tt
  end.

(** [for k, v in d.items(): ...] *)
Definition for_items (v : val) (body : string -> val -> V unit) : V unit :=
  let+ it := lift (Iter.items v) in
  vloop (snd it) 0 (fst it) (fun kv => body (fst kv) (snd kv)).

(** [for i, x in enumerate(v): ...] *)
Definition for_enum (v : val) (body : nat -> val -> V unit) : V unit :=
  let+ it := lift (Iter.enum v) in
  vloop (snd it) 0 (fst it) (fun ix => body (fst ix) (snd ix)).

(** [isinstance(v, dict)], [isinstance(v, list)], ["k" in v], [v[k]] *)
Definition is_dict (v : val) : V bool :=
  let+ h := get_store in vret (Py.is_dict h v).
Definition is_list (v : val) : V bool :=
  let+ h := get_store in vret (Py.is_list h v).
Definition has_key (k : string) (v : val) : V bool := lift (Py.has_key k v).
Definition item (v : val) (k : string) : V val := lift (Py.item v k).

(** [self.extended], [self.allow_import], [self.import_map], the
    flag [allow_dollar] of the constructor *)
Context (rt : Runtime).
Context (allow_dollar allow_import extended : bool).
Context (import_map : list (string * string)).

(** [COMPOSITION_KEYWORDS] and the union [all_validation_keywords] are
    Python sets of strings: the order in which a [for] loop yields
    their elements is not fixed by the source. *)
Context (composition_order validation_order : list string).

Definition COMPOSITION_KEYWORDS : list string :=
  ["allOf"; "anyOf"; "oneOf"; "not"; "if"; "then"; "else"].

Definition NUMERIC_VALIDATION_KEYWORDS : list string :=
  ["minimum"; "maximum"; "exclusiveMinimum"; "exclusiveMaximum"; "multipleOf"].
Definition STRING_VALIDATION_KEYWORDS : list string :=
  ["minLength"; "pattern"; "format"].
Definition ARRAY_VALIDATION_KEYWORDS : list string :=
  ["minItems"; "maxItems"; "uniqueItems"; "contains"; "minContains"; "maxContains"].
Definition OBJECT_VALIDATION_KEYWORDS : list string :=
  ["minProperties"; "maxProperties"; "minEntries"; "maxEntries";
   "dependentRequired"; "patternProperties"; "patternKeys";
   "propertyNames"; "keyNames"; "has"].

(** [all_validation_keywords] of [_check_extended_validation_keywords] *)
Definition all_validation_keywords : list string :=
  NUMERIC_VALIDATION_KEYWORDS ++ STRING_VALIDATION_KEYWORDS ++
  ARRAY_VALIDATION_KEYWORDS ++ OBJECT_VALIDATION_KEYWORDS ++ ["default"].

Definition VALID_FORMATS : list string :=
  ["ipv4"; "ipv6"; "email"; "idn-email"; "hostname"; "idn-hostname";
   "iri"; "iri-reference"; "uri-template"; "relative-json-pointer"; "regex"].

(** [self.identifier_regex.match(s)]: [^[A-Za-z_][A-Za-z0-9_]*$], with
    [$] in both classes under [allow_dollar]; the final [$] of the
    pattern also matches before a newline that ends the string. *)
Definition ident_start (c : ascii) : bool :=
  let n := nat_of_ascii c in
  (Imports.is_alpha c || (n =? 95) || allow_dollar && (n =? 36))%nat.

Definition ident_char (c : ascii) : bool :=
  let n := nat_of_ascii c in
  (ident_start c || (48 <=? n) && (n <=? 57))%nat.

Fixpoint ident_rest (s : string) : bool :=
  match s with
  | EmptyString => true
  | String c t =>
      if ident_char c then ident_rest t
      else Ascii.eqb c newline && String.eqb t ""
  end.

Definition identifier (s : string) : bool :=
  match s with
  | String c t => ident_start c && ident_rest t
  | EmptyString => false
  end.

(** [s.replace(old, new)] for a non-empty [old]: left to right,
    non-overlapping; [over] counts the characters of a match still to
    be passed over. *)
Fixpoint replace_from (old new s : string) (over : nat) : string :=
  match s with
  | EmptyString => EmptyString
  | String c t =>
      match over with
      | S k => replace_from old new t k
      | O =>
          if PyStr.startswith old s
          then new +:+ replace_from old new t (String.length old - 1)
          else String c (replace_from old new t 0)
      end
  end.

Definition replace (old new s : string) : string := replace_from old new s 0.

(** [val <= 0] and [val < 0] for an [int], [bool] or [float]. *)
Definition compares_zero (op : cmp_op) (v : val) : bool :=
  match Py.as_num v with
  | Some x =>
      match Py.num_compare x (Py.NInt 0) with
      | Some c => Order.of_comparison op c
      | None => false
      end
  | None => false
  end.

(** [not isinstance(val, int) or val < 0] *)
Definition not_natural (v : val) : bool :=
  negb (Py.is_int v) || compares_zero OpLt v.

(** [try: re.compile(pattern) except re.error as e: handler]: an
    exception that is not [re.error] leaves the function. *)
Definition compile_or (pattern : string) (handler : V unit) : V unit :=
  match rt_re_compile rt pattern with
  | None => vret tt
  | Some ReError => handler
  | Some e => vraise e
  end.

(** [self.doc] *)
Context (doc : val).

(** [_check_json_pointer(pointer, self.doc, path)] *)
Definition _check_json_pointer (pointer : val) (path : string) : V unit :=
  lift (Schema._check_json_pointer pointer doc path).

(** [_check_uses(uses, path)] *)
Definition _check_uses (uses : val) (path : string) : V unit :=
  let+ l := is_list uses in
  if negb l then say "$uses must be an array." path
  else
    for_enum uses (fun idx ext =>
      let location := path +:+ "[" +:+ pretty idx +:+ "]" in
      match ext with
      | VStr e =>
          vwhen (extended && negb (bool_decide (e ∈ Schema.KNOWN_EXTENSIONS)))
                (say ("Unknown extension '" +:+ e +:+ "' in $uses.") location)
      | _ => say ("$uses[" +:+ pretty idx +:+ "] must be a string.") location
      end).

(** [_check_required_top_level_keywords(obj, location)] *)
Definition _check_required_top_level_keywords (obj : val) (location : string)
  : V unit :=
  let+ has_schema := has_key "$schema" obj in
  vwhen (negb has_schema)
        (say "Missing required '$schema' keyword at root." location) ;+
  let+ has_id := has_key "$id" obj in
  vwhen (negb has_id) (say "Missing required '$id' keyword at root." location).

(** [_check_is_absolute_uri(value, keyword_name, location)] *)
Definition _check_is_absolute_uri (value : val) (keyword_name location : string)
  : V unit :=
  match value with
  | VStr s =>
      vwhen (negb (Imports.ABSOLUTE_URI_REGEX s))
            (say ("'" +:+ keyword_name +:+ "' must be an absolute URI.") location)
  | _ => say ("'" +:+ keyword_name +:+ "' must be a string.") location
  end.

(** [any(key in obj for key in keys)] *)
Fixpoint any_key (keys : list string) (obj : val) : V bool :=
  match keys with
  | [] => vret false
  | key :: keys' =>
      let+ b := has_key key obj in
      if b then vret true else any_key keys' obj
  end.

(** [_has_composition_keywords(obj)] *)
Definition _has_composition_keywords (obj : val) : V bool :=
  any_key composition_order obj.

(** ["type" in obj and isinstance(obj["type"], str)]: the string. *)
Definition type_string (obj : val) : V (option string) :=
  let+ has_type := has_key "type" obj in
  if has_type then
    let+ t := item obj "type" in
    vret (match t with VStr s => Some s | _ => None end)
  else vret None.

(** [_check_union_type_item(union_item, path)] *)
Definition _check_union_type_item (union_item : val) (path : string) : V unit :=
  match union_item with
  | VStr t =>
      vwhen (negb (Types.recognized t))
            (say ("'" +:+ t +:+ "' not recognized as a valid type name.") path) ;+
      vwhen (existsb (String.eqb t) Types.COMPOUND_TYPES)
            (say ("Inline compound type '" +:+ t +:+
                  "' is not permitted in a union. Must use a $ref.") path)
  | _ =>
      let+ d := is_dict union_item in
      if d then
        let+ has_ref := has_key "$ref" union_item in
        if negb has_ref then
          say "Inline compound definitions not allowed in union. Must be a $ref." path
        else
          let+ r := item union_item "$ref" in
          _check_json_pointer r (path +:+ "/$ref")
      else say "Union item must be a string or an object with $ref." path
  end.

(** [_check_numeric_validation(obj, path, type_name)] *)
Definition _check_numeric_validation (obj : val) (path type_name : string)
  : V unit :=
  let expects_string :=
    existsb (String.eqb type_name)
            ["int64"; "uint64"; "int128"; "uint128"; "decimal"] in
  vfor_each ["minimum"; "maximum"; "exclusiveMinimum"; "exclusiveMaximum";
             "multipleOf"]
    (fun key =>
       let location := path +:+ "/" +:+ key in
       let+ has := has_key key obj in
       vwhen has (
         let+ v := item obj key in
         if expects_string then
           vwhen (negb (Py.is_str v))
                 (say ("'" +:+ key +:+ "' for type '" +:+ type_name +:+
                       "' must be a string.") location)
         else if negb (Py.is_int_or_float v) then
           say ("'" +:+ key +:+ "' must be a number.") location
         else
           vwhen (String.eqb key "multipleOf" && compares_zero OpLe v)
                 (say "'multipleOf' must be a positive number." location))).

(** [_check_string_validation(obj, path)] *)
Definition _check_string_validation (obj : val) (path : string) : V unit :=
  let+ has_min := has_key "minLength" obj in
  vwhen has_min (
    let+ v := item obj "minLength" in
    vwhen (not_natural v)
          (say "'minLength' must be a non-negative integer."
               (path +:+ "/minLength"))) ;+
  let+ has_pattern := has_key "pattern" obj in
  vwhen has_pattern (
    let+ v := item obj "pattern" in
    match v with
    | VStr p =>
        compile_or p
          (_err (RegexError "'pattern' is not a valid regular expression: " p)
                (path +:+ "/pattern"))
    | _ => say "'pattern' must be a string." (path +:+ "/pattern")
    end) ;+
  let+ has_format := has_key "format" obj in
  vwhen has_format (
    let+ v := item obj "format" in
    match v with
    | VStr f =>
        vwhen (negb (existsb (String.eqb f) VALID_FORMATS))
              (say ("Unknown format '" +:+ f +:+ "'.") (path +:+ "/format"))
    | _ => say "'format' must be a string." (path +:+ "/format")
    end).

(** [self.PRIMITIVE_TYPES], [self.COMPOUND_TYPES]: [Types]. *)

Section Recursive.

(** The recursive calls
    [self._validate_schema(schema_obj, is_root, path, name_in_namespace)];
    the body never reads [name_in_namespace]. *)
Variable rec : val -> bool -> string -> V unit.

(** [if isinstance(val, dict): self._validate_schema(val, is_root=False,
    path=path) else: self._err(message, path)] *)
Definition schema_or (v : val) (path message : string) : V unit :=
  let+ d := is_dict v in
  if d then rec v false path else say message path.

(** [_check_composition_keywords(obj, path)] *)
Definition _check_composition_keywords (obj : val) (path : string) : V unit :=
  if negb extended then vret tt
  else
    let+ enabled := get_enabled in
    if negb (bool_decide (Instance.CC ∈ enabled)) then
      vfor_each composition_order (fun key =>
        let+ has := has_key key obj in
        vwhen has (
          say ("Conditional composition keyword '" +:+ key +:+
               "' requires JSONStructureConditionalComposition extension.")
              (path +:+ "/" +:+ key)))
    else
      vfor_each ["allOf"; "anyOf"; "oneOf"] (fun key =>
        let location := path +:+ "/" +:+ key in
        let+ has := has_key key obj in
        vwhen has (
          let+ v := item obj key in
          let+ l := is_list v in
          if negb l then say ("'" +:+ key +:+ "' must be an array.") location
          else
            let+ n := lift (Py.len v) in
            if Nat.eqb n 0 then
              say ("'" +:+ key +:+ "' array cannot be empty.") location
            else
              for_enum v (fun idx it =>
                schema_or it (location +:+ "[" +:+ pretty idx +:+ "]")
                  ("'" +:+ key +:+ "' array items must be schema objects.")))) ;+
      let+ has_not := has_key "not" obj in
      vwhen has_not (
        let+ v := item obj "not" in
        schema_or v (path +:+ "/not") "'not' must be a schema object.") ;+
      vfor_each ["if"; "then"; "else"] (fun key =>
        let+ has := has_key key obj in
        vwhen has (
          let+ v := item obj key in
          schema_or v (path +:+ "/" +:+ key)
            ("'" +:+ key +:+ "' must be a schema object."))).

(** [_check_array_validation(obj, path, type_name)] *)
Definition _check_array_validation (obj : val) (path type_name : string)
  : V unit :=
  vfor_each ["minItems"; "maxItems"] (fun key =>
    let+ has := has_key key obj in
    vwhen has (
      let+ v := item obj key in
      vwhen (not_natural v)
            (say ("'" +:+ key +:+ "' must be a non-negative integer.")
                 (path +:+ "/" +:+ key)))) ;+
  let+ has_unique := has_key "uniqueItems" obj in
  vwhen has_unique (
    let+ v := item obj "uniqueItems" in
    match v with
    | VBool b =>
        vwhen (String.eqb type_name "set" && negb b)
              (say "'uniqueItems' cannot be false for 'set' type."
                   (path +:+ "/uniqueItems"))
    | _ => say "'uniqueItems' must be a boolean." (path +:+ "/uniqueItems")
    end) ;+
  let+ has_contains := has_key "contains" obj in
  vwhen has_contains (
    let+ v := item obj "contains" in
    schema_or v (path +:+ "/contains") "'contains' must be a schema object.") ;+
  vfor_each ["minContains"; "maxContains"] (fun key =>
    let location := path +:+ "/" +:+ key in
    let+ has := has_key key obj in
    vwhen has (
      let+ v := item obj key in
      vwhen (not_natural v)
            (say ("'" +:+ key +:+ "' must be a non-negative integer.") location) ;+
      let+ has_contains := has_key "contains" obj in
      vwhen (negb has_contains)
            (say ("'" +:+ key +:+ "' requires 'contains' to be present.")
                 location))).

(** The loop of [_check_object_validation] over [patternProperties]
    and [patternKeys], and the one over [propertyNames] and
    [keyNames]: the message for the keyword of the other type. *)
Definition wrong_keyword (type_name key for_map for_object : string)
    (location : string) : V unit :=
  if String.eqb type_name "map" && String.eqb key for_object then
    say ("Use '" +:+ for_map +:+ "' for map type instead of '" +:+ for_object +:+
         "'.") location
  else
    vwhen (String.eqb type_name "object" && String.eqb key for_map)
          (say ("Use '" +:+ for_object +:+ "' for object type instead of '" +:+
                for_map +:+ "'.") location).

(** [_check_object_validation(obj, path, type_name)] *)
Definition _check_object_validation (obj : val) (path type_name : string)
  : V unit :=
  let min_key := if String.eqb type_name "map" then "minEntries" else "minProperties" in
  let max_key := if String.eqb type_name "map" then "maxEntries" else "maxProperties" in
  vfor_each [min_key; max_key; "minProperties"; "maxProperties";
             "minEntries"; "maxEntries"]
    (fun key =>
       let location := path +:+ "/" +:+ key in
       let+ has := has_key key obj in
       vwhen has (
         (if String.eqb type_name "map" &&
             existsb (String.eqb key) ["minProperties"; "maxProperties"] then
            say ("Use '" +:+ replace "Properties" "Entries" key +:+
                 "' for map type instead of '" +:+ key +:+ "'.") location
          else
            vwhen (String.eqb type_name "object" &&
                   existsb (String.eqb key) ["minEntries"; "maxEntries"])
                  (say ("Use '" +:+ replace "Entries" "Properties" key +:+
                        "' for object type instead of '" +:+ key +:+ "'.")
                       location)) ;+
         let+ v := item obj key in
         vwhen (not_natural v)
               (say ("'" +:+ key +:+ "' must be a non-negative integer.")
                    location))) ;+
  let+ has_dep := has_key "dependentRequired" obj in
  vwhen has_dep (
    let location := path +:+ "/dependentRequired" in
    if negb (String.eqb type_name "object") then
      say "'dependentRequired' only applies to object type." location
    else
      let+ v := item obj "dependentRequired" in
      let+ d := is_dict v in
      if negb d then say "'dependentRequired' must be an object." location
      else
        for_items v (fun prop deps =>
          let+ l := is_list deps in
          if negb l then
            say ("'dependentRequired/" +:+ prop +:+ "' must be an array.")
                (location +:+ "/" +:+ prop)
          else
            for_enum deps (fun idx dep =>
              vwhen (negb (Py.is_str dep))
                    (say ("'dependentRequired/" +:+ prop +:+ "[" +:+ pretty idx +:+
                          "]' must be a string.")
                         (location +:+ "/" +:+ prop +:+ "[" +:+ pretty idx +:+
                          "]"))))) ;+
  vfor_each ["patternProperties"; "patternKeys"] (fun key =>
    let location := path +:+ "/" +:+ key in
    let+ has := has_key key obj in
    vwhen has (
      wrong_keyword type_name key "patternKeys" "patternProperties" location ;+
      let+ v := item obj key in
      let+ d := is_dict v in
      if negb d then say ("'" +:+ key +:+ "' must be an object.") location
      else
        for_items v (fun pattern schema =>
          compile_or pattern
            (_err (RegexError ("'" +:+ key +:+ "/" +:+ pattern +:+
                               "' is not a valid regular expression: ") pattern)
                  (location +:+ "/" +:+ pattern)) ;+
          schema_or schema (location +:+ "/" +:+ pattern)
            ("'" +:+ key +:+ "/" +:+ pattern +:+ "' must be a schema object.")))) ;+
  vfor_each ["propertyNames"; "keyNames"] (fun key =>
    let location := path +:+ "/" +:+ key in
    let+ has := has_key key obj in
    vwhen has (
      wrong_keyword type_name key "keyNames" "propertyNames" location ;+
      let+ v := item obj key in
      let+ d := is_dict v in
      if d then
        let+ has_type := has_key "type" v in
        (if has_type then
           let+ t := item v "type" in
           let+ e := lift (Py.eq t (VStr "string")) in
           vwhen (negb e)
                 (say ("'" +:+ key +:+ "' schema must have type 'string'.") location)
         else vret tt) ;+
        rec v false location
      else say ("'" +:+ key +:+ "' must be a schema object.") location)) ;+
  let+ has_has := has_key "has" obj in
  vwhen has_has (
    let+ v := item obj "has" in
    schema_or v (path +:+ "/has") "'has' must be a schema object.").

(** [_check_extended_validation_keywords(obj, path)] *)
Definition _check_extended_validation_keywords (obj : val) (path : string)
  : V unit :=
  let+ enabled := get_enabled in
  if negb (bool_decide (Instance.VA ∈ enabled)) then
    vfor_each validation_order (fun key =>
      let+ has := has_key key obj in
      vwhen has (
        say ("Validation keyword '" +:+ key +:+
             "' requires JSONStructureValidation extension.")
            (path +:+ "/" +:+ key)))
  else
    let+ tval := lift (Py.get obj "type") in
    match tval with
    | VStr t =>
        if existsb (String.eqb t)
             ["number"; "integer"; "float"; "double"; "decimal";
              "int8"; "uint8"; "int16"; "uint16"; "int32"; "uint32";
              "int64"; "uint64"; "int128"; "uint128"; "float8"]
        then _check_numeric_validation obj path t
        else if String.eqb t "string" then _check_string_validation obj path
        else if existsb (String.eqb t) ["array"; "set"]
        then _check_array_validation obj path t
        else if existsb (String.eqb t) ["object"; "map"]
        then _check_object_validation obj path t
        else vret tt
    | _ => vret tt
    end ;+
    let+ _ := has_key "default" obj in
    vret tt.

(** The loop over [props.items()] of [_check_object_schema] and
    [_check_tuple_schema]; [label] is "Property" or "Tuple property". *)
Definition check_properties (props : val) (path label : string) : V unit :=
  for_items props (fun prop_name prop_schema =>
    let location := path +:+ "/properties/" +:+ prop_name in
    vwhen (negb (identifier prop_name))
          (say (label +:+ " key '" +:+ prop_name +:+
                "' does not match the identifier pattern.") location) ;+
    schema_or prop_schema location
      (label +:+ " '" +:+ prop_name +:+ "' must be an object (a schema).")).

(** [_check_object_schema(obj, path)] *)
Definition _check_object_schema (obj : val) (path : string) : V unit :=
  let+ has_props := has_key "properties" obj in
  let+ has_extends := if has_props then vret true else has_key "$extends" obj in
  if negb has_props && negb has_extends then
    say "Object type must have 'properties' if not extending another type."
        (path +:+ "/properties")
  else
    let+ has_props := has_key "properties" obj in
    vwhen has_props (
      let+ props := item obj "properties" in
      let+ d := is_dict props in
      if negb d then say "Properties must be an object." (path +:+ "/properties")
      else check_properties props path "Property").

(** [_check_array_schema], [_check_set_schema] and [_check_map_schema]:
    [kind] is "Array", "Set" or "Map" and [key] is "items" or
    "values". *)
Definition check_element_schema (kind key : string) (obj : val) (path : string)
  : V unit :=
  let location := path +:+ "/" +:+ key in
  let+ has := has_key key obj in
  if negb has then say (kind +:+ " type must have '" +:+ key +:+ "'.") location
  else
    let+ s := item obj key in
    schema_or s location ("'" +:+ key +:+ "' must be an object (a schema).").

Definition _check_array_schema := check_element_schema "Array" "items".
Definition _check_set_schema := check_element_schema "Set" "items".
Definition _check_map_schema := check_element_schema "Map" "values".

(** [_check_tuple_schema(obj, path)] *)
Definition _check_tuple_schema (obj : val) (path : string) : V unit :=
  let+ has_name := has_key "name" obj in
  vwhen (negb has_name)
        (say "Tuple type must include a 'name' attribute." (path +:+ "/name")) ;+
  let+ has_props := has_key "properties" obj in
  (if negb has_props then
     say "Tuple type must have 'properties'." (path +:+ "/properties")
   else
     let+ props := item obj "properties" in
     let+ d := is_dict props in
     if negb d then say "'properties' must be an object." (path +:+ "/properties")
     else check_properties props path "Tuple property") ;+
  let+ has_tuple := has_key "tuple" obj in
  if negb has_tuple then
    say "Tuple type must include the 'tuple' keyword defining the order of elements."
        (path +:+ "/tuple")
  else
    let+ tuple_order := item obj "tuple" in
    let+ l := is_list tuple_order in
    if negb l then
      say "'tuple' keyword must be an array of strings." (path +:+ "/tuple")
    else
      for_enum tuple_order (fun idx element =>
        let location := path +:+ "/tuple[" +:+ pretty idx +:+ "]" in
        match element with
        | VStr e =>
            let+ has_props := has_key "properties" obj in
            let+ known :=
              if has_props then
                let+ props := item obj "properties" in
                let+ d := is_dict props in
                if d then has_key e props else vret true
              else vret true in
            vwhen (negb known)
                  (say ("Element '" +:+ e +:+
                        "' in 'tuple' does not correspond to any property in 'properties'.")
                       location)
        | _ =>
            say ("Element at index " +:+ pretty idx +:+
                 " in 'tuple' array must be a string.") location
        end).

(** [_check_choice_schema(obj, path)]; the keys of a dict are strings,
    so the test [not isinstance(name, str)] never holds. *)
Definition _check_choice_schema (obj : val) (path : string) : V unit :=
  let+ has_choices := has_key "choices" obj in
  (if negb has_choices then
     say "Choice type must have 'choices'." (path +:+ "/choices")
   else
     let+ choices := item obj "choices" in
     let+ d := is_dict choices in
     if negb d then say "'choices' must be an object (map)." (path +:+ "/choices")
     else
       for_items choices (fun name choice_schema =>
         schema_or choice_schema (path +:+ "/choices/" +:+ name)
           ("Choice value for '" +:+ name +:+ "' must be an object (schema)."))) ;+
  let+ has_selector := has_key "selector" obj in
  vwhen has_selector (
    let+ sel := lift (Py.get obj "selector") in
    vwhen (negb (Py.is_str sel))
          (say "'selector' must be a string." (path +:+ "/selector"))).

(** [_check_primitive_schema(obj, path)]: [pass] *)
Definition _check_primitive_schema (obj : val) (path : string) : V unit := vret tt.

(** Lines 369-408 of [_validate_schema]: the value of [type]. *)
Definition check_type (schema_obj : val) (path : string) : V unit :=
  let+ tval := item schema_obj "type" in
  let+ h := get_store in
  if Py.is_list h tval then
    if negb (Py.truthy h tval) then
      say "Type union cannot be empty." (path +:+ "/type")
    else
      for_enum tval (fun idx union_item =>
        _check_union_type_item union_item
          (path +:+ "/type[" +:+ pretty idx +:+ "]"))
  else if Py.is_dict h tval then
    let+ has_ref := has_key "$ref" tval in
    if negb has_ref then
      let+ has_type := has_key "type" tval in
      let+ inline := if has_type then vret true else has_key "properties" tval in
      if inline then rec tval false (path +:+ "/type(inline)")
      else say "Type dict must have '$ref' or be a valid schema object."
               (path +:+ "/type")
    else
      let+ r := item tval "$ref" in
      _check_json_pointer r (path +:+ "/type/$ref")
  else
    match tval with
    | VStr t =>
        if negb (Types.recognized t) then
          say ("Type '" +:+ t +:+
               "' is not a recognized primitive or compound type.")
              (path +:+ "/type")
        else if String.eqb t "any" then vret tt
        else if String.eqb t "object" then _check_object_schema schema_obj path
        else if String.eqb t "array" then _check_array_schema schema_obj path
        else if String.eqb t "set" then _check_set_schema schema_obj path
        else if String.eqb t "map" then _check_map_schema schema_obj path
        else if String.eqb t "tuple" then _check_tuple_schema schema_obj path
        else if String.eqb t "choice" then _check_choice_schema schema_obj path
        else _check_primitive_schema schema_obj path
    | _ => say "Type must be a string, list, or object with $ref." (path +:+ "/type")
    end.

(** Lines 414-431 of [_validate_schema]: [required],
    [additionalProperties], [enum] and [const] against the type. *)
Definition check_keyword_placement (schema_obj : val) (path : string) : V unit :=
  vfor_each ["required"; "additionalProperties"] (fun key =>
    let+ has := has_key key schema_obj in
    vwhen has (
      let+ t := type_string schema_obj in
      match t with
      | Some t =>
          vwhen (negb (String.eqb t "object"))
                (say ("'" +:+ key +:+ "' can only appear in an object schema.")
                     (path +:+ "/" +:+ key))
      | None => vret tt
      end)) ;+
  let+ has_enum := has_key "enum" schema_obj in
  vwhen has_enum (
    let+ e := item schema_obj "enum" in
    let+ l := is_list e in
    vwhen (negb l) (say "Enum must be an array." (path +:+ "/enum")) ;+
    let+ t := type_string schema_obj in
    match t with
    | Some t =>
        vwhen (existsb (String.eqb t) Types.COMPOUND_TYPES)
              (say "'enum' cannot be used with compound types." (path +:+ "/enum"))
    | None => vret tt
    end) ;+
  let+ has_const := has_key "const" schema_obj in
  vwhen has_const (
    let+ t := type_string schema_obj in
    match t with
    | Some t =>
        vwhen (existsb (String.eqb t) Types.COMPOUND_TYPES)
              (say "'const' cannot be used with compound types." (path +:+ "/const"))
    | None => vret tt
    end).

(** The body of [_validate_schema(schema_obj, is_root, path)]. *)
Definition validate_schema_body (schema_obj : val) (is_root : bool) (path : string)
  : V unit :=
  let+ d := is_dict schema_obj in
  if negb d then say (path +:+ " must be an object to be a schema.") path
  else
    vwhen extended (_check_composition_keywords schema_obj path) ;+
    let+ unnamed :=
      if is_root then
        let+ has_type := has_key "type" schema_obj in
        if has_type then
          let+ has_name := has_key "name" schema_obj in vret (negb has_name)
        else vret false
      else vret false in
    vwhen unnamed (
      let+ t := item schema_obj "type" in
      let+ l := is_list t in
      vwhen (negb l)
            (say "Root schema with 'type' must have a 'name' property." path)) ;+
    let+ has_name := has_key "name" schema_obj in
    vwhen has_name (
      let+ name := item schema_obj "name" in
      match name with
      | VStr n =>
          vwhen (negb (identifier n))
                (say "'name' must match the identifier pattern." (path +:+ "/name"))
      | _ => say "'name' must be a string." (path +:+ "/name")
      end) ;+
    let+ has_abstract := has_key "abstract" schema_obj in
    vwhen has_abstract (
      let+ a := item schema_obj "abstract" in
      vwhen (negb (Py.is_bool a))
            (say "'abstract' keyword must be boolean." (path +:+ "/abstract"))) ;+
    let+ has_extends := has_key "$extends" schema_obj in
    vwhen has_extends (
      let+ e := item schema_obj "$extends" in
      if Py.is_str e then _check_json_pointer e (path +:+ "/$extends")
      else say "'$extends' must be a JSON pointer string." (path +:+ "/$extends")) ;+
    let+ has_type := has_key "type" schema_obj in
    let+ has_type_or_ref := if has_type then vret true else has_key "$ref" schema_obj in
    let+ has_composition :=
      if extended then _has_composition_keywords schema_obj else vret false in
    if negb has_type_or_ref && negb has_composition then
      say "Missing required 'type' or '$ref' in schema object." path
    else
      let+ has_type := has_key "type" schema_obj in
      let+ both := if has_type then has_key "$ref" schema_obj else vret false in
      if both then say "Cannot have both 'type' and '$ref'." path
      else
        let+ has_ref := has_key "$ref" schema_obj in
        if has_ref then
          let+ r := item schema_obj "$ref" in
          if Py.is_str r then _check_json_pointer r (path +:+ "/$ref")
          else say "'$ref' must be a string." (path +:+ "/$ref")
        else
          let+ has_type := has_key "type" schema_obj in
          vwhen has_type (check_type schema_obj path) ;+
          (if extended then
             let+ has_type := has_key "type" schema_obj in
             vwhen has_type (_check_extended_validation_keywords schema_obj path)
           else vret tt) ;+
          check_keyword_placement schema_obj path.

End Recursive.

(** [_validate_schema(schema_obj, is_root, path)]; [fuel] bounds the
    depth of the recursion. *)
Fixpoint _validate_schema (fuel : nat) (schema_obj : val) (is_root : bool)
    (path : string) : V unit :=
  match fuel with
  | O => forever
  | S n => validate_schema_body (_validate_schema n) schema_obj is_root path
  end.

(** [_validate_namespace(obj, path)] *)
Fixpoint _validate_namespace (fuel : nat) (obj : val) (path : string) : V unit :=
  match fuel with
  | O => forever
  | S n =>
      let+ d := is_dict obj in
      if negb d then say (path +:+ " must be an object.") path
      else
        for_items obj (fun k v =>
          let subpath := path +:+ "/" +:+ k in
          let+ vd := is_dict v in
          let+ is_schema :=
            if vd then
              let+ has_type := has_key "type" v in
              if has_type then vret true
              else
                let+ has_ref := has_key "$ref" v in
                if has_ref then vret true
                else if extended then _has_composition_keywords v
                else vret false
            else vret false in
          if is_schema then _validate_schema n v false subpath
          else if negb vd then
            say (subpath +:+ " is not a valid namespace or schema object.") subpath
          else _validate_namespace n v subpath)
  end.

(** [_check_offers(offers, path)]; the keys of a dict are strings, so
    the test [not isinstance(addin_name, str)] never holds. *)
Definition _check_offers (offers : val) (path : string) : V unit :=
  let+ d := is_dict offers in
  if negb d then say "$offers must be an object." path
  else
    for_items offers (fun addin_name addin_val =>
      let location := path +:+ "/" +:+ addin_name in
      if Py.is_str addin_val then _check_json_pointer addin_val location
      else
        let+ l := is_list addin_val in
        if l then
          for_enum addin_val (fun idx pointer =>
            let location := location +:+ "[" +:+ pretty idx +:+ "]" in
            if Py.is_str pointer then _check_json_pointer pointer location
            else
              say ("$offers/" +:+ addin_name +:+ "[" +:+ pretty idx +:+
                   "] must be a string (JSON Pointer).") location)
        else
          say ("$offers/" +:+ addin_name +:+
               " must be a string or array of strings.") location).

(** Lines 117-142 of [validate]: the checks on the document after
    import expansion and the look at the extensions. *)
Definition checks (fuel : nat) : V unit :=
  _check_required_top_level_keywords doc "#" ;+
  let+ has_schema := has_key "$schema" doc in
  vwhen has_schema (
    let+ v := item doc "$schema" in
    _check_is_absolute_uri v "$schema" "#/$schema") ;+
  let+ has_id := has_key "$id" doc in
  vwhen has_id (
    let+ v := item doc "$id" in
    _check_is_absolute_uri v "$id" "#/$id") ;+
  let+ has_uses := has_key "$uses" doc in
  vwhen has_uses (
    let+ v := item doc "$uses" in
    _check_uses v "#/$uses") ;+
  let+ has_type := has_key "type" doc in
  let+ both := if has_type then has_key "$root" doc else vret false in
  vwhen both
        (say "Document cannot have both 'type' at root and '$root' at the same time."
             "#") ;+
  let+ has_type := has_key "type" doc in
  vwhen has_type (_validate_schema fuel doc true "#") ;+
  let+ has_root := has_key "$root" doc in
  vwhen has_root (
    let+ v := item doc "$root" in
    _check_json_pointer v "#/$root") ;+
  let+ has_definitions := has_key "definitions" doc in
  vwhen has_definitions (
    let+ v := item doc "definitions" in
    let+ d := is_dict v in
    if negb d then say "definitions must be an object." "#/definitions"
    else _validate_namespace fuel v "#/definitions") ;+
  let+ has_offers := has_key "$offers" doc in
  vwhen has_offers (
    let+ v := item doc "$offers" in
    _check_offers v "#/$offers") ;+
  (if extended then
     let+ has_type := has_key "type" doc in
     vwhen (negb has_type)
           (_check_composition_keywords (_validate_schema fuel) doc "#")
   else vret tt).

(** [validate(doc, source_text)]: afterwards [self.errors] is the
    list that the call returns. *)
Definition validate (fuel : nat) : V unit :=
  reset_errors ;+
  let+ d := is_dict doc in
  if negb d then say "Root of the document must be a JSON object." "#"
  else
    lift (Schema.expand_imports rt fuel doc allow_import import_map) ;+
    vwhen extended (
      let+ enabled := get_enabled in
      let+ enabled := lift (Schema._check_enabled_extensions doc enabled) in
      set_enabled enabled) ;+
    checks fuel.

End Validator.

(** [validate_json_structure_schema_core(schema_document, source_text,
    allow_dollar, allow_import, import_map, extended)]: a new validator
    object, then [validate]. *)
Definition validate_json_structure_schema_core (rt : Runtime)
    (composition_order validation_order : list string) (fuel : nat)
    (schema_document : val) (source_text : option string)
    (allow_dollar allow_import : bool) (import_map : list (string * string))
    (extended : bool) (h : heap) : out unit :=
  validate source_text rt allow_dollar allow_import extended import_map
    composition_order validation_order schema_document fuel (mkV h [] ∅).

End SV.

(** ** The extensions that [_check_enabled_extensions] enables *)

Module Extensions.

(** A loop whose body only computes on the accumulator, over a list
    that stays as it is. *)
Lemma fold_pure {Acc} (a : addr) (l : list val) (f : Acc -> val -> Acc)
    (body : Acc -> nat * val -> M (bool * Acc)) (s : state) :
  st_heap s !! a = Some (OList l) ->
  (forall acc i x, l !! i = Some x -> body acc (i, x) s = Ret (false, f acc x) s) ->
  forall rest i acc,
    (i + rest = List.length l)%nat ->
    Iter.fold
      (fun i => let* x := Iter.list_next a (List.length l) i in ret (pair i <$> x))
      i rest body acc s
    = Ret (foldl f acc (drop i l)) s.
Proof.
  intros Ha Hbody. induction rest as [|r IH]; intros i acc Hi; cbn [Iter.fold];
    rewrite (bind_Ret _ _ _ _ _ (Loops.enum_next_static a l i s Ha));
    rewrite list_lookup_imap.
  - rewrite (lookup_ge_None_2 l i) by lia. rewrite drop_ge by lia. reflexivity.
  - assert (Hlt : (i < List.length l)%nat) by lia.
    destruct (lookup_lt_is_Some_2 l i Hlt) as [x Hx]. rewrite Hx.
    cbn [fmap option_fmap option_map].
    rewrite (bind_Ret _ _ _ _ _ (Hbody acc i x Hx)). cbn [fst snd].
    rewrite IH by lia. rewrite (drop_S l x i Hx). reflexivity.
Qed.

(** The elements of [$uses] when it is a list. *)
Definition uses_list (h : heap) (d : pydict) : list val :=
  match Dict.get d "$uses" with
  | Some u => default [] (Py.as_list h u)
  | None => []
  end.

(** What the meta-schema [uri] enables. *)
Definition by_meta (uri : string) (enabled : gset string) : gset string :=
  if PyStr.contains "validation" uri
  then {[ Instance.VA ]} ∪ ({[ Instance.CC ]} ∪ enabled)
  else enabled.

(** What one element of [$uses] enables. *)
Definition by_use (acc : gset string) (x : val) : gset string :=
  match x with
  | VStr ext => if bool_decide (ext ∈ Schema.KNOWN_EXTENSIONS) then {[ ext ]} ∪ acc else acc
  | _ => acc
  end.

Definition granted (uri : string) (l : list val) (enabled : gset string) : gset string :=
  foldl by_use (by_meta uri enabled) l.

Definition hashable (x : val) : Prop :=
  match x with VRef _ => False | _ => True end.

Lemma elem_of_foldl_by_use (l : list val) (acc : gset string) (x : string) :
  x ∈ foldl by_use acc l <->
  x ∈ acc \/ (In (VStr x) l /\ x ∈ Schema.KNOWN_EXTENSIONS).
Proof.
  revert acc. induction l as [|e l IH]; intros acc; cbn [foldl].
  - cbn. tauto.
  - rewrite IH. unfold by_use at 1.
    destruct e as [| | | |ext|]; cbn [In];
      try (split; [intros [H|[H K]]; [tauto | right; split; [now right | exact K]]
                  | intros [H|[[H|H] K]]; [tauto | discriminate | tauto]]).
    destruct (bool_decide (ext ∈ Schema.KNOWN_EXTENSIONS)) eqn:E.
    + apply bool_decide_eq_true in E. rewrite elem_of_union, elem_of_singleton.
      split.
      * intros [[->|H]|[H K]]; [right; split; [now left | exact E] | tauto | tauto].
      * intros [H|[[[= ->]|H] K]]; tauto.
    + apply bool_decide_eq_false in E. split.
      * intros [H|[H K]]; tauto.
      * intros [H|[[[= ->]|H] K]]; tauto.
Qed.

Lemma elem_of_granted (uri : string) (l : list val) (enabled : gset string)
    (x : string) :
  x ∈ granted uri l enabled <->
  x ∈ enabled \/
  (PyStr.contains "validation" uri = true /\ (x = Instance.VA \/ x = Instance.CC)) \/
  (In (VStr x) l /\ x ∈ Schema.KNOWN_EXTENSIONS).
Proof.
  unfold granted. rewrite elem_of_foldl_by_use. unfold by_meta.
  destruct (PyStr.contains "validation" uri).
  - rewrite !elem_of_union, !elem_of_singleton. intuition congruence.
  - intuition congruence.
Qed.

(** The run of [_check_enabled_extensions]. *)
Lemma check_enabled_extensions_ret (doc : val) (enabled : gset string)
    (d : pydict) (uri : string) (s : state) :
  Py.as_dict (st_heap s) doc = Some d ->
  default (VStr "") (Dict.get d "$schema") = VStr uri ->
  Forall hashable (uses_list (st_heap s) d) ->
  exists s',
    Schema._check_enabled_extensions doc enabled s =
      Ret (granted uri (uses_list (st_heap s) d) enabled) s' /\
    st_errors s' = st_errors s /\
    (st_heap s' = st_heap s \/ st_heap s' = st_heap s ++ [OList []]).
Proof.
  intros Hd Huri Hh. unfold Schema._check_enabled_extensions.
  assert (E1 : Py.get_default doc "$schema" (VStr "") s = Ret (VStr uri) s).
  { unfold Py.get_default, bind, get_heap. now rewrite Hd, Huri. }
  rewrite (bind_Ret _ _ _ _ _ E1).
  assert (C : forall n s1, Py.contains (VStr n) (VStr uri) s1
                           = Ret (PyStr.contains n uri) s1) by reflexivity.
  assert (Meta : forall {B} (k : gset string -> M B) (s1 : state),
    (let* ext := Py.contains (VStr "extended") (VStr uri) in
     let* meta := if ext then ret true
                  else Py.contains (VStr "validation") (VStr uri) in
     let* en :=
       if meta then
         let* v := Py.contains (VStr "validation") (VStr uri) in
         if v then
           ret ({[ "JSONStructureValidation" ]} ∪
                ({[ "JSONStructureConditionalComposition" ]} ∪ enabled))
         else ret enabled
       else ret enabled in
     k en) s1 = k (by_meta uri enabled) s1).
  { intros B k s1. rewrite (bind_Ret _ _ _ _ _ (C "extended" s1)). unfold by_meta.
    destruct (PyStr.contains "extended" uri).
    - rewrite bind_ret_l. rewrite bind_assoc.
      rewrite (bind_Ret _ _ _ _ _ (C "validation" s1)).
      destruct (PyStr.contains "validation" uri); reflexivity.
    - rewrite (bind_Ret _ _ _ _ _ (C "validation" s1)).
      destruct (PyStr.contains "validation" uri) eqn:Ev; [|reflexivity].
      rewrite bind_assoc. rewrite (bind_Ret _ _ _ _ _ (C "validation" s1)).
      now rewrite Ev. }
  assert (Known : forall acc x s1, hashable x ->
    (let* k := Schema.known x in
     ret (false, match x with
                 | VStr ext => if k then {[ ext ]} ∪ acc else acc
                 | _ => acc
                 end)) s1 = Ret (false, by_use acc x) s1).
  { intros acc x s1 Hx. destruct x; try reflexivity. destruct Hx. }
  unfold uses_list in *.
  destruct (Dict.get d "$uses") as [u|] eqn:Eu.
  - rewrite (bind_Ret _ _ _ _ _ (get_or_new_present _ _ _ _ _ (OList []) Hd Eu)).
    exists s. split; [|auto]. rewrite Meta.
    unfold bind at 1, get_heap at 1. unfold Py.is_list.
    destruct (Py.as_list (st_heap s) u) as [l|] eqn:El; [|reflexivity].
    destruct (as_list_inv _ _ _ El) as (a & -> & Ha).
    assert (Ei : Iter.enum (VRef a) s =
                 Ret (List.length l,
                      fun i => let* x := Iter.list_next a (List.length l) i in
                               ret (pair i <$> x)) s).
    { unfold Iter.enum, get_heap, bind. now rewrite Ha. }
    rewrite (bind_Ret _ _ _ _ _ Ei). unfold Iter.run_fold. cbn [fst snd default].
    rewrite (fold_pure a l by_use _ s Ha); [reflexivity | | reflexivity].
    intros acc i x Hx. cbn [snd]. apply (Known acc).
    cbn [default] in Hh. rewrite Forall_forall in Hh. apply Hh.
    eapply list_elem_of_lookup_2. exact Hx.
  - assert (E2 : Py.get_or_new doc "$uses" (OList []) s =
                 Ret (VRef (List.length (st_heap s)))
                     (mkState (st_heap s ++ [OList []]) (st_errors s))).
    { unfold Py.get_or_new, bind, get_heap. now rewrite Hd, Eu. }
    rewrite (bind_Ret _ _ _ _ _ E2).
    exists (mkState (st_heap s ++ [OList []]) (st_errors s)).
    split; [|split; [reflexivity | now right]].
    rewrite Meta.
    unfold bind at 1, get_heap at 1. cbn [st_heap].
    unfold Py.is_list. rewrite as_list_new.
    assert (Ei : Iter.enum (VRef (List.length (st_heap s)))
                   (mkState (st_heap s ++ [OList []]) (st_errors s)) =
                 Ret (0%nat,
                      fun i => let* x := Iter.list_next (List.length (st_heap s)) 0 i in
                               ret (pair i <$> x))
                     (mkState (st_heap s ++ [OList []]) (st_errors s))).
    { unfold Iter.enum, get_heap, bind. cbn [st_heap].
      now rewrite list_lookup_middle. }
    rewrite (bind_Ret _ _ _ _ _ Ei). unfold Iter.run_fold. cbn [fst snd Iter.fold].
    unfold bind at 1, bind at 1, Iter.list_next, bind, get_heap. cbn [st_heap].
    rewrite list_lookup_middle by reflexivity. reflexivity.
Qed.

End Extensions.

(** ** A logic for the checks

    [holds h0 Q m]: on the store [h0], [m] returns; it leaves the store
    and the enabled extensions as they are and only appends to the
    diagnostics; what it returns satisfies [Q]. *)

Module SVLogic.

Import SV.

Section Logic.

Context (source_text : option string).
Variable h0 : heap.

Definition extends (s s' : vstate) : Prop :=
  v_heap s' = v_heap s /\ v_enabled s' = v_enabled s /\
  exists es, v_errors s' = v_errors s ++ es.

Lemma extends_refl (s : vstate) : extends s s.
Proof. repeat split. exists []. now rewrite app_nil_r. Qed.

Lemma extends_trans (s s1 s2 : vstate) :
  extends s s1 -> extends s1 s2 -> extends s s2.
Proof.
  intros (H1 & E1 & e1 & A1) (H2 & E2 & e2 & A2).
  repeat split; [congruence | congruence |].
  exists (e1 ++ e2). now rewrite A2, A1, app_assoc.
Qed.

Definition holds {A} (Q : A -> Prop) (m : V A) : Prop :=
  forall s, v_heap s = h0 ->
    exists a s', m s = Ok a s' /\ extends s s' /\ Q a.

Definition any {A} : A -> Prop := fun _ => True.

Lemma holds_ret {A} (Q : A -> Prop) (a : A) : Q a -> holds Q (vret a).
Proof. intros H s Hs. exists a, s. split; [reflexivity|]. split; [apply extends_refl | exact H]. Qed.

Lemma holds_bind {A B} (Q : A -> Prop) (R : B -> Prop) (m : V A) (k : A -> V B) :
  holds Q m -> (forall a, Q a -> holds R (k a)) -> holds R (vbind m k).
Proof.
  intros Hm Hk s Hs. destruct (Hm s Hs) as (a & s1 & E1 & X1 & Qa).
  destruct (Hk a Qa s1) as (b & s2 & E2 & X2 & Rb).
  { destruct X1 as (H1 & _). congruence. }
  exists b, s2. split; [|split; [eapply extends_trans; eauto | exact Rb]].
  unfold vbind. now rewrite E1.
Qed.

Lemma holds_weaken {A} (Q R : A -> Prop) (m : V A) :
  holds Q m -> (forall a, Q a -> R a) -> holds R m.
Proof.
  intros Hm HQ s Hs. destruct (Hm s Hs) as (a & s1 & E1 & X1 & Qa). eauto 6.
Qed.

Lemma holds_any {A} (Q : A -> Prop) (m : V A) : holds Q m -> holds any m.
Proof. intros H. eapply holds_weaken; [exact H | exact (fun _ _ => I)]. Qed.

Lemma holds_seq {A B} (R : B -> Prop) (m : V A) (k : V B) :
  holds any m -> holds R k -> holds R (vbind m (fun _ => k)).
Proof. intros Hm Hk. eapply holds_bind; [exact Hm | intros _ _; exact Hk]. Qed.

Lemma holds_if {A} (Q : A -> Prop) (c : bool) (x y : V A) :
  (c = true -> holds Q x) -> (c = false -> holds Q y) ->
  holds Q (if c then x else y).
Proof. destruct c; auto. Qed.

Lemma holds_when (b : bool) (m : V unit) :
  (b = true -> holds any m) -> holds any (vwhen b m).
Proof. destruct b; intros H; [now apply H | now apply holds_ret]. Qed.

Lemma holds_err (message : msg) (location : string) :
  holds any (_err source_text message location).
Proof.
  intros s Hs. eexists tt, _. split; [reflexivity|]. split; [|exact I].
  repeat split. cbn. eauto.
Qed.

Lemma holds_say (t location : string) : holds any (say source_text t location).
Proof. apply holds_err. Qed.

Lemma holds_get_store : holds (fun h => h = h0) get_store.
Proof. intros s Hs. exists (v_heap s), s. split; [reflexivity|]. split; [apply extends_refl | exact Hs]. Qed.

Lemma holds_get_enabled : holds any get_enabled.
Proof. intros s Hs. exists (v_enabled s), s. split; [reflexivity|]. split; [apply extends_refl | exact I]. Qed.

Lemma holds_for_each {A} (xs : list A) (body : A -> V unit) :
  (forall x, In x xs -> holds any (body x)) -> holds any (vfor_each xs body).
Proof.
  induction xs as [|x xs IH]; intros H; cbn [vfor_each].
  - now apply holds_ret.
  - apply holds_seq; [apply H; now left | apply IH; intros y Hy; apply H; now right].
Qed.

(** A step of the shared code that returns on [h0] and leaves it. *)
Lemma holds_lift {A} (Q : A -> Prop) (m : M A) :
  (exists a es, m (mkState h0 []) = Ret a (mkState h0 es) /\ Q a) ->
  holds Q (lift source_text m).
Proof.
  intros (a & es & E & Qa) s Hs. unfold lift. rewrite Hs, E.
  eexists a, _. split; [reflexivity|]. split; [|exact Qa].
  repeat split; cbn; eauto.
Qed.

Lemma holds_is_dict (v : val) : holds (fun b => b = Py.is_dict h0 v) (is_dict v).
Proof.
  unfold is_dict. eapply holds_bind; [apply holds_get_store|].
  intros h ->. now apply holds_ret.
Qed.

Lemma holds_is_list (v : val) : holds (fun b => b = Py.is_list h0 v) (is_list v).
Proof.
  unfold is_list. eapply holds_bind; [apply holds_get_store|].
  intros h ->. now apply holds_ret.
Qed.

(** The dict [v] has the key [k]. *)
Definition present (v : val) (k : string) : Prop :=
  exists d a, Py.as_dict h0 v = Some d /\ Dict.get d k = Some a.

(** [a] is a value of the dict [v] or an element of the list [v]. *)
Definition child_of (v a : val) : Prop :=
  exists o, Py.deref h0 v = Some o /\ In a (Walk.children o).

Lemma dict_of (v : val) : Py.is_dict h0 v = true -> exists d, Py.as_dict h0 v = Some d.
Proof. unfold Py.is_dict. destruct (Py.as_dict h0 v); [eauto | discriminate]. Qed.

Lemma list_of (v : val) : Py.is_list h0 v = true -> exists l, Py.as_list h0 v = Some l.
Proof. unfold Py.is_list. destruct (Py.as_list h0 v); [eauto | discriminate]. Qed.

Lemma get_child (v a : val) (d : pydict) (k : string) :
  Py.as_dict h0 v = Some d -> Dict.get d k = Some a -> child_of v a.
Proof.
  intros Ed Ea. destruct (as_dict_inv _ _ _ Ed) as (p & -> & Hp).
  exists (ODict d). split; [exact Hp|]. cbn [Walk.children].
  clear Ed Hp. induction d as [|[k' x] d IH]; [discriminate|].
  cbn in Ea |- *. destruct (String.eqb k' k); [injection Ea as ->; now left|].
  right. now apply IH.
Qed.

Lemma holds_has_key (k : string) (v : val) :
  Py.is_dict h0 v = true ->
  holds (fun b => b = true -> present v k) (has_key source_text k v).
Proof.
  intros Hd. destruct (dict_of _ Hd) as [d Ed].
  apply holds_lift. exists (Dict.mem d k), [].
  split; [apply (has_key_dict (mkState h0 []) v d k Ed)|].
  intros Hm. apply mem_get_Some in Hm. destruct Hm as [a Ha]. exists d, a. auto.
Qed.

Lemma holds_item (k : string) (v : val) :
  present v k -> holds (child_of v) (item source_text v k).
Proof.
  intros (d & a & Ed & Ea). apply holds_lift. exists a, [].
  split; [apply (item_dict (mkState h0 []) v a d k Ed Ea) | eapply get_child; eauto].
Qed.

Lemma holds_get (k : string) (v : val) :
  Py.is_dict h0 v = true -> holds any (lift source_text (Py.get v k)).
Proof.
  intros Hd. destruct (dict_of _ Hd) as [d Ed].
  apply holds_lift. eexists _, [].
  split; [apply (get_dict (mkState h0 []) v d k Ed) | exact I].
Qed.

Lemma holds_len (v : val) :
  Py.is_list h0 v = true -> holds any (lift source_text (Py.len v)).
Proof.
  intros Hl. unfold Py.is_list in Hl.
  destruct (Py.as_list h0 v) as [l|] eqn:El; [|discriminate].
  destruct (as_list_inv _ _ _ El) as (a & -> & Ha).
  apply holds_lift. exists (List.length l), []. split; [|exact I].
  unfold Py.len, bind, get_heap. cbn. now rewrite Ha.
Qed.

Lemma holds_eq_str (v : val) (x : string) :
  holds any (lift source_text (Py.eq v (VStr x))).
Proof.
  apply holds_lift. eexists _, []. split; [|exact I].
  unfold Py.eq, bind, get_heap, Py.eq_pure. cbn [st_heap].
  rewrite eq_fuel_str. reflexivity.
Qed.

Lemma holds_check_json_pointer (doc pointer : val) (path : string) :
  holds any (_check_json_pointer source_text doc pointer path).
Proof.
  apply holds_lift. unfold Schema._check_json_pointer.
  destruct pointer as [| | | |p|]; try (now eexists tt, [_]).
  destruct (negb (PyStr.startswith "#" p)); [now eexists tt, [_]|].
  destruct (String.eqb p "#"); [now eexists tt, []|].
  unfold bind, get_heap. cbn [st_heap].
  destruct (Schema.check_parts h0 doc (tail (PyStr.split "/" p)) path);
    [now eexists tt, [_] | now eexists tt, []].
Qed.

(** Loops over the items of a dict and the elements of a list. *)
Lemma holds_vloop {A} (next : nat -> M (option A)) (items : list A)
    (body : A -> V unit) :
  (forall i es, next i (mkState h0 es) = Ret (items !! i) (mkState h0 es)) ->
  (forall i x, items !! i = Some x -> holds any (body x)) ->
  forall rest i, (i + rest = List.length items)%nat ->
                 holds any (vloop source_text next i rest body).
Proof.
  intros Hnext Hbody. induction rest as [|r IH]; intros i Hi; cbn [vloop].
  - apply (holds_bind (fun x => x = items !! i)).
    + apply holds_lift. exists (items !! i), []. split; [apply Hnext | reflexivity].
    + intros x ->. rewrite (lookup_ge_None_2 items i) by lia. now apply holds_ret.
  - apply (holds_bind (fun x => x = items !! i)).
    + apply holds_lift. exists (items !! i), []. split; [apply Hnext | reflexivity].
    + intros x ->. assert (Hlt : (i < List.length items)%nat) by lia.
      destruct (lookup_lt_is_Some_2 items i Hlt) as [x Hx]. rewrite Hx.
      apply holds_seq; [eapply Hbody; eauto | apply IH; lia].
Qed.

Lemma holds_for_items (v : val) (body : string -> val -> V unit) :
  Py.is_dict h0 v = true ->
  (forall k x, child_of v x -> holds any (body k x)) ->
  holds any (for_items source_text v body).
Proof.
  intros Hd Hbody. destruct (dict_of _ Hd) as [d Ed].
  destruct (as_dict_inv _ _ _ Ed) as (a & -> & Ha).
  unfold for_items.
  apply (holds_bind (fun it => it = (List.length d, Iter.dict_next a (List.length d)))).
  - apply holds_lift. eexists _, []. split; [|reflexivity].
    unfold Iter.items, bind, get_heap. cbn [st_heap]. rewrite Ed. reflexivity.
  - intros it ->. cbn [fst snd].
    apply (holds_vloop _ d); [| |lia].
    + intros i es. now apply Loops.dict_next_static.
    + intros i [k x] Hx. cbn [fst snd]. apply Hbody. exists (ODict d).
      split; [exact Ha|]. cbn [Walk.children]. apply in_map_iff. exists (k, x).
      split; [reflexivity|]. apply list_elem_of_In. eapply list_elem_of_lookup_2. exact Hx.
Qed.

Lemma holds_for_enum (v : val) (body : nat -> val -> V unit) :
  Py.is_list h0 v = true ->
  (forall i x, child_of v x -> holds any (body i x)) ->
  holds any (for_enum source_text v body).
Proof.
  intros Hl Hbody. destruct (list_of _ Hl) as [l El].
  destruct (as_list_inv _ _ _ El) as (a & -> & Ha).
  unfold for_enum.
  apply (holds_bind (fun it => it = (List.length l,
           fun i => let* x := Iter.list_next a (List.length l) i in
                    ret (pair i <$> x)))).
  - apply holds_lift. eexists _, []. split; [|reflexivity].
    unfold Iter.enum, bind, get_heap. cbn [st_heap]. rewrite Ha. reflexivity.
  - intros it ->. cbn [fst snd].
    apply (holds_vloop _ (imap pair l)); [| |rewrite length_imap; lia].
    + intros i es. now apply Loops.enum_next_static.
    + intros i [j x] Hx. cbn [fst snd]. apply Hbody. exists (OList l).
      split; [exact Ha|]. cbn [Walk.children].
      rewrite list_lookup_imap in Hx. destruct (l !! i) as [y|] eqn:Ey; [|discriminate].
      cbn in Hx. injection Hx as <- <-.
      apply list_elem_of_In. eapply list_elem_of_lookup_2. exact Ey.
Qed.

(** [a] is the value of the key [k] of the dict [v]; [(k, x)] is an
    item of the dict [v]. *)
Definition entry_of (v : val) (k : string) (a : val) : Prop :=
  exists d, Py.as_dict h0 v = Some d /\ Dict.get d k = Some a.

Definition item_in (v : val) (k : string) (x : val) : Prop :=
  exists d, Py.as_dict h0 v = Some d /\ In (k, x) d.

Lemma entry_child (v : val) (k : string) (a : val) : entry_of v k a -> child_of v a.
Proof. intros (d & Ed & G). eapply get_child; eauto. Qed.

Lemma item_in_child (v : val) (k : string) (x : val) : item_in v k x -> child_of v x.
Proof.
  intros (d & Ed & Hin). destruct (as_dict_inv _ _ _ Ed) as (a & -> & Ha).
  exists (ODict d). split; [exact Ha|]. cbn [Walk.children].
  apply in_map_iff. now exists (k, x).
Qed.

Lemma holds_item_entry (k : string) (v : val) :
  present v k -> holds (entry_of v k) (item source_text v k).
Proof.
  intros (d & a & Ed & Ea). apply holds_lift. exists a, [].
  split; [apply (item_dict (mkState h0 []) v a d k Ed Ea) | now exists d].
Qed.

Lemma holds_for_items_in (v : val) (body : string -> val -> V unit) :
  Py.is_dict h0 v = true ->
  (forall k x, item_in v k x -> holds any (body k x)) ->
  holds any (for_items source_text v body).
Proof.
  intros Hd Hbody. destruct (dict_of _ Hd) as [d Ed].
  destruct (as_dict_inv _ _ _ Ed) as (a & -> & Ha).
  unfold for_items.
  apply (holds_bind (fun it => it = (List.length d, Iter.dict_next a (List.length d)))).
  - apply holds_lift. eexists _, []. split; [|reflexivity].
    unfold Iter.items, bind, get_heap. cbn [st_heap]. rewrite Ed. reflexivity.
  - intros it ->. cbn [fst snd].
    apply (holds_vloop _ d); [| |lia].
    + intros i es. now apply Loops.dict_next_static.
    + intros i [k x] Hx. cbn [fst snd]. apply Hbody. exists d.
      split; [exact Ed|]. apply list_elem_of_In. eapply list_elem_of_lookup_2. exact Hx.
Qed.

Lemma rank_child (v a : val) :
  Walk.ordered h0 -> child_of v a -> (Walk.rank a < Walk.rank v)%nat.
Proof.
  intros Ho (o & Hv & Ha). destruct v as [| | | | |p]; try discriminate.
  cbn [Py.deref] in Hv. destruct a as [| | | | |q]; cbn [Walk.rank]; try lia.
  pose proof (Ho p o q Hv Ha). lia.
Qed.

End Logic.

(** One step of a proof of [holds]. *)
Ltac vside :=
  solve [ eauto | apply negb_false_iff; eauto | exact I | reflexivity ].

Ltac vcase c :=
  lazymatch c with
  | negb ?x => destruct x eqn:?; cbn [negb]
  | _ => destruct c eqn:?
  end.

Ltac vstep :=
  lazymatch goal with
  | |- holds _ _ (vbind (has_key _ _ _) _) =>
      eapply holds_bind; [apply holds_has_key; vside | intros ? ?]
  | |- holds _ _ (vbind (item _ _ _) _) =>
      eapply holds_bind; [apply holds_item_entry; vside | intros ? ?]
  | |- holds _ _ (vbind (is_dict _) _) =>
      eapply holds_bind; [apply holds_is_dict | intros ? ->]
  | |- holds _ _ (vbind (is_list _) _) =>
      eapply holds_bind; [apply holds_is_list | intros ? ->]
  | |- holds _ _ (vbind get_store _) =>
      eapply holds_bind; [apply holds_get_store | intros ? ->]
  | |- holds _ _ (vbind get_enabled _) =>
      eapply holds_bind; [apply holds_get_enabled | intros ? _]
  | |- holds _ _ (vbind (lift _ (Py.get _ _)) _) =>
      eapply holds_bind; [apply holds_get; vside | intros ? _]
  | |- holds _ _ (vbind (lift _ (Py.len _)) _) =>
      eapply holds_bind; [apply holds_len; vside | intros ? _]
  | |- holds _ _ (vbind (lift _ (Py.eq _ (VStr _))) _) =>
      eapply holds_bind; [apply holds_eq_str | intros ? _]
  | |- holds _ _ (vbind _ (fun _ : unit => _)) =>
      apply holds_seq
  | |- holds _ _ (vbind _ _) =>
      eapply (holds_bind _ any); [|intros ? _]
  | |- holds _ _ (has_key _ _ _) => eapply holds_any; apply holds_has_key; vside
  | |- holds _ _ (vwhen _ _) => apply holds_when; intros ?
  | |- holds _ _ (vret _) => apply holds_ret; exact I
  | |- holds _ _ (say _ _ _) => apply holds_say
  | |- holds _ _ (_err _ _ _) => apply holds_err
  | |- holds _ _ (_check_json_pointer _ _ _ _) => apply holds_check_json_pointer
  | |- holds _ _ (vfor_each _ _) => apply holds_for_each; intros ? ?
  | |- holds _ _ (for_items _ _ _) => apply holds_for_items_in; [vside | intros ? ? ?]
  | |- holds _ _ (for_enum _ _ _) => apply holds_for_enum; [vside | intros ? ? ?]
  | |- holds _ _ (if ?c then _ else _) => vcase c
  | |- holds _ _ (match ?v with VStr _ => _ | _ => _ end) => destruct v
  | |- holds _ _ (match ?v with Some _ => _ | None => _ end) => destruct v
  | |- holds _ _ (match ?v with VBool _ => _ | _ => _ end) => destruct v
  | |- holds _ _ (let _ := _ in _) => cbv zeta
  end.

Ltac vgo := repeat vstep.

Section Checks.

Context (source_text : option string) (rt : Runtime).
Context (allow_dollar extended : bool).
Context (composition_order validation_order : list string).
Context (doc : val).
Variable h0 : heap.

(** [re.compile(p)] returns or raises [re.error]. *)
Definition catches (p : string) : Prop :=
  rt_re_compile rt p = None \/ rt_re_compile rt p = Some ReError.

(** The patterns of the documents in the store, which are the strings
    under [pattern] and the keys of the objects under
    [patternProperties] and [patternKeys], are such that [re.compile]
    returns or raises [re.error]. *)
Definition patterns_ok : Prop :=
  forall v d, Py.as_dict h0 v = Some d ->
    (forall p, Dict.get d "pattern" = Some (VStr p) -> catches p) /\
    (forall key pv pd pattern x,
       In key ["patternProperties"; "patternKeys"] ->
       Dict.get d key = Some pv -> Py.as_dict h0 pv = Some pd ->
       In (pattern, x) pd -> catches pattern).

Lemma holds_compile_or (p : string) (handler : V unit) :
  catches p -> holds h0 any handler ->
  holds h0 any (compile_or rt p handler).
Proof.
  intros [E|E] H; unfold compile_or; rewrite E; [now apply holds_ret | exact H].
Qed.

Lemma holds_check_uses (uses : val) (path : string) :
  holds h0 any (_check_uses source_text extended uses path).
Proof. unfold _check_uses. vgo. Qed.

Lemma holds_check_required (obj : val) (location : string) :
  Py.is_dict h0 obj = true ->
  holds h0 any (_check_required_top_level_keywords source_text obj location).
Proof. intros Hd. unfold _check_required_top_level_keywords. vgo. Qed.

Lemma holds_check_is_absolute_uri (value : val) (keyword_name location : string) :
  holds h0 any (_check_is_absolute_uri source_text value keyword_name location).
Proof. unfold _check_is_absolute_uri. vgo. Qed.

Lemma holds_any_key (keys : list string) (obj : val) :
  Py.is_dict h0 obj = true -> holds h0 any (any_key source_text keys obj).
Proof.
  intros Hd. induction keys as [|k keys IH]; cbn [any_key]; vgo. exact IH.
Qed.

Lemma holds_has_composition_keywords (obj : val) :
  Py.is_dict h0 obj = true ->
  holds h0 any (_has_composition_keywords source_text composition_order obj).
Proof. apply holds_any_key. Qed.

Lemma holds_type_string (obj : val) :
  Py.is_dict h0 obj = true -> holds h0 any (type_string source_text obj).
Proof. intros Hd. unfold type_string. vgo. Qed.

Lemma holds_check_union_type_item (union_item : val) (path : string) :
  holds h0 any (_check_union_type_item source_text doc union_item path).
Proof. unfold _check_union_type_item. vgo. Qed.

Lemma holds_check_numeric_validation (obj : val) (path type_name : string) :
  Py.is_dict h0 obj = true ->
  holds h0 any (_check_numeric_validation source_text obj path type_name).
Proof. intros Hd. unfold _check_numeric_validation. vgo. Qed.

Lemma holds_check_string_validation (obj : val) (path : string) :
  patterns_ok -> Py.is_dict h0 obj = true ->
  holds h0 any (_check_string_validation source_text rt obj path).
Proof.
  intros Hre Hd. unfold _check_string_validation.
  repeat first
    [ match goal with
      | H : entry_of _ _ "pattern" (VStr ?p) |- holds _ _ (compile_or _ ?p _) =>
          apply holds_compile_or;
          [destruct H as (? & Ed & G); exact (proj1 (Hre _ _ Ed) _ G)|]
      end
    | vstep ].
Qed.

Lemma holds_wrong_keyword (type_name key for_map for_object location : string) :
  holds h0 any (wrong_keyword source_text type_name key for_map for_object location).
Proof. unfold wrong_keyword. vgo. Qed.

Lemma holds_check_keyword_placement (obj : val) (path : string) :
  Py.is_dict h0 obj = true ->
  holds h0 any (check_keyword_placement source_text obj path).
Proof.
  intros Hd. unfold check_keyword_placement.
  repeat first [apply holds_type_string; assumption | vstep].
Qed.

Hypothesis Hord : Walk.ordered h0.

(** The recursive calls return on every value below the rank [r]. *)
Variable rec : val -> bool -> string -> V unit.
Variable r : nat.
Hypothesis Hrec : forall v b p, (Walk.rank v < r)%nat -> holds h0 any (rec v b p).

Ltac vrank :=
  repeat match goal with
         | H : entry_of _ _ _ _ |- _ => apply entry_child in H
         | H : item_in _ _ _ _ |- _ => apply item_in_child in H
         | H : child_of _ _ _ |- _ => apply (rank_child _ _ _ Hord) in H
         end;
  lia.

Lemma holds_schema_or (v : val) (path message : string) :
  (Walk.rank v < r)%nat -> holds h0 any (schema_or source_text rec v path message).
Proof. intros Hv. unfold schema_or. vgo. now apply Hrec. Qed.

Ltac rstep :=
  first [ apply holds_schema_or; vrank
        | apply Hrec; vrank
        | apply holds_wrong_keyword
        | vstep ].

Ltac rgo := repeat rstep.

Lemma holds_check_composition_keywords (obj : val) (path : string) :
  Py.is_dict h0 obj = true -> (Walk.rank obj <= r)%nat ->
  holds h0 any
    (_check_composition_keywords source_text extended composition_order rec obj path).
Proof. intros Hd Hr. unfold _check_composition_keywords. rgo. Qed.

Lemma holds_check_array_validation (obj : val) (path type_name : string) :
  Py.is_dict h0 obj = true -> (Walk.rank obj <= r)%nat ->
  holds h0 any (_check_array_validation source_text rec obj path type_name).
Proof. intros Hd Hr. unfold _check_array_validation. rgo. Qed.

Lemma holds_check_object_validation (obj : val) (path type_name : string) :
  patterns_ok -> Py.is_dict h0 obj = true -> (Walk.rank obj <= r)%nat ->
  holds h0 any (_check_object_validation source_text rt rec obj path type_name).
Proof.
  intros Hre Hd Hr. unfold _check_object_validation.
  repeat first
    [ match goal with
      | Hk : In ?key ["patternProperties"; "patternKeys"],
        He : entry_of _ _ ?key ?pv, Hi : item_in _ ?pv ?p _
        |- holds _ _ (compile_or _ ?p _) =>
          apply holds_compile_or;
          [destruct He as (? & Ed & G); destruct Hi as (? & Epd & Hin);
           exact (proj2 (Hre _ _ Ed) _ _ _ _ _ Hk G Epd Hin)|]
      end
    | rstep ].
Qed.

Lemma holds_check_extended_validation_keywords (obj : val) (path : string) :
  patterns_ok -> Py.is_dict h0 obj = true -> (Walk.rank obj <= r)%nat ->
  holds h0 any
    (_check_extended_validation_keywords source_text rt validation_order rec obj path).
Proof.
  intros Hre Hd Hr. unfold _check_extended_validation_keywords.
  repeat first [ apply holds_check_numeric_validation; assumption
               | apply holds_check_string_validation; assumption
               | apply holds_check_array_validation; assumption
               | apply holds_check_object_validation; assumption
               | rstep ].
Qed.

Lemma holds_check_properties (props : val) (path label : string) :
  Py.is_dict h0 props = true -> (Walk.rank props < r)%nat ->
  holds h0 any (check_properties source_text allow_dollar rec props path label).
Proof. intros Hd Hr. unfold check_properties. rgo. Qed.

Lemma holds_check_object_schema (obj : val) (path : string) :
  Py.is_dict h0 obj = true -> (Walk.rank obj <= r)%nat ->
  holds h0 any (_check_object_schema source_text allow_dollar rec obj path).
Proof.
  intros Hd Hr. unfold _check_object_schema.
  repeat first [ apply holds_check_properties; [assumption | vrank] | rstep ].
Qed.

Lemma holds_check_element_schema (kind key : string) (obj : val) (path : string) :
  Py.is_dict h0 obj = true -> (Walk.rank obj <= r)%nat ->
  holds h0 any (check_element_schema source_text rec kind key obj path).
Proof. intros Hd Hr. unfold check_element_schema. rgo. Qed.

Lemma holds_check_tuple_schema (obj : val) (path : string) :
  Py.is_dict h0 obj = true -> (Walk.rank obj <= r)%nat ->
  holds h0 any (_check_tuple_schema source_text allow_dollar rec obj path).
Proof.
  intros Hd Hr. unfold _check_tuple_schema.
  repeat first [ apply holds_check_properties; [assumption | vrank] | rstep ].
Qed.

Lemma holds_check_choice_schema (obj : val) (path : string) :
  Py.is_dict h0 obj = true -> (Walk.rank obj <= r)%nat ->
  holds h0 any (_check_choice_schema source_text rec obj path).
Proof. intros Hd Hr. unfold _check_choice_schema. rgo. Qed.

Lemma holds_check_type (schema_obj : val) (path : string) :
  Py.is_dict h0 schema_obj = true -> (Walk.rank schema_obj <= r)%nat ->
  present h0 schema_obj "type" ->
  holds h0 any (check_type source_text allow_dollar doc rec schema_obj path).
Proof.
  intros Hd Hr Ht. unfold check_type, _check_array_schema, _check_set_schema,
    _check_map_schema, _check_primitive_schema.
  repeat first [ apply holds_check_union_type_item
               | apply holds_check_object_schema; assumption
               | apply holds_check_element_schema; assumption
               | apply holds_check_tuple_schema; assumption
               | apply holds_check_choice_schema; assumption
               | rstep ].
Qed.

Lemma holds_validate_schema_body (schema_obj : val) (is_root : bool) (path : string) :
  (extended = true -> patterns_ok) ->
  (Walk.rank schema_obj <= r)%nat ->
  holds h0 any
    (validate_schema_body source_text rt allow_dollar extended composition_order
       validation_order doc rec schema_obj is_root path).
Proof.
  intros Hx Hr. unfold validate_schema_body.
  vstep. vstep; [|vgo].
  apply holds_seq.
  { apply holds_when. intros _. now apply holds_check_composition_keywords. }
  apply (holds_bind _ (fun u => u = true -> present h0 schema_obj "type")).
  { destruct is_root; [|now apply holds_ret].
    eapply holds_bind; [apply holds_has_key; vside|]. intros has_type Ht.
    destruct has_type; [|now apply holds_ret].
    eapply holds_bind; [apply holds_has_key; vside|]. intros has_name _.
    apply holds_ret. intros _. now apply Ht. }
  intros unnamed Hu.
  repeat first [ apply holds_has_composition_keywords; assumption
               | apply holds_check_type; [assumption | assumption | vside]
               | apply holds_check_extended_validation_keywords;
                 [apply Hx; assumption | assumption | assumption]
               | apply holds_check_keyword_placement; assumption
               | match goal with
                 | |- holds _ _ (if extended then _ else _) =>
                     apply holds_if; intros ?
                 end
               | rstep ].
Qed.

End Checks.

Section Recursion.

Context (source_text : option string) (rt : Runtime).
Context (allow_dollar extended : bool).
Context (composition_order validation_order : list string).
Context (doc : val).
Variable h0 : heap.
Hypothesis Hord : Walk.ordered h0.
Hypothesis Hx : extended = true -> patterns_ok rt h0.

Lemma holds_validate_schema (fuel : nat) :
  forall (schema_obj : val) (is_root : bool) (path : string),
    (Walk.rank schema_obj < fuel)%nat ->
    holds h0 any
      (_validate_schema source_text rt allow_dollar extended composition_order
         validation_order doc fuel schema_obj is_root path).
Proof.
  induction fuel as [|n IH]; intros schema_obj is_root path Hr; [lia|].
  cbn [_validate_schema].
  apply (holds_validate_schema_body source_text rt allow_dollar extended
           composition_order validation_order doc h0 Hord _ n IH); [exact Hx | lia].
Qed.

Lemma holds_validate_namespace (fuel : nat) :
  forall (obj : val) (path : string),
    (Walk.rank obj < fuel)%nat ->
    holds h0 any
      (_validate_namespace source_text rt allow_dollar extended composition_order
         validation_order doc fuel obj path).
Proof.
  induction fuel as [|n IH]; intros obj path Hr; [lia|].
  cbn [_validate_namespace].
  vstep. vstep; [|vgo].
  apply holds_for_items; [vside|]. intros k v Hc.
  apply (rank_child _ _ _ Hord) in Hc.
  vstep. eapply (holds_bind _ any).
  { repeat first [apply holds_has_composition_keywords; vside | vstep]. }
  intros is_schema _. destruct is_schema.
  - apply holds_validate_schema. lia.
  - destruct (Py.is_dict h0 v) eqn:Ev; cbn [negb]; [apply IH; lia | apply holds_say].
Qed.

Lemma holds_check_offers (offers : val) (path : string) :
  holds h0 any (_check_offers source_text doc offers path).
Proof. unfold _check_offers. vgo. Qed.

Lemma holds_checks (fuel : nat) :
  Py.is_dict h0 doc = true -> (Walk.rank doc < fuel)%nat ->
  holds h0 any
    (checks source_text rt allow_dollar extended composition_order validation_order
       doc fuel).
Proof.
  intros Hd Hr. unfold checks.
  repeat first
    [ match goal with
      | |- holds _ _ (if extended then _ else _) => apply holds_if; intros ?
      end
    | apply holds_check_required; assumption
    | apply holds_check_is_absolute_uri
    | apply holds_check_uses
    | apply holds_validate_schema; assumption
    | apply holds_check_offers
    | apply (holds_check_composition_keywords source_text extended composition_order
               h0 Hord _ fuel (holds_validate_schema fuel)); [assumption | lia]
    | match goal with
      | H : entry_of _ doc _ ?v |- holds _ _ (_validate_namespace _ _ _ _ _ _ _ _ ?v _) =>
          apply holds_validate_namespace; apply entry_child in H;
          apply (rank_child _ _ _ Hord) in H; lia
      end
    | vstep ].
Qed.

End Recursion.

(** Import expansion without permission, on the store alone. *)
Lemma imports_refused (fetch : string -> M val) (fuel : nat) (obj : val)
    (path : string) (h : heap) :
  Walk.ordered h -> (Walk.rank obj < fuel)%nat ->
  exists es, Imports._process_imports false fetch fuel obj path (mkState h [])
             = Ret tt (mkState h es).
Proof.
  intros Hord Hr.
  destruct (Walk.walk_returns false fetch h (Walk.undisturbed (mkState h [])))
    with (fuel := fuel) (obj := obj) (path := path) (s := mkState h [])
    as (s' & E & Hh & _); auto.
  - now intros s0 [H0 _].
  - intros o p d s0 Hs0 _.
    destruct (Walk.keys_refused fetch o p (Dict.keys d) s0) as (s1 & E1 & U1).
    exists s1. split; [exact E1 | eapply Walk.undisturbed_trans; eauto].
  - apply Walk.undisturbed_refl.
  - exists (st_errors s'). rewrite E. destruct s' as [h' es']. cbn in Hh. now subst.
Qed.

Lemma ordered_app (h : heap) : Walk.ordered h -> Walk.ordered (h ++ [OList []]).
Proof.
  intros Ho a o b Ha Hb. destruct (decide (a < List.length h)%nat) as [Hlt|Hge].
  - rewrite lookup_app_l in Ha by exact Hlt. exact (Ho a o b Ha Hb).
  - rewrite lookup_app_r in Ha by lia.
    destruct (a - List.length h)%nat as [|n]; [|now destruct n].
    cbn in Ha. injection Ha as <-. destruct Hb.
Qed.

Lemma as_dict_app_list (h : heap) (l : list val) (v : val) (d : pydict) :
  Py.as_dict (h ++ [OList l]) v = Some d -> Py.as_dict h v = Some d.
Proof.
  intros H. destruct (as_dict_inv _ _ _ H) as (a & -> & Ha).
  apply as_dict_ref. destruct (decide (a < List.length h)%nat) as [Hlt|Hge].
  - now rewrite lookup_app_l in Ha.
  - rewrite lookup_app_r in Ha by lia.
    destruct (a - List.length h)%nat as [|n]; [discriminate | now destruct n].
Qed.

Lemma patterns_ok_app (rt : Runtime) (h : heap) (l : list val) :
  patterns_ok rt h -> patterns_ok rt (h ++ [OList l]).
Proof.
  intros H v d Hd. apply as_dict_app_list in Hd. destruct (H v d Hd) as [H1 H2].
  split; [exact H1|]. intros key pv pd pattern x Hk G Hpd Hin.
  apply as_dict_app_list in Hpd. eauto.
Qed.

(** [validate] without imports, on a store as [json.load] builds it. *)
Lemma validate_ret (source_text : option string) (rt : Runtime)
    (allow_dollar extended : bool) (import_map : list (string * string))
    (composition_order validation_order : list string) (doc : val) (fuel : nat)
    (s : SV.vstate) (d : pydict) (uri : string) :
  Walk.ordered (SV.v_heap s) ->
  Py.as_dict (SV.v_heap s) doc = Some d ->
  (Walk.rank doc < fuel)%nat ->
  (extended = true ->
   default (VStr "") (Dict.get d "$schema") = VStr uri /\
   Forall Extensions.hashable (Extensions.uses_list (SV.v_heap s) d)) ->
  (extended = true -> patterns_ok rt (SV.v_heap s)) ->
  exists s',
    SV.validate source_text rt allow_dollar false extended import_map
      composition_order validation_order doc fuel s = SV.Ok tt s' /\
    (forall a o, SV.v_heap s !! a = Some o -> SV.v_heap s' !! a = Some o) /\
    (extended = true ->
     SV.v_enabled s' =
     Extensions.granted uri (Extensions.uses_list (SV.v_heap s) d) (SV.v_enabled s)) /\
    (extended = false ->
     SV.v_heap s' = SV.v_heap s /\ SV.v_enabled s' = SV.v_enabled s).
Proof.
  intros Hord Hd Hr Hext Hpat.
  destruct s as [h errs en]. cbn [SV.v_heap SV.v_enabled] in *.
  unfold SV.validate. unfold SV.vbind at 1, SV.reset_errors. cbn [SV.v_heap SV.v_enabled].
  unfold SV.vbind at 1, SV.is_dict, SV.vbind at 1, SV.get_store, SV.vret.
  cbn [SV.v_heap]. rewrite (is_dict_as_dict _ _ _ Hd). cbn [negb].
  destruct (imports_refused
              (Imports._fetch_external_schema rt import_map Schema.EXTERNAL_SCHEMAS)
              fuel doc "#" h Hord Hr) as [es Ei].
  unfold SV.vbind at 1, SV.lift at 1, Schema.expand_imports.
  cbn [SV.v_heap SV.v_errors SV.v_enabled]. rewrite Ei. cbn [st_heap st_errors app].
  set (e1 := map _ es).
  destruct extended eqn:Ex.
  - destruct (Hext eq_refl) as [Huri Hh].
    destruct (Extensions.check_enabled_extensions_ret doc en d uri (mkState h [])
                Hd Huri Hh) as (s1 & E1 & He1 & Hh1).
    cbn [st_heap st_errors] in *.
    unfold SV.vbind at 1, SV.vwhen, SV.vbind at 1, SV.get_enabled at 1.
    cbn [SV.v_enabled]. unfold SV.vbind at 1, SV.lift at 1.
    cbn [SV.v_heap SV.v_errors SV.v_enabled]. rewrite E1, He1. cbn [map].
    rewrite app_nil_r. unfold SV.set_enabled at 1.
    cbn [SV.v_heap SV.v_errors SV.v_enabled].
    set (en1 := Extensions.granted _ _ _).
    assert (Hord1 : Walk.ordered (st_heap s1)).
    { destruct Hh1 as [->| ->]; [exact Hord | now apply ordered_app]. }
    assert (Hd1 : Py.is_dict (st_heap s1) doc = true).
    { destruct Hh1 as [->| ->]; [exact (is_dict_as_dict _ _ _ Hd)|].
      exact (is_dict_as_dict _ _ _ (as_dict_app _ _ _ _ Hd)). }
    assert (Hpat1 : true = true -> patterns_ok rt (st_heap s1)).
    { intros _. destruct Hh1 as [->| ->];
        [exact (Hpat eq_refl) | apply patterns_ok_app; exact (Hpat eq_refl)]. }
    destruct (holds_checks source_text rt allow_dollar true composition_order
                validation_order doc (st_heap s1) Hord1 Hpat1 fuel Hd1 Hr
                (SV.mkV (st_heap s1) e1 en1) eq_refl)
      as ([] & s' & E & (Hh' & He' & _) & _).
    exists s'. split; [exact E|].
    cbn [SV.v_heap SV.v_enabled] in Hh', He'. split; [|split; [|discriminate]].
    + intros a o Ha. rewrite Hh'. destruct Hh1 as [->| ->]; [exact Ha|].
      now apply lookup_app_l_Some.
    + intros _. exact He'.
  - unfold SV.vbind at 1, SV.vwhen, SV.vret.
    destruct (holds_checks source_text rt allow_dollar false composition_order
                validation_order doc h Hord Hpat fuel (is_dict_as_dict _ _ _ Hd) Hr
                (SV.mkV h e1 en) eq_refl)
      as ([] & s' & E & (Hh' & He' & _) & _).
    exists s'. split; [exact E|].
    cbn [SV.v_heap SV.v_enabled] in Hh', He'. rewrite Hh', He'.
    split; [auto|]. split; [discriminate | auto].
Qed.

End SVLogic.

(** X11.  The schema validator returns and leaves the document alone.
    On a document object of a store in which every object refers only
    to objects made before it (what [json.load] builds), with imports
    not allowed, [validate] returns: it raises nothing and the depth of
    its recursion is bounded by the depth of the document.  Every
    object of the store is afterwards what it was, and the enabled
    extensions only grow.  Without [extended] the store and the enabled
    extensions are exactly as before.  With [extended] there are two
    conditions: [_check_enabled_extensions] can read the document
    ([$schema] is a string or absent, and the elements of a [$uses]
    list are not objects or arrays); and [re.compile] returns or raises
    [re.error] on the patterns of the store (the strings under
    [pattern], the keys of the objects under [patternProperties] and
    [patternKeys]): another exception of [re.compile] leaves
    [validate]. *)
Theorem schema_validation_returns (source_text : option string) (rt : Runtime)
    (allow_dollar extended : bool) (import_map : list (string * string))
    (composition_order validation_order : list string) (doc : val) (fuel : nat)
    (s : SV.vstate) (d : pydict) (uri : string) :
  Walk.ordered (SV.v_heap s) ->
  Py.as_dict (SV.v_heap s) doc = Some d ->
  (Walk.rank doc < fuel)%nat ->
  (extended = true ->
   default (VStr "") (Dict.get d "$schema") = VStr uri /\
   Forall Extensions.hashable (Extensions.uses_list (SV.v_heap s) d)) ->
  (extended = true -> SVLogic.patterns_ok rt (SV.v_heap s)) ->
  exists s',
    SV.validate source_text rt allow_dollar false extended import_map
      composition_order validation_order doc fuel s = SV.Ok tt s' /\
    (forall a o, SV.v_heap s !! a = Some o -> SV.v_heap s' !! a = Some o) /\
    SV.v_enabled s ⊆ SV.v_enabled s' /\
    (extended = false ->
     SV.v_heap s' = SV.v_heap s /\ SV.v_enabled s' = SV.v_enabled s).
Proof.
  intros Hord Hd Hr Hext Hpat.
  destruct (SVLogic.validate_ret source_text rt allow_dollar extended import_map
              composition_order validation_order doc fuel s d uri Hord Hd Hr Hext
              Hpat)
    as (s' & E & Hh & Ht & Hf).
  exists s'. split; [exact E|]. split; [exact Hh|]. split; [|exact Hf].
  destruct extended.
  - rewrite (Ht eq_refl). intros x Hx. apply Extensions.elem_of_granted. now left.
  - destruct (Hf eq_refl) as [_ ->]. reflexivity.
Qed.

(** A schema document with one property, checked with [extended]. *)
Lemma schema_validation_returns_witness :
  let doc := JObj [("$schema", JStr "https://json-structure.org/meta/extended/v0/#");
                   ("$id", JStr "https://example.com/point.json");
                   ("name", JStr "Point");
                   ("type", JStr "object");
                   ("properties", JObj [("x", JObj [("type", JStr "number")])])] in
  let root := fst (loaded doc) in
  let s := SV.mkV (st_heap (snd (loaded doc))) [] ∅ in
  exists s',
    SV.validate None offline_runtime false false true [] SV.COMPOSITION_KEYWORDS
      SV.all_validation_keywords root 4 s = SV.Ok tt s' /\
    (forall a o, SV.v_heap s !! a = Some o -> SV.v_heap s' !! a = Some o) /\
    SV.v_enabled s ⊆ SV.v_enabled s' /\
    (true = false ->
     SV.v_heap s' = SV.v_heap s /\ SV.v_enabled s' = SV.v_enabled s).
Proof.
  cbv zeta.
  eapply schema_validation_returns
    with (uri := "https://json-structure.org/meta/extended/v0/#").
  - apply Walk.orderedb_ordered. vm_compute. reflexivity.
  - reflexivity.
  - vm_compute. lia.
  - intros _. split; [reflexivity | constructor].
  - intros _ v d _. split; intros; right; reflexivity.
Defined.

(** X12.  The extensions that are enabled.  For a document that
    [_check_enabled_extensions] can read ([$schema] a string or absent,
    no object or array in a [$uses] list), the function returns the set
    it was given with, added to it, the conditional composition and
    validation extensions when [$schema] contains "validation", and
    every element of a [$uses] list that is the name of a known
    extension; a [$schema] that contains "extended" adds nothing by
    itself.  [validate] with [extended] leaves exactly this set in
    [enabled_extensions], starting from the set that the validator
    object had: it is not cleared between documents.  For [validate]
    the store is as [json.load] builds it, and the statement about
    [validate] is for a store on whose patterns [re.compile] returns or
    raises [re.error]: another exception of [re.compile] leaves
    [validate]. *)
Theorem enabled_extensions_are_granted (source_text : option string) (rt : Runtime)
    (allow_dollar : bool) (import_map : list (string * string))
    (composition_order validation_order : list string) (doc : val) (fuel : nat)
    (s : SV.vstate) (d : pydict) (uri : string) :
  Walk.ordered (SV.v_heap s) ->
  Py.as_dict (SV.v_heap s) doc = Some d ->
  (Walk.rank doc < fuel)%nat ->
  default (VStr "") (Dict.get d "$schema") = VStr uri ->
  Forall Extensions.hashable (Extensions.uses_list (SV.v_heap s) d) ->
  let uses := Extensions.uses_list (SV.v_heap s) d in
  (forall enabled es, exists st',
     Schema._check_enabled_extensions doc enabled (mkState (SV.v_heap s) es) =
     Ret (Extensions.granted uri uses enabled) st' /\ st_errors st' = es) /\
  (SVLogic.patterns_ok rt (SV.v_heap s) ->
   exists s',
     SV.validate source_text rt allow_dollar false true import_map
       composition_order validation_order doc fuel s = SV.Ok tt s' /\
     SV.v_enabled s' = Extensions.granted uri uses (SV.v_enabled s)) /\
  (forall enabled x,
     x ∈ Extensions.granted uri uses enabled <->
     x ∈ enabled \/
     (PyStr.contains "validation" uri = true /\
      (x = Instance.VA \/ x = Instance.CC)) \/
     (In (VStr x) uses /\ x ∈ Schema.KNOWN_EXTENSIONS)).
Proof.
  intros Hord Hd Hr Huri Hh uses. split; [|split].
  - intros enabled es.
    destruct (Extensions.check_enabled_extensions_ret doc enabled d uri
                (mkState (SV.v_heap s) es) Hd Huri Hh) as (st' & E & He & _).
    exists st'. auto.
  - intros Hpat. destruct (SVLogic.validate_ret source_text rt allow_dollar true import_map
                composition_order validation_order doc fuel s d uri Hord Hd Hr
                (fun _ => conj Huri Hh) (fun _ => Hpat)) as (s' & E & _ & Ht & _).
    exists s'. split; [exact E | exact (Ht eq_refl)].
  - intros enabled x. apply Extensions.elem_of_granted.
Qed.

(** A document under the "extended" meta-schema whose [$uses] names
    the validation extension and an unknown one, checked by a new
    validator: only the validation extension is enabled. *)
Lemma enabled_extensions_are_granted_witness :
  let doc := JObj [("$schema", JStr "https://json-structure.org/meta/extended/v0/#");
                   ("$id", JStr "https://example.com/point.json");
                   ("$uses", JArr [JStr "JSONStructureValidation"; JStr "Shapes"]);
                   ("name", JStr "Point");
                   ("type", JStr "number")] in
  let root := fst (loaded doc) in
  let s := SV.mkV (st_heap (snd (loaded doc))) [] ∅ in
  exists s',
    SV.validate None offline_runtime false false true [] SV.COMPOSITION_KEYWORDS
      SV.all_validation_keywords root 4 s = SV.Ok tt s' /\
    elements (SV.v_enabled s') = ["JSONStructureValidation"].
Proof.
  cbv zeta.
  edestruct enabled_extensions_are_granted
    with (source_text := @None string) (rt := offline_runtime) (allow_dollar := false)
         (import_map := @nil (string * string))
         (composition_order := SV.COMPOSITION_KEYWORDS)
         (validation_order := SV.all_validation_keywords)
         (uri := "https://json-structure.org/meta/extended/v0/#")
         (fuel := 4%nat)
         (doc := fst (loaded (JObj
            [("$schema", JStr "https://json-structure.org/meta/extended/v0/#");
             ("$id", JStr "https://example.com/point.json");
             ("$uses", JArr [JStr "JSONStructureValidation"; JStr "Shapes"]);
             ("name", JStr "Point");
             ("type", JStr "number")])))
         (s := SV.mkV (st_heap (snd (loaded (JObj
            [("$schema", JStr "https://json-structure.org/meta/extended/v0/#");
             ("$id", JStr "https://example.com/point.json");
             ("$uses", JArr [JStr "JSONStructureValidation"; JStr "Shapes"]);
             ("name", JStr "Point");
             ("type", JStr "number")])))) [] ∅)
    as (_ & Hv & _).
  - apply Walk.orderedb_ordered. vm_compute. reflexivity.
  - reflexivity.
  - vm_compute. lia.
  - reflexivity.
  - repeat constructor.
  - destruct Hv as (s' & E & He).
    + intros v d _. split; intros; right; reflexivity.
    + exists s'. split; [exact E|]. rewrite He. vm_compute. reflexivity.
Defined.

(** ** What the checks never do

    [tame m]: whenever [m] returns, the store and the enabled
    extensions are as before and the diagnostics have only grown.
    This holds of every check on every store. *)

Module Tame.

Import SV.



Definition tame {A} (m : V A) : Prop :=
  forall s a s', m s = Ok a s' -> SVLogic.extends s s'.

(** A step of the shared code that leaves the store as it is. *)
Definition reader {A} (m : M A) : Prop :=
  forall h a st', m (mkState h []) = Ret a st' -> st_heap st' = h.

Lemma tame_ret {A} (a : A) : tame (vret a).
Proof. intros s a' s' [= _ <-]. apply SVLogic.extends_refl. Qed.

Lemma tame_bind {A B} (m : V A) (k : A -> V B) :
  tame m -> (forall a, tame (k a)) -> tame (vbind m k).
Proof.
  intros Hm Hk s b s' E. unfold vbind in E.
  destruct (m s) as [a s1|e s1|] eqn:Em; try discriminate.
  eapply SVLogic.extends_trans; [eapply Hm; eauto | eapply Hk; eauto].
Qed.

Lemma tame_when (b : bool) (m : V unit) : tame m -> tame (vwhen b m).
Proof. destruct b; [auto | intros _; apply tame_ret]. Qed.

Lemma tame_err (st : option string) (message : msg) (location : string) :
  tame (_err st message location).
Proof. intros s a s' [= _ <-]. repeat split. cbn. eauto. Qed.

Lemma tame_get_store : tame get_store.
Proof. intros s a s' [= _ <-]. apply SVLogic.extends_refl. Qed.

Lemma tame_get_enabled : tame get_enabled.
Proof. intros s a s' [= _ <-]. apply SVLogic.extends_refl. Qed.

Lemma tame_for_each {A} (xs : list A) (body : A -> V unit) :
  (forall x, tame (body x)) -> tame (vfor_each xs body).
Proof.
  intros H. induction xs as [|x xs IH]; cbn [vfor_each];
    [apply tame_ret | apply tame_bind; auto].
Qed.

Lemma tame_lift {A} (st : option string) (m : M A) : reader m -> tame (lift st m).
Proof.
  intros Hm s a s' E. unfold lift in E.
  destruct (m (mkState (v_heap s) [])) as [a' st'|e st'|] eqn:Em; try discriminate.
  injection E as _ <-. repeat split; cbn; [eapply Hm; eauto | eauto].
Qed.

Ltac reads :=
  let E := fresh "E" in
  intros ? ? ? E;
  repeat (unfold Py.has_key, Py.contains, Py.item, Py.get, Py.len, Py.eq, Py.lift_opt,
            Iter.items, Iter.enum, Iter.dict_next, Iter.list_next,
            Schema._check_json_pointer, bind, get_heap, ret, raise, err in E;
          cbn [st_heap st_errors] in E);
  repeat case_match; inversion E; reflexivity.

Lemma reader_has_key (k : string) (v : val) : reader (Py.has_key k v).
Proof. reads. Qed.
Lemma reader_item (v : val) (k : string) : reader (Py.item v k).
Proof. reads. Qed.
Lemma reader_get (v : val) (k : string) : reader (Py.get v k).
Proof. reads. Qed.
Lemma reader_len (v : val) : reader (Py.len v).
Proof. reads. Qed.
Lemma reader_eq (a b : val) : reader (Py.eq a b).
Proof. reads. Qed.
Lemma reader_items (v : val) : reader (Iter.items v).
Proof. reads. Qed.
Lemma reader_enum (v : val) : reader (Iter.enum v).
Proof. reads. Qed.
Lemma reader_dict_next (a : addr) (n i : nat) : reader (Iter.dict_next a n i).
Proof. reads. Qed.
Lemma reader_list_next (a : addr) (n i : nat) : reader (Iter.list_next a n i).
Proof. reads. Qed.
Lemma reader_check_json_pointer (pointer doc : val) (path : string) :
  reader (Schema._check_json_pointer pointer doc path).
Proof. reads. Qed.


Lemma tame_if {A} (c : bool) (x y : V A) : tame x -> tame y -> tame (if c then x else y).
Proof. now destruct c. Qed.

Lemma tame_compile_or (rt : Runtime) (p : string) (handler : V unit) :
  tame handler -> tame (compile_or rt p handler).
Proof.
  intros H. unfold compile_or.
  destruct (rt_re_compile rt p) as [[]|]; try exact H;
    try (intros s a s' E; discriminate).
  intros s a s' [= _ <-]. apply SVLogic.extends_refl.
Qed.

Lemma tame_is_dict (v : val) : tame (is_dict v).
Proof. intros s a s' [= _ <-]. apply SVLogic.extends_refl. Qed.

Lemma tame_is_list (v : val) : tame (is_list v).
Proof. intros s a s' [= _ <-]. apply SVLogic.extends_refl. Qed.

Section Loops.

Context (source_text : option string).

Lemma tame_vloop {A} (next : nat -> M (option A)) (body : A -> V unit) :
  (forall i, reader (next i)) -> (forall x, tame (body x)) ->
  forall rest i, tame (vloop source_text next i rest body).
Proof.
  intros Hn Hb. induction rest as [|r IH]; intros i; cbn [vloop].
  - apply tame_bind; [now apply tame_lift|]. intros [x|]; apply tame_ret.
  - apply tame_bind; [now apply tame_lift|]. intros [x|]; [|apply tame_ret].
    apply tame_bind; [apply Hb | intros _; apply IH].
Qed.

Lemma items_next (v : val) (s s' : state) (it : Iter.iterator (string * val)) :
  Iter.items v s = Ret it s' -> forall i, reader (snd it i).
Proof.
  unfold Iter.items, bind, get_heap, ret, raise. intros E i.
  repeat case_match; inversion E; subst; cbn [snd]. apply reader_dict_next.
Qed.

Lemma enum_next (v : val) (s s' : state) (it : Iter.iterator (nat * val)) :
  Iter.enum v s = Ret it s' -> forall i, reader (snd it i).
Proof.
  unfold Iter.enum, bind, get_heap, ret, raise. intros E i.
  repeat case_match; inversion E; subst; cbn [snd]; intros hh xx st' E'.
  - now inversion E'.
  - unfold bind in E'.
    destruct (Iter.dict_next _ _ i (mkState hh [])) as [x st1| |] eqn:E1; try discriminate.
    apply reader_dict_next in E1. unfold ret in E'. now inversion E'; subst.
  - unfold bind in E'.
    destruct (Iter.list_next _ _ i (mkState hh [])) as [x st1| |] eqn:E1; try discriminate.
    apply reader_list_next in E1. unfold ret in E'. now inversion E'; subst.
Qed.

Lemma tame_for_items (v : val) (body : string -> val -> V unit) :
  (forall k x, tame (body k x)) -> tame (for_items source_text v body).
Proof.
  intros Hb s a s' E. unfold for_items, vbind in E.
  destruct (lift source_text (Iter.items v) s) as [it s1| |] eqn:E1; try discriminate.
  eapply SVLogic.extends_trans.
  - eapply (tame_lift source_text _ (reader_items v)); eauto.
  - unfold lift in E1.
    destruct (Iter.items v (mkState (v_heap s) [])) as [it' st'| |] eqn:E2; try discriminate.
    injection E1 as <- <-. revert E.
    apply tame_vloop; [eapply items_next; eauto | intros [k x]; apply Hb].
Qed.

Lemma tame_for_enum (v : val) (body : nat -> val -> V unit) :
  (forall k x, tame (body k x)) -> tame (for_enum source_text v body).
Proof.
  intros Hb s a s' E. unfold for_enum, vbind in E.
  destruct (lift source_text (Iter.enum v) s) as [it s1| |] eqn:E1; try discriminate.
  eapply SVLogic.extends_trans.
  - eapply (tame_lift source_text _ (reader_enum v)); eauto.
  - unfold lift in E1.
    destruct (Iter.enum v (mkState (v_heap s) [])) as [it' st'| |] eqn:E2; try discriminate.
    injection E1 as <- <-. revert E.
    apply tame_vloop; [eapply enum_next; eauto | intros [k x]; apply Hb].
Qed.

End Loops.

Ltac tstep :=
  lazymatch goal with
  | |- tame (vbind _ _) => apply tame_bind; [|intros ?]
  | |- tame (vwhen _ _) => apply tame_when
  | |- tame (compile_or _ _ _) => apply tame_compile_or
  | |- tame (vret _) => apply tame_ret
  | |- tame (say _ _ _) => apply tame_err
  | |- tame (_err _ _ _) => apply tame_err
  | |- tame get_store => apply tame_get_store
  | |- tame get_enabled => apply tame_get_enabled
  | |- tame (is_dict _) => apply tame_is_dict
  | |- tame (is_list _) => apply tame_is_list
  | |- tame (has_key _ _ _) => apply tame_lift, reader_has_key
  | |- tame (item _ _ _) => apply tame_lift, reader_item
  | |- tame (lift _ (Py.get _ _)) => apply tame_lift, reader_get
  | |- tame (lift _ (Py.len _)) => apply tame_lift, reader_len
  | |- tame (lift _ (Py.eq _ _)) => apply tame_lift, reader_eq
  | |- tame (_check_json_pointer _ _ _ _) => apply tame_lift, reader_check_json_pointer
  | |- tame (vfor_each _ _) => apply tame_for_each; intros ?
  | |- tame (for_items _ _ _) => apply tame_for_items; intros ? ?
  | |- tame (for_enum _ _ _) => apply tame_for_enum; intros ? ?
  | |- tame (if _ then _ else _) => apply tame_if
  | |- tame (match ?v with VStr _ => _ | _ => _ end) => destruct v
  | |- tame (match ?v with Some _ => _ | None => _ end) => destruct v
  | |- tame (match ?v with VBool _ => _ | _ => _ end) => destruct v
  | |- tame (let _ := _ in _) => cbv zeta
  end.

Ltac topen :=
  unfold validate_schema_body, check_keyword_placement, check_type,
    _check_extended_validation_keywords, _check_object_validation,
    _check_array_validation, _check_numeric_validation, _check_string_validation,
    _check_composition_keywords, _check_primitive_schema, _check_choice_schema,
    _check_tuple_schema, _check_map_schema, _check_set_schema, _check_array_schema,
    check_element_schema, _check_object_schema, check_properties, wrong_keyword,
    schema_or, _check_union_type_item, type_string, _has_composition_keywords,
    _check_is_absolute_uri, _check_required_top_level_keywords, _check_uses,
    _check_offers.

Section Checks.

Context (source_text : option string) (rt : Runtime).
Context (allow_dollar extended : bool).
Context (composition_order validation_order : list string).
Context (doc : val).

Lemma tame_any_key (keys : list string) (obj : val) :
  tame (any_key source_text keys obj).
Proof. induction keys as [|k keys IH]; cbn [any_key]; repeat tstep. exact IH. Qed.


Lemma tame_has_composition_keywords (obj : val) :
  tame (_has_composition_keywords source_text composition_order obj).
Proof. apply tame_any_key. Qed.

Lemma tame_check_uses (uses : val) (path : string) :
  tame (_check_uses source_text extended uses path).
Proof. topen. repeat tstep. Qed.

Lemma tame_check_required (obj : val) (location : string) :
  tame (_check_required_top_level_keywords source_text obj location).
Proof. topen. repeat tstep. Qed.

Lemma tame_check_is_absolute_uri (value : val) (keyword_name location : string) :
  tame (_check_is_absolute_uri source_text value keyword_name location).
Proof. topen. repeat tstep. Qed.

Lemma tame_check_offers (offers : val) (path : string) :
  tame (_check_offers source_text doc offers path).
Proof. topen. repeat tstep. Qed.

Lemma tame_check_keyword_placement (obj : val) (path : string) :
  tame (check_keyword_placement source_text obj path).
Proof. topen. repeat tstep. Qed.

Section Recursive.

Variable rec : val -> bool -> string -> V unit.
Hypothesis Hrec : forall v b p, tame (rec v b p).

Lemma tame_check_composition_keywords (obj : val) (path : string) :
  tame (_check_composition_keywords source_text extended composition_order rec obj path).
Proof. topen. repeat first [apply Hrec | tstep]. Qed.

Lemma tame_check_extended_validation_keywords (obj : val) (path : string) :
  tame (_check_extended_validation_keywords source_text rt validation_order rec obj path).
Proof. topen. repeat first [apply Hrec | tstep]. Qed.

Lemma tame_check_type (schema_obj : val) (path : string) :
  tame (check_type source_text allow_dollar doc rec schema_obj path).
Proof. topen. repeat first [apply Hrec | tstep]. Qed.

Lemma tame_validate_schema_body (schema_obj : val) (is_root : bool) (path : string) :
  tame (validate_schema_body source_text rt allow_dollar extended composition_order
          validation_order doc rec schema_obj is_root path).
Proof.
  unfold validate_schema_body.
  repeat first [ apply tame_has_composition_keywords | apply tame_check_keyword_placement
               | apply tame_check_composition_keywords
               | apply tame_check_extended_validation_keywords
               | apply tame_check_type | tstep ].
Qed.

End Recursive.

Lemma tame_validate_schema (fuel : nat) (schema_obj : val) (is_root : bool)
    (path : string) :
  tame (_validate_schema source_text rt allow_dollar extended composition_order
          validation_order doc fuel schema_obj is_root path).
Proof.
  revert schema_obj is_root path.
  induction fuel as [|n IH]; intros schema_obj is_root path; cbn [_validate_schema].
  - intros s a s' E. discriminate.
  - now apply tame_validate_schema_body.
Qed.

Lemma tame_validate_schema_rec (fuel : nat) :
  forall v b p,
    tame (_validate_schema source_text rt allow_dollar extended composition_order
            validation_order doc fuel v b p).
Proof. intros. apply tame_validate_schema. Qed.

Lemma tame_validate_namespace (fuel : nat) (obj : val) (path : string) :
  tame (_validate_namespace source_text rt allow_dollar extended composition_order
          validation_order doc fuel obj path).
Proof.
  revert obj path.
  induction fuel as [|n IH]; intros obj path; cbn [_validate_namespace].
  - intros s a s' E. discriminate.
  - topen. repeat first [apply IH | apply tame_validate_schema | apply tame_any_key | tstep].
Qed.

Lemma tame_checks (fuel : nat) :
  tame (checks source_text rt allow_dollar extended composition_order validation_order
          doc fuel).
Proof.
  unfold checks. topen.
  repeat first [apply tame_validate_schema | apply tame_validate_namespace
               | apply tame_any_key | tstep].
Qed.

End Checks.

(** Every check is tame. *)
Ltac tsolve :=
  repeat first
    [ apply tame_validate_schema | apply tame_validate_namespace
    | apply tame_any_key | apply tame_has_composition_keywords
    | apply tame_check_keyword_placement | apply tame_check_uses
    | apply tame_check_required | apply tame_check_is_absolute_uri
    | apply tame_check_offers
    | apply tame_check_composition_keywords; apply tame_validate_schema_rec
    | apply tame_check_extended_validation_keywords; apply tame_validate_schema_rec
    | apply tame_check_type; apply tame_validate_schema_rec
    | tstep
    | progress topen ].

End Tame.

(** ** What a run without diagnostics has seen *)

Module Quiet.

Import SV Tame.


Lemma extends_same (s s' : vstate) :
  SVLogic.extends s s' -> v_errors s' = v_errors s -> s' = s.
Proof.
  destruct s, s'. unfold SVLogic.extends. cbn. intros (? & ? & _) ?. congruence.
Qed.

Lemma quiet_bind {A B} (m : V A) (k : A -> V B) (s : vstate) (b : B) :
  tame m -> (forall a, tame (k a)) -> vbind m k s = Ok b s ->
  exists a, m s = Ok a s /\ k a s = Ok b s.
Proof.
  intros Hm Hk E. unfold vbind in E.
  destruct (m s) as [a s1| |] eqn:Em; try discriminate.
  pose proof (Hm _ _ _ Em) as X1. pose proof (Hk _ _ _ _ E) as X2.
  assert (s1 = s) as ->; [|eauto].
  apply extends_same; [exact X1|].
  destruct X1 as (_ & _ & e1 & E1), X2 as (_ & _ & e2 & E2).
  rewrite E1, <- app_assoc in E2.
  rewrite <- (app_nil_r (v_errors s)) in E2 at 1.
  apply app_inv_head in E2. symmetry in E2. apply app_eq_nil in E2 as [-> _].
  now rewrite app_nil_r in E1.
Qed.

Lemma err_loud (source_text : option string) (message : msg) (location : string)
    (s : vstate) (u : unit) (P : Prop) :
  _err source_text message location s = Ok u s -> P.
Proof.
  unfold _err. intros [= _ E]. exfalso. destruct s as [h es en]. cbn in E.
  injection E as E. rewrite <- (app_nil_r es) in E at 2.
  apply app_inv_head in E. discriminate.
Qed.


Lemma loud {A} (a : A) (s : vstate) (x : report) (l : list report) (P : Prop) :
  Ok a (mkV (v_heap s) (v_errors s ++ x :: l) (v_enabled s)) = Ok a s -> P.
Proof.
  intros [= E]. exfalso. destruct s as [h es en]. cbn in E.
  injection E as E. rewrite <- (app_nil_r es) in E at 2.
  apply app_inv_head in E. discriminate.
Qed.

Lemma when_quiet (source_text : option string) (c : bool) (message : msg)
    (location : string) (s : vstate) (u : unit) :
  vwhen c (_err source_text message location) s = Ok u s -> c = false.
Proof. destruct c; [apply err_loud | reflexivity]. Qed.

Lemma when_say_quiet (source_text : option string) (c : bool) (t location : string)
    (s : vstate) (u : unit) :
  vwhen c (say source_text t location) s = Ok u s -> c = false.
Proof. apply when_quiet. Qed.

Lemma say_loud (source_text : option string) (t location : string)
    (s : vstate) (u : unit) (P : Prop) :
  say source_text t location s = Ok u s -> P.
Proof. apply err_loud. Qed.

Lemma has_key_ok (source_text : option string) (k : string) (v : val)
    (s s' : vstate) (b : bool) (d : pydict) :
  Py.as_dict (v_heap s) v = Some d ->
  has_key source_text k v s = Ok b s' -> b = Dict.mem d k.
Proof.
  intros Hd E. unfold has_key, lift in E.
  rewrite (has_key_dict (mkState (v_heap s) []) v d k Hd) in E. now injection E.
Qed.

Lemma item_ok (source_text : option string) (v : val) (k : string)
    (s s' : vstate) (a : val) :
  item source_text v k s = Ok a s' ->
  exists d, Py.as_dict (v_heap s) v = Some d /\ Dict.get d k = Some a.
Proof.
  unfold item, lift, Py.item, bind, get_heap, Py.lift_opt, ret, raise.
  cbn [st_heap]. destruct (Py.as_dict (v_heap s) v) as [d|]; [|discriminate].
  destruct (Dict.get d k) as [x|] eqn:Eg; [|discriminate]. intros [= <- _].
  exists d. split; [reflexivity | exact Eg].
Qed.

Lemma item_get (source_text : option string) (v : val) (k : string)
    (s s' : vstate) (a : val) (d : pydict) :
  Py.as_dict (v_heap s) v = Some d ->
  item source_text v k s = Ok a s' -> Dict.get d k = Some a.
Proof.
  intros Hd E. destruct (item_ok _ _ _ _ _ _ E) as (d' & Hd' & G). congruence.
Qed.

Lemma is_dict_ok (v : val) (s s' : vstate) (b : bool) :
  is_dict v s = Ok b s' -> b = Py.is_dict (v_heap s) v.
Proof. now intros [= <- _]. Qed.

Lemma is_list_ok (v : val) (s s' : vstate) (b : bool) :
  is_list v s = Ok b s' -> b = Py.is_list (v_heap s) v.
Proof. now intros [= <- _]. Qed.

(** [pointer] is a string that begins with [#] and whose segments
    lead from [doc] through objects to a value. *)
Definition resolves (h : heap) (doc pointer : val) : Prop :=
  exists p, pointer = VStr p /\ PyStr.startswith "#" p = true /\
            (p = "#" \/
             forall loc, Schema.check_parts h doc (tail (PyStr.split "/" p)) loc = None).

Lemma check_parts_loc (h : heap) (parts : list string) (cur : val) (loc loc' : string) :
  Schema.check_parts h cur parts loc = None -> Schema.check_parts h cur parts loc' = None.
Proof.
  revert cur. induction parts as [|p parts IH]; intros cur; cbn; [reflexivity|].
  destruct (Py.as_dict h cur) as [d|]; [|discriminate].
  destruct (Dict.get d (PyStr.unescape p)); [apply IH | discriminate].
Qed.

Lemma pointer_quiet (source_text : option string) (doc pointer : val) (path : string)
    (s : vstate) :
  _check_json_pointer source_text doc pointer path s = Ok tt s ->
  resolves (v_heap s) doc pointer.
Proof.
  unfold _check_json_pointer, lift, Schema._check_json_pointer, err, bind, get_heap, ret.
  cbn [st_heap st_errors].
  destruct pointer as [| | | |p|]; try (cbn; apply loud).
  destruct (PyStr.startswith "#" p) eqn:Eh; cbn [negb]; [|cbn; apply loud].
  destruct (String.eqb p "#") eqn:Ep.
  - intros _. apply String.eqb_eq in Ep. exists p. auto.
  - cbv beta. cbn [st_heap].
    destruct (Schema.check_parts (v_heap s) doc (tail (PyStr.split "/" p)) path) eqn:Ec;
      [cbn; apply loud|].
    intros _. exists p. split; [reflexivity|]. split; [exact Eh|]. right.
    intros loc. eapply check_parts_loc; eauto.
Qed.

Lemma vret_ok {A} (a b : A) (s s' : vstate) : vret a s = Ok b s' -> b = a.
Proof. now intros [= <- _]. Qed.

Lemma get_store_ok (h : heap) (s s' : vstate) : get_store s = Ok h s' -> h = v_heap s.
Proof. now intros [= <- _]. Qed.

(** A quiet loop has run its body quietly on every item. *)
Lemma vloop_quiet {A} (source_text : option string) (next : nat -> M (option A))
    (items : list A) (body : A -> V unit) (s : vstate) :
  (forall i, reader (next i)) -> (forall x, tame (body x)) ->
  (forall i, next i (mkState (v_heap s) []) = Ret (items !! i) (mkState (v_heap s) [])) ->
  forall rest i, (i + rest = List.length items)%nat ->
    vloop source_text next i rest body s = Ok tt s ->
    forall j x, (i <= j)%nat -> items !! j = Some x -> body x s = Ok tt s.
Proof.
  intros Hr Hb Hn. induction rest as [|r IH]; intros i Hi E j x Hj Hx.
  - apply lookup_lt_Some in Hx. lia.
  - cbn [vloop] in E.
    apply quiet_bind in E as (y & Ey & E);
      [|now apply tame_lift
       |intros [y|]; [apply tame_bind; [apply Hb | intros _; now apply tame_vloop]
                     |apply tame_ret]].
    unfold lift in Ey. rewrite Hn in Ey. injection Ey as <- _.
    assert (Hlt : (i < List.length items)%nat) by lia.
    destruct (lookup_lt_is_Some_2 items i Hlt) as [z Hz]. rewrite Hz in E.
    apply quiet_bind in E as ([] & Ez & E);
      [|apply Hb | intros _; now apply tame_vloop].
    destruct (decide (j = i)) as [->|Hne].
    + rewrite Hz in Hx. injection Hx as <-. exact Ez.
    + apply (IH (S i)) with (j := j); [lia | exact E | lia | exact Hx].
Qed.

Lemma lift_same {A} (source_text : option string) (m : M A) (s : vstate) (a : A) :
  m (mkState (v_heap s) []) = Ret a (mkState (v_heap s) []) ->
  lift source_text m s = Ok a s.
Proof.
  intros E. unfold lift. rewrite E. cbn. rewrite app_nil_r. now destruct s.
Qed.

Lemma for_items_quiet (source_text : option string) (v : val)
    (body : string -> val -> V unit) (s : vstate) :
  (forall k x, tame (body k x)) ->
  for_items source_text v body s = Ok tt s ->
  exists d, Py.as_dict (v_heap s) v = Some d /\
            forall k x, In (k, x) d -> body k x s = Ok tt s.
Proof.
  intros Hb E. unfold for_items, vbind in E.
  destruct (Py.as_dict (v_heap s) v) as [d|] eqn:Hd.
  2:{ unfold lift, Iter.items, bind, get_heap in E. cbn [st_heap] in E.
      destruct v; try discriminate. rewrite Hd in E. discriminate. }
  destruct (as_dict_inv _ _ _ Hd) as (a & -> & Ha).
  rewrite (lift_same source_text _ s (List.length d, Iter.dict_next a (List.length d)))
    in E.
  2:{ unfold Iter.items, bind, get_heap. cbn [st_heap]. now rewrite Hd. }
  cbn [fst snd] in E. exists d. split; [reflexivity|]. intros k x Hin.
  apply list_elem_of_In, list_elem_of_lookup_1 in Hin as [j Hj].
  apply (vloop_quiet source_text _ d (fun kv => body (fst kv) (snd kv)) s)
    with (rest := List.length d) (i := 0%nat) (j := j) (x := (k, x)) in E;
    [exact E | apply reader_dict_next | intros [? ?]; apply Hb
    | intros i; now apply Loops.dict_next_static | lia | lia | exact Hj].
Qed.


(** From a quiet run of [m ;+ k], the quiet runs of [m] and of [k]. *)
Ltac qsplit H a Hm :=
  apply quiet_bind in H; [destruct H as (a & Hm & H) | tsolve | intros ?; tsolve].

Section Checks.

Context (source_text : option string) (rt : Runtime).
Context (allow_dollar allow_import extended : bool).
Context (import_map : list (string * string)).
Context (composition_order validation_order : list string).
Context (doc : val).

(** A call of [validate] that leaves no diagnostic ends with a quiet
    run of the checks on the store as it then is. *)
Lemma validate_quiet (fuel : nat) (s s' : vstate) :
  validate source_text rt allow_dollar allow_import extended import_map
    composition_order validation_order doc fuel s = Ok tt s' ->
  v_errors s' = [] ->
  checks source_text rt allow_dollar extended composition_order validation_order
    doc fuel s' = Ok tt s'.
Proof.
  intros E He. unfold validate in E.
  unfold vbind at 1, reset_errors in E.
  unfold vbind at 1, is_dict, vbind at 1, get_store, vret in E. cbn [v_heap] in E.
  destruct (Py.is_dict (v_heap s) doc); cbn [negb] in E.
  2:{ injection E as <-. discriminate. }
  unfold vbind at 1 in E.
  destruct (lift _ _ _) as [[] s1| |] in E; try discriminate.
  unfold vbind at 1 in E.
  destruct (vwhen _ _ s1) as [[] s2| |] in E; try discriminate.
  pose proof (tame_checks _ _ _ _ _ _ _ _ _ _ _ E) as X.
  assert (s' = s2) as ->; [|exact E].
  apply extends_same; [exact X|].
  destruct X as (_ & _ & es & Ees). rewrite He in Ees.
  symmetry in Ees. apply app_eq_nil in Ees as [-> _]. exact He.
Qed.

Lemma absolute_uri_quiet (v : val) (keyword_name location : string) (s : vstate)
    (u : unit) :
  _check_is_absolute_uri source_text v keyword_name location s = Ok u s ->
  exists x, v = VStr x /\ Imports.ABSOLUTE_URI_REGEX x = true.
Proof.
  unfold _check_is_absolute_uri. destruct v; try apply say_loud.
  intros H. apply when_say_quiet, negb_false_iff in H. eauto.
Qed.

(** The key [k] of the dict [v]. *)
Ltac qkey H Hd k :=
  let b := fresh "b" in
  let Hb := fresh "Hb" in
  qsplit H b Hb; apply (has_key_ok _ _ _ _ _ _ _ Hd) in Hb; subst b;
  unfold Dict.mem in H.

Lemma checks_quiet (fuel : nat) (s : vstate) :
  checks source_text rt allow_dollar extended composition_order validation_order
    doc fuel s = Ok tt s ->
  exists d, Py.as_dict (v_heap s) doc = Some d /\
    (exists x, Dict.get d "$schema" = Some (VStr x) /\
               Imports.ABSOLUTE_URI_REGEX x = true) /\
    (exists x, Dict.get d "$id" = Some (VStr x) /\
               Imports.ABSOLUTE_URI_REGEX x = true) /\
    (forall v, Dict.get d "$uses" = Some v -> Py.is_list (v_heap s) v = true) /\
    (Dict.get d "type" = None \/ Dict.get d "$root" = None) /\
    (forall v, Dict.get d "type" = Some v ->
       _validate_schema source_text rt allow_dollar extended composition_order
         validation_order doc fuel doc true "#" s = Ok tt s) /\
    (forall v, Dict.get d "$root" = Some v -> resolves (v_heap s) doc v) /\
    (forall v, Dict.get d "definitions" = Some v ->
       _validate_namespace source_text rt allow_dollar extended composition_order
         validation_order doc fuel v "#/definitions" s = Ok tt s) /\
    (forall v, Dict.get d "$offers" = Some v -> Py.is_dict (v_heap s) v = true).
Proof.
  intros H. unfold checks in H.
  qsplit H u1 H1.
  unfold _check_required_top_level_keywords in H1.
  qsplit H1 b1 Hb1. qsplit H1 u2 Hw1. apply when_say_quiet in Hw1.
  apply negb_false_iff in Hw1. subst b1.
  qsplit H1 b2 Hb2. apply when_say_quiet, negb_false_iff in H1. subst b2.
  qsplit H b1 Hb1'. rewrite Hb1 in Hb1'. injection Hb1' as <-.
  qsplit H u3 H3. cbn [vwhen] in H3.
  qsplit H3 v1 Hv1. destruct (item_ok _ _ _ _ _ _ Hv1) as (d & Hd & Gs).
  apply absolute_uri_quiet in H3 as (x1 & -> & A1).
  exists d. split; [exact Hd|]. split; [eauto|].
  (* $id *)
  qkey H Hd "$id". qsplit H u4 H4.
  split.
  { destruct (Dict.get d "$id") as [v|] eqn:G.
    - cbn [vwhen] in H4. qsplit H4 v2 Hv2.
      apply (item_get _ _ _ _ _ _ _ Hd) in Hv2.
      apply absolute_uri_quiet in H4 as (x2 & -> & A2).
      rewrite Hv2 in G. injection G as <-. eauto.
    - apply (has_key_ok _ _ _ _ _ _ _ Hd) in Hb2. unfold Dict.mem in Hb2.
      rewrite G in Hb2. discriminate. }
  clear H4 u4.
  (* $uses *)
  qkey H Hd "$uses". qsplit H u4 H4.
  split.
  { intros v G. rewrite G in H4. cbn [vwhen] in H4. qsplit H4 v2 Hv2.
    apply (item_get _ _ _ _ _ _ _ Hd) in Hv2. assert (v2 = v) as -> by congruence.
    unfold _check_uses in H4. qsplit H4 l Hl. apply is_list_ok in Hl. subst l.
    destruct (Py.is_list (v_heap s) v); [reflexivity | exact (say_loud _ _ _ _ _ _ H4)]. }
  clear H4 u4.
  (* type and $root *)
  qkey H Hd "type". qsplit H both Hboth. qsplit H u4 H4.
  apply when_say_quiet in H4. subst both.
  split.
  { destruct (Dict.get d "type"); [|now left]. right.
    apply (has_key_ok _ _ _ _ _ _ _ Hd) in Hboth. unfold Dict.mem in Hboth.
    now destruct (Dict.get d "$root"). }
  clear Hboth.
  qkey H Hd "type". qsplit H u5 H5.
  split.
  { intros v G. rewrite G in H5. destruct u5. exact H5. }
  clear H5 u5.
  qkey H Hd "$root". qsplit H u5 H5.
  split.
  { intros v G. rewrite G in H5. cbn [vwhen] in H5. qsplit H5 v2 Hv2.
    apply (item_get _ _ _ _ _ _ _ Hd) in Hv2. assert (v2 = v) as -> by congruence.
    destruct u5. now apply pointer_quiet in H5. }
  clear H5 u5.
  qkey H Hd "definitions". qsplit H u5 H5.
  split.
  { intros v G. rewrite G in H5. cbn [vwhen] in H5. qsplit H5 v2 Hv2.
    apply (item_get _ _ _ _ _ _ _ Hd) in Hv2. assert (v2 = v) as -> by congruence.
    qsplit H5 b Hb. destruct b; cbn [negb] in H5; [|exact (say_loud _ _ _ _ _ _ H5)].
    destruct u5. exact H5. }
  clear H5 u5.
  qkey H Hd "$offers". qsplit H u5 H5.
  intros v G. rewrite G in H5. cbn [vwhen] in H5. qsplit H5 v2 Hv2.
  apply (item_get _ _ _ _ _ _ _ Hd) in Hv2. assert (v2 = v) as -> by congruence.
  unfold _check_offers in H5. qsplit H5 b Hb. apply is_dict_ok in Hb. subst b.
  destruct (Py.is_dict (v_heap s) v); [reflexivity | exact (say_loud _ _ _ _ _ _ H5)].
Qed.


(** What a quiet run of [_validate_schema] on the root has seen. *)
Lemma root_schema_quiet (fuel : nat) (s : vstate) (d : pydict) (t : val) :
  Py.as_dict (v_heap s) doc = Some d -> Dict.get d "type" = Some t ->
  _validate_schema source_text rt allow_dollar extended composition_order
    validation_order doc fuel doc true "#" s = Ok tt s ->
  match Dict.get d "name" with
  | Some n => exists x, n = VStr x /\ identifier allow_dollar x = true
  | None => Py.is_list (v_heap s) t = true
  end /\
  (forall a, Dict.get d "abstract" = Some a -> Py.is_bool a = true) /\
  (forall e, Dict.get d "$extends" = Some e -> resolves (v_heap s) doc e) /\
  Dict.get d "$ref" = None /\
  (Py.is_list (v_heap s) t = true \/ Py.is_dict (v_heap s) t = true \/
   exists n, t = VStr n /\ Types.recognized n = true).
Proof.
  intros Hd Gt H. destruct fuel as [|n]; [discriminate|].
  cbn [_validate_schema] in H. unfold validate_schema_body in H.
  qsplit H b Hb. apply is_dict_ok in Hb. rewrite (is_dict_as_dict _ _ _ Hd) in Hb.
  subst b. cbn [negb] in H.
  qsplit H u1 H1. clear H1 u1.
  qsplit H unnamed Hu.
  qkey Hu Hd "type". rewrite Gt in Hu. qkey Hu Hd "name".
  apply vret_ok in Hu. subst unnamed.
  qsplit H u1 H1. qkey H Hd "name". qsplit H u2 H2.
  split.
  { destruct (Dict.get d "name") as [nm|] eqn:Gn.
    - cbn [vwhen] in H2. qsplit H2 v Hv. apply (item_get _ _ _ _ _ _ _ Hd) in Hv.
      assert (v = nm) as -> by congruence.
      destruct nm; try exact (say_loud _ _ _ _ _ _ H2).
      apply when_say_quiet, negb_false_iff in H2. eauto.
    - cbn [negb vwhen] in H1. qsplit H1 v Hv. apply (item_get _ _ _ _ _ _ _ Hd) in Hv.
      assert (v = t) as -> by congruence.
      qsplit H1 l Hl. apply is_list_ok in Hl. subst l.
      apply when_say_quiet, negb_false_iff in H1. exact H1. }
  clear H1 u1 H2 u2.
  qkey H Hd "abstract". qsplit H u1 H1.
  split.
  { intros a G. rewrite G in H1. cbn [vwhen] in H1. qsplit H1 v Hv.
    apply (item_get _ _ _ _ _ _ _ Hd) in Hv. assert (v = a) as -> by congruence.
    apply when_say_quiet, negb_false_iff in H1. exact H1. }
  clear H1 u1.
  qkey H Hd "$extends". qsplit H u1 H1.
  split.
  { intros e G. rewrite G in H1. cbn [vwhen] in H1. qsplit H1 v Hv.
    apply (item_get _ _ _ _ _ _ _ Hd) in Hv. assert (v = e) as -> by congruence.
    destruct (Py.is_str e); [|exact (say_loud _ _ _ _ _ _ H1)].
    destruct u1. now apply pointer_quiet in H1. }
  clear H1 u1.
  qkey H Hd "type". rewrite Gt in H.
  qsplit H b Hb. apply vret_ok in Hb. subst b.
  qsplit H hc Hc. clear Hc. cbn [negb andb] in H.
  qkey H Hd "type". rewrite Gt in H.
  qkey H Hd "$ref".
  destruct (Dict.get d "$ref") eqn:Gr; [exact (say_loud _ _ _ _ _ _ H)|].
  split; [reflexivity|].
  qkey H Hd "$ref". rewrite Gr in H. qkey H Hd "type". rewrite Gt in H.
  qsplit H u1 H1. cbn [vwhen] in H1. unfold check_type in H1.
  qsplit H1 v Hv. apply (item_get _ _ _ _ _ _ _ Hd) in Hv.
  assert (v = t) as -> by congruence.
  qsplit H1 h Hh. apply get_store_ok in Hh. subst h.
  destruct (Py.is_list (v_heap s) t); [now left|].
  destruct (Py.is_dict (v_heap s) t); [now right; left|].
  right. right. destruct t; try exact (say_loud _ _ _ _ _ _ H1).
  destruct (Types.recognized s0) eqn:Er; [eauto|].
  exact (say_loud _ _ _ _ _ _ H1).
Qed.

(** What a quiet run of [_validate_namespace] has seen: every entry
    of the namespace is an object. *)
Lemma namespace_quiet (fuel : nat) (s : vstate) (v : val) (path : string) :
  _validate_namespace source_text rt allow_dollar extended composition_order
    validation_order doc fuel v path s = Ok tt s ->
  exists ns, Py.as_dict (v_heap s) v = Some ns /\
             forall k x, In (k, x) ns -> Py.is_dict (v_heap s) x = true.
Proof.
  intros H. destruct fuel as [|n]; [discriminate|].
  cbn [_validate_namespace] in H.
  qsplit H b Hb. apply is_dict_ok in Hb. subst b.
  destruct (Py.is_dict (v_heap s) v); cbn [negb] in H;
    [|exact (say_loud _ _ _ _ _ _ H)].
  apply for_items_quiet in H as (ns & Hns & Hall); [|intros; tsolve].
  exists ns. split; [exact Hns|]. intros k x Hin. specialize (Hall k x Hin).
  cbv zeta in Hall. qsplit Hall vd Hvd. apply is_dict_ok in Hvd. subst vd.
  destruct (Py.is_dict (v_heap s) x); [reflexivity|].
  qsplit Hall isch Hsc. apply vret_ok in Hsc. subst isch. cbn [negb] in Hall.
  exact (say_loud _ _ _ _ _ _ Hall).
Qed.

End Checks.

End Quiet.

(** X13.  What an accepted schema document looks like.  Whenever
    [validate] returns and leaves [self.errors] empty, with any
    settings, the document (as it is afterwards, imports expanded) is
    an object with these properties: [$schema] and [$id] are present
    and are strings that match the absolute-URI pattern; [$uses], if
    present, is an array; [type] and [$root] are not both present;
    [$root], if present, is a string that begins with [#] and leads
    through objects of the document to a value; every entry of
    [definitions] is an object; [$offers] is an object.  When the root
    has a [type]: [name] is an identifier, and may be missing only
    beside a type union; [abstract] is a Boolean; [$extends] is a
    pointer that resolves; there is no [$ref]; and the type is an
    array, an object, or the name of a primitive or compound type. *)
Theorem accepted_document_is_well_formed (source_text : option string) (rt : Runtime)
    (allow_dollar allow_import extended : bool) (import_map : list (string * string))
    (composition_order validation_order : list string) (doc : val) (fuel : nat)
    (s s' : SV.vstate) :
  SV.validate source_text rt allow_dollar allow_import extended import_map
    composition_order validation_order doc fuel s = SV.Ok tt s' ->
  SV.v_errors s' = [] ->
  let h := SV.v_heap s' in
  exists d, Py.as_dict h doc = Some d /\
    (exists x, Dict.get d "$schema" = Some (VStr x) /\
               Imports.ABSOLUTE_URI_REGEX x = true) /\
    (exists x, Dict.get d "$id" = Some (VStr x) /\
               Imports.ABSOLUTE_URI_REGEX x = true) /\
    (forall v, Dict.get d "$uses" = Some v -> Py.is_list h v = true) /\
    (Dict.get d "type" = None \/ Dict.get d "$root" = None) /\
    (forall v, Dict.get d "$root" = Some v -> Quiet.resolves h doc v) /\
    (forall v, Dict.get d "definitions" = Some v ->
       exists ns, Py.as_dict h v = Some ns /\
                  forall k x, In (k, x) ns -> Py.is_dict h x = true) /\
    (forall v, Dict.get d "$offers" = Some v -> Py.is_dict h v = true) /\
    (forall t, Dict.get d "type" = Some t ->
       match Dict.get d "name" with
       | Some n => exists x, n = VStr x /\ SV.identifier allow_dollar x = true
       | None => Py.is_list h t = true
       end /\
       (forall a, Dict.get d "abstract" = Some a -> Py.is_bool a = true) /\
       (forall e, Dict.get d "$extends" = Some e -> Quiet.resolves h doc e) /\
       Dict.get d "$ref" = None /\
       (Py.is_list h t = true \/ Py.is_dict h t = true \/
        exists n, t = VStr n /\ Types.recognized n = true)).
Proof.
  intros E He h.
  pose proof (Quiet.validate_quiet _ _ _ _ _ _ _ _ _ _ _ _ E He) as Hc.
  apply Quiet.checks_quiet in Hc
    as (d & Hd & Hs & Hi & Hu & Hb & Ht & Hr & Hn & Ho).
  exists d. repeat (split; [assumption|]). split; [|split; [exact Ho|]].
  - intros v G. exact (Quiet.namespace_quiet _ _ _ _ _ _ _ _ _ _ _ (Hn v G)).
  - intros t G. exact (Quiet.root_schema_quiet _ _ _ _ _ _ _ _ _ _ _ Hd G (Ht t G)).
Qed.

(** A document that the validator accepts: an object type named
    [Point] with one property and a definition. *)
Lemma accepted_document_is_well_formed_witness :
  let doc := JObj [("$schema", JStr "https://json-structure.org/meta/core/v0/#");
                   ("$id", JStr "https://example.com/point.json");
                   ("name", JStr "Point");
                   ("type", JStr "object");
                   ("properties", JObj [("x", JObj [("type", JStr "number")])]);
                   ("definitions",
                    JObj [("Unit", JObj [("type", JStr "string")])])] in
  let root := fst (loaded doc) in
  let s := SV.mkV (st_heap (snd (loaded doc))) [] ∅ in
  SV.validate None offline_runtime false false false [] SV.COMPOSITION_KEYWORDS
    SV.all_validation_keywords root 5 s = SV.Ok tt s /\
  exists d, Py.as_dict (SV.v_heap s) root = Some d /\
            Dict.get d "$ref" = None /\
            Dict.get d "name" = Some (VStr "Point").
Proof.
  cbv zeta.
  assert (E : SV.validate None offline_runtime false false false [] SV.COMPOSITION_KEYWORDS
    SV.all_validation_keywords
    (fst (loaded (JObj [("$schema", JStr "https://json-structure.org/meta/core/v0/#");
                   ("$id", JStr "https://example.com/point.json");
                   ("name", JStr "Point");
                   ("type", JStr "object");
                   ("properties", JObj [("x", JObj [("type", JStr "number")])]);
                   ("definitions",
                    JObj [("Unit", JObj [("type", JStr "string")])])]))) 5
    (SV.mkV (st_heap (snd (loaded (JObj [("$schema", JStr "https://json-structure.org/meta/core/v0/#");
                   ("$id", JStr "https://example.com/point.json");
                   ("name", JStr "Point");
                   ("type", JStr "object");
                   ("properties", JObj [("x", JObj [("type", JStr "number")])]);
                   ("definitions",
                    JObj [("Unit", JObj [("type", JStr "string")])])])))) [] ∅)
    = SV.Ok tt (SV.mkV (st_heap (snd (loaded (JObj [("$schema", JStr "https://json-structure.org/meta/core/v0/#");
                   ("$id", JStr "https://example.com/point.json");
                   ("name", JStr "Point");
                   ("type", JStr "object");
                   ("properties", JObj [("x", JObj [("type", JStr "number")])]);
                   ("definitions",
                    JObj [("Unit", JObj [("type", JStr "string")])])])))) [] ∅)).
  { vm_compute. reflexivity. }
  split; [exact E|].
  destruct (accepted_document_is_well_formed _ _ _ _ _ _ _ _ _ _ _ _ E eq_refl)
    as (d & Hd & _ & _ & _ & _ & _ & _ & _ & Ht).
  exists d. split; [exact Hd|].
  cbn [SV.v_heap] in Hd. vm_compute in Hd. injection Hd as <-.
  destruct (Ht (VStr "object") eq_refl) as (_ & _ & _ & Hr & _).
  split; [exact Hr | reflexivity].
Defined.

(** ** Positions in the source text *)

Module Locate.

Import SV.

Lemma find_at_absent (pattern text : string) (i : nat) :
  PyStr.contains pattern text = false -> find_at pattern text i = None.
Proof.
  revert i. induction text as [|c t IH]; intros i H; cbn [find_at];
    cbn [PyStr.contains] in H; apply orb_false_iff in H as [-> H].
  - reflexivity.
  - now apply IH.
Qed.

(** The first part of [pointer[1:].split("/")] is empty for ["#"] and
    for every pointer that begins with ["#/"]. *)
Lemma first_part (pointer : string) :
  pointer = "#" \/ PyStr.startswith "#/" pointer = true ->
  exists parts, PyStr.split "/" (skip 1 pointer) = "" :: parts.
Proof.
  intros [->|H]; [now exists []|].
  destruct pointer as [|c [|c' t]]; cbn [PyStr.startswith] in H;
    [discriminate | rewrite andb_false_r in H; discriminate |].
  apply andb_prop in H as [_ H].
  apply andb_prop in H as [H _]. apply Ascii.eqb_eq in H. subst c'.
  cbn [skip PyStr.split]. rewrite Ascii.eqb_refl. eauto.
Qed.

End Locate.

(** X14.  [_locate] finds a position only in a source text that
    contains two double quotes next to each other.  For the pointer
    ["#"] and every pointer that begins with ["#/"], the first of the
    parts that [_locate] searches for is the empty string between
    quotes; so on a text without an empty string literal the result is
    [None], and [_err] reports "line/column unknown", whatever the
    pointer leads to. *)
Theorem locate_needs_an_empty_string (text pointer : string) :
  pointer = "#" \/ PyStr.startswith "#/" pointer = true ->
  PyStr.contains (SV.quote +:+ SV.quote) text = false ->
  SV._locate (Some text) pointer = None /\
  forall message s,
    SV._err (Some text) message pointer s =
    SV.Ok tt (SV.mkV (SV.v_heap s)
                (SV.v_errors s ++ [SV.Report message pointer None])
                (SV.v_enabled s)).
Proof.
  intros Hp Hq.
  assert (E : SV._locate (Some text) pointer = None).
  { unfold SV._locate.
    destruct (String.eqb text "" || negb (PyStr.startswith "#" pointer));
      [reflexivity|].
    destruct (Locate.first_part pointer Hp) as [parts ->].
    cbn [SV.locate_parts]. unfold SV.find. cbn [SV.skip].
    change (SV.quote +:+ PyStr.unescape "" +:+ SV.quote) with (SV.quote +:+ SV.quote).
    now rewrite (Locate.find_at_absent _ _ _ Hq). }
  split; [exact E|]. intros message s. unfold SV._err. now rewrite E.
Qed.

(** A schema text with the key [type] and the pointer to it. *)
Lemma locate_needs_an_empty_string_witness :
  let text := "{" +:+ SV.quote +:+ "type" +:+ SV.quote +:+ ": " +:+
              SV.quote +:+ "colour" +:+ SV.quote +:+ "}" in
  SV._locate (Some text) "#/type" = None.
Proof.
  cbv zeta. apply locate_needs_an_empty_string.
  - right. reflexivity.
  - vm_compute. reflexivity.
Defined.

(** ** A document that declares nothing *)

Module Bare.

Import SV.

Lemma has_key_run (source_text : option string) (k : string) (v : val)
    (s : vstate) (d : pydict) :
  Py.as_dict (v_heap s) v = Some d ->
  has_key source_text k v s = Ok (Dict.mem d k) s.
Proof.
  intros Hd. apply Quiet.lift_same.
  exact (has_key_dict (mkState (v_heap s) []) v d k Hd).
Qed.

Lemma item_run (source_text : option string) (k : string) (v a : val)
    (s : vstate) (d : pydict) :
  Py.as_dict (v_heap s) v = Some d -> Dict.get d k = Some a ->
  item source_text v k s = Ok a s.
Proof.
  intros Hd G. apply Quiet.lift_same.
  exact (item_dict (mkState (v_heap s) []) v a d k Hd G).
Qed.

(** Import expansion of a document without import keys. *)
Lemma no_imports (allow_import : bool) (fetch : string -> M val) (fuel : nat)
    (obj : val) (path : string) (s : state) :
  Walk.import_free (st_heap s) -> Walk.ordered (st_heap s) ->
  (Walk.rank obj < fuel)%nat ->
  Imports._process_imports allow_import fetch fuel obj path s = Ret tt s.
Proof.
  intros Hfree Hord Hr.
  destruct (Walk.walk_returns allow_import fetch (st_heap s) (eq s))
    with (fuel := fuel) (obj := obj) (path := path) (s := s)
    as (s' & E & <-); auto.
  - now intros s0 <-.
  - intros o p d s0 <- Ed. exists s. split; [|reflexivity].
    destruct o as [| | | | |a]; try discriminate. cbn [Py.deref] in Ed.
    apply Walk.keys_other with (d := d).
    + intros key Hk. exact (Hfree a d key Ed Hk).
    + apply Walk.get_key_in.
Qed.

End Bare.

(** X15.  [validate] does not ask a document to declare anything.
    Without [extended], a document object with a [$schema] and an
    [$id] that match the absolute-URI pattern and without the keys
    [$uses], [type], [$root], [definitions] and [$offers] is accepted:
    [validate] returns, [self.errors] is empty and the store is as it
    was, whatever other keys the document has, provided no object of
    the store has an import key. *)
Theorem document_without_type_is_accepted (source_text : option string)
    (rt : Runtime) (allow_dollar allow_import : bool)
    (import_map : list (string * string))
    (composition_order validation_order : list string) (doc : val) (fuel : nat)
    (s : SV.vstate) (d : pydict) (schema id : string) :
  Walk.import_free (SV.v_heap s) ->
  Walk.ordered (SV.v_heap s) ->
  (Walk.rank doc < fuel)%nat ->
  Py.as_dict (SV.v_heap s) doc = Some d ->
  Dict.get d "$schema" = Some (VStr schema) ->
  Imports.ABSOLUTE_URI_REGEX schema = true ->
  Dict.get d "$id" = Some (VStr id) ->
  Imports.ABSOLUTE_URI_REGEX id = true ->
  (forall k, In k ["$uses"; "type"; "$root"; "definitions"; "$offers"] ->
             Dict.get d k = None) ->
  SV.validate source_text rt allow_dollar allow_import false import_map
    composition_order validation_order doc fuel s =
  SV.Ok tt (SV.mkV (SV.v_heap s) [] (SV.v_enabled s)).
Proof.
  intros Hfree Hord Hr Hd Gs As Gi Ai Hno.
  destruct s as [h es en]. cbn [SV.v_heap SV.v_enabled] in *.
  unfold SV.validate. unfold SV.vbind at 1, SV.reset_errors.
  cbn [SV.v_heap SV.v_enabled].
  unfold SV.vbind at 1, SV.is_dict, SV.vbind at 1, SV.get_store, SV.vret.
  cbn [SV.v_heap]. rewrite (is_dict_as_dict _ _ _ Hd). cbn [negb].
  set (s0 := SV.mkV h [] en).
  assert (Hd0 : Py.as_dict (SV.v_heap s0) doc = Some d) by exact Hd.
  unfold SV.vbind at 1.
  rewrite (Quiet.lift_same source_text _ s0 tt)
    by (apply Bare.no_imports; assumption).
  assert (Gu : Dict.get d "$uses" = None) by (apply Hno; cbn; tauto).
  assert (Gt : Dict.get d "type" = None) by (apply Hno; cbn; tauto).
  assert (Gr : Dict.get d "$root" = None) by (apply Hno; cbn; tauto).
  assert (Gd : Dict.get d "definitions" = None) by (apply Hno; cbn; tauto).
  assert (Go : Dict.get d "$offers" = None) by (apply Hno; cbn; tauto).
  unfold SV.vbind at 1, SV.vwhen, SV.vret.
  unfold SV.checks, SV._check_required_top_level_keywords, SV.vbind.
  repeat (first [ rewrite (Bare.has_key_run source_text _ doc s0 d Hd0)
                | rewrite (Bare.item_run source_text _ doc _ s0 d Hd0 Gs)
                | rewrite (Bare.item_run source_text _ doc _ s0 d Hd0 Gi) ];
          unfold Dict.mem, SV._check_is_absolute_uri;
          rewrite ?Gs, ?Gi, ?Gu, ?Gt, ?Gr, ?Gd, ?Go, ?As, ?Ai;
          cbn [negb SV.vwhen SV.vret]).
  reflexivity.
Qed.

(** A document with [$schema], [$id] and a key the validator does not
    know. *)
Lemma document_without_type_is_accepted_witness :
  let doc := JObj [("$schema", JStr "https://json-structure.org/meta/core/v0/#");
                   ("$id", JStr "https://example.com/empty.json");
                   ("properties", JObj [("x", JInt 1)])] in
  let root := fst (loaded doc) in
  let s := SV.mkV (st_heap (snd (loaded doc))) [] ∅ in
  SV.validate None offline_runtime false true false [] SV.COMPOSITION_KEYWORDS
    SV.all_validation_keywords root 4 s = SV.Ok tt s.
Proof.
  cbv zeta.
  eapply (document_without_type_is_accepted None offline_runtime false true []
            SV.COMPOSITION_KEYWORDS SV.all_validation_keywords _ 4 (SV.mkV _ [] ∅)).
  - apply Walk.import_freeb_import_free. vm_compute. reflexivity.
  - apply Walk.orderedb_ordered. vm_compute. reflexivity.
  - vm_compute. lia.
  - reflexivity.
  - reflexivity.
  - reflexivity.
  - reflexivity.
  - reflexivity.
  - intros k Hk. cbn in Hk.
    repeat (destruct Hk as [<-|Hk]; [reflexivity|]). destruct Hk.
Defined.

(** ** The size keywords of objects and maps *)

Module Twice.

Import SV.

Lemma vbind_ok {A B} (m : V A) (k : A -> V B) (s s' : vstate) (b : B) :
  vbind m k s = Ok b s' -> exists a s1, m s = Ok a s1 /\ k a s1 = Ok b s'.
Proof.
  unfold vbind. destruct (m s) as [a s1| |]; try discriminate. eauto.
Qed.

(** [r] occurs at least [n] times in [xs]. *)
Fixpoint occurs (r : report) (n : nat) (xs : list report) : Prop :=
  match n with
  | O => True
  | S n' => exists e1 e2, xs = e1 ++ r :: e2 /\ occurs r n' e2
  end.

Lemma occurs_app (r : report) (n : nat) (x xs : list report) :
  occurs r n xs -> occurs r n (x ++ xs).
Proof.
  destruct n as [|n]; [trivial|]. intros (e1 & e2 & -> & H).
  exists (x ++ e1), e2. now rewrite <- app_assoc.
Qed.

(** A loop whose body reports [r] at the key [key] reports it as
    often as the key is in the list. *)
Lemma loop_occurs (body : string -> V unit) (key : string) (r : report) (h : heap) :
  (forall k, Tame.tame (body k)) ->
  (forall s, v_heap s = h ->
     body key s = Ok tt (mkV (v_heap s) (v_errors s ++ [r]) (v_enabled s))) ->
  forall ks s s', v_heap s = h -> vfor_each ks body s = Ok tt s' ->
    exists xs, v_errors s' = v_errors s ++ xs /\
               occurs r (count_occ string_dec ks key) xs.
Proof.
  intros Hany Hbad. induction ks as [|k ks IH]; intros s s' Hs E.
  - injection E as <-. exists []. now rewrite app_nil_r.
  - cbn [vfor_each] in E. apply vbind_ok in E as ([] & s1 & E1 & E).
    destruct (Hany _ _ _ _ E1) as (Hh & _ & x & Hx).
    destruct (IH s1 s' ltac:(congruence) E) as (xs & Hxs & Ho).
    exists (x ++ xs). split; [now rewrite Hxs, Hx, app_assoc|].
    cbn [count_occ]. destruct (string_dec k key) as [->|Hne].
    + rewrite (Hbad s Hs) in E1. injection E1 as E1. rewrite <- E1 in Hx.
      cbn [v_errors] in Hx. apply app_inv_head in Hx. subst x.
      exists [], xs. auto.
    + now apply occurs_app.
Qed.

End Twice.

(** X16.  A bad size keyword is reported twice.  The loop of
    [_check_object_validation] goes over the two keywords of the type
    and then over all four size keywords, so it meets the two of the
    type twice: when [minProperties] or [maxProperties] of an object
    schema ([minEntries] or [maxEntries] of a map schema) is not a
    non-negative integer, the function returns and [self.errors] holds
    the same message for it two times more than before.  It returns
    when [re.compile] returns or raises [re.error] on the patterns of
    the store; another exception of [re.compile], on a key of
    [patternProperties] or [patternKeys], leaves the function after
    the loop over the size keywords. *)
Theorem bad_size_keyword_is_reported_twice (source_text : option string)
    (rt : Runtime) (allow_dollar extended : bool)
    (composition_order validation_order : list string) (doc : val) (fuel : nat)
    (obj : val) (path type_name : string) (s : SV.vstate) (d : pydict)
    (key : string) (v : val) :
  Walk.ordered (SV.v_heap s) ->
  SVLogic.patterns_ok rt (SV.v_heap s) ->
  Py.as_dict (SV.v_heap s) obj = Some d ->
  (Walk.rank obj <= fuel)%nat ->
  key = (if String.eqb type_name "map" then "minEntries" else "minProperties") \/
  key = (if String.eqb type_name "map" then "maxEntries" else "maxProperties") ->
  Dict.get d key = Some v ->
  SV.not_natural v = true ->
  let location := path +:+ "/" +:+ key in
  let r := SV.Report (SV.Text ("'" +:+ key +:+ "' must be a non-negative integer."))
             location (SV._locate source_text location) in
  exists s' e1 e2 e3,
    SV._check_object_validation source_text rt
      (SV._validate_schema source_text rt allow_dollar extended composition_order
         validation_order doc fuel)
      obj path type_name s = SV.Ok tt s' /\
    SV.v_errors s' = SV.v_errors s ++ e1 ++ [r] ++ e2 ++ [r] ++ e3.
Proof.
  intros Hord Hpat Hd Hr Hkey G Hn location r.
  destruct (SVLogic.holds_check_object_validation source_text rt (SV.v_heap s) Hord
              _ fuel
              (SVLogic.holds_validate_schema source_text rt allow_dollar extended
                 composition_order validation_order doc (SV.v_heap s) Hord
                 (fun _ => Hpat) fuel)
              obj path type_name Hpat (is_dict_as_dict _ _ _ Hd) Hr s eq_refl)
    as ([] & s' & E & _ & _).
  exists s'. pose proof E as E0.
  unfold SV._check_object_validation in E. cbv zeta in E.
  apply Twice.vbind_ok in E as ([] & s6 & E & Erest).
  assert (Xrest : SVLogic.extends s6 s').
  { revert Erest. apply Tame.tame_bind; [|intros ?]; Tame.tsolve. }
  clear Erest.
  match type of E with context [SV.vfor_each _ ?b] => set (body := b) in E end.
  assert (Hany : forall k, Tame.tame (body k)).
  { intros k. subst body. cbv beta. Tame.tsolve. }
  assert (Hbad : forall s1, SV.v_heap s1 = SV.v_heap s ->
            body key s1 = SV.Ok tt (SV.mkV (SV.v_heap s1) (SV.v_errors s1 ++ [r])
                                      (SV.v_enabled s1))).
  { intros s1 H1. assert (Hd1 : Py.as_dict (SV.v_heap s1) obj = Some d) by now rewrite H1.
    subst body. cbv beta. unfold SV.vbind at 1.
    rewrite (Bare.has_key_run source_text key obj s1 d Hd1).
    unfold Dict.mem. rewrite G. cbn [SV.vwhen].
    assert (C1 : (type_name =? "map")%string &&
                 existsb (String.eqb key) ["minProperties"; "maxProperties"] = false).
    { destruct Hkey as [->| ->]; destruct (String.eqb type_name "map");
        reflexivity. }
    assert (C2 : (type_name =? "object")%string &&
                 existsb (String.eqb key) ["minEntries"; "maxEntries"] = false).
    { destruct Hkey as [->| ->]; destruct (String.eqb type_name "map") eqn:Em;
        try (apply andb_false_r).
      all: apply String.eqb_eq in Em; subst type_name; reflexivity. }
    rewrite C1, C2. unfold SV.vbind at 1. cbn [SV.vwhen SV.vret].
    unfold SV.vbind at 1.
    rewrite (Bare.item_run source_text key obj v s1 d Hd1 G). rewrite Hn.
    reflexivity. }
  clearbody body.
  destruct (Twice.loop_occurs body key r (SV.v_heap s) Hany Hbad _ s s6 eq_refl E)
    as (xs & Hxs & Ho).
  assert (H2 : Twice.occurs r 2 xs).
  { revert Ho. destruct Hkey as [->| ->]; destruct (String.eqb type_name "map");
      exact (fun H => H). }
  destruct H2 as (e1 & ys & -> & e2 & e3 & -> & _).
  destruct Xrest as (_ & _ & xr & Hxr).
  exists e1, e2, (e3 ++ xr). split; [exact E0|].
  rewrite Hxr, Hxs.
  repeat first [rewrite <- app_assoc | rewrite <- app_comm_cons]. reflexivity.
Qed.

(** An object schema whose [minProperties] is [-1]. *)
Lemma bad_size_keyword_is_reported_twice_witness :
  let schema := JObj [("type", JStr "object"); ("minProperties", JInt (-1))] in
  let obj := fst (loaded schema) in
  let s := SV.mkV (st_heap (snd (loaded schema))) [] ∅ in
  let r := SV.Report (SV.Text "'minProperties' must be a non-negative integer.")
             "#/minProperties" None in
  exists s' e1 e2 e3,
    SV._check_object_validation None offline_runtime
      (SV._validate_schema None offline_runtime false true SV.COMPOSITION_KEYWORDS
         SV.all_validation_keywords obj 3)
      obj "#" "object" s = SV.Ok tt s' /\
    SV.v_errors s' = SV.v_errors s ++ e1 ++ [r] ++ e2 ++ [r] ++ e3.
Proof.
  cbv zeta.
  eapply (bad_size_keyword_is_reported_twice None offline_runtime false true
            SV.COMPOSITION_KEYWORDS SV.all_validation_keywords _ 3 _ "#" "object"
            (SV.mkV _ [] ∅) _ "minProperties" (VInt (-1))).
  - apply Walk.orderedb_ordered. vm_compute. reflexivity.
  - intros v d _. split; intros; right; reflexivity.
  - reflexivity.
  - vm_compute. lia.
  - left. reflexivity.
  - reflexivity.
  - reflexivity.
Defined.
